(* ===== verification/_CoqProject ===== *)
-Q . S2P
Prelude.v
CLib.v
Histogram.v
Kernel.v
IrqOff.v
NoSched.v
RunqLat.v
PageFlags.v
PageParse.v
PageHash.v
PageRange.v
PageWalk.v
PageMain.v
SlabAttr.v
SlabLink.v
SlabReport.v
SlabMain.v
PgScan.v
PageOwner.v
Leet.v
Pagemap.v
CDouble.v
Fincore.v
CBytes.v
Calls.v
Rdma.v
RdmaSafe.v
RdmaNet.v
Namespace.v
NsBarrier.v
Smemcap.v
Pcimem.v
ShowPci.v
GetDelays.v
RunDelay.v
AvgLat.v
Ftools.v
Edu.v
Taskinfo.v
LockThreads.v
Chrdev.v
Futex.v
Kvm.v
Deferred.v
Hrtimer.v
Wque.v
SysWq.v
Threadsnoop.v
Uio.v
Shm.v
Samples.v
KSamples.v
KThread.v
