(* ===== verification/Prelude.v ===== *)
(** * Verification of the uio_linux_sample tools and kernel modules

    The repository holds Linux tools and kernel modules that look at memory,
    page caches, slabs and scheduling latency.  They are independent programs;
    this library models the ones that carry logic of their own and proves what
    makes them correct.

    ** Conventions

    C code that can fail is a value of [res] (below): [Done], [Die] for leaving
    through [exit], [fatal] or an assertion, [Wild] for undefined behaviour.  A
    w-bit integer is a [Z] with its wrap-around written out ([u32], [u64],
    [i32], [i64]); an array is a list whose accesses are checked ([aget],
    [aset], [awrite]); a struct is a record with the update notation
    [r <| f := v |>]; static variables are fields of a state that is passed on.
    Loops over data are structural; loops with a condition are [loop] with an
    amount of fuel that is shown to be enough where the loop ends.  What the
    kernel, a file or a system call answers is an argument; where documented
    behaviour is relied on it is a class or a named hypothesis.

    ** Shared files

    - [Prelude]: outcomes, integers, arrays, loops, sums, tactics.
    - [CLib]: strings, [printf] pieces, [strto*], [strcmp], [fgets], numerals.
    - [CDouble]: binary64 numbers and [%.kf].
    - [CBytes]: integers and fields stored as bytes.
    - [Calls]: programs whose effects are calls: trees with a node per call, the
      world on the other side (which calls are proper, which answers may come),
      and [wp], which holds when the program misuses nothing whatever is answered.
    - [Histogram]: [histogram_show], copied in the three trace modules.
    - [Kernel]: what the trace modules see of the kernel; stack capture.

    ** page-types (mem/vm/page-types.c)

    [PageFlags] the flag words and their names, [PageParse] the options,
    [PageHash] the open-addressing table of counters, [PageRange] the listings
    and the idle bitmap, [PageWalk] the walks over physical ranges, areas and
    processes, [PageMain] the page cache of files and [main].  Shown: no command
    line with one [-p] makes it index outside an array; a physical walk of an
    unchanging system counts exactly the pages that pass the filters; the table
    implements a histogram and fails only when full; listings lose nothing;
    names, letters and option forms round trip; the walks end.

    ** slabinfo (mem/vm/slabinfo.c)

    [SlabAttr] attribute files, sizes and NUMA lists, [SlabLink] sorting,
    aliases and renaming, [SlabReport] what is printed and set for a slab and
    the totals, [SlabMain] the directory, the output loop and [main].  Shown:
    the listing as a whole is the linked, renamed, sorted table cut at [-N]; the
    sort sorts (and which option combination does not); sizes fit their buffer
    except in one case; totals are sums with true bounds; debug settings.

    ** Kernel modules

    - [IrqOff] (trace/trace-irqoff), [NoSched] (trace/trace-noschedule),
      [RunqLat] (trace/runqlat): timers, probes, proc files, loading.  Shown:
      over any sequence of interrupts, scheduler events and writes the per-CPU
      records stay well formed, no access leaves its array, and the proc files
      show what was recorded; recording refines an abstract log; which calls
      each failing load makes.
    - [PgScan] (kmem/pgcache_scan): the list of inodes ordered by cached pages
      with its lock.  Shown: a write to the setting rebuilds the list, every
      node once, largest first, and prints its head; with nothing to list it
      releases a lock it never took.
    - [AvgLat] (tgid_avglat): what the average is made of, and when the module
      divides by zero.
    - [Edu] (qemu_pci/edu_driver.c): a seek, a write and a read reach a register;
      what loading and unloading leave behind.
    - [Taskinfo] (taskinfo): the listing of a thread group over its linked nodes;
      each thread once, the references that are kept, the state names.
    - [Chrdev] (lock/cdev_mutex, lock/cdev_semaphore, lock/rwsem, wakeup): loading
      takes back what it did on every failure and unloading everything; the wait
      queue lets no unpaid read pass.
    - [LockThreads] (lock/mutex, lock/semaphore): two threads and a counter as
      interleaved programs: exclusion, no lost increment, unloading completes.

    - [Hrtimer], [Wque], [SysWq] (hrtimer, workqueue; what they share in [Deferred]):
      timer or keyboard interrupt, worker and module as one system; the timer's
      rounds go on one at a time, and what runs when a module is gone.
    - [KThread] (kthread, kmem): a thread that nobody kills is stopped by unloading;
      the ways in which unloading meets a thread or a cache that is gone.
    - [KSamples] (percpu, kprobe): a life of the per-CPU module with all it prints;
      the probe.

    ** Programs of several processes

    - [Rdma] (rdma/rdma_ex.c) is the program over the calls of the C library, the
      sockets and libibverbs.  [RdmaSafe]: against every world that keeps to the
      manuals it ends, uses live objects only, stays inside its buffer and gives
      back everything.  [RdmaNet]: a client, a server and their two adapters as
      one system, whose interleavings are explored: both finish with each other's
      messages, against any verbs implementation that meets the class [Verbs].
    - [Namespace] (namespace/): the programs that start a child in new namespaces.
      [NsBarrier]: parent and child as two processes with a pipe; what the child
      does behind its read follows the parent's setup, and neither blocks for
      good.
    - [Futex] (lock/futex): the hand-over of items when the waiter sleeps first,
      and the two ways it fails otherwise.

    ** Other tools

    - [PageOwner] (mem/vm/page_owner_sort.c): the output is the histogram of the
      blocks, for every [qsort] that meets the C standard.
    - [Fincore] (mem/linux-ftools/linux-fincore.c): the scan counts exactly the
      resident pages, or reads past its vector when the size is a multiple of
      the page size.
    - [GetDelays] (steal/getdelays.c): requests are framed and sent whole; the
      walk over the bytes of a reply refines going through its attributes; a
      whole run for one process.
    - [RunDelay] (steal/get_rundelay.c): samples are read back and the report is
      made of their differences.
    - [Pagemap] (qemu_pci/v2p.c, mem/read_pagemap.c, qemu_pci/vtop.c): the two
      ways to translate an address agree.
    - [Leet] (leet/): binary search ends and finds; the two ways to count
      climbs agree.
    - [Smemcap] (mem/smem-1.4/smemcap.c): a tar reader gets back exactly the files
      from the archive.
    - [Pcimem] (pci/pcimem): the registers asked for are read inside the mapping,
      and the listing expands back to their values.
    - [ShowPci] (qemu_pci/show_pci.c): the listing of configuration space, or a
      list of capabilities that is a circle and never ends.
    - [Kvm] (kvm/simple.c): the program over its calls against any kernel that runs
      the guest's instructions: it ends, uses what it set up, and prints what the
      guest computes exactly when nothing failed.
    - [Threadsnoop] (bpf/): the BPF program, the callback, and the program that
      gives back everything on each of its exits.
    - [Uio] (uio/, qemu_pci/tedu.c, qemu_pci/rmmio.c): interrupts are enabled at
      every wait; the registers that are really written; the module's memory.
    - [Shm] (sysv/): a segment created, written, read and removed.
    - [Samples] (mem/dirty_mem.c, mem/thp.c, mem/mmap.c, mem/tpage.c, waitpid,
      str): buffers filled inside their bounds, statuses told apart.
    - [Ftools] (mem/linux-ftools): fadvise, fallocate and showrlimit; which call a
      command line makes.

    ** Fuel

    64 rounds for shifting a 64-bit value; one more than the number of pages for
    a walk (every round advances by a page at least, [PageWalk.walks_end]);
    2^63 + 1 for the page cache of a file ([PageMain.walk_file_ends]); the size
    of the table for probing; one more than the length of a text for loops that
    consume a character ([decode_numa_list], [read_block], [load]); one more than
    the size of the array for binary search; one more than the payload for the
    attributes of a reply, which are four bytes long at least (an attribute of
    length 0 really spins, [GetDelays.zero_length_spins]); one more than the full
    blocks of a file for [Smemcap.read_blocks]; the number of items for
    [Pcimem.dump]; 64 for a list of capabilities, which has 64 places
    ([ShowPci.walk_fate]: a walk that has not ended then never ends); the number
    of threads of a group ([Taskinfo]); for RDMA the number of polls until the
    timeout, which the clock bounds; three runs of the guest for [Kvm]; one more
    than the polls or interrupts that come before a signal or a failure for
    [Threadsnoop] and [Uio].

    ** Not modelled

    Samples whose result is what the kernel does and that compute nothing: the
    spin lock sample, the brk, huge page and
    split lock experiments, the memory waster, the libcap sample namespace/ns_user.c,
    a zombie and four function pointers; pwrite/tpwrite.c, whose head is inside a
    comment; get_libc_path of bpf/threadsnoop.c, which nothing calls; the printed
    pointers and uninitialised data of the small samples; scripts.
    Left out inside modelled programs: messages on
    standard error, [getopt]'s splitting of the command line, the debug-only
    test file of trace-noschedule, memory exhaustion where the code ends at
    once. *)

From Stdlib Require Export ZArith Lia ZifyBool String Ascii.
From stdpp Require Export base numbers list strings gmap pretty.

#[global] Set Warnings "-notation-overridden".
Open Scope Z_scope.

(** ** Outcomes of C code

    [Done a]: the code returned.  [Die why]: the process left through
    [fatal], [exit] or a failed [assert].  [Wild]: undefined behaviour: the
    code accessed memory outside the object it indexes, divided by zero,
    released a lock it does not hold, used or freed a pointer that was never
    set. *)

Inductive res (A : Type) : Type :=
| Done (a : A)
| Die (why : string)
| Wild.
Arguments Done {_} _.
Arguments Die {_} _.
Arguments Wild {_}.

#[export] Instance res_ret : MRet res := fun A a => Done a.
#[export] Instance res_bind : MBind res := fun A B k m =>
  match m with
  | Done a => k a
  | Die w => Die w
  | Wild => Wild
  end.

Definition is_done {A} (m : res A) : bool :=
  match m with Done _ => true | _ => false end.

Definition from_opt {A} (o : option A) : res A :=
  match o with Some a => Done a | None => Wild end.

Lemma Done_inj {A} (a b : A) : Done a = Done b → a = b.
Proof. congruence. Qed.

Lemma bind_Done {A B} (a : A) (k : A → res B) : Done a ≫= k = k a.
Proof. done. Qed.

Lemma bind_done {A B} (m : res A) (k : A → res B) b :
  m ≫= k = Done b → ∃ a, m = Done a ∧ k a = Done b.
Proof. destruct m; simpl; intros H; try discriminate. eauto. Qed.

(** The code does not touch memory outside its objects, and if it returns the
    result satisfies [P]. *)
Definition safe {A} (P : A → Prop) (m : res A) : Prop :=
  match m with Done a => P a | Die _ => True | Wild => False end.

Lemma safe_bind {A B} (Q : A → Prop) (P : B → Prop) (m : res A) (k : A → res B) :
  safe Q m → (∀ a, Q a → safe P (k a)) → safe P (m ≫= k).
Proof. destruct m; simpl; auto. Qed.

Lemma safe_weaken {A} (Q P : A → Prop) (m : res A) :
  safe Q m → (∀ a, Q a → P a) → safe P m.
Proof. destruct m; simpl; auto. Qed.

(** ** Machine integers *)

(** A [w]-bit unsigned value and a [w]-bit two's complement value. *)
Definition wrap (w z : Z) : Z := z mod 2 ^ w.
Definition swrap (w z : Z) : Z := (z + 2 ^ (w - 1)) mod 2 ^ w - 2 ^ (w - 1).

Abbreviation u8 := (wrap 8).
Abbreviation u32 := (wrap 32).
Abbreviation u64 := (wrap 64).
Abbreviation i32 := (swrap 32).
Abbreviation i64 := (swrap 64).

Definition ULONG_MAX : Z := 2 ^ 64 - 1.

Lemma wrap_range w z : 0 ≤ w → 0 ≤ wrap w z < 2 ^ w.
Proof. intros. apply Z.mod_pos_bound. lia. Qed.

Lemma wrap_small w z : 0 ≤ z < 2 ^ w → wrap w z = z.
Proof. apply Z.mod_small. Qed.

Lemma wrap_le w z : 0 ≤ w → 0 ≤ z → wrap w z ≤ z.
Proof. intros. apply Z.mod_le; lia. Qed.

Lemma wrap_wrap w z : wrap w (wrap w z) = wrap w z.
Proof. unfold wrap. apply Zmod_mod. Qed.

Lemma swrap_small w z : 0 < w → - 2 ^ (w - 1) ≤ z < 2 ^ (w - 1) → swrap w z = z.
Proof.
  intros Hw Hz. unfold swrap.
  assert (2 ^ w = 2 * 2 ^ (w - 1)) as E.
  { rewrite <- Z.pow_succ_r by lia. f_equal. lia. }
  rewrite Z.mod_small by lia. lia.
Qed.

Lemma i32_small z : -2147483648 ≤ z < 2147483648 → i32 z = z.
Proof. intros. apply swrap_small; simpl; lia. Qed.

Lemma u32_small z : 0 ≤ z < 4294967296 → u32 z = z.
Proof. intros. apply wrap_small. simpl. lia. Qed.

Lemma u64_range z : 0 ≤ u64 z < 2 ^ 64.
Proof. apply wrap_range. lia. Qed.

Lemma u64_small z : 0 ≤ z < 18446744073709551616 → u64 z = z.
Proof. intros. apply wrap_small. simpl. lia. Qed.

(** ** Record update

    [r <| f := v |>] is [r] with field [f] replaced.  A record type declares
    its eta expansion once, as an instance of [Eta]; the setter of each field
    is derived from it. *)

Class Eta (R : Type) := eta : R → R.
Class SetField {R T : Type} (f : R → T) := set_field : (T → T) → R → R.
Arguments set_field {R T} f {_} g r /.

Ltac derive_setter :=
  match goal with
  | |- @SetField ?R ?T ?f =>
      let e := constr:(_ : Eta R) in
      let e := eval hnf in e in
      let body := eval pattern f in e in
      match body with
      | ?h f => exact (fun (g : T → T) => h (fun r => g (f r)))
      end
  end.
#[export] Hint Extern 1 (SetField _) => derive_setter : typeclass_instances.

Declare Scope upd_scope.
Delimit Scope upd_scope with upd.
Notation "r <| f := v |>" := (set_field f (fun _ => v) r)
  (at level 1, left associativity, f at level 200, v at level 200) : upd_scope.
Open Scope upd_scope.

(** ** C arrays

    An array object is a list; indices are [Z], and an access outside the
    object is [Wild]. *)

Definition zlen {A} (l : list A) : Z := Z.of_nat (length l).

Definition aget {A} (l : list A) (i : Z) : res A :=
  if i <? 0 then Wild else from_opt (l !! Z.to_nat i).

Definition aset {A} (l : list A) (i : Z) (x : A) : res (list A) :=
  if (0 <=? i) && (i <? zlen l) then Done (<[Z.to_nat i := x]> l) else Wild.

(** [awrite l i ws]: store the elements of [ws] at [l[i]], [l[i+1]], ... *)
Definition awrite {A} (l : list A) (i : Z) (ws : list A) : res (list A) :=
  if (0 <=? i) && (i + zlen ws <=? zlen l)
  then Done (take (Z.to_nat i) l ++ ws ++ drop (Z.to_nat (i + zlen ws)) l)
  else Wild.

(** The slice [l[i .. i+n-1]]. *)
Definition slice {A} (l : list A) (i n : Z) : list A :=
  take (Z.to_nat n) (drop (Z.to_nat i) l).

Lemma zlen_nonneg {A} (l : list A) : 0 ≤ zlen l.
Proof. unfold zlen. lia. Qed.

Lemma zlen_app {A} (l k : list A) : zlen (l ++ k) = zlen l + zlen k.
Proof. unfold zlen. rewrite length_app. lia. Qed.

Lemma zlen_cons {A} (x : A) l : zlen (x :: l) = 1 + zlen l.
Proof. unfold zlen. simpl. lia. Qed.

Lemma zlen_nil {A} : zlen (@nil A) = 0.
Proof. reflexivity. Qed.

Lemma zlen_insert {A} (l : list A) i x : zlen (<[i := x]> l) = zlen l.
Proof. unfold zlen. by rewrite length_insert. Qed.

Lemma zlen_replicate {A} n (x : A) : zlen (replicate n x) = Z.of_nat n.
Proof. unfold zlen. by rewrite length_replicate. Qed.

Lemma aget_in {A} (l : list A) i : 0 ≤ i < zlen l → ∃ x, aget l i = Done x.
Proof.
  unfold zlen, aget. intros H. replace (i <? 0) with false by lia.
  destruct (lookup_lt_is_Some_2 l (Z.to_nat i)) as [x Hx]; [lia|].
  rewrite Hx. eauto.
Qed.

Lemma aget_done {A} (l : list A) i x :
  aget l i = Done x ↔ 0 ≤ i ∧ l !! Z.to_nat i = Some x.
Proof.
  unfold aget. destruct (Z.ltb_spec i 0).
  - split; [discriminate | lia].
  - destruct (l !! Z.to_nat i); simpl; naive_solver.
Qed.

Lemma aget_nat {A} (l : list A) (i : nat) x : l !! i = Some x → aget l (Z.of_nat i) = Done x.
Proof. intros H. apply aget_done. rewrite Nat2Z.id. split; [lia|done]. Qed.

Lemma aget_bound {A} (l : list A) i x : aget l i = Done x → 0 ≤ i < zlen l.
Proof.
  intros [Hi Hl]%aget_done. apply lookup_lt_Some in Hl. unfold zlen. lia.
Qed.

Lemma aget_out {A} (l : list A) i : ¬ (0 ≤ i < zlen l) → aget l i = Wild.
Proof.
  unfold zlen, aget. intros H. destruct (Z.ltb_spec i 0); [done|].
  by rewrite lookup_ge_None_2 by lia.
Qed.

Lemma aset_in {A} (l : list A) i x :
  0 ≤ i < zlen l → aset l i x = Done (<[Z.to_nat i := x]> l).
Proof.
  intros. unfold aset.
  by replace ((0 <=? i) && (i <? zlen l)) with true by lia.
Qed.

Lemma aset_done {A} (l l' : list A) i x :
  aset l i x = Done l' → 0 ≤ i < zlen l ∧ l' = <[Z.to_nat i := x]> l.
Proof. unfold aset. case_match; intros; simplify_eq; split; [lia|done]. Qed.

Lemma aset_out {A} (l : list A) i x : ¬ (0 ≤ i < zlen l) → aset l i x = Wild.
Proof.
  intros. unfold aset. case_match eqn:E; [|done]. exfalso. lia.
Qed.

Lemma awrite_in {A} (l ws : list A) i :
  0 ≤ i → i + zlen ws ≤ zlen l →
  awrite l i ws =
    Done (take (Z.to_nat i) l ++ ws ++ drop (Z.to_nat (i + zlen ws)) l).
Proof.
  intros. unfold awrite.
  by replace ((0 <=? i) && (i + zlen ws <=? zlen l)) with true by lia.
Qed.

Lemma awrite_len {A} (l l' ws : list A) i :
  awrite l i ws = Done l' → zlen l' = zlen l.
Proof.
  unfold awrite, zlen. case_match; [|done]. intros; simplify_eq.
  rewrite !length_app, length_take, length_drop. lia.
Qed.

(** Reading back what [awrite] stored, and the part before it. *)
Lemma slice_awrite {A} (l l' ws : list A) i :
  awrite l i ws = Done l' → slice l' i (zlen ws) = ws.
Proof.
  unfold awrite, slice, zlen. case_match; [|done]. intros; simplify_eq.
  rewrite drop_app_length' by (rewrite length_take; lia).
  by rewrite take_app_length' by lia.
Qed.

Lemma slice_awrite_before {A} (l l' ws : list A) i j n :
  awrite l i ws = Done l' → 0 ≤ j → 0 ≤ n → j + n ≤ i →
  slice l' j n = slice l j n.
Proof.
  unfold awrite, slice, zlen. case_match; [|done]. intros; simplify_eq.
  rewrite drop_app_le by (rewrite length_take; lia).
  rewrite take_app_le by (rewrite length_drop, length_take; lia).
  rewrite !take_drop_commute, take_take. do 2 f_equal. lia.
Qed.

(** Writing over a middle segment. *)
Lemma awrite_mid {A} (a b c ws : list A) i :
  zlen a = i → zlen b = zlen ws → awrite (a ++ b ++ c) i ws = Done (a ++ ws ++ c).
Proof.
  intros <- Hb. pose proof (zlen_nonneg c).
  rewrite awrite_in by (rewrite ?zlen_app; pose proof (zlen_nonneg a); lia).
  unfold zlen in *. rewrite take_app_length' by lia.
  rewrite (app_assoc a b c), drop_app_length' by (rewrite length_app; lia). done.
Qed.

Lemma aset_mid {A} (a c : list A) x y i :
  zlen a = i → aset (a ++ x :: c) i y = Done (a ++ y :: c).
Proof.
  intros <-. pose proof (zlen_nonneg a). pose proof (zlen_nonneg c).
  rewrite aset_in by (rewrite zlen_app, zlen_cons; lia).
  unfold zlen. rewrite Nat2Z.id. f_equal.
  by rewrite <- (Nat.add_0_r (length a)), insert_app_r.
Qed.

Lemma slice_mid {A} (a b c : list A) i n :
  zlen a = i → zlen b = n → slice (a ++ b ++ c) i n = b.
Proof.
  intros <- <-. unfold slice, zlen. rewrite !Nat2Z.id.
  rewrite drop_app_length' by done. by rewrite take_app_length' by done.
Qed.

Lemma list_alter_at {A} (f : A → A) (l : list A) i x :
  l !! i = Some x → alter f i l = <[i := f x]> l.
Proof.
  revert i. induction l as [|y l IH]; intros [|i] H; simplify_eq/=; [done|].
  f_equal. by apply IH.
Qed.

Lemma take_insert_next {A} (l : list A) (n : nat) x :
  (n < length l)%nat → take (S n) (<[n := x]> l) = take n l ++ [x].
Proof.
  intros Hn. rewrite (take_S_r _ n x) by (by apply list_lookup_insert_eq).
  by rewrite take_insert_ge by lia.
Qed.

(** [for] over a list, threading a state. *)
Fixpoint foldm {A S} (f : A → S → res S) (l : list A) (s : S) : res S :=
  match l with
  | [] => Done s
  | a :: l => s ← f a s; foldm f l s
  end.

Lemma foldm_app {A S} (f : A → S → res S) l k s :
  foldm f (l ++ k) s = (s ← foldm f l s; foldm f k s).
Proof.
  revert s. induction l as [|a l IH]; intros s; [done|]. cbn.
  destruct (f a s); try done. cbn. apply IH.
Qed.

Lemma foldm_fmap {A B S} (f : B → S → res S) (g : A → B) l s :
  foldm f (g <$> l) s = foldm (fun x => f (g x)) l s.
Proof.
  revert s. induction l as [|a l IH]; intros s; [done|]. cbn.
  destruct (f (g a) s); try done. cbn. apply IH.
Qed.

Lemma foldm_ext {A S} (f g : A → S → res S) l s :
  (∀ a s, a ∈ l → f a s = g a s) → foldm f l s = foldm g l s.
Proof.
  revert s. induction l as [|a l IH]; intros s Hfg; [done|]. cbn.
  rewrite Hfg by by left. destruct (g a s); try done. cbn.
  apply IH. intros. apply Hfg. by right.
Qed.

Lemma foldm_safe {A S} (P : S → Prop) (f : A → S → res S) l s :
  (∀ a s, a ∈ l → P s → safe P (f a s)) → P s → safe P (foldm f l s).
Proof.
  revert s. induction l as [|a l IH]; intros s Hf Hs; [done|]. cbn.
  eapply safe_bind; [apply Hf; [by left|done]|]. intros s' Hs'. apply IH; [|done].
  intros. apply Hf; [by right|done].
Qed.

(** A loop that stores a value at every index. *)
Lemma fill_prefix {A} (g : Z → A) k : ∀ l : list A,
  Z.of_nat k ≤ zlen l →
  foldm (fun j ws => aset ws j (g j)) (seqZ 0 (Z.of_nat k)) l = Done ((g <$> seqZ 0 (Z.of_nat k)) ++ drop k l).
Proof.
  induction k as [|k IH]; intros l Hk; [done|].
  rewrite !seqZ_S, foldm_app, IH by lia. cbn [mbind res_bind foldm]. rewrite Z.add_0_l.
  destruct (drop k l) as [|y r] eqn:E.
  { apply (f_equal length) in E. rewrite length_drop in E. unfold zlen in Hk. cbn in E. lia. }
  rewrite aset_mid by (unfold zlen; rewrite length_fmap, length_seqZ; lia). cbn [mbind res_bind].
  rewrite fmap_app, <- app_assoc. cbn [app fmap list_fmap]. do 4 f_equal.
  replace (S k) with (k + 1)%nat by lia. by rewrite <- drop_drop, E.
Qed.

Lemma fill_all {A} (g : Z → A) (l : list A) w :
  zlen l = w → foldm (fun j ws => aset ws j (g j)) (seqZ 0 w) l = Done (g <$> seqZ 0 w).
Proof. intros <-. unfold zlen. rewrite fill_prefix by (unfold zlen; lia). by rewrite drop_ge, app_nil_r. Qed.

(** ** Sums *)

Definition sum_of {A} (m : A → Z) (l : list A) : Z := foldr (fun x acc => m x + acc) 0 l.

Lemma sum_of_app {A} (m : A → Z) l k : sum_of m (l ++ k) = sum_of m l + sum_of m k.
Proof. unfold sum_of. induction l as [|x l IH]; cbn in *; lia. Qed.

Lemma sum_of_perm {A} (m : A → Z) l k : l ≡ₚ k → sum_of m l = sum_of m k.
Proof. unfold sum_of. induction 1; cbn in *; lia. Qed.

Lemma sum_of_nonneg {A} (m : A → Z) l : (∀ x, x ∈ l → 0 ≤ m x) → 0 ≤ sum_of m l.
Proof.
  induction l as [|x l IH]; intros H; [done|]. cbn.
  pose proof (H x ltac:(by left)). specialize (IH ltac:(intros; apply H; by right)).
  unfold sum_of in *. lia.
Qed.

Lemma sum_bounds {A} (m : A → Z) l a b :
  (∀ x, x ∈ l → a ≤ m x ≤ b) → zlen l * a ≤ sum_of m l ≤ zlen l * b.
Proof.
  induction l as [|x l IH]; intros H; [unfold zlen; cbn; lia|].
  rewrite zlen_cons. cbn. specialize (IH ltac:(intros; apply H; set_solver)).
  pose proof (H x ltac:(set_solver)). unfold sum_of in *. lia.
Qed.

(** ** Loops

    A loop body answers [inl s] to go on and [inr s] to leave.  [loop p] runs
    it at most [p] times; the fuel is binary, so that a bound of 2^64 costs
    nothing when the loop ends early. *)

Section Loop.
Context {S : Type} (body : S → res (S + S)).

Fixpoint iter_pos (p : positive) (s : S) : res (S + S) :=
  let twice q s :=
    r ← iter_pos q s;
    match r with inl s => iter_pos q s | inr s => Done (inr s) end in
  match p with
  | xH => body s
  | xO q => twice q s
  | xI q =>
      r ← body s;
      match r with inl s => twice q s | inr s => Done (inr s) end
  end.

Definition out_of_fuel : string := "out of fuel".

(** The state when the loop is left. *)
Definition loop (fuel : Z) (s : S) : res S :=
  match fuel with
  | Zpos p =>
      r ← iter_pos p s;
      match r with inl _ => Die out_of_fuel | inr s => Done s end
  | _ => Die out_of_fuel
  end.

Fixpoint iter_nat (n : nat) (s : S) : res (S + S) :=
  match n with
  | O => Done (inl s)
  | Datatypes.S n =>
      r ← body s;
      match r with inl s => iter_nat n s | inr s => Done (inr s) end
  end.

Lemma iter_nat_add n m s :
  iter_nat (n + m) s =
    (r ← iter_nat n s; match r with inl s => iter_nat m s | inr s => Done (inr s) end).
Proof.
  revert s. induction n as [|n IH]; intros s; [done|]. cbn.
  destruct (body s) as [[s'|s']| |]; try done. cbn. apply IH.
Qed.

Lemma iter_pos_nat p s : iter_pos p s = iter_nat (Pos.to_nat p) s.
Proof.
  revert s. induction p as [p IH|p IH|]; intros s.
  - rewrite Pos2Nat.inj_xI. cbn. destruct (body s) as [[s'|s']| |]; try done. cbn.
    rewrite Nat.add_0_r, iter_nat_add, IH.
    destruct (iter_nat (Pos.to_nat p) s') as [[t|t]| |]; try done. cbn. apply IH.
  - rewrite Pos2Nat.inj_xO. cbn. rewrite Nat.add_0_r, iter_nat_add, IH.
    destruct (iter_nat (Pos.to_nat p) s) as [[t|t]| |]; try done. cbn. apply IH.
  - change (Pos.to_nat 1) with 1%nat. cbn [iter_nat iter_pos].
    by destruct (body s) as [[s'|s']| |].
Qed.

(** Unfolding one iteration, and induction on a measure that the fuel
    bounds: a loop that satisfies it ends, in a state related to its start. *)
Lemma loop_step fuel s :
  0 < fuel →
  loop fuel s =
    (r ← body s; match r with inl s => loop (fuel - 1) s | inr s => Done s end).
Proof.
  intros Hf. destruct fuel as [|p|p]; [lia| |lia]. unfold loop at 1.
  rewrite iter_pos_nat. destruct (Pos.to_nat p) as [|n] eqn:En; [lia|]. cbn.
  destruct (body s) as [[s'|s']| |]; try done. cbn. unfold loop.
  destruct (Zpos p - 1) as [|q|q] eqn:Eq; [|rewrite iter_pos_nat; do 3 f_equal; lia|lia].
  assert (n = 0%nat) as -> by lia. done.
Qed.

Lemma loop_rule (I : S → Prop) (m : S → Z) (Q : S → res S → Prop) :
  (∀ s, I s → 0 ≤ m s →
     match body s with
     | Done (inr s') => Q s (Done s')
     | Done (inl s') => I s' ∧ 0 ≤ m s' < m s ∧ (∀ r, Q s' r → Q s r)
     | Die w => Q s (Die w)
     | Wild => Q s Wild
     end) →
  ∀ fuel s, I s → 0 ≤ m s < fuel → Q s (loop fuel s).
Proof.
  intros Hb fuel. remember (Z.to_nat fuel) as n eqn:En. revert fuel En.
  induction n as [|n IH]; intros fuel En s Hi Hm; [lia|].
  rewrite loop_step by lia. specialize (Hb s Hi (proj1 Hm)).
  destruct (body s) as [[s'|s']| |]; cbn [mbind res_bind]; try done.
  destruct Hb as (Hi' & Hm' & HQ). apply HQ, IH; [lia|done|lia].
Qed.

(** A loop whose body preserves [I] is safe and ends in [I]. *)
Lemma loop_safe (I : S → Prop) :
  (∀ s, I s → safe (fun r => match r with inl s' | inr s' => I s' end) (body s)) →
  ∀ fuel s, I s → safe I (loop fuel s).
Proof.
  intros Hb fuel s Hs. unfold loop. destruct fuel as [|p|p]; try done.
  rewrite iter_pos_nat. revert s Hs. induction (Pos.to_nat p) as [|n IH]; intros s Hs; [done|].
  cbn. specialize (Hb s Hs). destruct (body s) as [[t|t]| |]; try done. cbn in *. by apply IH.
Qed.

(** The loop is still running after [fuel] iterations. *)
Definition still_running (fuel : Z) (s : S) : Prop :=
  ∃ p s', fuel = Zpos p ∧ iter_pos p s = Done (inl s').

Lemma loop_ends (I : S → Prop) (m : S → Z) :
  (∀ s s', I s → 0 ≤ m s → body s = Done (inl s') → I s' ∧ 0 ≤ m s' < m s) →
  ∀ fuel s, I s → 0 ≤ m s < fuel → ¬ still_running fuel s.
Proof.
  intros Hb fuel s Hi Hm (p & s' & -> & E). rewrite iter_pos_nat in E.
  assert (m s < Z.of_nat (Pos.to_nat p)) as Hlt by lia. destruct Hm as [H0 _].
  revert s Hi H0 Hlt E. induction (Pos.to_nat p) as [|n IH]; intros s Hi H0 Hlt E; [lia|].
  cbn in E. destruct (body s) as [[t|t]| |] eqn:Eb; try done. cbn in E.
  destruct (Hb s t Hi H0 Eb) as [Hi' Hm]. apply (IH t); [done|lia|lia|done].
Qed.
End Loop.

(** ** Proof automation *)

(** Case analysis on the innermost conditional of the goal or of [H]. *)
Ltac split_if :=
  match goal with
  | |- context [if ?b then _ else _] => destruct b eqn:?
  end.
Ltac split_if_in H :=
  match type of H with
  | context [if ?b then _ else _] => destruct b eqn:?
  end.

(** Invert a [Done] equation through the binds of [res]. *)
Ltac inv_done :=
  repeat match goal with
  | H : Done _ = Done _ |- _ => injection H as H; try subst
  | H : (_, _) = (_, _) |- _ => injection H as ? ?; try subst
  | H : mbind _ _ = Done _ |- _ =>
      let a := fresh "v" in
      let H1 := fresh "Hb" in
      apply bind_done in H as (a & H1 & H)
  | H : Wild = Done _ |- _ => discriminate H
  | H : Die _ = Done _ |- _ => discriminate H
  | H : Done _ = Wild |- _ => discriminate H
  end.

Create HintDb carr discriminated.
Create Rewrite HintDb zlen.
#[export] Hint Rewrite @zlen_app @zlen_cons @zlen_nil @zlen_insert
  @zlen_replicate : zlen.
#[export] Hint Resolve zlen_nonneg wrap_range : carr.

Ltac zlen_lia := autorewrite with zlen in *; unfold zlen in *; simpl in *; lia.
