(* ===== verification/CLib.v ===== *)
(** * The C library used by the tools

    C strings are [string]s without the terminating NUL.  [printf] pieces
    return the text they produce; [strto*] return the value and the rest of
    the input (the [endptr]). *)

From S2P Require Import Prelude.

Definition nl : string := String "010" EmptyString.
Definition tab : string := String "009" EmptyString.

Definition strlen (s : string) : Z := Z.of_nat (String.length s).

(** ** Formatting *)

Fixpoint rep (c : ascii) (n : nat) : string :=
  match n with O => EmptyString | S k => String c (rep c k) end.

(** Pad on the left ([%Ns]) and on the right ([%-Ns]) to [w] columns. *)
Definition padl (c : ascii) (w : Z) (s : string) : string :=
  rep c (Z.to_nat (w - strlen s)) +:+ s.
Definition padr (w : Z) (s : string) : string :=
  s +:+ rep " " (Z.to_nat (w - strlen s)).

(** [%d], [%ld], [%lu] ... of a value already of its type. *)
Definition dec (z : Z) : string := pretty z.

Definition hex_digit (d : Z) : ascii :=
  ascii_of_nat (Z.to_nat (if d <? 10 then 48 + d else 87 + d)).

Fixpoint hex_go (fuel : nat) (z : Z) (acc : string) : string :=
  match fuel with
  | O => acc
  | S k =>
      let acc' := String (hex_digit (z mod 16)) acc in
      if z / 16 =? 0 then acc' else hex_go k (z / 16) acc'
  end.
(** [%lx] of a 64-bit value. *)
Definition hex (z : Z) : string := hex_go 16 z "".

(** ** Characters and comparison *)

Definition zchar (c : ascii) : Z := Z.of_nat (nat_of_ascii c).

Definition tolower (c : ascii) : Z :=
  let z := zchar c in
  if (65 <=? z) && (z <=? 90) then z + 32 else z.

(** [strcmp] and [strcasecmp], the sign being that of the first difference
    of (unsigned) characters. *)
Fixpoint strcmp_by (f : ascii → Z) (a b : string) : Z :=
  match a, b with
  | EmptyString, EmptyString => 0
  | EmptyString, String y _ => - f y
  | String x _, EmptyString => f x
  | String x a', String y b' =>
      if f x =? f y then strcmp_by f a' b' else f x - f y
  end.
Definition strcmp : string → string → Z := strcmp_by zchar.
Definition strcasecmp : string → string → Z := strcmp_by tolower.

(** [strncmp a b n = 0]. *)
Definition strncmp_eq (a b : string) (n : Z) : bool :=
  bool_decide (String.substring 0 (Z.to_nat n) a =
               String.substring 0 (Z.to_nat n) b).

(** [strchr s c]: the suffix of [s] that starts at the first [c]. *)
Fixpoint strchr (s : string) (c : ascii) : option string :=
  match s with
  | EmptyString => None
  | String x s' => if Ascii.eqb x c then Some s else strchr s' c
  end.

(** ** Numbers from text *)

Definition isspace (c : ascii) : bool :=
  let z := zchar c in (z =? 32) || ((9 <=? z) && (z <=? 13)).

Fixpoint skip_space (s : string) : string :=
  match s with
  | String c s' => if isspace c then skip_space s' else s
  | EmptyString => s
  end.

(** The value of a digit, 36 for a character that is none. *)
Definition digit_val (c : ascii) : Z :=
  let z := zchar c in
  if (48 <=? z) && (z <=? 57) then z - 48
  else if (97 <=? z) && (z <=? 122) then z - 87
  else if (65 <=? z) && (z <=? 90) then z - 55
  else 36.

(** The longest prefix of digits of [base]: value, digit count, rest. *)
Fixpoint scan_digits (base : Z) (s : string) (acc n : Z) : Z * Z * string :=
  match s with
  | String c s' =>
      if digit_val c <? base
      then scan_digits base s' (acc * base + digit_val c) (n + 1)
      else (acc, n, s)
  | EmptyString => (acc, n, s)
  end.

Definition scan_sign (s : string) : bool * string :=
  match s with
  | String c s' =>
      if Ascii.eqb c "-" then (true, s')
      else if Ascii.eqb c "+" then (false, s') else (false, s)
  | EmptyString => (false, s)
  end.

(** Base 0: [0x]/[0X] followed by a hexadecimal digit is base 16, a leading
    [0] base 8, anything else base 10. *)
Definition scan_base0 (s : string) : Z * string :=
  match s with
  | String z (String x (String d r)) =>
      if Ascii.eqb z "0" then
        if (Ascii.eqb x "x" || Ascii.eqb x "X") && (digit_val d <? 16)
        then (16, String d r) else (8, s)
      else (10, s)
  | String z _ => if Ascii.eqb z "0" then (8, s) else (10, s)
  | EmptyString => (10, s)
  end.

(** Base 16: an optional [0x]/[0X] before a hexadecimal digit. *)
Definition skip_0x (s : string) : string :=
  let '(b, r) := scan_base0 s in if b =? 16 then r else s.

(** Magnitude before saturation: sign, value, rest; [None] when there is no
    digit (the value is then 0 and the rest the whole input). *)
Definition scan_number (base : Z) (s : string) : option (bool * Z * string) :=
  let '(neg, s1) := scan_sign (skip_space s) in
  let '(b, s2) := if base =? 0 then scan_base0 s1
                  else if base =? 16 then (16, skip_0x s1) else (base, s1) in
  let '(v, n, rest) := scan_digits b s2 0 0 in
  if n =? 0 then None else Some (neg, v, rest).

Definition strtoul (base : Z) (s : string) : Z * string :=
  match scan_number base s with
  | None => (0, s)
  | Some (neg, v, rest) =>
      if ULONG_MAX <? v then (ULONG_MAX, rest)
      else (if neg then u64 (- v) else v, rest)
  end.

Definition strtoll (base : Z) (s : string) : Z * string :=
  match scan_number base s with
  | None => (0, s)
  | Some (neg, v, rest) =>
      (if neg then Z.max (- v) (- 2 ^ 63) else Z.min v (2 ^ 63 - 1), rest)
  end.

(** [atol] and [atoi] (the latter converts a [long] to [int] in glibc). *)
Definition atol (s : string) : Z := fst (strtoll 10 s).
Definition atoi (s : string) : Z := i32 (atol s).

(** ** Facts *)

Lemma strlen_rep c n : strlen (rep c n) = Z.of_nat n.
Proof. unfold strlen. induction n; simpl; lia. Qed.

Lemma strlen_app a b : strlen (a +:+ b) = strlen a + strlen b.
Proof.
  unfold strlen. induction a as [|x a IH]; [done|].
  change (Z.of_nat (S (String.length (a +:+ b))) =
    Z.of_nat (S (String.length a)) + Z.of_nat (String.length b)). lia.
Qed.

Lemma strlen_nonneg s : 0 ≤ strlen s.
Proof. unfold strlen. lia. Qed.

Create Rewrite HintDb strlen.
#[export] Hint Rewrite strlen_rep strlen_app : strlen.

Lemma digit_val_range c : 0 ≤ digit_val c ≤ 36.
Proof. unfold digit_val. repeat split_if; lia. Qed.

Lemma scan_digits_nonneg base s acc n :
  0 ≤ base → 0 ≤ acc → 0 ≤ fst (fst (scan_digits base s acc n)).
Proof.
  intros Hb. revert acc n. induction s as [|c s IH]; intros acc n Ha; simpl; [done|].
  split_if; [|done]. apply IH. pose proof (digit_val_range c). nia.
Qed.

Lemma scan_base0_nonneg s : 0 ≤ fst (scan_base0 s).
Proof. unfold scan_base0. repeat case_match; simpl; lia. Qed.

Lemma scan_number_nonneg base s neg v rest :
  0 ≤ base → scan_number base s = Some (neg, v, rest) → 0 ≤ v.
Proof.
  unfold scan_number. intros Hb. destruct scan_sign as [sg s1].
  assert (0 ≤ fst (if base =? 0 then scan_base0 s1
                   else if base =? 16 then (16, skip_0x s1) else (base, s1))) as Hb'.
  { repeat case_match; [apply scan_base0_nonneg|done..]. }
  destruct (if base =? 0 then _ else _) as [b s2]. simpl in Hb'.
  pose proof (scan_digits_nonneg b s2 0 0 Hb' ltac:(lia)) as Hv.
  destruct scan_digits as [[v' n] r]. simpl in Hv. case_match; naive_solver.
Qed.

(** [strtoul] returns an [unsigned long]. *)
Lemma strtoul_range base s : 0 ≤ base → 0 ≤ fst (strtoul base s) ≤ ULONG_MAX.
Proof.
  intros Hb. unfold strtoul, ULONG_MAX.
  destruct scan_number as [[[neg v] r]|] eqn:E; [|simpl; lia].
  apply scan_number_nonneg in E; [|done].
  destruct neg; split_if; simpl; try lia.
  pose proof (wrap_range 64 (- v)). lia.
Qed.

Lemma string_app_assoc (a b c : string) : (a +:+ b) +:+ c = a +:+ (b +:+ c).
Proof. induction a as [|x a IH]; [done|]. exact (f_equal (String x) IH). Qed.

Lemma string_app_nil_r (a : string) : a +:+ "" = a.
Proof. induction a as [|x a IH]; [done|]. exact (f_equal (String x) IH). Qed.

(** ** Printing loops *)

(** The text of the elements of a list, one after the other. *)
Definition texts {A} (txt : A → string) (l : list A) : string :=
  foldr (fun x acc => txt x +:+ acc) "" l.

Lemma texts_app {A} (txt : A → string) l k : texts txt (l ++ k) = texts txt l +:+ texts txt k.
Proof. induction l as [|x l IH]; [done|]. cbn. unfold texts in *. by rewrite IH, string_app_assoc. Qed.

(** A loop [for (i = 0; i < n; i++) print(...)] whose body prints the text of
    the [i]-th element of [l] prints the texts of [l]. *)
Lemma print_indexed {A} (txt : A → string) (g : nat → res string → res string)
    (l : list A) n :
  length l = n →
  (∀ i x acc, l !! i = Some x → g i (Done acc) = Done (txt x +:+ acc)) →
  foldr g (Done "") (seq 0 n) = Done (texts txt l).
Proof.
  intros Hl Hg.
  assert (∀ k m, (k + m = n)%nat →
    foldr g (Done "") (seq k m) = Done (texts txt (drop k l))) as H.
  { intros k m. revert k. induction m as [|m IH]; intros k Hk; simpl.
    - rewrite drop_ge by lia. done.
    - rewrite IH by lia. destruct (lookup_lt_is_Some_2 l k) as [x Hx]; [lia|].
      rewrite (Hg k x) by done. by rewrite (drop_S _ x k). }
  rewrite H by lia. by rewrite drop_0.
Qed.

Lemma substring_all s n : strlen s ≤ Z.of_nat n → String.substring 0 n s = s.
Proof.
  unfold strlen. revert n. induction s as [|c s IH]; intros [|n] Hn; simpl in *; try done; try lia.
  f_equal. apply IH. lia.
Qed.

Lemma substring_app s t : String.substring 0 (String.length s) (s +:+ t) = s.
Proof. induction s as [|c s IH]; [by destruct t|]. simpl. by f_equal. Qed.

(** ** Decimal numbers read back *)

(** The text that follows a number: it starts with no letter or digit. *)
Definition ends_number (rest : string) : Prop :=
  match rest with EmptyString => True | String c _ => digit_val c = 36 end.

Lemma digit_char x : (x < 10)%N → digit_val (pretty_N_char x) = Z.of_N x.
Proof.
  intros Hx. assert (x ∈ [0; 1; 2; 3; 4; 5; 6; 7; 8; 9]%N) as Hin.
  { rewrite !elem_of_cons, elem_of_nil. lia. }
  rewrite !elem_of_cons, elem_of_nil in Hin. naive_solver.
Qed.

Lemma pretty_N_go_app n s t : pretty_N_go n s +:+ t = pretty_N_go n (s +:+ t).
Proof.
  revert s. induction n as [n IH] using (well_founded_induction N.lt_wf_0). intros s.
  destruct (decide (0 < n)%N) as [Hn|Hn].
  - rewrite !(pretty_N_go_step n) by done. rewrite IH by by apply N.div_lt. done.
  - assert (n = 0%N) as -> by lia. by rewrite !pretty_N_go_0.
Qed.

Lemma scan_digits_go n s acc k :
  ∃ d, 0 ≤ d ∧ ((0 < n)%N → 0 < d) ∧
  scan_digits 10 (pretty_N_go n s) acc k = scan_digits 10 s (acc * 10 ^ d + Z.of_N n) (k + d).
Proof.
  revert s acc k. induction n as [n IH] using (well_founded_induction N.lt_wf_0). intros s acc k.
  destruct (decide (0 < n)%N) as [Hn|Hn].
  - destruct (IH (n / 10)%N (N.div_lt n 10 Hn eq_refl)
      (String (pretty_N_char (n `mod` 10)) s) acc k) as (d & Hd & _ & E).
    exists (d + 1). split; [lia|]. split; [lia|].
    rewrite pretty_N_go_step, E by done. cbn [scan_digits].
    pose proof (N.mod_lt n 10 ltac:(lia)) as Hm.
    rewrite digit_char by done. replace (Z.of_N (n `mod` 10) <? 10) with true by lia.
    f_equal; [|lia]. rewrite Z.pow_add_r by lia. change (10 ^ 1) with 10.
    pose proof (N.div_mod n 10 ltac:(lia)). nia.
  - assert (n = 0%N) as -> by lia. exists 0. rewrite pretty_N_go_0.
    split_and!; [done|lia|]. f_equal; lia.
Qed.

(** A positive number starts with a digit other than 0. *)
Lemma pretty_N_go_head n s :
  (0 < n)%N → ∃ c r, pretty_N_go n s = String c r ∧ 1 ≤ digit_val c < 10.
Proof.
  revert s. induction n as [n IH] using (well_founded_induction N.lt_wf_0). intros s Hn.
  rewrite pretty_N_go_step by done. destruct (decide (0 < n `div` 10)%N) as [Hd|Hd].
  - by apply IH; [apply N.div_lt|].
  - assert (n `div` 10 = 0)%N as E by (by apply N.le_0_r, N.nlt_ge). rewrite E, pretty_N_go_0.
    eexists _, _. split; [done|].
    pose proof (N.mod_lt n 10 ltac:(lia)). rewrite digit_char by done.
    pose proof (N.div_mod n 10 ltac:(lia)). lia.
Qed.

(** What such a first digit rules out. *)
Lemma digit_head c :
  1 ≤ digit_val c < 10 →
  isspace c = false ∧ Ascii.eqb c "-" = false ∧ Ascii.eqb c "+" = false ∧ Ascii.eqb c "0" = false.
Proof.
  intros Hc. unfold isspace. split_and!;
    try (apply Ascii.eqb_neq; intros ->; by destruct Hc).
  unfold digit_val in Hc. cbv zeta in *. repeat case_match; lia.
Qed.

Lemma scan_stop base rest acc k :
  base ≤ 36 → ends_number rest → scan_digits base rest acc k = (acc, k, rest).
Proof.
  intros Hb. destruct rest as [|c r]; simpl; [done|]. intros ->.
  by replace (36 <? base) with false by lia.
Qed.

Lemma scan_base0_head c r : Ascii.eqb c "0" = false → scan_base0 (String c r) = (10, String c r).
Proof. intros E. unfold scan_base0. destruct r as [|x [|d r]]; by rewrite E. Qed.

Lemma scan_number_dec n rest :
  0 ≤ n → ends_number rest → scan_number 0 (dec n +:+ rest) = Some (false, n, rest).
Proof.
  intros Hn Hr. unfold scan_number, dec. destruct n as [|p|p]; [| |lia].
  - change (pretty 0 +:+ rest) with (String "0" rest).
    change (skip_space (String "0" rest)) with (String "0" rest).
    change (scan_sign (String "0" rest)) with (false, String "0" rest).
    assert (scan_base0 (String "0" rest) = (8, String "0" rest)) as E.
    { unfold scan_base0. destruct rest as [|x [|d r]]; try done. simpl in Hr.
      assert (Ascii.eqb x "x" = false) as -> by (apply Ascii.eqb_neq; intros ->; done).
      assert (Ascii.eqb x "X" = false) as -> by (apply Ascii.eqb_neq; intros ->; done). done. }
    cbn [Z.eqb]. rewrite E. cbn [scan_digits].
    change (digit_val "0" <? 8) with true. cbv iota. by rewrite scan_stop by (done || lia).
  - change (pretty (Zpos p)) with (pretty_N_go (Npos p) ""). rewrite pretty_N_go_app.
    change ("" +:+ rest) with rest.
    destruct (pretty_N_go_head (Npos p) rest) as (c & r & E & Hc); [done|].
    destruct (digit_head c Hc) as (H1 & H2 & H3 & H4).
    destruct (scan_digits_go (Npos p) rest 0 0) as (d & _ & Hd & Es).
    rewrite E in *. cbn [skip_space]. rewrite H1. cbn [scan_sign]. rewrite H2, H3.
    cbn [Z.eqb]. rewrite scan_base0_head, Es, scan_stop by (done || lia).
    specialize (Hd ltac:(lia)). replace (0 + d =? 0) with false by lia.
    by rewrite Z.mul_0_l.
Qed.

(** A number contains no separator. *)
Lemma strchr_dec n rest c :
  0 ≤ n → digit_val c = 36 → strchr (dec n +:+ rest) c = strchr rest c.
Proof.
  intros Hn Hc. unfold dec. destruct n as [|p|p]; [| |lia].
  - change (pretty 0 +:+ rest) with (String "0" rest). cbn [strchr].
    destruct (Ascii.eqb_spec "0" c) as [<-|]; [done|done].
  - change (pretty (Zpos p)) with (pretty_N_go (Npos p) ""). rewrite pretty_N_go_app.
    change ("" +:+ rest) with rest. generalize (Npos p) as n. clear p Hn. intros n.
    revert rest. induction n as [n IH] using (well_founded_induction N.lt_wf_0). intros s.
    destruct (decide (0 < n)%N) as [Hn|Hn].
    + rewrite pretty_N_go_step, IH by (done || by apply N.div_lt). cbn [strchr].
      destruct (Ascii.eqb_spec (pretty_N_char (n `mod` 10)) c) as [<-|]; [|done].
      pose proof (N.mod_lt n 10 ltac:(lia)). rewrite digit_char in Hc by done. lia.
    + assert (n = 0%N) as -> by lia. by rewrite pretty_N_go_0.
Qed.

Lemma dec_head n rest :
  0 ≤ n → ∃ c r, dec n +:+ rest = String c r ∧ digit_val c < 10 ∧
    (Ascii.eqb c "0" = true ↔ n = 0).
Proof.
  intros Hn. unfold dec. destruct n as [|p|p]; [| |lia].
  - by exists "0"%char, rest.
  - change (pretty (Zpos p)) with (pretty_N_go (Npos p) ""). rewrite pretty_N_go_app.
    destruct (pretty_N_go_head (Npos p) ("" +:+ rest)) as (c & r & -> & Hc); [done|].
    exists c, r. destruct (digit_head c Hc) as (_ & _ & _ & ->). split_and!; [done|lia|done].
Qed.

(** ** Strings as C holds them *)

(** The characters of a C string, up to a NUL. *)
Fixpoint cstr (s : string) : string :=
  match s with
  | EmptyString => EmptyString
  | String c r => if Ascii.eqb c "000" then EmptyString else String c (cstr r)
  end.

(** [fgets] of a buffer of [n + 1] bytes: up to [n] characters, a newline
    being the last. *)
Fixpoint fgets (n : nat) (s : string) : string :=
  match n, s with
  | S n, String c r => String c (if Ascii.eqb c "010" then EmptyString else fgets n r)
  | _, _ => EmptyString
  end.

(** Strings C can hold. *)
Definition c_string (s : string) : Prop := cstr s = s.

Lemma c_string_cons c s : c_string (String c s) ↔ c ≠ "000"%char ∧ c_string s.
Proof.
  unfold c_string. cbn [cstr]. destruct (Ascii.eqb_spec c "000") as [->|Hc].
  - split; [discriminate|]. by intros [? _].
  - split; [intros [= H]; done|]. by intros [_ ->].
Qed.

Lemma c_string_app a b : c_string a → c_string b → c_string (a +:+ b).
Proof.
  induction a as [|x a IH]; [done|]. intros [Hx Ha]%c_string_cons Hb.
  change (c_string (String x (a +:+ b))). apply c_string_cons. auto.
Qed.

Lemma list_of_app a b :
  String.list_ascii_of_string (a +:+ b) =
  String.list_ascii_of_string a ++ String.list_ascii_of_string b.
Proof. induction a as [|x a IH]; [done|]. exact (f_equal (cons x) IH). Qed.

Lemma zlen_list_of s : zlen (String.list_ascii_of_string s) = strlen s.
Proof.
  unfold zlen, strlen. induction s as [|c s IH]; [done|]. simpl. lia.
Qed.

Lemma strlen_cons c s : strlen (String c s) = 1 + strlen s.
Proof. unfold strlen. simpl. lia. Qed.

(** [fgets] and the C string of a line. *)
Lemma fgets_line n s :
  strchr s "010" = None → c_string s → strlen s < Z.of_nat n → cstr (fgets n (s +:+ nl)) = s +:+ nl.
Proof.
  revert n. induction s as [|c s IH]; intros [|n] Hs Hc Hn; try (unfold strlen in Hn; simpl in Hn; lia).
  - done.
  - apply c_string_cons in Hc as [H0 Hc]. rewrite strlen_cons in Hn.
    change (String c s +:+ nl) with (String c (s +:+ nl)). cbn [fgets strchr] in *.
    destruct (Ascii.eqb_spec c "010"); [done|]. cbn [cstr].
    apply Ascii.eqb_neq in H0. rewrite H0. f_equal. apply IH; [done|done|lia].
Qed.

(** ** The order of strings *)

Section StringOrder.
Context (f : ascii → Z) (f_pos : ∀ c, c ≠ "000"%char → 0 < f c).

Lemma strcmp_anti a b : strcmp_by f a b = - strcmp_by f b a.
Proof.
  revert b. induction a as [|x a IH]; intros [|y b]; simpl; try lia.
  rewrite (Z.eqb_sym (f y) (f x)). case_match; [apply IH|lia].
Qed.

Lemma strcmp_trans a b c :
  c_string a → c_string b → c_string c →
  strcmp_by f a b ≤ 0 → strcmp_by f b c ≤ 0 → strcmp_by f a c ≤ 0.
Proof.
  revert b c. induction a as [|x a IH]; intros [|y b] [|z c] Ha Hb Hc; simpl;
    repeat match goal with
    | H : c_string (String _ _) |- _ =>
        apply c_string_cons in H as [?%f_pos ?]
    end; try lia.
  destruct (Z.eqb_spec (f x) (f y)), (Z.eqb_spec (f y) (f z)), (Z.eqb_spec (f x) (f z));
    try lia. by apply IH.
Qed.
End StringOrder.

Lemma tolower_pos c : c ≠ "000"%char → 0 < tolower c.
Proof.
  intros Hc. unfold tolower, zchar.
  assert (nat_of_ascii c ≠ 0%nat).
  { intros E. apply Hc. by rewrite <- (ascii_nat_embedding c), E. }
  case_match; lia.
Qed.

Lemma strcasecmp_anti a b : strcasecmp a b = - strcasecmp b a.
Proof. apply strcmp_anti. Qed.

Lemma strcasecmp_trans a b c :
  c_string a → c_string b → c_string c →
  strcasecmp a b ≤ 0 → strcasecmp b c ≤ 0 → strcasecmp a c ≤ 0.
Proof. apply strcmp_trans, tolower_pos. Qed.

Lemma strcmp_refl f a : strcmp_by f a a = 0.
Proof. induction a as [|x a IH]; [done|]. simpl. by rewrite Z.eqb_refl. Qed.

Lemma zchar_inj a b : zchar a = zchar b → a = b.
Proof.
  unfold zchar. intros H%Nat2Z.inj.
  by rewrite <- (ascii_nat_embedding a), H, ascii_nat_embedding.
Qed.

Lemma strcmp_eq a b : c_string a → c_string b → strcmp a b = 0 ↔ a = b.
Proof.
  intros Ha Hb. split; [|intros ->; apply strcmp_refl]. revert b Hb.
  assert (∀ c, c ≠ "000"%char → zchar c ≠ 0) as Hz.
  { intros c Hc E. apply Hc. by apply zchar_inj. }
  induction a as [|x a IH]; intros [|y b] Hb; cbn; intros E; [done|..].
  - apply c_string_cons in Hb as [Hy%Hz _]. lia.
  - apply c_string_cons in Ha as [Hx%Hz _]. lia.
  - apply c_string_cons in Ha as [_ Ha]. apply c_string_cons in Hb as [_ Hb].
    destruct (Z.eqb_spec (zchar x) (zchar y)) as [->%zchar_inj|]; [|lia].
    f_equal. by apply IH.
Qed.

(** ** Decimal numerals *)

Lemma pretty_N_char_nonnul x : pretty_N_char x ≠ "000"%char.
Proof. unfold pretty_N_char. repeat case_match; discriminate. Qed.

Lemma pretty_N_go_c n s : c_string s → c_string (pretty_N_go n s).
Proof.
  revert s. induction n as [n IH] using (well_founded_induction N.lt_wf_0). intros s Hs.
  destruct (decide (0 < n)%N) as [Hn|Hn].
  - rewrite pretty_N_go_step by done. apply IH; [by apply N.div_lt|].
    apply c_string_cons. split; [apply pretty_N_char_nonnul|done].
  - assert (n = 0%N) as -> by lia. by rewrite pretty_N_go_0.
Qed.

Lemma dec_c z : c_string (dec z).
Proof.
  unfold dec. destruct z as [|p|p]; [done|apply (pretty_N_go_c (Npos p)); done|].
  change (c_string (String "-" (pretty_N_go (Npos p) ""))). apply c_string_cons.
  split; [discriminate|]. by apply pretty_N_go_c.
Qed.

(** A number of two digits or more: the last digit comes off. *)
Lemma dec_split z : 10 ≤ z → dec z = dec (z / 10) +:+ dec (z mod 10).
Proof.
  intros Hz. unfold dec. destruct z as [|p|p]; [lia| |lia].
  change (pretty (Zpos p)) with (pretty_N_go (Npos p) "").
  rewrite pretty_N_go_step by done.
  assert (Zpos p / 10 = Z.of_N (Npos p `div` 10)) as -> by (by rewrite N2Z.inj_div).
  assert (Zpos p mod 10 = Z.of_N (Npos p `mod` 10)) as -> by (by rewrite N2Z.inj_mod).
  assert (1 ≤ Npos p `div` 10)%N as Hd by (apply N.div_le_lower_bound; lia).
  destruct (Npos p `div` 10)%N as [|q] eqn:Eq; [lia|].
  change (pretty (Z.of_N (Npos q))) with (pretty_N_go (Npos q) "").
  rewrite pretty_N_go_app. f_equal.
  pose proof (N.mod_lt (Npos p) 10 ltac:(lia)) as Hm. revert Hm.
  generalize (Npos p `mod` 10)%N. intros x Hx.
  assert (x ∈ [0; 1; 2; 3; 4; 5; 6; 7; 8; 9]%N) as Hin.
  { rewrite !elem_of_cons, elem_of_nil. lia. }
  rewrite !elem_of_cons, elem_of_nil in Hin. naive_solver.
Qed.

(** A digit is one character; the number of digits is the logarithm. *)
Lemma strlen_digit z : 0 ≤ z < 10 → strlen (dec z) = 1.
Proof.
  intros Hz. assert (z ∈ [0; 1; 2; 3; 4; 5; 6; 7; 8; 9]) as Hin.
  { rewrite !elem_of_cons, elem_of_nil. lia. }
  rewrite !elem_of_cons, elem_of_nil in Hin. naive_solver.
Qed.

Lemma strlen_dec_le (k : nat) z : 0 ≤ z < 10 ^ Z.of_nat (S k) → strlen (dec z) ≤ Z.of_nat (S k).
Proof.
  revert z. induction k as [|k IH]; intros z Hz.
  - change (10 ^ Z.of_nat 1) with 10 in Hz. by rewrite strlen_digit.
  - destruct (decide (z < 10)) as [Hs|Hs]; [rewrite strlen_digit by lia; lia|].
    rewrite dec_split, strlen_app by lia.
    pose proof (Z.mod_pos_bound z 10 ltac:(lia)). rewrite (strlen_digit (z mod 10)) by done.
    assert (strlen (dec (z / 10)) ≤ Z.of_nat (S k)); [|lia]. apply IH. split; [apply Z.div_pos; lia|].
    apply Z.div_lt_upper_bound; [lia|]. rewrite <- Z.pow_succ_r by lia.
    replace (Z.succ (Z.of_nat (S k))) with (Z.of_nat (S (S k))) by lia. lia.
Qed.

Lemma strlen_dec_ge (k : nat) z : 10 ^ Z.of_nat k ≤ z → Z.of_nat (S k) ≤ strlen (dec z).
Proof.
  revert z. induction k as [|k IH]; intros z Hz.
  - change (10 ^ Z.of_nat 0) with 1 in Hz. destruct (decide (z < 10)) as [Hs|Hs].
    + rewrite strlen_digit by lia. lia.
    + rewrite dec_split, strlen_app by lia. pose proof (Z.mod_pos_bound z 10 ltac:(lia)).
      rewrite (strlen_digit (z mod 10)) by done. pose proof (strlen_nonneg (dec (z / 10))). lia.
  - assert (10 ^ Z.of_nat (S k) = 10 * 10 ^ Z.of_nat k) as E.
    { rewrite <- Z.pow_succ_r by lia. f_equal. lia. }
    assert (1 ≤ 10 ^ Z.of_nat k) by (pose proof (Z.pow_pos_nonneg 10 (Z.of_nat k)); lia).
    rewrite dec_split, strlen_app by lia. pose proof (Z.mod_pos_bound z 10 ltac:(lia)).
    rewrite (strlen_digit (z mod 10)) by done.
    assert (Z.of_nat (S k) ≤ strlen (dec (z / 10))); [|lia]. apply IH.
    apply Z.div_le_lower_bound; lia.
Qed.

Lemma strlen_dec_neg z : z < 0 → strlen (dec z) = 1 + strlen (dec (- z)).
Proof.
  intros Hz. destruct z as [|p|p]; [lia|lia|]. unfold dec.
  change (pretty (Zneg p)) with (String "-" (pretty_N_go (Npos p) "")).
  change (pretty (- Zneg p)) with (pretty_N_go (Npos p) ""). unfold strlen. simpl. lia.
Qed.

Lemma scan_number_dec10 n rest :
  0 ≤ n → ends_number rest → scan_number 10 (dec n +:+ rest) = Some (false, n, rest).
Proof.
  intros Hn Hr. unfold scan_number, dec. destruct n as [|p|p]; [| |lia].
  - change (pretty 0 +:+ rest) with (String "0" rest).
    change (skip_space (String "0" rest)) with (String "0" rest).
    change (scan_sign (String "0" rest)) with (false, String "0" rest).
    cbn [Z.eqb Pos.eqb scan_digits]. change (digit_val "0" <? 10) with true. cbv iota.
    by rewrite scan_stop by (done || lia).
  - change (pretty (Zpos p)) with (pretty_N_go (Npos p) ""). rewrite pretty_N_go_app.
    change ("" +:+ rest) with rest.
    destruct (pretty_N_go_head (Npos p) rest) as (c & r & E & Hc); [done|].
    destruct (digit_head c Hc) as (H1 & H2 & H3 & H4).
    destruct (scan_digits_go (Npos p) rest 0 0) as (d & _ & Hd & Es).
    rewrite E in *. cbn [skip_space]. rewrite H1. cbn [scan_sign]. rewrite H2, H3.
    cbn [Z.eqb Pos.eqb]. rewrite Es, scan_stop by (done || lia).
    specialize (Hd ltac:(lia)). replace (0 + d =? 0) with false by lia.
    by rewrite Z.mul_0_l.
Qed.

(** [strtoul] and [strtoll] read a number back and leave what follows it. *)
Lemma strtoul_dec n rest :
  0 ≤ n ≤ ULONG_MAX → ends_number rest → strtoul 10 (dec n +:+ rest) = (n, rest).
Proof.
  intros Hn Hr. unfold strtoul. rewrite scan_number_dec10 by (done || lia).
  by replace (ULONG_MAX <? n) with false by lia.
Qed.

Lemma strtoll_dec n rest :
  0 ≤ n < 2 ^ 63 → ends_number rest → strtoll 10 (dec n +:+ rest) = (n, rest).
Proof.
  intros Hn Hr. unfold strtoll. rewrite scan_number_dec10 by (done || lia).
  by rewrite Z.min_l by lia.
Qed.
