(* ===== verification/Histogram.v ===== *)
(** * Latency histograms

    [histogram_show], the text rendering of a power-of-two histogram that
    each of the three tracing modules carries (trace_irqoff.c,
    trace_noschedule.c; trace_runqlat.c has a copy with one more line, see
    [RunqLat]).  The bar of a bucket is written into a buffer of
    [NUMBER_CHARACTER + 1] characters with two [memset] calls; a length
    outside the buffer is [Wild]. *)

From S2P Require Import Prelude CLib.

Definition NUMBER_CHARACTER : Z := 40.

(** The scan for the largest count and for the end of the last bucket in
    use. *)
Fixpoint histogram_scan (hist : list Z) (i count_max zero_index : Z) : Z * Z :=
  match hist with
  | [] => (count_max, zero_index)
  | count :: rest =>
      histogram_scan rest (i + 1)
        (if count_max <? count then count else count_max)
        (if negb (count =? 0) then i + 1 else zero_index)
  end.

(** [memset(str, '*', num); memset(str + num, ' ', 40 - num); str[40] = 0]. *)
Definition histogram_bar (num : Z) : res string :=
  if (0 <=? num) && (num <=? NUMBER_CHARACTER)
  then Done (rep "*" (Z.to_nat num) +:+ rep " " (Z.to_nat (NUMBER_CHARACTER - num)))
  else Wild.

Definition scale_max (i : Z) : Z := i32 (Z.shiftl 2 i).
Definition scale_min (i : Z) : Z := if i =? 0 then 1 else Z.quot (scale_max i) 2.

Definition histogram_row (factor count_max i count : Z) : res string :=
  let num := i32 (u64 (count * NUMBER_CHARACTER) / count_max) in
  str ← histogram_bar num;
  Done (padl " " 10 (dec (i32 (u32 (scale_min i * factor)))) +:+ " -> " +:+
        padr 10 (dec (i32 (u32 (scale_max i * factor - 1)))) +:+ " : " +:+
        padr 8 (dec count) +:+ " |" +:+ str +:+ "|" +:+ nl).

Fixpoint histogram_rows (hist : list Z) (factor count_max i zero_index : Z)
    : res string :=
  match hist with
  | [] => Done ""
  | count :: rest =>
      if i <? zero_index then
        row ← histogram_row factor count_max i count;
        more ← histogram_rows rest factor count_max (i + 1) zero_index;
        Done (row +:+ more)
      else Done ""
  end.

Definition histogram_title : string :=
  rep " " 9 +:+ "msecs" +:+ rep " " 10 +:+ " : " +:+ padr 9 "count" +:+ " " +:+
  "distribution" +:+ nl.

Definition histogram_show (header : option string) (hist : list Z) (factor : Z)
    : res (bool * string) :=
  let '(count_max, zero_index) := histogram_scan hist 0 0 0 in
  if count_max =? 0 then Done (false, "")
  else
    rows ← histogram_rows hist factor count_max 0 zero_index;
    Done (true, match header with Some h => h +:+ nl | None => "" end +:+
                histogram_title +:+ rows).

(** ** The scan *)

Definition counts_ok (hist : list Z) : Prop := Forall (fun c => 0 ≤ c < 2 ^ 64) hist.

Lemma histogram_scan_max hist i m z :
  m ≤ fst (histogram_scan hist i m z) ∧
  Forall (fun c => c ≤ fst (histogram_scan hist i m z)) hist ∧
  (fst (histogram_scan hist i m z) = m ∨ fst (histogram_scan hist i m z) ∈ hist).
Proof.
  revert i m z. induction hist as [|c hist IH]; intros i m z; simpl.
  { split; [lia|]. split; [constructor|by left]. }
  set (m' := if m <? c then c else m). set (z' := if negb _ then _ else _).
  destruct (IH (i + 1) m' z') as (H1 & H2 & H3).
  assert (m ≤ m' ∧ c ≤ m' ∧ (m' = m ∨ m' = c)) as (? & ? & Hm')
    by (subst m'; case_match; lia).
  split; [lia|]. split.
  { constructor; [lia|done]. }
  destruct H3 as [->|H3]; [|right; by right].
  destruct Hm' as [->| ->]; [by left|right; left].
Qed.

(** With counts of an [unsigned long], a bar never leaves its buffer: the
    product may wrap, but wrapping only makes it shorter. *)
Lemma bar_num_bound count m :
  0 ≤ count ≤ m → 0 < m →
  0 ≤ u64 (count * NUMBER_CHARACTER) / m ≤ NUMBER_CHARACTER.
Proof.
  intros. unfold NUMBER_CHARACTER.
  pose proof (wrap_range 64 (count * 40)). pose proof (wrap_le 64 (count * 40)).
  split; [apply Z.div_pos; lia|].
  apply Z.lt_succ_r, Z.div_lt_upper_bound; lia.
Qed.

Lemma histogram_scan_zero hist :
  counts_ok hist → fst (histogram_scan hist 0 0 0) = 0 ↔ Forall (fun c => c = 0) hist.
Proof.
  intros Hc. destruct (histogram_scan_max hist 0 0 0) as (_ & Hle & Hin).
  unfold counts_ok in Hc. rewrite Forall_forall in Hc, Hle. split.
  - intros E. rewrite Forall_forall. intros c Hi.
    specialize (Hle c Hi). specialize (Hc c Hi). lia.
  - intros Hz. destruct Hin as [->|Hin]; [done|].
    rewrite Forall_forall in Hz. by apply Hz.
Qed.

(** ** Reference rendering *)

(** The histogram without its trailing empty buckets. *)
Fixpoint trim_zeros (hist : list Z) : list Z :=
  match hist with
  | [] => []
  | c :: rest =>
      match trim_zeros rest with
      | [] => if c =? 0 then [] else [c]
      | t => c :: t
      end
  end.

(** A bar of [n] stars out of 40, and the line of a bucket. *)
Definition bar (n : Z) : string :=
  rep "*" (Z.to_nat n) +:+ rep " " (Z.to_nat (40 - n)).
Definition row_text (factor m i count : Z) : string :=
  padl " " 10 (dec (i32 (u32 (scale_min i * factor)))) +:+ " -> " +:+
  padr 10 (dec (i32 (u32 (scale_max i * factor - 1)))) +:+ " : " +:+
  padr 8 (dec count) +:+ " |" +:+ bar (u64 (count * 40) / m) +:+ "|" +:+ nl.
Fixpoint rows_text (factor m i : Z) (hist : list Z) : string :=
  match hist with
  | [] => ""
  | c :: rest => row_text factor m i c +:+ rows_text factor m (i + 1) rest
  end.

Definition maximum (hist : list Z) : Z := foldr Z.max 0 hist.

Lemma maximum_nonneg hist : 0 ≤ maximum hist.
Proof. unfold maximum. induction hist; simpl; lia. Qed.

Lemma maximum_le hist c : c ∈ hist → c ≤ maximum hist.
Proof.
  unfold maximum. induction hist as [|x hist IH]; [by intros ?%elem_of_nil|].
  intros [->|H]%elem_of_cons; simpl; [lia|]. specialize (IH H). lia.
Qed.

Lemma scan_maximum hist i m z :
  0 ≤ m → fst (histogram_scan hist i m z) = Z.max m (maximum hist).
Proof.
  revert i m z. induction hist as [|c hist IH]; intros i m z Hm; simpl.
  - lia.
  - rewrite IH by (case_match; lia). pose proof (maximum_nonneg hist).
    unfold maximum in *. simpl. case_match; lia.
Qed.

Lemma scan_used hist i m z :
  snd (histogram_scan hist i m z) =
    match trim_zeros hist with [] => z | t => i + zlen t end.
Proof.
  revert i m z. induction hist as [|c hist IH]; intros i m z; simpl; [done|].
  rewrite IH. destruct (trim_zeros hist) as [|t ts] eqn:E.
  - destruct (c =? 0); simpl; [done|]. zlen_lia.
  - zlen_lia.
Qed.

Lemma trim_zeros_length hist : zlen (trim_zeros hist) ≤ zlen hist.
Proof.
  induction hist as [|c hist IH]; simpl; [zlen_lia|].
  destruct (trim_zeros hist); [destruct (c =? 0)|]; zlen_lia.
Qed.

Lemma histogram_row_text factor m i c :
  0 ≤ c ≤ m → 0 < m → histogram_row factor m i c = Done (row_text factor m i c).
Proof.
  intros Hc Hm. unfold histogram_row, row_text, bar, histogram_bar.
  pose proof (bar_num_bound c m Hc Hm) as Hn. unfold NUMBER_CHARACTER in *.
  rewrite (i32_small (u64 (c * 40) / m)) by lia.
  by replace ((0 <=? _) && _) with true by lia.
Qed.

Lemma histogram_rows_text hist factor m i :
  Forall (fun c => 0 ≤ c ≤ m) hist → 0 < m →
  ∀ z, z = i + zlen (trim_zeros hist) →
  histogram_rows hist factor m i z = Done (rows_text factor m i (trim_zeros hist)).
Proof.
  intros H Hm. revert i. induction H as [|c hist Hc H IH]; intros i z Hz; simpl; [done|].
  pose proof (zlen_nonneg (trim_zeros hist)). simpl in Hz.
  destruct (trim_zeros hist) as [|t ts] eqn:E.
  - destruct (c =? 0) eqn:E0; simpl.
    + replace (i <? z) with false by zlen_lia. done.
    + replace (i <? z) with true by zlen_lia.
      rewrite histogram_row_text, (IH (i + 1)) by (done || zlen_lia). done.
  - replace (i <? z) with true by zlen_lia.
    rewrite histogram_row_text, (IH (i + 1)) by (done || zlen_lia). done.
Qed.

Lemma trim_zeros_nil hist : trim_zeros hist = [] ↔ Forall (fun c => c = 0) hist.
Proof.
  induction hist as [|c hist IH]; simpl; [split; [constructor|done]|].
  rewrite Forall_cons, <- IH. destruct (trim_zeros hist); [|naive_solver].
  destruct (Z.eqb_spec c 0); naive_solver.
Qed.

Lemma histogram_show_text header hist factor :
  counts_ok hist →
  histogram_show header hist factor =
    Done (if forallb (Z.eqb 0) hist then (false, "")
          else (true,
                match header with Some h => h +:+ nl | None => "" end +:+
                histogram_title +:+
                rows_text factor (maximum hist) 0 (trim_zeros hist))).
Proof.
  intros Hc. unfold histogram_show.
  pose proof (scan_maximum hist 0 0 0 ltac:(lia)) as Hm.
  pose proof (scan_used hist 0 0 0) as Hu.
  pose proof (histogram_scan_zero hist Hc) as Hz.
  destruct (histogram_scan hist 0 0 0) as [cm zi]. simpl in *.
  pose proof (maximum_nonneg hist). subst cm.
  destruct (forallb (Z.eqb 0) hist) eqn:E.
  - replace (Z.max 0 (maximum hist) =? 0) with true; [done|].
    symmetry. apply Z.eqb_eq, Hz. rewrite Forall_forall. intros c Hi.
    rewrite forallb_forall in E. specialize (E c). rewrite <- list_elem_of_In in E.
    specialize (E Hi). lia.
  - assert (trim_zeros hist ≠ []) as Ht.
    { intros Hn%trim_zeros_nil. assert (forallb (Z.eqb 0) hist = true); [|congruence].
      apply forallb_forall. intros c Hi%list_elem_of_In.
      rewrite Forall_forall in Hn. rewrite (Hn c Hi). done. }
    assert (0 < maximum hist).
    { destruct (Z.eq_dec (maximum hist) 0) as [E0|]; [|lia].
      destruct Ht. apply trim_zeros_nil, Hz. lia. }
    replace (Z.max 0 (maximum hist) =? 0) with false by lia.
    rewrite Z.max_r by lia.
    rewrite histogram_rows_text; [done| |done|destruct (trim_zeros hist); [done|lia]].
    unfold counts_ok in Hc. rewrite Forall_forall in *. intros c Hi.
    specialize (Hc c Hi). pose proof (maximum_le hist c Hi). lia.
Qed.

(** C18: on any histogram of [unsigned long] counts, [histogram_show]
    stays inside its buffers and prints the reference rendering: nothing when
    every bucket is empty, and otherwise the header, the title and one line
    per bucket up to the last one in use, each bar scaled to the largest
    count. *)
Theorem histogram_show_reference header hist factor :
  counts_ok hist →
  histogram_show header hist factor =
    Done (if forallb (Z.eqb 0) hist then (false, "")
          else (true,
                match header with Some h => h +:+ nl | None => "" end +:+
                histogram_title +:+
                rows_text factor (maximum hist) 0 (trim_zeros hist))).
Proof. apply histogram_show_text. Qed.

Lemma histogram_show_reference_witness :
  counts_ok [0; 3; 0; 1; 0] ∧
  histogram_show None [0; 3; 0; 1; 0] 20 =
    Done (true, histogram_title +:+ rows_text 20 3 0 [0; 3; 0; 1]).
Proof.
  assert (counts_ok [0; 3; 0; 1; 0]) as H by (repeat constructor; lia).
  split; [exact H|]. exact (histogram_show_reference None [0; 3; 0; 1; 0] 20 H).
Defined.
