(* ===== verification/Kernel.v ===== *)
(** * What the tracing modules read from the kernel

    The scheduler state, the clock and the stack unwinder are not part of
    this repository: an [env] holds what one activation of a handler reads
    from them, and [env_ok] states what the kernel documents about it.
    Calls into the timer, proc and tracepoint interfaces are recorded as
    [kcall] values in the order the code makes them.

    [store_stack_trace] and [strlcpy]ing of a command name are the same in
    trace_irqoff.c and trace_noschedule.c and are modelled here once. *)

From S2P Require Import Prelude CLib.

Definition EPERM : Z := 1.
Definition ENOENT : Z := 2.
Definition EAGAIN : Z := 11.
Definition ENOMEM : Z := 12.
Definition EEXIST : Z := 17.
Definition ENODEV : Z := 19.
Definition EINVAL : Z := 22.

Definition TASK_COMM_LEN : Z := 16.

(** [KERNEL_VERSION(a, b, c)]. *)
Definition KERNEL_VERSION (a b c : Z) : Z := Z.shiftl a 16 + Z.shiftl b 8 + c.

Record env := mk_env {
  now : Z;                      (* local_clock() *)
  cur_comm : string;            (* current->comm *)
  cur_pid : Z;                  (* current->pid *)
  cur_cpu : Z;                  (* smp_processor_id() *)
  irq_regs : bool;              (* get_irq_regs() is not NULL *)
  regs_stack : Z → list Z;      (* what unwinding from the interrupted
                                   registers stores in a buffer of n words *)
  here_stack : Z → list Z;      (* the same, from the current context *)
}.

(** The clock is a [u64], and the unwinder stores at most as many entries as
    the buffer it is given holds (the contract of [stack_trace_save*] and of
    [save_stack_trace*]). *)
Record env_ok (e : env) : Prop := {
  now_range : 0 ≤ now e < 2 ^ 64;
  regs_stack_fits n : 0 ≤ n → zlen (regs_stack e n) ≤ n;
  here_stack_fits n : 0 ≤ n → zlen (here_stack e n) ≤ n;
}.

Inductive kcall :=
| hrtimer_forward_now (period : Z)
| hrtimer_init
| hrtimer_start_range_ns (period : Z)
| hrtimer_cancel
| mod_timer (ms : Z)
| setup_timer
| add_timer_on (ms : Z)
| del_timer_sync
| pr_info (msg : string).

(** [strlcpy(dst, src, size)]: at most [size - 1] characters. *)
Definition strlcpy (src : string) (size : Z) : string :=
  String.substring 0 (Z.to_nat (size - 1)) src.

(** One recorded stack: how many words, and where they start in the
    [entries] array of the same CPU ([None] is a NULL pointer).  This is
    [struct irqoff_trace] and [struct stack_entry]. *)
Record stack_desc := mk_stack { sd_nr : Z; sd_entries : option Z }.
#[export] Instance eta_stack_desc : Eta stack_desc :=
  fun s => mk_stack (sd_nr s) (sd_entries s).

Section StoreStackTrace.
(** The kernel the module is compiled for, and whether
    [kallsyms_lookup_name] found the unwinder that starts from registers. *)
Context (version : Z) (have_regs_unwinder : bool).

Definition unwind (e : env) (regs : bool) (max_entries : Z) : list Z :=
  if regs && have_regs_unwinder then regs_stack e max_entries
  else here_stack e max_entries.

(** [store_stack_trace(regs, trace, entries + off, max_entries, 0)]:
    the new [entries] array and the descriptor. *)
Definition store_stack_trace (e : env) (regs : bool) (entries : list Z)
    (off max_entries : Z) : res (list Z * stack_desc) :=
  let ws := unwind e regs max_entries in
  entries' ← awrite entries off ws;
  let nr := u32 (zlen ws) in
  if version <? KERNEL_VERSION 5 1 0 then
    if negb (nr =? 0) then
      last ← aget entries' (off + (nr - 1));
      Done (entries', mk_stack (if last =? ULONG_MAX then nr - 1 else nr) (Some off))
    else Done (entries', mk_stack nr (Some off))
  else Done (entries', mk_stack nr (Some off)).

(** The stack a descriptor stands for: the unwound words, without the
    end marker of older kernels. *)
Definition kept_stack (ws : list Z) : list Z :=
  if version <? KERNEL_VERSION 5 1 0 then
    match last ws with
    | Some w => if w =? ULONG_MAX then take (length ws - 1) ws else ws
    | None => ws
    end
  else ws.

Lemma unwind_fits e regs n : env_ok e → 0 ≤ n → zlen (unwind e regs n) ≤ n.
Proof.
  intros He Hn. unfold unwind. split_if;
    [by apply regs_stack_fits|by apply here_stack_fits].
Qed.

Lemma kept_stack_le ws : zlen (kept_stack ws) ≤ zlen ws.
Proof.
  unfold kept_stack, zlen. repeat case_match; rewrite ?length_take; lia.
Qed.

(** The words are stored at [off] and nowhere before it, and the descriptor
    delimits exactly the kept stack. *)
Lemma store_stack_trace_spec e regs entries off n :
  env_ok e → 0 ≤ off → 0 ≤ n → off + n ≤ zlen entries → n < 2 ^ 32 →
  ∃ entries',
    store_stack_trace e regs entries off n =
      Done (entries', mk_stack (zlen (kept_stack (unwind e regs n))) (Some off)) ∧
    zlen entries' = zlen entries ∧
    slice entries' off (zlen (kept_stack (unwind e regs n))) =
      kept_stack (unwind e regs n) ∧
    (∀ j m, 0 ≤ j → 0 ≤ m → j + m ≤ off → slice entries' j m = slice entries j m).
Proof.
  intros He Hoff Hn Hfit H32. unfold store_stack_trace.
  pose proof (unwind_fits e regs n He Hn) as Hws.
  set (ws := unwind e regs n) in *. pose proof (zlen_nonneg ws).
  destruct (awrite entries off ws) as [entries'| |] eqn:Ew;
    try (rewrite awrite_in in Ew by lia; discriminate).
  exists entries'. pose proof (awrite_len _ _ _ _ Ew) as Hlen.
  pose proof (slice_awrite _ _ _ _ Ew) as Hsl.
  assert (∀ k, 0 ≤ k ≤ zlen ws → slice entries' off k = take (Z.to_nat k) ws) as Hk.
  { intros k Hk. rewrite <- Hsl. unfold slice. rewrite take_take. f_equal. lia. }
  split; [|split; [done|split; [|intros; by eapply slice_awrite_before]]].
  - simpl. rewrite u32_small by (split; [lia|simpl in *; lia]).
    unfold kept_stack. split_if; [|done].
    destruct ws as [|w ws' _] using rev_ind; [done|].
    replace (negb (zlen (ws' ++ [w]) =? 0)) with true by zlen_lia.
    assert (aget entries' (off + (zlen (ws' ++ [w]) - 1)) = Done w) as ->.
    { apply aget_done. split; [zlen_lia|].
      assert (slice entries' off (zlen (ws' ++ [w])) !! length ws' = Some w) as Hl.
      { rewrite Hsl. rewrite lookup_app_r, Nat.sub_diag by lia. done. }
      unfold slice in Hl. rewrite lookup_take, lookup_drop in Hl.
      case_decide; [|done]. rewrite <- Hl. f_equal. zlen_lia. }
    simpl. rewrite last_snoc. case_match; [|done].
    f_equal. f_equal. f_equal. unfold zlen. rewrite length_take, length_app. simpl. lia.
  - rewrite Hk by (split; [apply zlen_nonneg|apply kept_stack_le]).
    unfold kept_stack. repeat case_match; unfold zlen;
      rewrite ?length_take, Nat2Z.id; try (rewrite firstn_all; done).
    f_equal. lia.
Qed.
End StoreStackTrace.

(** ** The stacks recorded on one CPU

    The words of the recorded stacks lie one after the other in [entries]:
    [windows ds a b] says that the descriptors [ds] cover [a .. b-1] in
    order. *)

Fixpoint windows (ds : list stack_desc) (a b : Z) : Prop :=
  match ds with
  | [] => a = b
  | d :: ds' => sd_entries d = Some a ∧ 0 ≤ sd_nr d ∧ windows ds' (a + sd_nr d) b
  end.

Definition stack_of (entries : list Z) (d : stack_desc) : list Z :=
  match sd_entries d with
  | Some off => slice entries off (sd_nr d)
  | None => []
  end.

Lemma windows_le ds a b : windows ds a b → a ≤ b.
Proof.
  revert a. induction ds as [|d ds IH]; intros a; simpl; [lia|].
  intros (_ & ? & H). apply IH in H. lia.
Qed.

Lemma windows_snoc ds a b d :
  windows ds a b → sd_entries d = Some b → 0 ≤ sd_nr d →
  windows (ds ++ [d]) a (b + sd_nr d).
Proof.
  revert a. induction ds as [|d' ds IH]; intros a; simpl.
  - intros <- ? ?. auto.
  - intros (? & ? & H) ? ?. auto.
Qed.

Lemma windows_lookup ds a b i d :
  windows ds a b → ds !! i = Some d →
  ∃ off, sd_entries d = Some off ∧ a ≤ off ∧ 0 ≤ sd_nr d ∧ off + sd_nr d ≤ b.
Proof.
  revert a i. induction ds as [|d' ds IH]; intros a [|i]; simpl; try done.
  - intros (? & ? & H) ?. simplify_eq. apply windows_le in H.
    exists a. repeat split; auto; lia.
  - intros (? & ? & H) Hi. destruct (IH _ _ H Hi) as (off & ? & ? & ? & ?).
    exists off. repeat split; auto; lia.
Qed.

(** Writing past the covered part leaves the recorded stacks alone. *)
Lemma stacks_unchanged ds a b entries entries' :
  windows ds a b → 0 ≤ a →
  (∀ j m, 0 ≤ j → 0 ≤ m → j + m ≤ b → slice entries' j m = slice entries j m) →
  stack_of entries' <$> ds = stack_of entries <$> ds.
Proof.
  intros Hw Ha Hs. apply list_fmap_ext. intros i d Hd.
  destruct (windows_lookup _ _ _ i d Hw Hd) as (off & Hoff & ? & ? & ?).
  unfold stack_of. rewrite Hoff. apply Hs; lia.
Qed.

(** ** Printing a stack *)

Section PrintStack.
(** [%pS], the kernel's rendering of a code address. *)
Context (pS : Z → string).

Definition seq_print_stack_trace (ent : list Z) (d : stack_desc) : res string :=
  match sd_entries d with
  | None => Done ""                                       (* WARN_ON *)
  | Some off =>
      foldr (fun i acc =>
          w ← aget ent (off + Z.of_nat i);
          rest ← acc;
          Done (rep " " 5 +:+ pS w +:+ nl +:+ rest))
        (Done "") (seq 0 (Z.to_nat (sd_nr d)))
  end.

Definition print_words (ws : list Z) : string :=
  texts (fun w => rep " " 5 +:+ pS w +:+ nl) ws.

Lemma seq_print_stack_ok ent ds b i d :
  windows ds 0 b → b ≤ zlen ent → ds !! i = Some d →
  seq_print_stack_trace ent d = Done (print_words (stack_of ent d)).
Proof.
  intros Hw Hb Hd. destruct (windows_lookup _ _ _ i d Hw Hd) as (off & Hoff & ? & ? & ?).
  unfold seq_print_stack_trace, stack_of, print_words. rewrite Hoff.
  apply print_indexed.
  - unfold slice, zlen in *. rewrite length_take, length_drop. lia.
  - intros k w acc Hk. unfold slice in Hk.
    rewrite lookup_take, lookup_drop in Hk. case_decide; [|done].
    assert (aget ent (off + Z.of_nat k) = Done w) as ->.
    { apply aget_done. split; [lia|]. rewrite <- Hk. f_equal. lia. }
    simpl. by rewrite !string_app_assoc.
Qed.
End PrintStack.

(** ** Load paths

    Decides what one path of a module's init function gives: the result and
    which calls it makes. *)

Ltac init_path :=
  change (- ENOMEM) with (-12); change (- ENODEV) with (-19); simpl;
  rewrite ?negb_true_iff, ?negb_false_iff, ?Forall_cons, ?Forall_nil in *;
  repeat match goal with
  | |- _ ∧ _ => split
  | |- _ ↔ _ => split
  | |- True => exact I
  | |- ¬ _ => intro
  | |- ∀ _, _ => intro
  | H : _ ∧ _ |- _ => destruct H
  | H : _ ∈ _ :: _ |- _ => apply elem_of_cons in H as [H|H]; simplify_eq
  | H : _ ∈ [] |- _ => apply elem_of_nil in H; destruct H
  | _ => congruence
  | |- _ ∈ _ => by repeat first [left | right]
  end.
