(* ===== verification/IrqOff.v ===== *)
(** * trace-irqoff: latency caused by disabled interrupts

    src/trace/trace-irqoff/trace_irqoff.c.  Per CPU, a high resolution timer
    and a classic timer fire every [sampling_period]; a late firing means
    that interrupts (or softirqs) were off, and is counted in a histogram
    and, above [trace_irqoff_latency], recorded with a stack trace.  The
    proc files clear the records and change the two settings. *)

From S2P Require Import Prelude CLib Histogram Kernel.

(** ** Data *)

Definition MAX_TRACE_ENTRIES : Z := 1024 / 8.
Definition PER_TRACE_ENTRIES_AVERAGE : Z := 8 + 8.
Definition MAX_STACE_TRACE_ENTRIES : Z := MAX_TRACE_ENTRIES / PER_TRACE_ENTRIES_AVERAGE.
Definition MAX_LATENCY_RECORD : Z := 10.

(** [struct { u64 nsecs:63; u64 more:1; }]. *)
Record lat_bits := mk_lat { nsecs : Z; more : bool }.

Record stack_trace_metadata := mk_meta {
  last_timestamp : Z;
  nr_irqoff_trace : Z;
  trace : list stack_desc;
  nr_entries : Z;
  entries : list Z;
  latency_count : list Z;
  comms : list string;
  pids : list Z;
  latency : list lat_bits;
}.
#[export] Instance eta_meta : Eta stack_trace_metadata := fun m =>
  mk_meta (last_timestamp m) (nr_irqoff_trace m) (trace m) (nr_entries m)
    (entries m) (latency_count m) (comms m) (pids m) (latency m).

Record per_cpu_stack_trace := mk_percpu {
  hardirq_trace : stack_trace_metadata;
  softirq_trace : stack_trace_metadata;
  softirq_delayed : bool;
}.
#[export] Instance eta_percpu : Eta per_cpu_stack_trace := fun p =>
  mk_percpu (hardirq_trace p) (softirq_trace p) (softirq_delayed p).

(** The module's globals and the per-CPU areas of the online CPUs. *)
Record module := mk_module {
  trace_enable : bool;
  sampling_period : Z;
  trace_irqoff_latency : Z;
  have_regs_unwinder : bool;
  cpus : list (Z * per_cpu_stack_trace);
}.
#[export] Instance eta_module : Eta module := fun s =>
  mk_module (trace_enable s) (sampling_period s) (trace_irqoff_latency s)
    (have_regs_unwinder s) (cpus s).

(** Zeroed memory, as [alloc_percpu] returns it, and the static values. *)
Definition zero_meta : stack_trace_metadata :=
  mk_meta 0 0 (replicate 8 (mk_stack 0 None)) 0 (replicate 128 0)
    (replicate 10 0) (replicate 8 "") (replicate 8 0) (replicate 8 (mk_lat 0 false)).
Definition zero_percpu : per_cpu_stack_trace := mk_percpu zero_meta zero_meta false.
Definition module_start (have : bool) (online : list Z) : module :=
  mk_module false (10 * 1000 * 1000) (50 * 1000 * 1000) have
    ((fun c => (c, zero_percpu)) <$> online).

(** ** Recording *)

Section Handlers.
Context (version : Z).

Definition save_trace (have : bool) (e : env) (regs hardirq : bool) (lat : Z)
    (st : stack_trace_metadata)
    : res (stack_trace_metadata * bool * list kcall) :=
  let nr := nr_irqoff_trace st in
  if MAX_STACE_TRACE_ENTRIES <=? nr then Done (st, false, [])
  else
  let ne := nr_entries st in
  if MAX_TRACE_ENTRIES - 1 <=? ne then Done (st, false, [])
  else
  comms' ← aset (comms st) nr (strlcpy (cur_comm e) TASK_COMM_LEN);
  pids' ← aset (pids st) nr (cur_pid e);
  latency' ← aset (latency st) nr (mk_lat (wrap 63 lat) (negb hardirq && regs));
  '(entries', d) ← store_stack_trace version have e regs (entries st) ne
                     (MAX_TRACE_ENTRIES - ne);
  trace' ← aset (trace st) nr d;
  let st' := st <| comms := comms' |> <| pids := pids' |>
                <| latency := latency' |> <| entries := entries' |>
                <| trace := trace' |>
                <| nr_entries := u64 (ne + sd_nr d) |>
                <| nr_irqoff_trace := u64 (nr + 1) |> in
  if MAX_TRACE_ENTRIES - 1 <=? nr_entries st'
  then Done (st', false, [pr_info "BUG: MAX_TRACE_ENTRIES too low!"])
  else Done (st', true, []).

(** [while (delta > throttle) { index++; delta >>= 1; }], from [index]. *)
Fixpoint bucket_loop (fuel : nat) (delta throttle index : Z) : Z :=
  match fuel with
  | O => index
  | S k => if throttle <? delta
           then bucket_loop k (Z.shiftr delta 1) throttle (index + 1)
           else index
  end.

Definition trace_irqoff_record (s : module) (e : env) (delta : Z)
    (hardirq skip : bool) (p : per_cpu_stack_trace)
    : res (per_cpu_stack_trace * bool * list kcall) :=
  let throttle := u64 (Z.shiftl (sampling_period s) 1) in
  if delta <? throttle then Done (p, false, [])
  else
  let index := bucket_loop 64 (Z.shiftr delta 1) throttle 0 in
  let index := if MAX_LATENCY_RECORD <=? index then MAX_LATENCY_RECORD - 1 else index in
  p1 ← (if hardirq then
          let m := hardirq_trace p in
          c ← aget (latency_count m) index;
          lc ← aset (latency_count m) index (u64 (c + 1));
          Done (p <| hardirq_trace := m <| latency_count := lc |> |>)
        else if negb skip then
          let m := softirq_trace p in
          c ← aget (latency_count m) index;
          lc ← aset (latency_count m) index (u64 (c + 1));
          Done (p <| softirq_trace := m <| latency_count := lc |> |>)
        else Done p);
  if trace_irqoff_latency s <=? delta then
    let regs := if skip then irq_regs e else false in
    let m := if hardirq then hardirq_trace p1 else softirq_trace p1 in
    '(m', _, ks) ← save_trace (have_regs_unwinder s) e regs hardirq delta m;
    Done (if hardirq then p1 <| hardirq_trace := m' |>
          else p1 <| softirq_trace := m' |>, true, ks)
  else Done (p1, true, []).

Definition trace_irqoff_hrtimer_handler (s : module) (e : env)
    (p : per_cpu_stack_trace) : res (per_cpu_stack_trace * list kcall) :=
  let delta := u64 (now e - last_timestamp (hardirq_trace p)) in
  let p := p <| hardirq_trace := (hardirq_trace p) <| last_timestamp := now e |> |> in
  let k0 := [pr_info ("delta is : " +:+ dec delta +:+ nl)] in
  '(p, recorded, k1) ← trace_irqoff_record s e delta true true p;
  '(p, k2) ←
    (if recorded : bool then
       Done (p <| softirq_trace := (softirq_trace p) <| last_timestamp := now e |> |>, [])
     else if negb (softirq_delayed p) then
       let delta_soft := u64 (now e - last_timestamp (softirq_trace p)) in
       if trace_irqoff_latency s <=? delta_soft then
         let p := p <| softirq_delayed := true |> in
         '(p, _, k) ← trace_irqoff_record s e delta_soft false true p;
         Done (p, k)
       else Done (p, [])
     else Done (p, []));
  Done (p, k0 ++ k1 ++ k2 ++ [hrtimer_forward_now (sampling_period s)]).

Definition trace_irqoff_timer_handler (s : module) (e : env)
    (p : per_cpu_stack_trace) : res (per_cpu_stack_trace * list kcall) :=
  let delta := u64 (now e - last_timestamp (softirq_trace p)) in
  let p := p <| softirq_trace := (softirq_trace p) <| last_timestamp := now e |> |> in
  let p := p <| softirq_delayed := false |> in
  '(p, _, k) ← trace_irqoff_record s e delta false false p;
  Done (p, k ++ [mod_timer (sampling_period s / 1000000)]).
End Handlers.

(** ** Control *)

Definition clear_meta (m : stack_trace_metadata) : stack_trace_metadata :=
  m <| nr_entries := 0 |> <| nr_irqoff_trace := 0 |>
    <| latency_count := replicate 10 0 |>.

Definition smp_clear_stack_trace (p : per_cpu_stack_trace) : per_cpu_stack_trace :=
  p <| hardirq_trace := clear_meta (hardirq_trace p) |>
    <| softirq_trace := clear_meta (softirq_trace p) |>.

Definition smp_timers_start (s : module) (e : env) (p : per_cpu_stack_trace)
    : per_cpu_stack_trace * list kcall :=
  (p <| hardirq_trace := (hardirq_trace p) <| last_timestamp := now e |> |>
     <| softirq_trace := (softirq_trace p) <| last_timestamp := now e |> |>,
   [hrtimer_start_range_ns (sampling_period s);
    add_timer_on (sampling_period s / 1000000)]).

Definition trace_latency_write (input : option Z) (count : Z) (s : module)
    : module * Z :=
  match input with
  | None => (s, - EINVAL)
  | Some lat =>
      if lat =? 0 then
        (s <| cpus := (fun c => (c.1, smp_clear_stack_trace c.2)) <$> cpus s |>, count)
      else if lat <? u64 (Z.shiftl (sampling_period s) 1) / (1000 * 1000) then
        (s, - EINVAL)
      else (s <| trace_irqoff_latency := u64 (u64 (lat * 1000) * 1000) |>, count)
  end.

Definition sampling_period_write (input : option Z) (count : Z) (s : module)
    : module * Z :=
  if trace_enable s then (s, - EINVAL)
  else
  match input with
  | None => (s, - EINVAL)
  | Some period =>
      let period := u64 (period * (1000 * 1000)) in
      let s1 := if Z.shiftr (trace_irqoff_latency s) 1 <? period
                then s <| trace_irqoff_latency := u64 (Z.shiftl period 1) |> else s in
      (s1 <| sampling_period := period |>, count)
  end.

(** [clock] gives what each CPU reads while its timers are started. *)
Definition trace_irqoff_start_timers (clock : Z → env) (s : module)
    : module * list (Z * kcall) :=
  (s <| cpus := (fun c => (c.1, (smp_timers_start s (clock c.1) c.2).1)) <$> cpus s |>,
   c ← cpus s;
   (fun k => (c.1, k)) <$> [hrtimer_init; setup_timer] ++
      (smp_timers_start s (clock c.1) c.2).2).

Definition trace_irqoff_cancel_timers (s : module) : list (Z * kcall) :=
  c ← cpus s; (fun k => (c.1, k)) <$> [hrtimer_cancel; del_timer_sync].

Definition enable_write (input : option bool) (count : Z) (clock : Z → env)
    (s : module) : module * Z * list (Z * kcall) :=
  match input with
  | None => (s, - EINVAL, [])
  | Some enable =>
      if bool_decide (enable = trace_enable s) then (s, count, [])
      else if enable then
        let '(s', ks) := trace_irqoff_start_timers clock s in
        (s' <| trace_enable := enable |>, count, ks)
      else (s <| trace_enable := enable |>, count, trace_irqoff_cancel_timers s)
  end.

(** ** The proc files *)

Definition sum_counts (a b : list Z) : list Z := zip_with (fun x y => u64 (x + y)) a b.

Definition distribute_show_one (s : module) (hardirq : bool) : res string :=
  let count := foldl (fun acc c =>
      sum_counts acc (latency_count (if hardirq then hardirq_trace c.2
                                     else softirq_trace c.2)))
    (replicate 10 0) (cpus s) in
  '(_, out) ← histogram_show (Some (if hardirq then "hardirq-off:" else "softirq-off:"))
                count (u32 (u64 (Z.shiftl (sampling_period s) 1) / (1000 * 1000)));
  Done out.

Definition distribute_show (s : module) : res string :=
  a ← distribute_show_one s true;
  b ← distribute_show_one s false;
  Done (a +:+ b).

Section Show.
(** [%pS], the kernel's rendering of a code address. *)
Context (pS : Z → string).

Definition show_record (comm : string) (pid : Z) (l : lat_bits) : string :=
  rep " " 5 +:+ "COMMAND: " +:+ comm +:+ " PID: " +:+ dec pid +:+
  " LATENCY: " +:+ dec (nsecs l / (1000 * 1000)) +:+
  (if more l then "+ms" else "ms") +:+ nl.

Definition trace_latency_show_cpu (m : stack_trace_metadata) : res string :=
  foldr (fun i acc =>
      comm ← aget (comms m) (Z.of_nat i);
      pid ← aget (pids m) (Z.of_nat i);
      l ← aget (latency m) (Z.of_nat i);
      d ← aget (trace m) (Z.of_nat i);
      st ← seq_print_stack_trace pS (entries m) d;
      rest ← acc;
      Done (show_record comm pid l +:+ st +:+ nl +:+ rest))
    (Done "") (seq 0 (Z.to_nat (nr_irqoff_trace m))).

Definition trace_latency_show_one (s : module) (hardirq : bool) : res string :=
  foldr (fun c acc =>
      let m := if hardirq then hardirq_trace c.2 else softirq_trace c.2 in
      if nr_irqoff_trace m =? 0 then acc
      else
        body ← trace_latency_show_cpu m;
        rest ← acc;
        Done (" cpu: " +:+ dec c.1 +:+ nl +:+ body +:+ rest))
    (Done "") (cpus s).

Definition trace_latency_show (s : module) : res string :=
  h ← trace_latency_show_one s true;
  f ← trace_latency_show_one s false;
  Done ("trace_irqoff_latency: " +:+ dec (trace_irqoff_latency s / (1000 * 1000)) +:+
        "ms" +:+ nl +:+ nl +:+ " hardirq:" +:+ nl +:+ h +:+ nl +:+
        " softirq:" +:+ nl +:+ f).
End Show.

Definition enable_show (s : module) : string :=
  (if trace_enable s then "enabled" else "disabled") +:+ nl.
Definition sampling_period_show (s : module) : string :=
  dec (sampling_period s / (1000 * 1000)) +:+ "ms" +:+ nl.

(** ** Loading and unloading *)

(** The calls of [trace_irqoff_init]; a parent of [false] is NULL, that is
    the root of /proc. *)
Inductive icall :=
| alloc_percpu
| free_percpu
| proc_mkdir (name : string)
| proc_create (name : string)
| remove_proc_entry (name : string) (parent : bool)
| proc_remove (parent : bool)
| remove_proc_subtree (name : string).

#[export] Instance icall_eq_dec : EqDecision icall.
Proof. solve_decision. Defined.

(** The labels of the error path, each falling through to the next. *)
Definition remove_trace_irqoff (dir : bool) : list icall := [proc_remove dir].
Definition remove_distribute (dir : bool) : list icall :=
  remove_proc_entry "distribute" dir :: remove_trace_irqoff dir.
Definition remove_trace_latency (dir : bool) : list icall :=
  remove_proc_entry "trace_latency" dir :: remove_distribute dir.
Definition remove_enable (dir : bool) : list icall :=
  remove_proc_entry "enable" dir :: remove_trace_latency dir.
Definition free_percpu_label (dir : bool) : list icall :=
  free_percpu :: remove_enable dir.

(** [ok c]: the allocating call [c] succeeds. *)
Definition trace_irqoff_init (ok : icall → bool) : Z * list icall :=
  if negb (ok alloc_percpu) then (- ENOMEM, [alloc_percpu]) else
  let t := [alloc_percpu; proc_mkdir "trace_irqoff"] in
  if negb (ok (proc_mkdir "trace_irqoff")) then (- ENOMEM, t ++ free_percpu_label false) else
  let t := t ++ [proc_create "distribute"] in
  if negb (ok (proc_create "distribute")) then (- ENOMEM, t ++ remove_trace_irqoff true) else
  let t := t ++ [proc_create "trace_latency"] in
  if negb (ok (proc_create "trace_latency")) then (- ENOMEM, t ++ remove_distribute true) else
  let t := t ++ [proc_create "enable"] in
  if negb (ok (proc_create "enable")) then (- ENOMEM, t ++ remove_trace_latency true) else
  let t := t ++ [proc_create "sampling_period"] in
  if negb (ok (proc_create "sampling_period")) then (- ENOMEM, t ++ remove_enable true) else
  (0, t).

Definition trace_irqoff_exit (s : module) : list (Z * kcall) * list icall :=
  (if trace_enable s then trace_irqoff_cancel_timers s else [],
   [remove_proc_subtree "trace_irqoff"; free_percpu]).

(** ** Invariant and abstraction *)

#[export] Instance stack_desc_inhabited : Inhabited stack_desc := populate (mk_stack 0 None).
#[export] Instance lat_bits_inhabited : Inhabited lat_bits := populate (mk_lat 0 false).

(** The arrays have their C sizes, the counters index them, and the recorded
    stacks tile [entries[0 .. nr_entries-1]]. *)
Record meta_ok (m : stack_trace_metadata) : Prop := {
  mo_trace : length (trace m) = 8%nat;
  mo_comms : length (comms m) = 8%nat;
  mo_pids : length (pids m) = 8%nat;
  mo_latency : length (latency m) = 8%nat;
  mo_entries : length (entries m) = 128%nat;
  mo_hist : length (latency_count m) = 10%nat;
  mo_nr : 0 ≤ nr_irqoff_trace m ≤ 8;
  mo_used : 0 ≤ nr_entries m ≤ 128;
  mo_windows : windows (take (Z.to_nat (nr_irqoff_trace m)) (trace m)) 0 (nr_entries m);
  mo_counts : counts_ok (latency_count m);
  mo_time : 0 ≤ last_timestamp m < 2 ^ 64;
}.

(** A record of the trace_latency file, free of the layout in memory. *)
Record saved := mk_saved {
  s_comm : string; s_pid : Z; s_nsecs : Z; s_more : bool; s_stack : list Z;
}.

Definition record_at (m : stack_trace_metadata) (i : nat) : saved :=
  mk_saved (comms m !!! i) (pids m !!! i) (nsecs (latency m !!! i))
    (more (latency m !!! i)) (stack_of (entries m) (trace m !!! i)).

Definition records (m : stack_trace_metadata) : list saved :=
  record_at m <$> seq 0 (Z.to_nat (nr_irqoff_trace m)).

Lemma zero_meta_ok : meta_ok zero_meta.
Proof. split; simpl; try done; try lia. repeat constructor; lia. Qed.

Lemma clear_meta_ok m : meta_ok m → meta_ok (clear_meta m).
Proof. intros []. split; simpl; try done; try lia. repeat constructor; lia. Qed.

Lemma timestamp_ok m t :
  meta_ok m → 0 ≤ t < 2 ^ 64 → meta_ok (m <| last_timestamp := t |>).
Proof. intros [] ?. by split. Qed.

Section Proofs.
Context (version : Z).

(** The record [save_trace] makes, if it makes one. *)
Definition new_record (have : bool) (e : env) (regs hardirq : bool) (lat used : Z)
    : saved :=
  mk_saved (strlcpy (cur_comm e) 16) (cur_pid e) (wrap 63 lat)
    (negb hardirq && regs)
    (kept_stack version (unwind have e regs (128 - used))).

Definition room (m : stack_trace_metadata) : bool :=
  (nr_irqoff_trace m <? 8) && (nr_entries m <? 127).

Lemma record_at_old m m' i :
  meta_ok m → (i < Z.to_nat (nr_irqoff_trace m))%nat →
  (∀ n, Z.of_nat n < nr_irqoff_trace m → comms m' !! n = comms m !! n ∧ pids m' !! n = pids m !! n ∧
     latency m' !! n = latency m !! n ∧ trace m' !! n = trace m !! n) →
  (∀ j k, 0 ≤ j → 0 ≤ k → j + k ≤ nr_entries m →
     slice (entries m') j k = slice (entries m) j k) →
  record_at m' i = record_at m i.
Proof.
  intros Hm Hi Hsame Hslice. unfold record_at.
  destruct (Hsame i) as (H1 & H2 & H3 & H4); [lia|].
  rewrite !list_lookup_total_alt, H1, H2, H3, H4. f_equal.
  assert (Hn := mo_nr m Hm). assert (Ht := mo_trace m Hm).
  destruct (lookup_lt_is_Some_2 (trace m) i) as [d Hd]; [lia|].
  rewrite Hd. simpl.
  destruct (windows_lookup _ _ _ i d (mo_windows m Hm)) as (off & Hoff & ? & ? & ?).
  { by rewrite lookup_take_lt. }
  unfold stack_of. rewrite Hoff. by apply Hslice.
Qed.

Lemma save_trace_spec have e regs hardirq lat m :
  meta_ok m → env_ok e →
  ∃ m' b ks,
    save_trace version have e regs hardirq lat m = Done (m', b, ks) ∧
    meta_ok m' ∧ latency_count m' = latency_count m ∧
    last_timestamp m' = last_timestamp m ∧
    records m' = records m ++
      (if room m then [new_record have e regs hardirq lat (nr_entries m)] else []).
Proof.
  intros Hm He. unfold save_trace, room.
  change MAX_STACE_TRACE_ENTRIES with 8. change MAX_TRACE_ENTRIES with 128.
  change (128 - 1) with 127.
  assert (Hnr := mo_nr m Hm). assert (Hne := mo_used m Hm).
  destruct (Z.leb_spec 8 (nr_irqoff_trace m)).
  { exists m, false, []. replace (nr_irqoff_trace m <? 8) with false by lia.
    simpl. rewrite app_nil_r. auto. }
  destruct (Z.leb_spec 127 (nr_entries m)).
  { exists m, false, []. replace (nr_entries m <? 127) with false by lia.
    rewrite andb_false_r. simpl. rewrite app_nil_r. auto. }
  replace ((nr_irqoff_trace m <? 8) && (nr_entries m <? 127)) with true by lia.
  pose proof Hm as [Ltr Lc Lp Ll Le Lh _ _ Hw Hcnt Htime].
  rewrite !aset_in by (unfold zlen; lia). simpl.
  destruct (store_stack_trace_spec version have e regs (entries m) (nr_entries m)
      (128 - nr_entries m) He) as (ent' & Hst & Hlen & Hnew & Hold);
    [lia|lia|unfold zlen; lia|simpl; lia|].
  rewrite Hst. simpl. rewrite aset_in by (unfold zlen; lia). simpl.
  set (ws := kept_stack version (unwind have e regs (128 - nr_entries m))) in *.
  assert (0 ≤ zlen ws ≤ 128 - nr_entries m) as Hws.
  { split; [apply zlen_nonneg|]. subst ws. etrans; [apply kept_stack_le|].
    apply unwind_fits; [done|lia]. }
  rewrite !u64_small by lia.
  set (m' := mk_meta _ _ _ _ _ _ _ _ _).
  assert (meta_ok m') as Hm'.
  { subst m'. split; simpl; rewrite ?length_insert; try done; try lia.
    { unfold zlen in Hlen. lia. }
    replace (Z.to_nat (nr_irqoff_trace m + 1)) with (S (Z.to_nat (nr_irqoff_trace m))) by lia.
    rewrite take_insert_next by lia.
    apply (windows_snoc _ _ _ (mk_stack (zlen ws) (Some (nr_entries m)))); simpl; [done|done|lia]. }
  assert (records m' = records m ++ [new_record have e regs hardirq lat (nr_entries m)]) as Hr.
  { unfold records. subst m'. simpl.
    replace (Z.to_nat (nr_irqoff_trace m + 1)) with (S (Z.to_nat (nr_irqoff_trace m))) by lia.
    rewrite seq_S, fmap_app. f_equal.
    - apply list_fmap_ext. intros ? i Hi. apply lookup_seq in Hi.
      apply record_at_old; simpl; [done|lia| |by intros; apply Hold].
      intros n Hn. rewrite !list_lookup_insert_ne by lia. done.
    - simpl. f_equal. unfold record_at, new_record. simpl.
      rewrite !list_lookup_total_insert_eq by lia. unfold stack_of. simpl.
      f_equal. exact Hnew. }
  split_if; eauto 10.
Qed.

(** *** Buckets *)

(** Bucket [k] of a histogram with step [t]: [k] is the number of halvings
    after which half of the delay no longer exceeds the step. *)
Definition in_bucket (t d k : Z) : Prop :=
  0 ≤ k ∧ d / 2 ^ (k + 1) ≤ t ∧ (k = 0 ∨ t < d / 2 ^ k).

Lemma bucket_loop_spec fuel d t i :
  0 ≤ d < 2 ^ Z.of_nat fuel → 0 ≤ t →
  ∃ k, bucket_loop fuel d t i = i + k ∧ 0 ≤ k ∧ d / 2 ^ k ≤ t ∧
       (k = 0 ∨ t < d / 2 ^ (k - 1)).
Proof.
  intros Hd Ht. revert d i Hd. induction fuel as [|fuel IH]; intros d i Hd; simpl.
  { exists 0. rewrite Z.div_1_r. simpl in Hd. lia. }
  destruct (Z.ltb_spec t d) as [Hlt|Hge].
  - destruct (IH (Z.shiftr d 1) (i + 1)) as (k & -> & Hk & H1 & H2).
    { rewrite Z.shiftr_div_pow2 by lia. change (2 ^ 1) with 2.
      rewrite Nat2Z.inj_succ, Z.pow_succ_r in Hd by lia.
      split; [apply Z.div_pos; lia|apply Z.div_lt_upper_bound; lia]. }
    rewrite Z.shiftr_div_pow2 in H1, H2 by lia.
    rewrite Z.div_div, <- Z.pow_add_r in H1 by (try apply Z.pow_nonzero; lia).
    exists (k + 1). split; [lia|]. split; [lia|]. split.
    { by replace (k + 1) with (1 + k) by lia. }
    right. replace (k + 1 - 1) with k by lia.
    destruct H2 as [->|H2]; [by rewrite Z.div_1_r|].
    assert (0 < k).
    { destruct (Z.eq_dec k 0) as [->|]; [|lia].
      rewrite Zdiv_0_r in H2. lia. }
    rewrite Z.div_div, <- Z.pow_add_r in H2 by (try apply Z.pow_nonzero; lia).
    by replace (1 + (k - 1)) with k in H2 by lia.
  - exists 0. rewrite Z.div_1_r. lia.
Qed.

(** Bucket of a delay that reaches the throttle, as the code computes it. *)
Lemma bucket_index_spec delta t :
  0 ≤ delta < 2 ^ 64 → 0 ≤ t →
  in_bucket t delta (bucket_loop 64 (Z.shiftr delta 1) t 0).
Proof.
  intros Hd Ht. destruct (bucket_loop_spec 64 (Z.shiftr delta 1) t 0)
    as (k & -> & Hk & H1 & H2).
  { rewrite Z.shiftr_div_pow2 by lia. change (Z.of_nat 64) with 64.
    split; [apply Z.div_pos; lia|]. apply Z.div_lt_upper_bound; lia. }
  { done. }
  rewrite Z.shiftr_div_pow2 in H1, H2 by lia.
  rewrite Z.div_div, <- Z.pow_add_r in H1 by (try apply Z.pow_nonzero; lia).
  unfold in_bucket. rewrite Z.add_0_l. split; [done|].
  split; [by rewrite Z.add_comm|].
  destruct H2 as [|H2]; [by left|right].
  destruct (Z.eq_dec k 0) as [->|].
  { rewrite Zdiv_0_r in H2. lia. }
  rewrite Z.div_div, <- Z.pow_add_r in H2 by (try apply Z.pow_nonzero; lia).
  by replace (1 + (k - 1)) with k in H2 by lia.
Qed.

(** One more count in bucket [k], the last bucket taking the overflow. *)
Definition bump (hist : list Z) (k : Z) : list Z :=
  alter (fun c => u64 (c + 1)) (Z.to_nat (Z.min k 9)) hist.

Lemma bump_code hist k :
  length hist = 10%nat → 0 ≤ k →
  (c ← aget hist (if MAX_LATENCY_RECORD <=? k then MAX_LATENCY_RECORD - 1 else k);
   aset hist (if MAX_LATENCY_RECORD <=? k then MAX_LATENCY_RECORD - 1 else k) (u64 (c + 1)))
  = Done (bump hist k).
Proof.
  intros Hl Hk. change (MAX_LATENCY_RECORD - 1) with 9. change MAX_LATENCY_RECORD with 10.
  assert ((if 10 <=? k then 9 else k) = Z.min k 9) as -> by (case_match; lia).
  destruct (aget_in hist (Z.min k 9)) as [c Hc]; [unfold zlen; lia|].
  rewrite Hc. simpl. rewrite aset_in by (unfold zlen; lia).
  apply aget_done in Hc as [_ Hc]. unfold bump. f_equal.
  symmetry. by apply (list_alter_at (fun c => u64 (c + 1))).
Qed.

Lemma bump_length hist k : length (bump hist k) = length hist.
Proof. apply length_alter. Qed.

Lemma bump_counts hist k : counts_ok hist → counts_ok (bump hist k).
Proof.
  unfold counts_ok, bump. intros H. apply Forall_alter; [done|].
  intros c _ _. apply (wrap_range 64). lia.
Qed.

Lemma bump_ok m k : meta_ok m → meta_ok (m <| latency_count := bump (latency_count m) k |>).
Proof.
  intros []. split; simpl; rewrite ?bump_length; auto. by apply bump_counts.
Qed.

(** *** One delay *)

Definition percpu_ok (p : per_cpu_stack_trace) : Prop :=
  meta_ok (hardirq_trace p) ∧ meta_ok (softirq_trace p).

Definition side (hardirq : bool) (p : per_cpu_stack_trace) : stack_trace_metadata :=
  if hardirq then hardirq_trace p else softirq_trace p.

Definition throttle_of (s : module) : Z := u64 (Z.shiftl (sampling_period s) 1).

(** The records added for a delay: one when it reaches the threshold and
    the CPU still has room. *)
Definition added (s : module) (e : env) (hardirq skip : bool) (delta : Z)
    (m : stack_trace_metadata) : list saved :=
  if (trace_irqoff_latency s <=? delta) && room m then
    [new_record (have_regs_unwinder s) e (if skip then irq_regs e else false)
       hardirq delta (nr_entries m)]
  else [].

Record recorded (s : module) (e : env) (delta : Z) (hardirq skip : bool)
    (p p' : per_cpu_stack_trace) : Prop := {
  rd_ok : percpu_ok p';
  rd_bucket : ∃ k, in_bucket (throttle_of s) delta k ∧
    latency_count (side hardirq p') =
      (if hardirq || negb skip then bump (latency_count (side hardirq p)) k
       else latency_count (side hardirq p));
  rd_records : records (side hardirq p') =
    records (side hardirq p) ++ added s e hardirq skip delta (side hardirq p);
  rd_time : last_timestamp (side hardirq p') = last_timestamp (side hardirq p);
  rd_frame : side (negb hardirq) p' = side (negb hardirq) p;
  rd_delayed : softirq_delayed p' = softirq_delayed p;
}.

(** A delay below twice the sampling period is ignored; any other
    delay is counted in the bucket that [in_bucket] determines (except for
    the softirq side when it is only noticed by the hard timer) and is
    appended to the records of its side exactly when it reaches the
    threshold and there is room; nothing else changes. *)
Lemma irqoff_record_cases s e delta hardirq skip p :
  percpu_ok p → env_ok e → 0 ≤ delta < 2 ^ 64 →
  if delta <? throttle_of s
  then trace_irqoff_record version s e delta hardirq skip p = Done (p, false, [])
  else ∃ p' ks,
    trace_irqoff_record version s e delta hardirq skip p = Done (p', true, ks) ∧
    recorded s e delta hardirq skip p p'.
Proof.
  intros [Hh Hs] He Hd. unfold trace_irqoff_record. fold (throttle_of s).
  split_if; [done|].
  assert (0 ≤ throttle_of s) as Ht by (apply wrap_range; lia).
  pose proof (bucket_index_spec delta (throttle_of s) Hd Ht) as Hk.
  set (k := bucket_loop _ _ _ _) in *. pose proof (proj1 Hk) as Hk0.
  assert (meta_ok (side hardirq p)) as Hm by (by destruct hardirq).
  set (m1 := if hardirq || negb skip
             then (side hardirq p) <| latency_count := bump (latency_count (side hardirq p)) k |>
             else side hardirq p).
  assert (meta_ok m1) as Hm1 by (subst m1; split_if; [by apply bump_ok|done]).
  set (p1 := if hardirq then p <| hardirq_trace := m1 |> else p <| softirq_trace := m1 |>).
  match goal with |- context [mbind _ ?b] => assert (b = Done p1) as -> end.
  { pose proof (bump_code _ k (mo_hist _ Hm) Hk0) as (c & Hc & Hb)%bind_done.
    subst p1 m1. destruct hardirq; [|destruct skip]; simpl in *;
      try (by destruct p); rewrite Hc; simpl; by rewrite Hb. }
  simpl.
  destruct (save_trace_spec (have_regs_unwinder s) e
    (if skip then irq_regs e else false) hardirq delta m1 Hm1 He)
    as (m' & b & ks & Hsave & Hm' & Hlc & Hts & Hrec).
  assert (records m1 = records (side hardirq p) ∧ room m1 = room (side hardirq p) ∧
    nr_entries m1 = nr_entries (side hardirq p) ∧
    last_timestamp m1 = last_timestamp (side hardirq p)) as (Er & Ero & Ene & Ets)
    by (subst m1; split_if; done).
  rewrite Er, Ero, Ene in Hrec. rewrite Ets in Hts.
  assert (latency_count m1 = if hardirq || negb skip
    then bump (latency_count (side hardirq p)) k
    else latency_count (side hardirq p)) as Elc by (subst m1; split_if; done).
  rewrite Elc in Hlc.
  assert ((if hardirq then hardirq_trace p1 else softirq_trace p1) = m1) as ->
    by (subst p1; by destruct hardirq).
  destruct (trace_irqoff_latency s <=? delta) eqn:El.
  - rewrite Hsave. simpl. do 2 eexists. split; [done|].
    subst p1. split; unfold added, percpu_ok; rewrite ?El; destruct hardirq; simpl; eauto.
  - do 2 eexists. split; [done|].
    subst p1. split; unfold added, percpu_ok; rewrite ?El; destruct hardirq; simpl;
      rewrite ?app_nil_r; eauto.
Qed.

(** *** The timers *)

Lemma side_ok h p : percpu_ok p → meta_ok (side h p).
Proof. intros []. by destruct h. Qed.

(** What the soft side looks like after the hard timer found no delay of
    its own: a late softirq is recorded once, until the soft timer runs. *)
Definition soft_check (s : module) (e : env) (p p' : per_cpu_stack_trace) : Prop :=
  let d := u64 (now e - last_timestamp (softirq_trace p)) in
  hardirq_trace p' = hardirq_trace p ∧
  last_timestamp (softirq_trace p') = last_timestamp (softirq_trace p) ∧
  latency_count (softirq_trace p') = latency_count (softirq_trace p) ∧
  if negb (softirq_delayed p) && (trace_irqoff_latency s <=? d)
  then softirq_delayed p' = true ∧
       records (softirq_trace p') = records (softirq_trace p) ++
         (if d <? throttle_of s then [] else added s e false true d (softirq_trace p))
  else p' = p.

Definition set_hard_time (t : Z) (p : per_cpu_stack_trace) : per_cpu_stack_trace :=
  p <| hardirq_trace := (hardirq_trace p) <| last_timestamp := t |> |>.
Definition set_soft_time (t : Z) (p : per_cpu_stack_trace) : per_cpu_stack_trace :=
  p <| softirq_trace := (softirq_trace p) <| last_timestamp := t |> |>.

Lemma set_time_ok p t : percpu_ok p → 0 ≤ t < 2 ^ 64 →
  percpu_ok (set_hard_time t p) ∧ percpu_ok (set_soft_time t p).
Proof. intros [] ?. split; split; first [done | by apply timestamp_ok]. Qed.

Lemma hrtimer_cases s e p :
  percpu_ok p → env_ok e →
  ∃ p' ks, trace_irqoff_hrtimer_handler version s e p =
      Done (p', ks ++ [hrtimer_forward_now (sampling_period s)]) ∧
    percpu_ok p' ∧
    let d := u64 (now e - last_timestamp (hardirq_trace p)) in
    if d <? throttle_of s
    then soft_check s e (set_hard_time (now e) p) p'
    else ∃ p1, recorded s e d true true (set_hard_time (now e) p) p1 ∧
               p' = set_soft_time (now e) p1.
Proof.
  intros Hp He. unfold trace_irqoff_hrtimer_handler. fold (set_hard_time (now e) p).
  set (d := u64 (now e - last_timestamp (hardirq_trace p))).
  destruct (set_time_ok p (now e) Hp (now_range e He)) as [Hp0 _].
  set (p0 := set_hard_time (now e) p) in *.
  pose proof (irqoff_record_cases s e d true true p0 Hp0 He (u64_range _)) as Hr.
  destruct (d <? throttle_of s).
  - rewrite Hr. simpl. unfold soft_check.
    set (ds := u64 (now e - last_timestamp (softirq_trace p0))).
    change (u64 (now e - last_timestamp (softirq_trace p))) with ds.
    change (softirq_delayed p) with (softirq_delayed p0).
    destruct (negb (softirq_delayed p0)) eqn:Hdl; simpl;
      [|eexists _, [_]; by repeat split; try apply Hp0].
    destruct (trace_irqoff_latency s <=? ds) eqn:Hl; simpl;
      [|eexists _, [_]; by repeat split; try apply Hp0].
    match goal with |- context [trace_irqoff_record _ _ _ _ false true ?q] =>
      change q with (p0 <| softirq_delayed := true |>) end.
    assert (percpu_ok (p0 <| softirq_delayed := true |>)) as Hp1 by apply Hp0.
    pose proof (irqoff_record_cases s e ds false true _ Hp1 He (u64_range _)) as Hr1.
    destruct (ds <? throttle_of s).
    + rewrite Hr1. simpl. eexists _, [_]. split; [done|]. split; [done|].
      simpl. rewrite app_nil_r. done.
    + destruct Hr1 as (p' & ks & -> & [Hok (k & Hk & Hlc) Hrec Hts Hfr Hdl']).
      simpl in *. eexists _, (_ :: ks). split; [done|]. split; [done|].
      by repeat split.
  - destruct Hr as (p1 & ks & -> & Hrd). simpl.
    eexists _, (_ :: ks). split; [done|]. split; [|by exists p1].
    apply (set_time_ok p1 (now e)); [apply Hrd|by apply now_range].
Qed.

Lemma timer_cases s e p :
  percpu_ok p → env_ok e →
  ∃ p' ks, trace_irqoff_timer_handler version s e p =
      Done (p', ks ++ [mod_timer (sampling_period s / 1000000)]) ∧
    percpu_ok p' ∧
    let d := u64 (now e - last_timestamp (softirq_trace p)) in
    let p0 := set_soft_time (now e) p <| softirq_delayed := false |> in
    if d <? throttle_of s then p' = p0 else recorded s e d false false p0 p'.
Proof.
  intros Hp He. unfold trace_irqoff_timer_handler. cbv zeta.
  set (d := u64 _).
  match goal with |- context [trace_irqoff_record _ _ _ _ false false ?q] =>
    change q with (set_soft_time (now e) p <| softirq_delayed := false |>) end.
  destruct (set_time_ok p (now e) Hp (now_range e He)) as [_ Hp0].
  assert (percpu_ok (set_soft_time (now e) p <| softirq_delayed := false |>)) as Hp1
    by apply Hp0.
  pose proof (irqoff_record_cases s e d false false _ Hp1 He (u64_range _)) as Hr.
  destruct (d <? throttle_of s).
  - rewrite Hr. by eexists _, [].
  - destruct Hr as (p' & ks & -> & Hrd). exists p', ks. split; [done|].
    split; [apply Hrd|done].
Qed.

(** *** Runs of the module *)

Inductive event :=
| ev_hrtimer (i : nat) (e : env)
| ev_timer (i : nat) (e : env)
| ev_latency_write (input : option Z) (count : Z)
| ev_period_write (input : option Z) (count : Z)
| ev_enable_write (input : option bool) (count : Z) (clock : Z → env).

(** A handler runs on the [i]-th online CPU. *)
Definition on_cpu (i : nat) (f : per_cpu_stack_trace → res (per_cpu_stack_trace * list kcall))
    (s : module) : res module :=
  match cpus s !! i with
  | None => Done s
  | Some (c, p) => '(p', _) ← f p; Done (s <| cpus := <[i := (c, p')]> (cpus s) |>)
  end.

Definition step (ev : event) (s : module) : res module :=
  match ev with
  | ev_hrtimer i e => on_cpu i (trace_irqoff_hrtimer_handler version s e) s
  | ev_timer i e => on_cpu i (trace_irqoff_timer_handler version s e) s
  | ev_latency_write inp count => Done (trace_latency_write inp count s).1
  | ev_period_write inp count => Done (sampling_period_write inp count s).1
  | ev_enable_write inp count clock => Done (enable_write inp count clock s).1.1
  end.

Fixpoint run (evs : list event) (s : module) : res module :=
  match evs with
  | [] => Done s
  | ev :: evs' => s' ← step ev s; run evs' s'
  end.

(** The kernel's side of the contract for an event. *)
Definition event_ok (ev : event) : Prop :=
  match ev with
  | ev_hrtimer _ e | ev_timer _ e => env_ok e
  | ev_enable_write _ _ clock => ∀ c, env_ok (clock c)
  | _ => True
  end.

Definition module_ok (s : module) : Prop := Forall (fun c => percpu_ok c.2) (cpus s).

Lemma module_start_ok have online : module_ok (module_start have online).
Proof.
  unfold module_ok. simpl. apply Forall_fmap, Forall_true. intros c.
  split; apply zero_meta_ok.
Qed.

Lemma on_cpu_ok i f s :
  module_ok s →
  (∀ p, percpu_ok p → ∃ p' ks, f p = Done (p', ks) ∧ percpu_ok p') →
  ∃ s', on_cpu i f s = Done s' ∧ module_ok s'.
Proof.
  intros Hs Hf. unfold on_cpu. destruct (cpus s !! i) as [[c p]|] eqn:E; [|eauto].
  pose proof (proj1 (Forall_lookup _ _) Hs i _ E) as Hp. simpl in Hp.
  destruct (Hf p Hp) as (p' & ks & -> & Hp'). simpl. eexists. split; [done|].
  unfold module_ok. simpl. by apply Forall_insert.
Qed.

Lemma irqoff_step_ok ev s :
  module_ok s → event_ok ev → ∃ s', step ev s = Done s' ∧ module_ok s'.
Proof.
  intros Hs Hev. destruct ev as [i e|i e|inp n|inp n|inp n clock]; simpl in *.
  - apply on_cpu_ok; [done|]. intros p Hp.
    destruct (hrtimer_cases s e p Hp Hev) as (p' & ks & -> & H & _). eauto.
  - apply on_cpu_ok; [done|]. intros p Hp.
    destruct (timer_cases s e p Hp Hev) as (p' & ks & -> & H & _). eauto.
  - eexists; split; [done|]. unfold trace_latency_write.
    repeat case_match; simpl; try done. unfold module_ok. simpl. apply Forall_fmap.
    eapply Forall_impl; [exact Hs|]. intros [c p] [H1 H2].
    split; simpl; by apply clear_meta_ok.
  - eexists; split; [done|]. unfold sampling_period_write. by repeat case_match.
  - eexists; split; [done|]. unfold enable_write. repeat case_match; simplify_eq; try done.
    unfold trace_irqoff_start_timers in *. simplify_eq.
    unfold module_ok. simpl. apply Forall_fmap.
    eapply Forall_impl; [exact Hs|]. intros [c p] Hp.
    destruct (set_time_ok p (now (clock c)) Hp (now_range _ (Hev c))) as [Hp1 _].
    apply (set_time_ok _ (now (clock c)) Hp1 (now_range _ (Hev c))).
Qed.

Lemma irqoff_run_ok evs s :
  module_ok s → Forall event_ok evs → ∃ s', run evs s = Done s' ∧ module_ok s'.
Proof.
  intros Hs Hev. revert s Hs. induction Hev as [|ev evs Hev _ IH]; intros s Hs; simpl.
  - eauto.
  - destruct (irqoff_step_ok ev s Hs Hev) as (s' & -> & Hs'). by apply IH.
Qed.
End Proofs.

(** ** Reading the files back *)

Section ShowProofs.
Context (pS : Z → string).

Definition saved_text (r : saved) : string :=
  show_record (s_comm r) (s_pid r) (mk_lat (s_nsecs r) (s_more r)) +:+
  print_words pS (s_stack r) +:+ nl.

(** The lines of one side of the trace_latency file. *)
Definition cpus_text (h : bool) (cs : list (Z * per_cpu_stack_trace)) : string :=
  foldr (fun c acc =>
      match records (side h c.2) with
      | [] => acc
      | rs => " cpu: " +:+ dec c.1 +:+ nl +:+ texts saved_text rs +:+ acc
      end) "" cs.

Lemma irqoff_show_cpu_text m :
  meta_ok m → trace_latency_show_cpu pS m = Done (texts saved_text (records m)).
Proof.
  intros Hm. unfold trace_latency_show_cpu. apply print_indexed.
  { unfold records. by rewrite length_fmap, length_seq. }
  intros k r acc Hr. unfold records in Hr.
  rewrite list_lookup_fmap in Hr. apply fmap_Some in Hr as (k' & Hk & ->).
  apply lookup_seq in Hk as [-> Hk]. simpl.
  pose proof Hm as [? ? ? ? ? ? ? ? Hw _ _].
  destruct (lookup_lt_is_Some_2 (comms m) k) as [c Hc]; [lia|].
  destruct (lookup_lt_is_Some_2 (pids m) k) as [p Hp]; [lia|].
  destruct (lookup_lt_is_Some_2 (latency m) k) as [l Hl]; [lia|].
  destruct (lookup_lt_is_Some_2 (trace m) k) as [d Hd]; [lia|].
  rewrite (aget_nat _ _ _ Hc), (aget_nat _ _ _ Hp), (aget_nat _ _ _ Hl), (aget_nat _ _ _ Hd).
  simpl.
  rewrite (seq_print_stack_ok pS (entries m) _ _ k d Hw) by
    (first [by rewrite lookup_take_lt | unfold zlen; lia]).
  simpl. f_equal. unfold saved_text, record_at. simpl.
  rewrite !(list_lookup_total_correct _ _ _ Hc), !(list_lookup_total_correct _ _ _ Hp),
    !(list_lookup_total_correct _ _ _ Hl), !(list_lookup_total_correct _ _ _ Hd).
  destruct l. by rewrite !string_app_assoc.
Qed.

Lemma show_one_text s h :
  module_ok s → trace_latency_show_one pS s h = Done (cpus_text h (cpus s)).
Proof.
  unfold module_ok, trace_latency_show_one. intros Hs.
  induction Hs as [|[c p] cs Hp Hs IH]; [done|]. simpl in *.
  rewrite IH. fold (side h p).
  assert (meta_ok (side h p)) as Hm by by apply side_ok.
  assert (Hn := mo_nr _ Hm).
  destruct (Z.eqb_spec (nr_irqoff_trace (side h p)) 0) as [E|E].
  - assert (records (side h p) = []) as -> by (unfold records; by rewrite E). done.
  - rewrite irqoff_show_cpu_text by done. simpl.
    destruct (records (side h p)) eqn:Er; [|done].
    apply (f_equal length) in Er. unfold records in Er.
    rewrite length_fmap, length_seq in Er. simpl in Er. lia.
Qed.
End ShowProofs.

Lemma sum_counts_ok a b : counts_ok (sum_counts a b).
Proof.
  unfold counts_ok, sum_counts. revert b. induction a as [|x a IH]; intros [|y b]; simpl;
    constructor; [apply u64_range|apply IH].
Qed.

Lemma distribute_one_ok s h : ∃ out, distribute_show_one s h = Done out.
Proof.
  unfold distribute_show_one.
  match goal with |- context [histogram_show _ ?l _] => assert (counts_ok l) as Hc end.
  { destruct (cpus s) as [|c cs _] using rev_ind; simpl.
    - repeat constructor; lia.
    - rewrite foldl_app. apply sum_counts_ok. }
  rewrite histogram_show_text by exact Hc. simpl. destruct (forallb _ _); simpl; eauto.
Qed.

(** ** Settings *)

(** The period is a whole number of milliseconds and the threshold is at
    least twice the period. *)
Definition settings_ok (s : module) : Prop :=
  (∃ ms, 0 ≤ ms ∧ sampling_period s = ms * 1000000) ∧
  2 * sampling_period s ≤ trace_irqoff_latency s < 2 ^ 64.

(** Written values for which the conversion to nanoseconds does not wrap. *)
Definition write_small (ev : event) : Prop :=
  match ev with
  | ev_latency_write (Some v) _ => 0 ≤ v ∧ v * 1000000 < 2 ^ 64
  | ev_period_write (Some v) _ => 0 ≤ v ∧ 2 * (v * 1000000) < 2 ^ 64
  | _ => True
  end.

Lemma latency_write_settings v count s :
  settings_ok s → (∀ x, v = Some x → 0 ≤ x ∧ x * 1000000 < 2 ^ 64) →
  settings_ok (trace_latency_write v count s).1.
Proof.
  intros [(ms & Hms & Hp) Hl] Hv. unfold trace_latency_write.
  destruct v as [v|]; [|by split; eauto].
  destruct (Hv v eq_refl) as [Hv0 Hv1].
  destruct (v =? 0); [by split; eauto|].
  rewrite Hp, Z.shiftl_mul_pow2 by lia.
  rewrite (u64_small (ms * 1000000 * 2 ^ 1)) by lia.
  replace (ms * 1000000 * 2 ^ 1) with (2 * ms * (1000 * 1000)) by lia.
  rewrite Z.div_mul by lia. split_if; [by split; eauto|].
  rewrite (u64_small (v * 1000)), (u64_small (v * 1000 * 1000)) by lia.
  split; simpl; [by eauto|]. lia.
Qed.

Lemma period_write_settings v count s :
  settings_ok s → (∀ x, v = Some x → 0 ≤ x ∧ 2 * (x * 1000000) < 2 ^ 64) →
  settings_ok (sampling_period_write v count s).1.
Proof.
  intros [(ms & Hms & Hp) Hl] Hv. unfold sampling_period_write.
  destruct (trace_enable s); [by split; eauto|].
  destruct v as [v|]; [|by split; eauto].
  destruct (Hv v eq_refl) as [Hv0 Hv1].
  change (1000 * 1000) with 1000000. rewrite (u64_small (v * 1000000)) by lia.
  rewrite Z.shiftr_div_pow2, Z.shiftl_mul_pow2 by lia. change (2 ^ 1) with 2.
  rewrite (u64_small (v * 1000000 * 2)) by lia.
  pose proof (Z.div_mod (trace_irqoff_latency s) 2 ltac:(lia)).
  pose proof (Z.mod_pos_bound (trace_irqoff_latency s) 2 ltac:(lia)).
  split; simpl; [by exists v|]. split_if; simpl; lia.
Qed.

Lemma step_settings version ev s s' :
  settings_ok s → write_small ev → step version ev s = Done s' → settings_ok s'.
Proof.
  intros Hs Hw Hstep. destruct ev as [i e|i e|inp n|inp n|inp n clock]; simpl in *.
  1-2: unfold on_cpu in Hstep; destruct (cpus s !! i) as [[c p]|]; inv_done; [|done];
       match goal with v : _ * _ |- _ => destruct v end; inv_done; exact Hs.
  - inv_done. apply latency_write_settings; [done|]. intros x ->. exact Hw.
  - inv_done. apply period_write_settings; [done|]. intros x ->. exact Hw.
  - inv_done. unfold enable_write, trace_irqoff_start_timers.
    repeat case_match; simplify_eq; exact Hs.
Qed.

(** ** Theorems *)


(** C15: a delay below twice the sampling period is ignored; any other
    delay is counted in the bucket that [in_bucket] determines (except for
    the softirq side when it is only noticed by the hard timer) and is
    appended to the records of its side exactly when it reaches the
    threshold and there is room; nothing else changes. *)
Theorem trace_irqoff_record_spec version s e delta hardirq skip p :
  percpu_ok p → env_ok e → 0 ≤ delta < 2 ^ 64 →
  if delta <? throttle_of s
  then trace_irqoff_record version s e delta hardirq skip p = Done (p, false, [])
  else ∃ p' ks,
    trace_irqoff_record version s e delta hardirq skip p = Done (p', true, ks) ∧
    recorded version s e delta hardirq skip p p'.
Proof. apply irqoff_record_cases. Qed.

(** The hard timer records a hard delay and then restarts the soft side's
    clock; only when there is none does it look at the soft side, where it
    records a late softirq at most once until the soft timer runs; it always
    re-arms itself with the sampling period. *)
Theorem trace_irqoff_hrtimer_handler_spec version s e p :
  percpu_ok p → env_ok e →
  ∃ p' ks, trace_irqoff_hrtimer_handler version s e p =
      Done (p', ks ++ [hrtimer_forward_now (sampling_period s)]) ∧
    percpu_ok p' ∧
    let d := u64 (now e - last_timestamp (hardirq_trace p)) in
    if d <? throttle_of s
    then soft_check version s e (set_hard_time (now e) p) p'
    else ∃ p1, recorded version s e d true true (set_hard_time (now e) p) p1 ∧
               p' = set_soft_time (now e) p1.
Proof. apply hrtimer_cases. Qed.

(** As long as no written value wraps when it is converted to
    nanoseconds, the threshold stays at least twice the sampling period,
    which is what makes every recorded delay also a counted one. *)
Theorem irqoff_settings_invariant version have online evs s' :
  Forall write_small evs →
  run version evs (module_start have online) = Done s' → settings_ok s'.
Proof.
  intros Hw. assert (settings_ok (module_start have online)) as Hs.
  { split; simpl; [exists 10; lia|lia]. }
  revert Hs. generalize (module_start have online) as s.
  induction Hw as [|ev evs Hev _ IH]; intros s Hs Hrun; simpl in Hrun.
  - by inv_done.
  - inv_done. eapply IH; [|exact Hrun]. by eapply step_settings.
Qed.

(** Loading.  The module is loaded exactly when every allocation
    succeeds.  When one of the files cannot be created, the files and the
    directory made before are removed, but the per-CPU area is never freed;
    when the directory cannot be created, the area is freed but entries named
    enable, trace_latency and distribute are removed from the root of /proc. *)
Theorem trace_irqoff_init_paths ok :
  let '(ret, calls) := trace_irqoff_init ok in
  (ret = 0 ↔ ok alloc_percpu = true ∧ ok (proc_mkdir "trace_irqoff") = true ∧
     Forall (fun f => ok (proc_create f) = true)
       ["distribute"; "trace_latency"; "enable"; "sampling_period"]) ∧
  (ret ≠ 0 → ret = - ENOMEM) ∧
  (ret ≠ 0 → ok alloc_percpu = true → ok (proc_mkdir "trace_irqoff") = true →
     free_percpu ∉ calls ∧ proc_remove true ∈ calls ∧
     ∀ f, proc_create f ∈ calls → ok (proc_create f) = true →
          remove_proc_entry f true ∈ calls) ∧
  (ok alloc_percpu = true → ok (proc_mkdir "trace_irqoff") = false →
     free_percpu ∈ calls ∧
     ∀ f, f ∈ ["enable"; "trace_latency"; "distribute"] →
          remove_proc_entry f false ∈ calls).
Proof.
  unfold trace_irqoff_init, free_percpu_label, remove_enable, remove_trace_latency,
    remove_distribute, remove_trace_irqoff.
  repeat (split_if; [init_path|]). init_path.
Qed.

(** ** Witnesses *)

(** An interrupt of a task with a two-word stack, at time [t]. *)
Definition demo_env (t : Z) : env :=
  mk_env t "stress" 42 0 true (fun n => take (Z.to_nat n) [11; 22])
    (fun n => take (Z.to_nat n) [33; 44; 55]).

Lemma demo_env_ok t : 0 ≤ t < 2 ^ 64 → env_ok (demo_env t).
Proof. intros. split; simpl; [lia| |]; intros; unfold zlen; rewrite length_take; lia. Qed.

Definition demo_events : list event :=
  [ev_enable_write (Some true) 1 (fun _ => demo_env 1000);
   ev_hrtimer 0 (demo_env 60001000);
   ev_timer 0 (demo_env 200001000)].

Lemma demo_events_ok : Forall event_ok demo_events.
Proof.
  repeat constructor; simpl; intros; try lia; unfold zlen; rewrite length_take; lia.
Qed.


Definition demo_module : module := module_start true [0].

Lemma zero_percpu_ok : percpu_ok zero_percpu.
Proof. split; apply zero_meta_ok. Qed.

Lemma trace_irqoff_record_spec_witness :
  ∃ p' ks,
    trace_irqoff_record (KERNEL_VERSION 5 4 0) demo_module (demo_env 0) 60000000 true true
      zero_percpu = Done (p', true, ks) ∧
    recorded (KERNEL_VERSION 5 4 0) demo_module (demo_env 0) 60000000 true true zero_percpu p'.
Proof.
  exact (trace_irqoff_record_spec (KERNEL_VERSION 5 4 0) demo_module (demo_env 0) 60000000
    true true zero_percpu zero_percpu_ok (demo_env_ok 0 ltac:(lia)) ltac:(lia)).
Defined.

Lemma trace_irqoff_hrtimer_handler_spec_witness :
  ∃ p' ks, trace_irqoff_hrtimer_handler (KERNEL_VERSION 5 4 0) demo_module
    (demo_env 60000000) zero_percpu = Done (p', ks ++ [hrtimer_forward_now 10000000]) ∧
    percpu_ok p'.
Proof.
  destruct (trace_irqoff_hrtimer_handler_spec (KERNEL_VERSION 5 4 0) demo_module
    (demo_env 60000000) zero_percpu zero_percpu_ok (demo_env_ok 60000000 ltac:(lia)))
    as (p' & ks & H & Hp & _).
  exists p', ks. split; [exact H|exact Hp].
Defined.

Definition demo_writes : list event :=
  [ev_period_write (Some 40) 3; ev_latency_write (Some 90) 3].

Lemma irqoff_settings_invariant_witness :
  ∃ s', run (KERNEL_VERSION 5 4 0) demo_writes demo_module = Done s' ∧ settings_ok s'.
Proof.
  eexists. split; [reflexivity|].
  apply (irqoff_settings_invariant (KERNEL_VERSION 5 4 0) true [0] demo_writes).
  - repeat constructor; simpl; lia.
  - reflexivity.
Defined.
