(* ===== verification/NoSched.v ===== *)
(** * trace-noschedule: tasks that keep a CPU without scheduling

    src/trace/trace-noschedule/trace_noschedule.c.  A per-CPU timer samples
    the running task; when the last context switch is further away than
    [duration_threshold] it records the task with its stack once, and the
    next context switch completes the recorded duration and feeds the
    histogram. *)

From S2P Require Import Prelude CLib Histogram Kernel.

(** ** Data *)

Definition DURATION_HISTOGRAM_ENTRY : Z := 12.
Definition NUM_TRACEPOINTS : Z := 1.
Definition MAX_TRACE_ENTRIES : Z := 1024 / 8.
Definition PER_TRACE_ENTRIES_AVERAGE : Z := 8.
Definition MAX_STACE_TRACE_ENTRIES : Z := MAX_TRACE_ENTRIES / PER_TRACE_ENTRIES_AVERAGE.

(** [skip] is a task pointer that is only compared with NULL and copied; a
    task is named by its pid. *)
Record per_cpu_stack_trace := mk_percpu {
  last_timestamp : Z;
  skip : option Z;
  nr_stack_entries : Z;
  nr_entries : Z;
  stack_entries : list stack_desc;
  entries : list Z;
  hist : list Z;
  comms : list string;
  pids : list Z;
  duration : list Z;
}.
#[export] Instance eta_percpu : Eta per_cpu_stack_trace := fun p =>
  mk_percpu (last_timestamp p) (skip p) (nr_stack_entries p) (nr_entries p)
    (stack_entries p) (entries p) (hist p) (comms p) (pids p) (duration p).

(** [struct tracepoint_entry]: the name to look for and the tracepoint found. *)
Record tracepoint_entry := mk_tp { tp_name : string; tp : option Z }.

Record module := mk_module {
  trace_enable : bool;
  duration_threshold : Z;
  have_regs_unwinder : bool;
  tp_entries : list tracepoint_entry;
  tp_initalized : Z;
  cpus : list (Z * per_cpu_stack_trace);
}.
#[export] Instance eta_module : Eta module := fun s =>
  mk_module (trace_enable s) (duration_threshold s) (have_regs_unwinder s)
    (tp_entries s) (tp_initalized s) (cpus s).

(** [static u64 sampling_period], which nothing changes. *)
Definition sampling_period : Z := 10 * 1000 * 1000.

Definition zero_percpu : per_cpu_stack_trace :=
  mk_percpu 0 None 0 0 (replicate 16 (mk_stack 0 None)) (replicate 128 0)
    (replicate 12 0) (replicate 16 "") (replicate 16 0) (replicate 16 0).

Definition nosched_info (have : bool) (online : list Z) : module :=
  mk_module false (50 * 1000 * 1000) have [mk_tp "sched_switch" None] 0
    ((fun c => (c, zero_percpu)) <$> online).

(** What a sample or a switch reads of the scheduler besides [env]. *)
Record sched_env := mk_sched {
  se_env : env;
  se_idle : bool;            (* is_idle_task(current), or of the previous task *)
  se_user_mode : bool;       (* user_mode(regs) *)
  se_single : bool;          (* single_task_running() *)
}.

(** ** Recording *)

Section Handlers.
Context (version : Z).

Definition __stack_trace_record (have : bool) (e : env) (regs : bool) (dur : Z)
    (st : per_cpu_stack_trace) : res (per_cpu_stack_trace * bool * list kcall) :=
  let nrs := nr_stack_entries st in
  if MAX_STACE_TRACE_ENTRIES <=? nrs then Done (st, false, []) else
  let ne := nr_entries st in
  if MAX_TRACE_ENTRIES <=? ne then Done (st, false, []) else
  comms' ← aset (comms st) nrs (strlcpy (cur_comm e) TASK_COMM_LEN);
  pids' ← aset (pids st) nrs (cur_pid e);
  duration' ← aset (duration st) nrs dur;
  '(entries', d) ← store_stack_trace version have e regs (entries st) ne
                     (MAX_TRACE_ENTRIES - ne);
  stack_entries' ← aset (stack_entries st) nrs d;
  let st' := st <| comms := comms' |> <| pids := pids' |>
                <| duration := duration' |> <| entries := entries' |>
                <| stack_entries := stack_entries' |>
                <| nr_entries := u32 (ne + sd_nr d) |>
                <| nr_stack_entries := u32 (nrs + 1) |> in
  if MAX_TRACE_ENTRIES <=? nr_entries st'
  then Done (st', false, [pr_info ("BUG: MAX_TRACE_ENTRIES too low on cpu: " +:+
                                    dec (cur_cpu e) +:+ "!" +:+ nl)])
  else Done (st', true, []).

Definition stack_trace_record (s : module) (e : env) (delta : Z)
    (st : per_cpu_stack_trace) : res (per_cpu_stack_trace * bool * list kcall) :=
  if duration_threshold s <=? delta
  then __stack_trace_record (have_regs_unwinder s) e (irq_regs e) delta st
  else Done (st, false, []).

(** [do { delta >>= 1; index++; } while (delta >= step);] *)
Fixpoint hist_loop (fuel : nat) (delta step index : Z) : Z :=
  match fuel with
  | O => index
  | S k =>
      let delta := Z.shiftr delta 1 in
      let index := index + 1 in
      if step <=? delta then hist_loop k delta step index else index
  end.

Definition hist_update (delta : Z) (st : per_cpu_stack_trace) : res per_cpu_stack_trace :=
  let step := u64 (sampling_period * 2) in
  if delta <? step then Done st else
  let index := hist_loop 64 delta step (-1) in
  let index := if DURATION_HISTOGRAM_ENTRY <=? index
               then DURATION_HISTOGRAM_ENTRY - 1 else index in
  c ← aget (hist st) index;
  h ← aset (hist st) index (u64 (c + 1));
  Done (st <| hist := h |>).

Definition trace_nosched_hrtimer_handler (s : module) (se : sched_env)
    (st : per_cpu_stack_trace) : res (per_cpu_stack_trace * list kcall) :=
  let e := se_env se in
  '(st, k) ←
    (if negb (se_idle se) && irq_regs e && negb (se_user_mode se) && negb (se_single se)
     then
       let delta := u64 (now e - last_timestamp st) in
       match skip st with
       | None =>
           '(st, ok, k) ← stack_trace_record s e delta st;
           Done (if ok : bool then st <| skip := Some (cur_pid e) |> else st, k)
       | Some _ => Done (st, [])
       end
     else Done (st <| last_timestamp := now e |>, []));
  Done (st, k ++ [hrtimer_forward_now sampling_period]).

Definition probe_sched_switch (s : module) (se : sched_env)
    (st : per_cpu_stack_trace) : res per_cpu_stack_trace :=
  let now := now (se_env se) in
  let last := last_timestamp st in
  if negb (trace_enable s) then Done st else
  let st := st <| last_timestamp := now |> in
  st ← (match skip st with
        | Some _ =>
            let index := u32 (nr_stack_entries st - 1) in
            let st := st <| skip := None |> in
            d ← aset (duration st) index (u64 (now - last));
            Done (st <| duration := d |>)
        | None => Done st
        end);
  if negb (se_idle se) && negb (se_single se)
  then hist_update (u64 (now - last)) st
  else Done st.
End Handlers.

(** ** Control *)

Definition threshold_store (input : option Z) (count : Z) (s : module) : module * Z :=
  match input with
  | None => (s, - EINVAL)
  | Some v => (s <| duration_threshold := v |>, count)
  end.

Definition each_hrtimer_start (e : env) (st : per_cpu_stack_trace)
    : per_cpu_stack_trace * list kcall :=
  (st <| last_timestamp := now e |>,
   [hrtimer_init; hrtimer_start_range_ns sampling_period]).

Definition trace_nosched_hrtimer_start (clock : Z → env) (s : module) : module :=
  s <| cpus := (fun c => (c.1, (each_hrtimer_start (clock c.1) c.2).1)) <$> cpus s |>.

Definition trace_nosched_hrtimer_cancel (s : module) : list (Z * kcall) :=
  (fun c => (c.1, hrtimer_cancel)) <$> cpus s.

Inductive tp_call := tp_register (name : string) | tp_unregister (name : string).

(** Registering the probes in order; on a failure other than [-EEXIST] those
    already registered are taken back, last first.  [reg n] is the kernel's
    answer for probe [n]. *)
Fixpoint register_from (reg : string → Z) (todo done_ : list tracepoint_entry)
    : Z * list tp_call :=
  match todo with
  | [] => (0, [])
  | t :: rest =>
      let ret := reg (tp_name t) in
      if negb (ret =? 0) && negb (ret =? - EEXIST) then
        (ret, tp_register (tp_name t) :: (tp_unregister ∘ tp_name <$> done_))
      else
        let '(r, calls) := register_from reg rest (t :: done_) in
        (r, tp_register (tp_name t) :: calls)
  end.
Definition trace_nosched_register_tp (reg : string → Z) (s : module) : Z * list tp_call :=
  register_from reg (tp_entries s) [].

Fixpoint unregister_all (unreg : string → Z) (todo : list tracepoint_entry)
    : Z * list tp_call :=
  match todo with
  | [] => (0, [])
  | t :: rest =>
      let ret := unreg (tp_name t) in
      if negb (ret =? 0) && negb (ret =? - ENOENT) then (ret, [tp_unregister (tp_name t)])
      else let '(r, calls) := unregister_all unreg rest in
           (r, tp_unregister (tp_name t) :: calls)
  end.
Definition trace_nosched_unregister_tp (unreg : string → Z) (s : module) : Z * list tp_call :=
  unregister_all unreg (tp_entries s).

(** [answer] is what the tracepoint interface returns. *)
Definition enable_store (input : option bool) (count : Z) (answer : string → Z)
    (clock : Z → env) (s : module) : module * Z * list tp_call :=
  match input with
  | None => (s, - EINVAL, [])
  | Some enable =>
      if bool_decide (enable = trace_enable s) then (s, count, [])
      else if enable then
        let '(ret, calls) := trace_nosched_register_tp answer s in
        if ret =? 0
        then (trace_nosched_hrtimer_start clock s <| trace_enable := enable |>, count, calls)
        else (s, - EAGAIN, calls)
      else
        let '(ret, calls) := trace_nosched_unregister_tp answer s in
        if negb (ret =? 0) then (s, - EAGAIN, calls)
        else (s <| trace_enable := enable |>, count, calls)
  end.

Definition each_stack_trace_clear (st : per_cpu_stack_trace) : per_cpu_stack_trace :=
  st <| nr_entries := 0 |> <| nr_stack_entries := 0 |> <| hist := replicate 12 0 |>.

Definition stack_trace_store (input : option Z) (count : Z) (s : module) : module * Z :=
  match input with
  | None => (s, - EINVAL)
  | Some clear =>
      if negb (clear =? 0) then (s, - EINVAL)
      else (s <| cpus := (fun c => (c.1, each_stack_trace_clear c.2)) <$> cpus s |>, count)
  end.

(** ** The proc files *)

Definition threshold_show (s : module) : string := dec (duration_threshold s) +:+ nl.
Definition enable_show (s : module) : string :=
  (if trace_enable s then "enabled" else "disabled") +:+ nl.

Definition sum_hist (a b : list Z) : list Z := zip_with (fun x y => u64 (x + y)) a b.

Definition distribution_show (s : module) : res string :=
  let h := foldl (fun acc c => sum_hist acc (hist c.2)) (replicate 12 0) (cpus s) in
  '(_, out) ← histogram_show (Some "Trace noschedule thread:") h
                (u32 (u64 (sampling_period * 2) / (1000 * 1000)));
  Done out.

Section Show.
(** [%pS], the kernel's rendering of a code address. *)
Context (pS : Z → string).

Definition show_record (comm : string) (pid dur : Z) : string :=
  rep " " 5 +:+ "COMM: " +:+ comm +:+ " PID: " +:+ dec pid +:+ " DURATION: " +:+
  dec (dur / (1000 * 1000)) +:+ "ms" +:+ nl.

Definition stack_trace_show_cpu (st : per_cpu_stack_trace) : res string :=
  foldr (fun i acc =>
      d ← aget (stack_entries st) (Z.of_nat i);
      comm ← aget (comms st) (Z.of_nat i);
      pid ← aget (pids st) (Z.of_nat i);
      dur ← aget (duration st) (Z.of_nat i);
      words ← seq_print_stack_trace pS (entries st) d;
      rest ← acc;
      Done (show_record comm pid dur +:+ words +:+ nl +:+ rest))
    (Done "") (seq 0 (Z.to_nat (nr_stack_entries st))).

Definition stack_trace_show (s : module) : res string :=
  foldr (fun c acc =>
      if nr_stack_entries c.2 =? 0 then acc
      else
        body ← stack_trace_show_cpu c.2;
        rest ← acc;
        Done (" cpu: " +:+ dec c.1 +:+ nl +:+ body +:+ rest))
    (Done "") (cpus s).
End Show.

(** ** Loading and unloading *)

Definition is_tracepoint_lookup_success (s : module) : bool :=
  tp_initalized s =? zlen (tp_entries s).

(** The loop of [tracepoint_lookup] over the entries: fill those that still
    lack a tracepoint and carry the name of this one. *)
Fixpoint lookup_entries (name : string) (id : Z) (es : list tracepoint_entry) (n : Z)
    : list tracepoint_entry * Z :=
  match es with
  | [] => ([], n)
  | t :: rest =>
      let '(t', n') :=
        match tp t with
        | Some _ => (t, n)
        | None => if negb (strcmp name (tp_name t) =? 0) then (t, n)
                  else (mk_tp (tp_name t) (Some id), u32 (n + 1))
        end in
      let '(rest', n'') := lookup_entries name id rest n' in
      (t' :: rest', n'')
  end.

Definition tracepoint_lookup (name : string) (id : Z) (s : module) : module :=
  if is_tracepoint_lookup_success s then s
  else
    let '(es, n) := lookup_entries name id (tp_entries s) (tp_initalized s) in
    s <| tp_entries := es |> <| tp_initalized := n |>.

(** [for_each_kernel_tracepoint(tracepoint_lookup, info)]. *)
Definition for_each_kernel_tracepoint (tps : list (string * Z)) (s : module) : module :=
  foldl (fun s t => tracepoint_lookup t.1 t.2 s) s tps.

Inductive icall :=
| alloc_percpu
| free_percpu
| proc_mkdir (name : string)
| proc_create_data (name : string)
| remove_proc_subtree (name : string).

#[export] Instance icall_eq_dec : EqDecision icall.
Proof. solve_decision. Defined.

Definition PROC_DIR_NAME : string := "trace_noschedule".

Definition free_buf : list icall := [free_percpu].
Definition remove_proc : list icall := remove_proc_subtree PROC_DIR_NAME :: free_buf.

(** The files in the order they are created, each failure leaving through
    [remove_proc]. *)
Fixpoint create_files (ok : icall → bool) (files : list string) : bool * list icall :=
  match files with
  | [] => (true, [])
  | f :: rest =>
      if negb (ok (proc_create_data f)) then (false, proc_create_data f :: remove_proc)
      else let '(r, calls) := create_files ok rest in (r, proc_create_data f :: calls)
  end.

Definition trace_noschedule_init (tps : list (string * Z)) (ok : icall → bool)
    (s : module) : module * Z * list icall :=
  let s := for_each_kernel_tracepoint tps s in
  if negb (is_tracepoint_lookup_success s) then (s, - ENODEV, []) else
  if negb (ok alloc_percpu) then (s, - ENOMEM, [alloc_percpu]) else
  let t := [alloc_percpu; proc_mkdir PROC_DIR_NAME] in
  if negb (ok (proc_mkdir PROC_DIR_NAME)) then (s, - ENOMEM, t ++ free_buf) else
  let '(r, calls) :=
    create_files ok ["threshold"; "enable"; "distribution"; "stack_trace"] in
  (s, if r then 0 else - ENOMEM, t ++ calls).

Definition trace_noschedule_exit (unreg : string → Z) (s : module)
    : list (Z * kcall) * list tp_call * list icall :=
  (if trace_enable s then trace_nosched_hrtimer_cancel s else [],
   if trace_enable s then (trace_nosched_unregister_tp unreg s).2 else [],
   [remove_proc_subtree PROC_DIR_NAME; free_percpu]).

(** ** Invariant and abstraction *)

Record percpu_ok (st : per_cpu_stack_trace) : Prop := {
  po_stacks : length (stack_entries st) = 16%nat;
  po_comms : length (comms st) = 16%nat;
  po_pids : length (pids st) = 16%nat;
  po_duration : length (duration st) = 16%nat;
  po_entries : length (entries st) = 128%nat;
  po_hist : length (hist st) = 12%nat;
  po_nr : 0 ≤ nr_stack_entries st ≤ 16;
  po_used : 0 ≤ nr_entries st ≤ 128;
  po_windows : windows (take (Z.to_nat (nr_stack_entries st)) (stack_entries st))
                 0 (nr_entries st);
  po_counts : counts_ok (hist st);
  po_skip : is_Some (skip st) → 1 ≤ nr_stack_entries st;
}.

(** The records of a CPU: command, pid, duration and stack. *)
Definition records (st : per_cpu_stack_trace) : list (string * Z * Z * list Z) :=
  let n := Z.to_nat (nr_stack_entries st) in
  zip (zip (zip (take n (comms st)) (take n (pids st))) (take n (duration st)))
      (stack_of (entries st) <$> take n (stack_entries st)).

Definition room (st : per_cpu_stack_trace) : bool :=
  (nr_stack_entries st <? 16) && (nr_entries st <? 128).

Lemma zip_snoc {A B} (l : list A) (k : list B) a b :
  length l = length k → zip (l ++ [a]) (k ++ [b]) = zip l k ++ [(a, b)].
Proof. intros H. by rewrite zip_with_app. Qed.

Lemma nosched_zero_percpu_ok : percpu_ok zero_percpu.
Proof.
  split; simpl; try done; try lia. repeat constructor; lia.
Qed.

Section Proofs.
Context (version : Z).

Definition new_record (have : bool) (e : env) (regs : bool) (dur used : Z)
    : string * Z * Z * list Z :=
  (strlcpy (cur_comm e) 16, cur_pid e, dur,
   kept_stack version (unwind have e regs (128 - used))).

(** The state after the stores of [__stack_trace_record]. *)
Definition stored (st : per_cpu_stack_trace) (e : env) (dur : Z) (ent : list Z)
    (n : Z) : per_cpu_stack_trace :=
  let i := Z.to_nat (nr_stack_entries st) in
  st <| comms := <[i := strlcpy (cur_comm e) 16]> (comms st) |>
     <| pids := <[i := cur_pid e]> (pids st) |>
     <| duration := <[i := dur]> (duration st) |>
     <| entries := ent |>
     <| stack_entries := <[i := mk_stack n (Some (nr_entries st))]> (stack_entries st) |>
     <| nr_entries := nr_entries st + n |>
     <| nr_stack_entries := nr_stack_entries st + 1 |>.

Lemma stored_ok st e dur ent n :
  percpu_ok st → nr_stack_entries st < 16 → length ent = 128%nat →
  0 ≤ n → nr_entries st + n ≤ 128 → percpu_ok (stored st e dur ent n).
Proof.
  intros [] ? ? ? ?. split; simpl; rewrite ?length_insert; try done; try lia.
  replace (Z.to_nat (nr_stack_entries st + 1)) with (S (Z.to_nat (nr_stack_entries st))) by lia.
  rewrite take_insert_next by lia.
  by apply (windows_snoc _ _ _ (mk_stack n (Some (nr_entries st)))).
Qed.

Lemma stored_records st e dur ent n :
  percpu_ok st → nr_stack_entries st < 16 →
  (∀ j m, 0 ≤ j → 0 ≤ m → j + m ≤ nr_entries st → slice ent j m = slice (entries st) j m) →
  records (stored st e dur ent n) =
    records st ++ [(strlcpy (cur_comm e) 16, cur_pid e, dur, slice ent (nr_entries st) n)].
Proof.
  intros Hst Hn Hold. pose proof Hst as [? ? ? ? ? ? ? ? Hw _ _].
  unfold records, stored. cbn -[take].
  replace (Z.to_nat (nr_stack_entries st + 1)) with (S (Z.to_nat (nr_stack_entries st))) by lia.
  rewrite !take_insert_next by lia. rewrite fmap_app. cbn [fmap list_fmap].
  rewrite (stacks_unchanged _ _ _ (entries st) ent Hw ltac:(lia) Hold).
  rewrite !zip_snoc; [done|..];
    rewrite ?length_zip_with, ?length_fmap, ?length_take; lia.
Qed.

Lemma nosched_record_cases have e regs dur st :
  percpu_ok st → env_ok e →
  ∃ st' b ks,
    __stack_trace_record version have e regs dur st = Done (st', b, ks) ∧
    percpu_ok st' ∧ last_timestamp st' = last_timestamp st ∧ skip st' = skip st ∧
    hist st' = hist st ∧ (b = true → 1 ≤ nr_stack_entries st') ∧
    records st' = records st ++
      (if room st then [new_record have e regs dur (nr_entries st)] else []).
Proof.
  intros Hst He. unfold __stack_trace_record, room.
  change MAX_STACE_TRACE_ENTRIES with 16. change MAX_TRACE_ENTRIES with 128.
  pose proof Hst as [? ? ? ? Hle ? Hnr Hne _ _ _].
  destruct (Z.leb_spec 16 (nr_stack_entries st)).
  { exists st, false, []. replace (nr_stack_entries st <? 16) with false by lia.
    simpl. rewrite app_nil_r. by split_and!. }
  destruct (Z.leb_spec 128 (nr_entries st)).
  { exists st, false, []. replace (nr_entries st <? 128) with false by lia.
    rewrite andb_false_r, app_nil_r. by split_and!. }
  replace ((nr_stack_entries st <? 16) && (nr_entries st <? 128)) with true by lia.
  rewrite !aset_in by (unfold zlen; lia). simpl.
  destruct (store_stack_trace_spec version have e regs (entries st) (nr_entries st)
      (128 - nr_entries st) He) as (ent & Hs & Hlen & Hnew & Hold);
    [lia|lia|unfold zlen; lia|simpl; lia|].
  rewrite Hs. simpl. rewrite aset_in by (unfold zlen; lia). simpl.
  set (ws := kept_stack version (unwind have e regs (128 - nr_entries st))) in *.
  assert (0 ≤ zlen ws ≤ 128 - nr_entries st) as Hws.
  { split; [apply zlen_nonneg|]. subst ws. etrans; [apply kept_stack_le|].
    apply unwind_fits; [done|lia]. }
  rewrite !u32_small by lia.
  match goal with |- context [Done (?q, false, _)] =>
    change q with (stored st e dur ent (zlen ws)) end.
  assert (percpu_ok (stored st e dur ent (zlen ws))) as Hok.
  { apply stored_ok; try done; try lia. unfold zlen in Hlen. lia. }
  assert (records (stored st e dur ent (zlen ws)) =
    records st ++ [new_record have e regs dur (nr_entries st)]) as Hrec.
  { rewrite stored_records by (done || lia). unfold new_record. by rewrite Hnew. }
  split_if; (eexists _, _, _; split; [done|]; split_and!; try done; simpl; lia).
Qed.

(** *** The histogram *)

Definition hist_step : Z := 20000000.

(** Bucket [k] covers the delays from [step * 2^k] to [step * 2^(k+1) - 1],
    which is the range printed for it. *)
Definition in_bucket (d k : Z) : Prop :=
  0 ≤ k ∧ hist_step * 2 ^ k ≤ d < hist_step * 2 ^ (k + 1).

Lemma hist_loop_spec fuel d i :
  hist_step ≤ d < 2 ^ Z.of_nat fuel →
  ∃ k, hist_loop fuel d hist_step i = i + 1 + k ∧ in_bucket d k.
Proof.
  unfold in_bucket, hist_step. revert d i.
  induction fuel as [|fuel IH]; intros d i Hd; simpl.
  { simpl in Hd. lia. }
  rewrite Z.shiftr_div_pow2 by lia. change (2 ^ 1) with 2.
  pose proof (Z.div_mod d 2 ltac:(lia)). pose proof (Z.mod_pos_bound d 2 ltac:(lia)).
  destruct (Z.leb_spec 20000000 (d / 2)).
  - rewrite Nat2Z.inj_succ, Z.pow_succ_r in Hd by lia.
    destruct (IH (d / 2) (i + 1)) as (k & -> & Hk & Hlo & Hhi); [lia|].
    exists (k + 1). split; [lia|]. split; [lia|].
    rewrite (Z.pow_add_r 2 (k + 1) 1), Z.pow_add_r in * by lia.
    change (2 ^ 1) with 2 in *. lia.
  - exists 0. split; [lia|]. simpl. lia.
Qed.

Definition bump (h : list Z) (k : Z) : list Z :=
  alter (fun c => u64 (c + 1)) (Z.to_nat (Z.min k 11)) h.

Lemma hist_update_cases d st :
  percpu_ok st → 0 ≤ d < 2 ^ 64 →
  if d <? hist_step then hist_update d st = Done st
  else ∃ k, in_bucket d k ∧ hist_update d st = Done (st <| hist := bump (hist st) k |>) ∧
            percpu_ok (st <| hist := bump (hist st) k |>).
Proof.
  intros Hst Hd. unfold hist_update. change (u64 (sampling_period * 2)) with hist_step.
  split_if; [done|].
  destruct (hist_loop_spec 64 d (-1)) as (k & -> & Hk); [simpl; lia|].
  exists k. split; [done|]. destruct Hk as [Hk _].
  change (DURATION_HISTOGRAM_ENTRY - 1) with 11. change DURATION_HISTOGRAM_ENTRY with 12.
  assert ((if 12 <=? -1 + 1 + k then 11 else -1 + 1 + k) = Z.min k 11) as -> by (case_match; lia).
  assert (Hl := po_hist st Hst).
  destruct (aget_in (hist st) (Z.min k 11)) as [c Hc]; [unfold zlen; lia|].
  rewrite Hc. simpl. rewrite aset_in by (unfold zlen; lia).
  apply aget_done in Hc as [_ Hc]. split.
  - simpl. unfold bump. by rewrite (list_alter_at (fun c => u64 (c + 1)) _ _ c).
  - destruct Hst. split; simpl; unfold bump; rewrite ?length_alter; try done.
    apply Forall_alter; [done|]. intros x _ _. apply wrap_range. lia.
Qed.

(** *** Samples and switches *)

Lemma hrtimer_ok s se st :
  percpu_ok st → env_ok (se_env se) →
  ∃ st' ks, trace_nosched_hrtimer_handler version s se st =
      Done (st', ks ++ [hrtimer_forward_now sampling_period]) ∧ percpu_ok st' ∧
    hist st' = hist st.
Proof.
  intros Hst He. unfold trace_nosched_hrtimer_handler.
  split_if; [|eexists _, []; split; [done|]; split; [|done]; by destruct Hst].
  destruct (skip st) eqn:Esk; [by eexists _, []|].
  unfold stack_trace_record. split_if; [|by eexists _, []].
  destruct (nosched_record_cases (have_regs_unwinder s) (se_env se) (irq_regs (se_env se))
    (u64 (now (se_env se) - last_timestamp st)) st Hst He)
    as (st' & b & ks & -> & Hok & _ & Hsk & Hh & Hb & _). simpl.
  eexists _, ks. split; [done|]. destruct b; [|by split].
  split; [|done]. destruct Hok. split; try done. intros _. by apply Hb.
Qed.

Lemma switch_ok s se st :
  percpu_ok st → env_ok (se_env se) →
  ∃ st', probe_sched_switch s se st = Done st' ∧ percpu_ok st'.
Proof.
  intros Hst He. unfold probe_sched_switch.
  destruct (trace_enable s); simpl; [|eauto].
  set (d := u64 _). assert (0 ≤ d < 2 ^ 64) as Hd by (apply wrap_range; lia).
  assert (∃ st1, match skip st with
      | Some _ => d0 ← aset (duration st) (u32 (nr_stack_entries st - 1)) d;
          Done (st <| last_timestamp := now (se_env se) |> <| skip := None |> <| duration := d0 |>)
      | None => Done (st <| last_timestamp := now (se_env se) |>) end = Done st1 ∧
      percpu_ok st1) as (st1 & Hm & Hst1).
  { destruct (skip st) eqn:Esk; [|eexists; split; [done|]; by destruct Hst].
    pose proof Hst as [? ? ? Hld ? ? Hnr ? ? ? Hskip].
    assert (1 ≤ nr_stack_entries st) by (apply Hskip; rewrite Esk; eauto).
    rewrite u32_small by lia. rewrite aset_in by (unfold zlen; lia). simpl.
    eexists; split; [done|]. split; simpl; rewrite ?length_insert; try done. }
  simpl in Hm. rewrite Hm. simpl. split_if; [|eauto].
  pose proof (hist_update_cases d st1 Hst1 Hd) as Hu.
  destruct (d <? hist_step); [eauto|].
  destruct Hu as (k & _ & -> & Hok). eauto.
Qed.

(** *** Reachable states *)

Definition module_ok (s : module) : Prop := Forall (fun c => percpu_ok c.2) (cpus s).

(** No CPU is between the recording of a stack and the next switch. *)
Definition quiescent (s : module) : Prop := Forall (fun c => skip c.2 = None) (cpus s).

Definition put_cpu (i : nat) (c : Z) (p : per_cpu_stack_trace) (s : module) : module :=
  s <| cpus := <[i := (c, p)]> (cpus s) |>.

(** The transitions of the module.  [safe] says whether clearing is
    restricted to quiescent states. *)
Inductive step (safe : bool) : module → res module → Prop :=
| st_sample s i c p se : cpus s !! i = Some (c, p) → env_ok (se_env se) →
    step safe s ('(p', _) ← trace_nosched_hrtimer_handler version s se p;
                 Done (put_cpu i c p' s))
| st_switch s i c p se : cpus s !! i = Some (c, p) → env_ok (se_env se) →
    step safe s (p' ← probe_sched_switch s se p; Done (put_cpu i c p' s))
| st_threshold s inp n : step safe s (Done (threshold_store inp n s).1)
| st_enable s inp n answer clock :
    step safe s (Done (enable_store inp n answer clock s).1.1)
| st_clear s inp n : (safe = true → quiescent s) →
    step safe s (Done (stack_trace_store inp n s).1).

Inductive reach (safe : bool) (s0 : module) : res module → Prop :=
| reach_refl : reach safe s0 (Done s0)
| reach_step s r : reach safe s0 (Done s) → step safe s r → reach safe s0 r.

Lemma nosched_info_ok have online : module_ok (nosched_info have online).
Proof. apply Forall_fmap, Forall_true. intros c. apply nosched_zero_percpu_ok. Qed.

Lemma put_cpu_ok i c p s : module_ok s → percpu_ok p → module_ok (put_cpu i c p s).
Proof. intros. unfold module_ok. simpl. by apply Forall_insert. Qed.

Lemma clear_ok p : percpu_ok p → skip p = None → percpu_ok (each_stack_trace_clear p).
Proof.
  intros [] Hs. split; simpl; try done; try lia; [repeat constructor; lia|].
  rewrite Hs. by intros [? [=]].
Qed.

Lemma enable_store_ok inp n answer clock s :
  module_ok s → module_ok (enable_store inp n answer clock s).1.1.
Proof.
  intros Hs. unfold enable_store. destruct inp as [en|]; [|done].
  destruct (bool_decide _); [done|]. destruct en.
  - destruct (trace_nosched_register_tp answer s). destruct (_ =? 0); [|done].
    unfold module_ok, trace_nosched_hrtimer_start. simpl. apply Forall_fmap.
    eapply Forall_impl; [exact Hs|]. intros [c p] [] . by split.
  - destruct (trace_nosched_unregister_tp answer s). by destruct (negb _).
Qed.

Lemma nosched_step_ok s r :
  module_ok s → step true s r → ∃ s', r = Done s' ∧ module_ok s'.
Proof.
  intros Hs Hstep. destruct Hstep as [s i c p se Hi He|s i c p se Hi He|s inp n
    |s inp n answer clock|s inp n Hq].
  - pose proof (proj1 (Forall_lookup _ _) Hs i _ Hi) as Hp.
    destruct (hrtimer_ok s se p Hp He) as (p' & ks & -> & Hp' & _). simpl.
    eauto using put_cpu_ok.
  - pose proof (proj1 (Forall_lookup _ _) Hs i _ Hi) as Hp.
    destruct (switch_ok s se p Hp He) as (p' & -> & Hp'). simpl. eauto using put_cpu_ok.
  - eexists; split; [done|]. by destruct inp.
  - eexists; split; [done|]. by apply enable_store_ok.
  - eexists; split; [done|]. destruct inp as [x|]; [|done]. simpl.
    destruct (negb (x =? 0)); [done|]. unfold module_ok. simpl. apply Forall_fmap.
    specialize (Hq eq_refl). unfold module_ok, quiescent in *.
    rewrite Forall_forall in *. intros cp Hin.
    apply clear_ok; [by apply Hs|by apply Hq].
Qed.

Lemma reach_ok s0 r : module_ok s0 → reach true s0 r → ∃ s', r = Done s' ∧ module_ok s'.
Proof.
  intros H0 Hr. induction Hr as [|s r _ (s' & [= <-] & Hs') Hstep]; [by eauto|].
  by eapply nosched_step_ok.
Qed.
End Proofs.

(** ** Reading the stack_trace file *)

Section ShowProofs.
Context (pS : Z → string).

Definition record_text (r : string * Z * Z * list Z) : string :=
  let '(comm, pid, dur, ws) := r in
  show_record comm pid dur +:+ print_words pS ws +:+ nl.

Definition cpu_text (c : Z * per_cpu_stack_trace) : string :=
  match records c.2 with
  | [] => ""
  | rs => " cpu: " +:+ dec c.1 +:+ nl +:+ texts record_text rs
  end.

Lemma records_length st :
  percpu_ok st → length (records st) = Z.to_nat (nr_stack_entries st).
Proof.
  intros []. unfold records. rewrite !length_zip_with, length_fmap, !length_take. lia.
Qed.

Lemma nosched_show_cpu_text st :
  percpu_ok st → stack_trace_show_cpu pS st = Done (texts record_text (records st)).
Proof.
  intros Hst. unfold stack_trace_show_cpu.
  apply print_indexed; [by apply records_length|].
  intros k [[[comm pid] dur] ws] acc Hr. unfold records in Hr.
  apply lookup_zip_with_Some in Hr as ([[? ?] ?] & ? & [=<- <- <- <-] & Hr & Hst').
  apply lookup_zip_with_Some in Hr as ([? ?] & ? & [=<- <- <-] & Hr & Hd).
  apply lookup_zip_with_Some in Hr as (? & ? & [=<- <-] & Hc & Hp).
  apply list_lookup_fmap_Some in Hst' as (d & -> & Hds).
  apply lookup_take_Some in Hc as [Hc _], Hp as [Hp _], Hd as [Hd _].
  pose proof Hds as [Hds' _]%lookup_take_Some.
  rewrite (aget_nat _ _ _ Hds'), (aget_nat _ _ _ Hc), (aget_nat _ _ _ Hp),
    (aget_nat _ _ _ Hd). simpl.
  pose proof Hst as [? ? ? ? ? ? ? ? Hw _ _].
  rewrite (seq_print_stack_ok pS (entries st) _ _ k d Hw) by (done || (unfold zlen; lia)).
  simpl. by rewrite !string_app_assoc.
Qed.

Lemma show_text s : module_ok s → stack_trace_show pS s = Done (texts cpu_text (cpus s)).
Proof.
  unfold module_ok, stack_trace_show, texts. intros Hs.
  induction Hs as [|[c p] cs Hp Hs IH]; [done|]. cbn [foldr fst snd] in *. rewrite IH.
  pose proof (records_length p Hp) as Hlen. assert (Hn := po_nr p Hp).
  assert (cpu_text (c, p) = match records p with
    | [] => "" | rs => " cpu: " +:+ dec c +:+ nl +:+ texts record_text rs end) as -> by done.
  destruct (Z.eqb_spec (nr_stack_entries p) 0) as [E|E].
  - rewrite E in Hlen. destruct (records p); [done|discriminate].
  - rewrite nosched_show_cpu_text by done.
    destruct (records p) eqn:Er; [simpl in Hlen; lia|].
    cbn [mbind res_bind]. by rewrite !string_app_assoc.
Qed.
End ShowProofs.

(** ** Theorems *)


(** The range in milliseconds that [histogram_show] prints for bucket [b]. *)
Definition printed_min (b : Z) : Z := i32 (u32 (scale_min b * 20)).
Definition printed_max (b : Z) : Z := i32 (u32 (scale_max b * 20 - 1)).

Lemma printed_range b :
  0 ≤ b ≤ 11 → printed_min b = 20 * 2 ^ b ∧ printed_max b = 20 * 2 ^ (b + 1) - 1.
Proof.
  intros H.
  assert (b = 0 ∨ b = 1 ∨ b = 2 ∨ b = 3 ∨ b = 4 ∨ b = 5 ∨ b = 6 ∨ b = 7 ∨ b = 8 ∨
          b = 9 ∨ b = 10 ∨ b = 11) as Hb by lia.
  destruct_or! Hb; subst b; by vm_compute.
Qed.

(** The histogram.  A context switch after less than twice the sampling
    period is not counted; any other one adds one to the bucket whose printed
    range of milliseconds contains the delay, the last bucket taking all
    longer delays, and changes nothing else. *)
Theorem hist_update_spec d st :
  percpu_ok st → 0 ≤ d < 2 ^ 64 →
  if d <? 2 * sampling_period then hist_update d st = Done st
  else ∃ b, 0 ≤ b ≤ 11 ∧
    hist_update d st =
      Done (st <| hist := alter (fun c => u64 (c + 1)) (Z.to_nat b) (hist st) |>) ∧
    printed_min b ≤ d / 1000000 ∧ (b < 11 → d / 1000000 ≤ printed_max b).
Proof.
  intros Hst Hd. pose proof (hist_update_cases d st Hst Hd) as H.
  change (2 * sampling_period) with hist_step. destruct (d <? hist_step); [done|].
  destruct H as (k & (Hk & Hlo & Hhi) & Hu & _). unfold hist_step in *.
  exists (Z.min k 11). split; [lia|]. split; [exact Hu|].
  destruct (printed_range (Z.min k 11)) as [-> ->]; [lia|].
  assert (2 ^ Z.min k 11 ≤ 2 ^ k) by (apply Z.pow_le_mono_r; lia).
  split; [apply Z.div_le_lower_bound; lia|].
  intros Hlt. replace (Z.min k 11) with k by lia.
  assert (d / 1000000 < 20 * 2 ^ (k + 1)) by (apply Z.div_lt_upper_bound; lia). lia.
Qed.

(** An interrupt in kernel mode at time [t] of a task that shares its CPU. *)
Definition demo_env (t : Z) : sched_env :=
  mk_sched (mk_env t "spin" 7 0 true (fun n => take (Z.to_nat n) [11; 22]) (fun _ => []))
    false false false.

Lemma nosched_demo_env_ok t : 0 ≤ t < 2 ^ 64 → env_ok (se_env (demo_env t)).
Proof. intros. split; simpl; [lia| |]; intros; rewrite ?zlen_nil; try lia; unfold zlen; rewrite length_take; lia. Qed.

(** The state after the tracer is enabled, after a sample has recorded the
    running task, and after the records are cleared. *)
Definition bug1 : module :=
  (enable_store (Some true) 1 (fun _ => 0) (fun _ => se_env (demo_env 0))
     (nosched_info true [0])).1.1.
Definition bug2 : res module :=
  match cpus bug1 !! 0%nat with
  | Some (c, p) =>
      '(p', _) ← trace_nosched_hrtimer_handler (KERNEL_VERSION 5 4 0) bug1 (demo_env 60000000) p;
      Done (put_cpu 0 c p' bug1)
  | None => Wild
  end.

(** Clearing the records while a recorded task has not been switched out
    yet makes the next context switch write [duration[UINT_MAX]]: the clear
    resets [nr_stack_entries] but keeps [skip]. *)
Theorem nosched_clear_then_switch_wild :
  reach (KERNEL_VERSION 5 4 0) false (nosched_info true [0]) Wild.
Proof.
  destruct bug2 as [s2| |] eqn:E2; try (vm_compute in E2; discriminate E2).
  assert (reach (KERNEL_VERSION 5 4 0) false (nosched_info true [0]) (Done s2)) as R2.
  { rewrite <- E2. eapply reach_step; [eapply reach_step; [apply reach_refl|]|].
    - exact (st_enable _ _ _ (Some true) 1 (fun _ => 0) (fun _ => se_env (demo_env 0))).
    - exact (st_sample _ false bug1 0 0 _ (demo_env 60000000) eq_refl
        (nosched_demo_env_ok 60000000 ltac:(lia))). }
  vm_compute in E2. injection E2 as <-.
  eapply reach_step;
    [eapply reach_step; [exact R2|apply (st_clear _ false _ (Some 0) 1); discriminate]|].
  match goal with |- step _ _ ?s _ =>
    refine (eq_rect _ (step _ false s) (st_switch _ false s 0 0 _ (demo_env 90000000)
      eq_refl (nosched_demo_env_ok 90000000 ltac:(lia))) Wild _) end.
  by vm_compute.
Qed.

(** The kernel has a tracepoint of that name. *)
Definition has_tp (tps : list (string * Z)) (name : string) : bool :=
  existsb (fun t => strcmp t.1 name =? 0) tps.

Lemma lookup_success tps have online :
  is_tracepoint_lookup_success (for_each_kernel_tracepoint tps (nosched_info have online)) =
    has_tp tps "sched_switch" ∧
  cpus (for_each_kernel_tracepoint tps (nosched_info have online)) =
    cpus (nosched_info have online).
Proof.
  assert (∀ s, is_tracepoint_lookup_success s = true →
    for_each_kernel_tracepoint tps s = s) as Hdone.
  { intros s Hs. unfold for_each_kernel_tracepoint. induction tps as [|t tps IH]; [done|].
    simpl. unfold tracepoint_lookup at 2. by rewrite Hs. }
  unfold for_each_kernel_tracepoint, has_tp in *.
  induction tps as [|[n id] tps IH]; [done|]. simpl.
  unfold tracepoint_lookup. simpl.
  destruct (strcmp n "sched_switch" =? 0) eqn:E; simpl.
  - match goal with |- context [foldl ?f ?a tps] => assert (foldl f a tps = a) as -> end; [|done].
    clear. induction tps as [|t tps IH]; [done|]. simpl. exact IH.
  - apply IH. intros s Hs. specialize (Hdone s Hs). simpl in Hdone.
    unfold tracepoint_lookup at 2 in Hdone. by rewrite Hs in Hdone.
Qed.

(** Loading.  The module loads exactly when the kernel has the
    sched_switch tracepoint and every allocation succeeds; on every failure
    after the per-CPU area was allocated the area is freed, and after the
    directory was made it is removed with what it contains. *)
Theorem trace_noschedule_init_paths tps ok have online :
  let '(_, ret, calls) := trace_noschedule_init tps ok (nosched_info have online) in
  (ret = 0 ↔ has_tp tps "sched_switch" = true ∧ ok alloc_percpu = true ∧
     ok (proc_mkdir PROC_DIR_NAME) = true ∧
     Forall (fun f => ok (proc_create_data f) = true)
       ["threshold"; "enable"; "distribution"; "stack_trace"]) ∧
  (ret ≠ 0 → alloc_percpu ∈ calls → ok alloc_percpu = true → free_percpu ∈ calls) ∧
  (ret ≠ 0 → proc_mkdir PROC_DIR_NAME ∈ calls → ok (proc_mkdir PROC_DIR_NAME) = true →
     remove_proc_subtree PROC_DIR_NAME ∈ calls) ∧
  (ret = 0 → free_percpu ∉ calls).
Proof.
  unfold trace_noschedule_init.
  destruct (lookup_success tps have online) as [-> _].
  unfold create_files, remove_proc, free_buf.
  repeat (split_if; [init_path|]). init_path.
Qed.

(** ** Witnesses *)


Lemma hist_update_spec_witness :
  ∃ b, 0 ≤ b ≤ 11 ∧
    hist_update 100000000 zero_percpu =
      Done (zero_percpu <| hist := alter (fun c => u64 (c + 1)) (Z.to_nat b)
                                     (hist zero_percpu) |>) ∧
    printed_min b ≤ 100 ∧ (b < 11 → 100 ≤ printed_max b).
Proof. exact (hist_update_spec 100000000 zero_percpu nosched_zero_percpu_ok ltac:(lia)). Defined.
