(* ===== verification/RunqLat.v ===== *)
(** * trace-runqlat: run queue latency of one task

    src/trace/runqlat/trace_runqlat.c.  Probes on the scheduler's wakeup,
    switch and migration tracepoints measure how long the traced task waits
    on a run queue and which tasks run meanwhile; delays above [threshold]
    are kept with the list of those tasks.

    A probe looks at [info] before it takes the lock and again under it.
    The looks without the lock may see any value another CPU stored, so they
    are arguments of the probe ([peeks]); what is done under the lock is a
    function of the state. *)

From S2P Require Import Prelude CLib Histogram Kernel.

(** ** Data *)

Definition MAX_TRACE_ENTRIES : Z := 128.
Definition PER_TRACE_ENTRY_TASKS : Z := 16.
Definition MAX_TRACE_ENTRY_TASKS : Z := MAX_TRACE_ENTRIES * PER_TRACE_ENTRY_TASKS.
Definition THRESHOLD_DEFAULT : Z := 20 * 1000 * 1000.
Definition INVALID_PID : Z := -1.
Definition INVALID_CPU : Z := -1.
Definition PROBE_TRACEPOINTS : Z := 4.
Definition LATENCY_HISTOGRAM_ENTRY : Z := 12.

Record task_entry := mk_task { runtime : Z; pid : Z; comm : string }.

(** [te_entries] is a pointer into [task_entries], as an index. *)
Record trace_entry := mk_trace {
  te_latency : Z;
  nr_tasks : Z;
  te_entries : option Z;
}.
#[export] Instance eta_trace_entry : Eta trace_entry := fun t =>
  mk_trace (te_latency t) (nr_tasks t) (te_entries t).

(** What the probes read of a [struct task_struct]. *)
Record task := mk_tsk {
  t_pid : Z;
  t_comm : string;
  t_cpu : Z;           (* task_cpu(p) *)
  t_idle : bool;       (* is_idle_task(p) *)
  t_running : bool;    (* p->state == TASK_RUNNING *)
}.

Record runqlat_info := mk_info {
  i_cpu : Z;
  i_pid : Z;
  rq_start : Z;
  run_start : Z;
  threshold : Z;
  curr : option task;
  latency_hist : list Z;
  sum_lat : Z;
  nr_trace : Z;
  trace_entries : list trace_entry;
  nr_task : Z;
  task_entries : list task_entry;
}.
#[export] Instance eta_info : Eta runqlat_info := fun i =>
  mk_info (i_cpu i) (i_pid i) (rq_start i) (run_start i) (threshold i) (curr i)
    (latency_hist i) (sum_lat i) (nr_trace i) (trace_entries i) (nr_task i)
    (task_entries i).

Definition zero_traces : list trace_entry := replicate 128 (mk_trace 0 0 None).
Definition zero_tasks : list task_entry := replicate 2048 (mk_task 0 0 "").

(** The static initialiser with the zeroed buffer of [trace_runqlat_init]. *)
Definition runqlat_info_start : runqlat_info :=
  mk_info INVALID_CPU INVALID_PID 0 0 THRESHOLD_DEFAULT None (replicate 12 0) 0
    0 zero_traces 0 zero_tasks.

(** ** Recording, under the lock *)

(** Kernel messages: the warnings and [pr_info]s, in order. *)
Abbreviation log := (list string).

Definition runqlat_info_reset (info : runqlat_info) : runqlat_info :=
  info <| rq_start := 0 |> <| run_start := 0 |> <| i_cpu := INVALID_CPU |>
       <| curr := None |>.

(** [strncpy(dst, src, TASK_COMM_LEN)]. *)
Definition strncpy_comm (s : string) : string := String.substring 0 16 s.

Definition WARN_entries : string := "WARN_ON_ONCE(trace->entries != task - trace->nr_tasks)".

Definition record_task (info : runqlat_info) (p : task) (rt : Z)
    : res (runqlat_info * log) :=
  trace ← aget (trace_entries info) (nr_trace info);
  let trace := if nr_tasks trace =? 0
               then trace <| te_entries := Some (nr_task info) |> else trace in
  let warn := if bool_decide (te_entries trace = Some (nr_task info - nr_tasks trace))
              then [] else [WARN_entries] in
  let trace := trace <| nr_tasks := u32 (nr_tasks trace + 1) |> in
  traces ← aset (trace_entries info) (nr_trace info) trace;
  tasks ← aset (task_entries info) (nr_task info)
            (mk_task rt (t_pid p) (strncpy_comm (t_comm p)));
  let info := info <| trace_entries := traces |> <| task_entries := tasks |>
                   <| nr_task := u32 (nr_task info + 1) |> in
  if MAX_TRACE_ENTRY_TASKS <=? nr_task info
  then Done (runqlat_info_reset info <| i_pid := INVALID_PID |>,
             warn ++ ["BUG: MAX_TRACE_ENTRY_TASKS too low!"])
  else Done (info, warn).

(** [do { index++; delta >>= 1; } while (delta > 0);] from [index]. *)
Fixpoint log_loop (fuel : nat) (delta index : Z) : Z :=
  match fuel with
  | O => index
  | S k =>
      let index := index + 1 in
      let delta := Z.shiftr delta 1 in
      if 0 <? delta then log_loop k delta index else index
  end.

Definition latency_histogram_store (info : runqlat_info) (delta : Z) : res runqlat_info :=
  let delta := delta / 1000000 in
  let info := info <| sum_lat := u64 (sum_lat info + delta) |> in
  let index := log_loop 64 delta (-1) in
  let index := if LATENCY_HISTOGRAM_ENTRY <=? index
               then LATENCY_HISTOGRAM_ENTRY - 1 else index in
  c ← aget (latency_hist info) index;
  h ← aset (latency_hist info) index (u64 (c + 1));
  Done (info <| latency_hist := h |>).

Definition record_task_commit (info : runqlat_info) (lat : Z)
    : res (runqlat_info * bool * log) :=
  info ← latency_histogram_store info lat;
  trace ← aget (trace_entries info) (nr_trace info);
  if nr_tasks trace =? 0 then Done (info, false, [])
  else if threshold info <=? lat then
    traces ← aset (trace_entries info) (nr_trace info) (trace <| te_latency := lat |>);
    let info := info <| trace_entries := traces |>
                     <| nr_trace := u32 (nr_trace info + 1) |> in
    if MAX_TRACE_ENTRIES <=? nr_trace info
    then Done (runqlat_info_reset info <| i_pid := INVALID_PID |>, true,
               ["BUG: MAX_TRACE_ENTRIES too low!"])
    else Done (info, true, [])
  else
    traces ← aset (trace_entries info) (nr_trace info)
               (trace <| nr_tasks := 0 |> <| te_entries := None |>);
    Done (info <| nr_task := u32 (nr_task info - nr_tasks trace) |>
               <| trace_entries := traces |>, true, []).

(** ** Probes *)

(** [pk] is [info->pid] as read before the lock. *)
Definition probe_sched_wakeup (pk : Z) (clock : Z) (p : task) (info : runqlat_info)
    : runqlat_info :=
  if negb (t_pid p =? pk) then info
  else if negb (t_pid p =? i_pid info) then info
  else info <| rq_start := clock |> <| run_start := clock |> <| i_cpu := t_cpu p |>.

(** The unlocked reads of [probe_sched_switch], in program order. *)
Record peeks := mk_peeks {
  pk_pid : Z;          (* info->pid == INVALID_PID *)
  pk_cpu1 : Z;         (* info->cpu != INVALID_CPU *)
  pk_cpu2 : Z;         (* info->cpu != cpu *)
  pk_cpu3 : Z;         (* READ_ONCE(info->cpu) == INVALID_CPU *)
  pk_pid2 : Z;         (* READ_ONCE(info->pid), either branch *)
  pk_cpu4 : Z;         (* READ_ONCE(info->cpu) != cpu *)
}.

(** What is done under the lock when the traced task was not queued yet. *)
Definition switch_start (clock : Z) (prev next : task) (info : runqlat_info)
    : runqlat_info :=
  if negb (i_cpu info =? INVALID_CPU) || negb (i_pid info =? t_pid prev) then info
  else
    let info := info <| rq_start := clock |> <| run_start := clock |>
                     <| i_cpu := t_cpu prev |> in
    if negb (t_idle next) then info <| curr := Some next |> else info.

(** What is done under the lock while it waits on this CPU. *)
Definition switch_queued (cpu now : Z) (prev next : task) (info : runqlat_info)
    : res (runqlat_info * log) :=
  if negb (i_cpu info =? cpu) || (i_pid info =? INVALID_PID) then Done (info, [])
  else
    let info := if negb (t_idle next) then info <| curr := Some next |> else info in
    if i_pid info =? t_pid next then
      '(info, l1) ← (if negb (run_start info =? 0)
                     then record_task info prev (u64 (now - run_start info))
                     else Done (info, []));
      '(info, _, l2) ← record_task_commit info (u64 (now - rq_start info));
      Done (info, l1 ++ l2)
    else if i_pid info =? t_pid prev then
      if t_running prev
      then Done (info <| rq_start := now |> <| run_start := now |>, [])
      else Done (runqlat_info_reset info, [])
    else
      '(info, l1) ← (if negb (run_start info =? 0)
                     then record_task info prev (u64 (now - run_start info))
                     else Done (info, []));
      Done (info <| run_start := now |>, l1).

Definition probe_sched_switch (pk : peeks) (cpu clock : Z) (prev next : task)
    (info : runqlat_info) : res (runqlat_info * log) :=
  if pk_pid pk =? INVALID_PID then Done (info, [])
  else if negb (pk_cpu1 pk =? INVALID_CPU) && negb (pk_cpu2 pk =? cpu) then Done (info, [])
  else if pk_cpu3 pk =? INVALID_CPU then
    if negb (pk_pid2 pk =? t_pid prev) || negb (t_running prev) then Done (info, [])
    else Done (switch_start clock prev next info, [])
  else
    if negb (pk_cpu4 pk =? cpu) || (pk_pid2 pk =? INVALID_PID) then Done (info, [])
    else switch_queued cpu clock prev next info.

Definition probe_sched_migrate_task (pk_pid pk_cpu clock : Z) (p : task) (cpu : Z)
    (info : runqlat_info) : res (runqlat_info * log) :=
  if negb (t_pid p =? pk_pid) || (pk_cpu =? INVALID_CPU) then Done (info, [])
  else if negb (t_pid p =? i_pid info) || (i_cpu info =? INVALID_CPU) then Done (info, [])
  else
    '(info, l) ←
      match curr info with
      | Some c => if negb (run_start info =? 0)
                  then record_task info c (u64 (clock - run_start info))
                  else Done (info, [])
      | None => Done (info, [])
      end;
    Done (info <| i_cpu := cpu |> <| run_start := clock |>, l).

(** ** The proc files *)

Definition trace_pid_show (info : runqlat_info) : string := dec (i_pid info) +:+ nl.

Definition trace_pid_store (pk : Z) (input : option Z) (count : Z) (info : runqlat_info)
    : runqlat_info * Z :=
  match input with
  | None => (info, - EINVAL)
  | Some pid =>
      if negb (pk =? INVALID_PID) && negb (pid =? INVALID_PID) then (info, - EPERM)
      else if i_pid info =? pid then (info, count)
      else
        let info := if negb (pid =? INVALID_PID)
          then info <| nr_trace := 0 |> <| nr_task := 0 |>
                    <| trace_entries := zero_traces |> <| task_entries := zero_tasks |>
                    <| latency_hist := replicate 12 0 |>
          else info in
        (runqlat_info_reset info <| i_pid := pid |>, count)
  end.

Definition threshold_show (info : runqlat_info) : string := dec (threshold info) +:+ nl.

Definition threshold_store (input : option Z) (count : Z) (info : runqlat_info)
    : runqlat_info * Z :=
  match input with
  | None => (info, - EINVAL)
  | Some t => (info <| threshold := t |>, count)
  end.

Definition task_line (t : task_entry) : string :=
  rep " " 6 +:+ "COMM: " +:+ padr 16 (comm t) +:+ " PID: " +:+ padr 8 (dec (pid t)) +:+
  " RUNTIME(us): " +:+ padl " " 6 (dec (runtime t / 1000)) +:+ nl.

Definition trace_line (lat n : Z) : string :=
  rep " " 2 +:+ "latency(us): " +:+ dec (lat / 1000) +:+ " runqlen: " +:+ dec n +:+ nl.

(** [for (j = 0; j < entry->nr_tasks; j++)]; a NULL [entries] is never
    indexed unless there are tasks to print. *)
Definition show_tasks (tasks : list task_entry) (t : trace_entry) : res string :=
  foldr (fun j acc =>
      off ← from_opt (te_entries t);
      x ← aget tasks (off + Z.of_nat j);
      rest ← acc;
      Done (task_line x +:+ rest))
    (Done "") (seq 0 (Z.to_nat (nr_tasks t))).

(** [inl e]: the read fails with [-e]. *)
Definition runqlat_show (info : runqlat_info) : res (Z + string) :=
  if negb (i_pid info =? INVALID_CPU) then Done (inl EPERM)
  else
    out ← foldr (fun i acc =>
        t ← aget (trace_entries info) (Z.of_nat i);
        body ← show_tasks (task_entries info) t;
        rest ← acc;
        Done (trace_line (te_latency t) (i32 (nr_tasks t)) +:+ body +:+ nl +:+ rest))
      (Done "") (seq 0 (Z.to_nat (nr_trace info)));
    Done (inr out).

(** This copy of [histogram_show] prints [sum_lat] before the title. *)
Definition histogram_show (header : option string) (hist : list Z) (factor sum : Z)
    : res (bool * string) :=
  let '(count_max, zero_index) := histogram_scan hist 0 0 0 in
  if count_max =? 0 then Done (false, "")
  else
    rows ← histogram_rows hist factor count_max 0 zero_index;
    Done (true, match header with Some h => h +:+ nl | None => "" end +:+
                dec (i64 sum) +:+ nl +:+ histogram_title +:+ rows).

Definition distribution_show (info : runqlat_info) : res string :=
  '(_, out) ← histogram_show None (latency_hist info) 1 (sum_lat info);
  Done out.

(** ** Loading and unloading *)

(** [struct tracepoints_probe]: the tracepoints found so far, by slot. *)
Record tracepoints_probe := mk_tps {
  tps : list (option Z);
  tp_names : list string;
  num_initalized : Z;
}.

Definition tps_probe : tracepoints_probe :=
  mk_tps (replicate 4 None)
    ["sched_wakeup"; "sched_wakeup_new"; "sched_switch"; "sched_migrate_task"] 0.

Definition is_tracepoint_lookup_success (t : tracepoints_probe) : bool :=
  num_initalized t =? PROBE_TRACEPOINTS.

Fixpoint lookup_slots (name : string) (id : Z) (slots : list (option Z))
    (names : list string) (n : Z) : list (option Z) * Z :=
  match slots, names with
  | slot :: slots', nm :: names' =>
      let '(slot', n') :=
        match slot with
        | Some _ => (slot, n)
        | None => if negb (strcmp name nm =? 0) then (slot, n) else (Some id, n + 1)
        end in
      let '(rest, n'') := lookup_slots name id slots' names' n' in
      (slot' :: rest, n'')
  | _, _ => (slots, n)
  end.

Definition tracepoint_lookup (name : string) (id : Z) (t : tracepoints_probe)
    : tracepoints_probe :=
  if is_tracepoint_lookup_success t then t
  else
    let '(slots, n) := lookup_slots name id (tps t) (tp_names t) (num_initalized t) in
    mk_tps slots (tp_names t) n.

Definition for_each_kernel_tracepoint (kernel : list (string * Z)) (t : tracepoints_probe)
    : tracepoints_probe :=
  foldl (fun t k => tracepoint_lookup k.1 k.2 t) t kernel.

Inductive icall :=
| vzalloc
| vfree
| proc_mkdir
| proc_create_data (name : string)
| probe_register (slot : nat)
| probe_unregister (slot : nat)
| tracepoint_synchronize_unregister
| remove_proc_subtree.

#[export] Instance icall_eq_dec : EqDecision icall.
Proof. solve_decision. Defined.

Definition free_buf : list icall := [vfree].
Definition remove_proc : list icall := remove_proc_subtree :: free_buf.

Fixpoint create_files (ok : icall → bool) (files : list string) : bool * list icall :=
  match files with
  | [] => (true, [])
  | f :: rest =>
      if negb (ok (proc_create_data f)) then (false, [proc_create_data f])
      else let '(r, calls) := create_files ok rest in (r, proc_create_data f :: calls)
  end.

(** [while (i--) tracepoint_probe_unregister(...)]. *)
Fixpoint unregister_below (i : nat) : list icall :=
  match i with
  | O => []
  | S j => probe_unregister j :: unregister_below j
  end.

(** [for (i = 0; i < PROBE_TRACEPOINTS; i++)], from slot [i], with the
    registration results [reg]. *)
Fixpoint register_probes (reg : nat → Z) (i todo : nat) : Z * list icall :=
  match todo with
  | O => (0, [])
  | S k =>
      let ret := reg i in
      if negb (ret =? 0) then (ret, probe_register i :: unregister_below i)
      else let '(r, calls) := register_probes reg (S i) k in (r, probe_register i :: calls)
  end.

Definition trace_runqlat_init (kernel : list (string * Z)) (ok : icall → bool)
    (reg : nat → Z) : tracepoints_probe * Z * list icall :=
  if negb (ok vzalloc) then (tps_probe, - ENOMEM, [vzalloc]) else
  let t := [vzalloc; proc_mkdir] in
  if negb (ok proc_mkdir) then (tps_probe, - ENOMEM, t ++ free_buf) else
  let '(created, calls) :=
    create_files ok ["pid"; "threshold"; "runqlat"; "distribution"] in
  let t := t ++ calls in
  if negb created then (tps_probe, - ENOMEM, t ++ remove_proc) else
  let found := for_each_kernel_tracepoint kernel tps_probe in
  if negb (is_tracepoint_lookup_success found) then (found, - ENOMEM, t ++ remove_proc) else
  let '(ret, calls) := register_probes reg 0 4 in
  if negb (ret =? 0) then (found, ret, t ++ calls ++ remove_proc)
  else (found, 0, t ++ calls).

Definition trace_runqlat_exit : list icall :=
  (probe_unregister <$> seq 0 4) ++
  [tracepoint_synchronize_unregister; remove_proc_subtree; vfree].

(** ** Invariant and abstraction *)

Definition desc (t : trace_entry) : stack_desc := mk_stack (nr_tasks t) (te_entries t).

(** The first task of the trace being collected. *)
Definition pending_start (info : runqlat_info) : Z :=
  foldr Z.add 0 (nr_tasks <$> take (Z.to_nat (nr_trace info)) (trace_entries info)).

(** The kept traces tile the first task entries, the trace being collected
    follows them up to [nr_task], later traces are empty, and while a task is
    traced there is room for one more task and one more trace. *)
Record info_ok (info : runqlat_info) : Prop := {
  io_traces : length (trace_entries info) = 128%nat;
  io_tasks : length (task_entries info) = 2048%nat;
  io_hist : length (latency_hist info) = 12%nat;
  io_counts : counts_ok (latency_hist info);
  io_nr_trace : 0 ≤ nr_trace info ≤ 128;
  io_nr_task : 0 ≤ nr_task info ≤ 2048;
  io_kept : windows (desc <$> take (Z.to_nat (nr_trace info)) (trace_entries info))
              0 (pending_start info);
  io_pending : ∀ t, trace_entries info !! Z.to_nat (nr_trace info) = Some t →
    nr_tasks t = nr_task info - pending_start info ∧
    (nr_tasks t ≠ 0 → te_entries t = Some (pending_start info));
  io_le : pending_start info ≤ nr_task info;
  io_full : nr_trace info = 128 → nr_task info = pending_start info;
  io_later : ∀ i t, (Z.to_nat (nr_trace info) < i)%nat →
    trace_entries info !! i = Some t → nr_tasks t = 0;
  io_room : i_pid info ≠ INVALID_PID → nr_trace info < 128 ∧ nr_task info < 2048;
}.

(** What the module has measured, free of the layout in memory: the kept
    traces, and the tasks of the trace being collected. *)
Definition kept (info : runqlat_info) : list (Z * list task_entry) :=
  (fun t => (te_latency t,
             match te_entries t with
             | Some off => slice (task_entries info) off (nr_tasks t)
             | None => []
             end)) <$> take (Z.to_nat (nr_trace info)) (trace_entries info).

Definition pending (info : runqlat_info) : list task_entry :=
  slice (task_entries info) (pending_start info) (nr_task info - pending_start info).

(** ** Recording a task *)

Lemma info_start_ok : info_ok runqlat_info_start.
Proof.
  split; simpl; try done; try lia.
  - repeat constructor; lia.
  - intros t [= <-]. done.
  - intros i t _ [-> _]%lookup_replicate_1. done.
Qed.

(** The bookkeeping fields do not matter, and tracing may be switched off. *)
Lemma info_ok_reset info :
  info_ok info → info_ok (runqlat_info_reset info <| i_pid := INVALID_PID |>).
Proof. intros []. split; try done. Qed.

Lemma info_ok_times info rq run cpu c :
  info_ok info →
  info_ok (info <| rq_start := rq |> <| run_start := run |> <| i_cpu := cpu |> <| curr := c |>).
Proof. by intros []. Qed.

Lemma sum_snoc l x : foldr Z.add 0 (l ++ [x]) = foldr Z.add 0 l + x.
Proof. rewrite foldr_app. simpl. induction l as [|y l IH]; simpl; lia. Qed.

Lemma pending_trace info :
  info_ok info → nr_trace info < 128 →
  ∃ t, aget (trace_entries info) (nr_trace info) = Done t ∧
       trace_entries info !! Z.to_nat (nr_trace info) = Some t ∧
       nr_tasks t = nr_task info - pending_start info ∧
       (nr_tasks t ≠ 0 → te_entries t = Some (pending_start info)).
Proof.
  intros Hi Hn. pose proof (io_traces _ Hi). pose proof (io_nr_trace _ Hi).
  destruct (aget_in (trace_entries info) (nr_trace info)) as [t Ht]; [unfold zlen; lia|].
  exists t. split; [done|]. apply aget_done in Ht as [_ Ht]. split; [done|].
  by apply (io_pending _ Hi).
Qed.

(** The entry made for a task that ran while the traced one waited. *)
Definition new_task (p : task) (rt : Z) : task_entry :=
  mk_task rt (t_pid p) (strncpy_comm (t_comm p)).

(** The stores of [record_task]. *)
Definition task_stored (info : runqlat_info) (p : task) (rt : Z) : runqlat_info :=
  let n := nr_task info - pending_start info in
  info <| trace_entries := <[Z.to_nat (nr_trace info) :=
            mk_trace (match trace_entries info !! Z.to_nat (nr_trace info) with
                      | Some t => te_latency t | None => 0 end)
                     (n + 1) (Some (pending_start info))]> (trace_entries info) |>
       <| task_entries := <[Z.to_nat (nr_task info) := new_task p rt]> (task_entries info) |>
       <| nr_task := nr_task info + 1 |>.

Lemma slice_insert_after {A} (l : list A) i x j n :
  0 ≤ j → 0 ≤ n → j + n ≤ Z.of_nat i → slice (<[i := x]> l) j n = slice l j n.
Proof.
  intros. unfold slice. rewrite !take_drop_commute. f_equal.
  rewrite take_insert_ge; [done|lia].
Qed.

Lemma slice_insert_snoc {A} (l : list A) i x j :
  0 ≤ j ≤ Z.of_nat i → (i < length l)%nat →
  slice (<[i := x]> l) j (Z.of_nat i + 1 - j) = slice l j (Z.of_nat i - j) ++ [x].
Proof.
  intros Hj Hi. unfold slice. rewrite !take_drop_commute.
  replace (Z.to_nat j + Z.to_nat (Z.of_nat i + 1 - j))%nat with (S i) by lia.
  replace (Z.to_nat j + Z.to_nat (Z.of_nat i - j))%nat with i by lia.
  rewrite take_insert_next by lia.
  rewrite drop_app_le by (rewrite length_take; lia). done.
Qed.

Lemma task_stored_start info p rt :
  pending_start (task_stored info p rt) = pending_start info.
Proof. unfold pending_start, task_stored. simpl. by rewrite take_insert_ge by lia. Qed.

Lemma task_stored_kept info p rt :
  info_ok info → kept (task_stored info p rt) = kept info.
Proof.
  intros Hi. unfold kept, task_stored. simpl. rewrite take_insert_ge by lia.
  apply list_fmap_ext. intros i t Ht. f_equal.
  assert ((desc <$> take (Z.to_nat (nr_trace info)) (trace_entries info)) !! i = Some (desc t)) as Hd.
  { by rewrite list_lookup_fmap, Ht. }
  destruct (windows_lookup _ _ _ _ _ (io_kept _ Hi) Hd) as (off & Hoff & ? & ? & ?).
  simpl in *. rewrite Hoff. pose proof (io_le _ Hi). apply slice_insert_after; lia.
Qed.

Lemma task_stored_pending info p rt :
  info_ok info → nr_task info < 2048 →
  pending (task_stored info p rt) = pending info ++ [new_task p rt].
Proof.
  intros Hi Hn. pose proof (io_nr_task _ Hi). pose proof (io_tasks _ Hi).
  pose proof (io_le _ Hi). assert (0 ≤ pending_start info) by (eapply windows_le, Hi).
  unfold pending. rewrite task_stored_start. unfold task_stored. simpl.
  replace (nr_task info + 1 - pending_start info)
    with (Z.of_nat (Z.to_nat (nr_task info)) + 1 - pending_start info) by lia.
  rewrite slice_insert_snoc by lia. do 2 f_equal. lia.
Qed.

Lemma task_stored_ok info p rt :
  info_ok info → nr_trace info < 128 → nr_task info + 1 < 2048 ∨ i_pid info = INVALID_PID →
  nr_task info < 2048 → info_ok (task_stored info p rt).
Proof.
  intros Hi Hn Hroom Hnt. pose proof (task_stored_start info p rt) as Hs.
  pose proof Hi as [? ? ? ? ? ? Hk Hp Hle ? Hl Hr].
  split; simpl; rewrite ?length_insert, ?Hs; try done; try lia.
  - by rewrite take_insert_ge by lia.
  - intros t. rewrite list_lookup_insert_eq by lia. intros [= <-]. simpl. split; [lia|done].
  - intros i t Hlt. rewrite list_lookup_insert_ne by lia. by apply Hl.
Qed.

Lemma record_task_spec info p rt :
  info_ok info → nr_trace info < 128 → nr_task info < 2048 →
  record_task info p rt =
    Done (if nr_task info =? 2047
          then (runqlat_info_reset (task_stored info p rt) <| i_pid := INVALID_PID |>,
                ["BUG: MAX_TRACE_ENTRY_TASKS too low!"])
          else (task_stored info p rt, [])).
Proof.
  intros Hi Hn Hnt. unfold record_task.
  destruct (pending_trace info Hi Hn) as (t & -> & Ht & Hc & He).
  pose proof (io_traces _ Hi). pose proof (io_tasks _ Hi). pose proof (io_nr_task _ Hi).
  pose proof (io_nr_trace _ Hi). pose proof (io_le _ Hi).
  assert (0 ≤ pending_start info) by (eapply windows_le, Hi). simpl.
  set (t1 := if nr_tasks t =? 0 then _ else t).
  assert (t1 = mk_trace (te_latency t) (nr_tasks t) (Some (pending_start info))) as ->.
  { subst t1. destruct (Z.eqb_spec (nr_tasks t) 0) as [E|E].
    - unfold set_field. simpl. do 2 f_equal. lia.
    - destruct t; simpl in *. by rewrite (He E). }
  simpl. rewrite bool_decide_true by (f_equal; lia).
  rewrite !aset_in by (unfold zlen; lia). simpl.
  rewrite u32_small by lia. rewrite u32_small by lia.
  change MAX_TRACE_ENTRY_TASKS with 2048.
  unfold runqlat_info_reset, task_stored. simpl. rewrite Ht, Hc.
  destruct (Z.eqb_spec (nr_task info) 2047).
  - by replace (2048 <=? nr_task info + 1) with true by lia.
  - by replace (2048 <=? nr_task info + 1) with false by lia.
Qed.

(** ** Committing a trace *)

Lemma log_loop_spec fuel d i :
  0 ≤ d < 2 ^ Z.of_nat (S fuel) → log_loop (S fuel) d i = i + 1 + Z.log2 d.
Proof.
  revert d i. induction fuel as [|fuel IH]; intros d i Hd.
  - assert (d = 0 ∨ d = 1) as [->| ->] by (simpl in Hd; lia); simpl; lia.
  - rewrite Nat2Z.inj_succ, Z.pow_succ_r in Hd by lia.
    pose proof (Z.div_mod d 2 ltac:(lia)). pose proof (Z.mod_pos_bound d 2 ltac:(lia)).
    assert (Z.shiftr d 1 = d / 2) as Hs by (by rewrite Z.shiftr_div_pow2).
    remember (S fuel) as f. simpl. destruct (Z.ltb_spec 0 (Z.shiftr d 1)) as [Hp|Hp].
    + rewrite IH by (rewrite Hs; lia). rewrite Z.log2_shiftr by lia.
      assert (1 ≤ Z.log2 d) by (apply (Z.log2_le_mono 2 d); lia). lia.
    + assert (d = 0 ∨ d = 1) as [->| ->] by lia; simpl; lia.
Qed.

(** One more count for a latency: bucket [log2] of its milliseconds. *)
Definition counted (info : runqlat_info) (lat : Z) : runqlat_info :=
  info <| sum_lat := u64 (sum_lat info + lat / 1000000) |>
       <| latency_hist := alter (fun c => u64 (c + 1))
            (Z.to_nat (Z.min (Z.log2 (lat / 1000000)) 11)) (latency_hist info) |>.

Lemma counted_ok info lat : info_ok info → info_ok (counted info lat).
Proof.
  intros []. split; simpl; rewrite ?length_alter; try done.
  apply Forall_alter; [done|]. intros x _ _. apply wrap_range. lia.
Qed.

Lemma latency_histogram_store_cases info lat :
  info_ok info → 0 ≤ lat < 2 ^ 64 →
  latency_histogram_store info lat = Done (counted info lat).
Proof.
  intros Hi Hl. unfold latency_histogram_store.
  rewrite log_loop_spec
    by (split; [apply Z.div_pos; lia|apply Z.div_lt_upper_bound; simpl; lia]).
  pose proof (Z.log2_nonneg (lat / 1000000)). set (k := Z.log2 (lat / 1000000)) in *.
  change (LATENCY_HISTOGRAM_ENTRY - 1) with 11. change LATENCY_HISTOGRAM_ENTRY with 12.
  assert ((if 12 <=? -1 + 1 + k then 11 else -1 + 1 + k) = Z.min k 11) as -> by (case_match; lia).
  pose proof (io_hist _ Hi). cbn -[aget aset].
  destruct (aget_in (latency_hist info) (Z.min k 11)) as [c Hc]; [unfold zlen; lia|].
  rewrite Hc. simpl. rewrite aset_in by (unfold zlen; lia). simpl.
  apply aget_done in Hc as [_ Hc]. unfold counted. simpl.
  by rewrite (list_alter_at (fun c => u64 (c + 1)) _ _ c).
Qed.

(** The trace at [nr_trace] is closed with latency [lat], or emptied. *)
Definition trace_closed (info : runqlat_info) (lat : Z) : runqlat_info :=
  info <| trace_entries := <[Z.to_nat (nr_trace info) :=
            mk_trace lat (nr_task info - pending_start info) (Some (pending_start info))]>
            (trace_entries info) |>
       <| nr_trace := nr_trace info + 1 |>.

Definition trace_dropped (info : runqlat_info) : runqlat_info :=
  info <| nr_task := pending_start info |>
       <| trace_entries := <[Z.to_nat (nr_trace info) :=
            mk_trace (match trace_entries info !! Z.to_nat (nr_trace info) with
                      | Some t => te_latency t | None => 0 end) 0 None]>
            (trace_entries info) |>.

Lemma next_trace info : info_ok info →
  Z.to_nat (nr_trace info + 1) = S (Z.to_nat (nr_trace info)).
Proof. intros Hi. pose proof (io_nr_trace _ Hi). lia. Qed.

Lemma trace_closed_start info lat :
  info_ok info → nr_trace info < 128 → pending_start (trace_closed info lat) = nr_task info.
Proof.
  intros Hi Hn. pose proof (io_traces _ Hi). pose proof (io_nr_trace _ Hi).
  unfold pending_start at 1, trace_closed. simpl.
  rewrite next_trace, take_insert_next, fmap_app by (done || lia).
  cbn [fmap list_fmap nr_tasks]. rewrite sum_snoc. fold (pending_start info). lia.
Qed.

Lemma trace_closed_ok info lat :
  info_ok info → nr_trace info < 128 → nr_trace info + 1 < 128 ∨ i_pid info = INVALID_PID →
  info_ok (trace_closed info lat).
Proof.
  intros Hi Hn Hroom. pose proof (trace_closed_start info lat Hi Hn) as Hs.
  pose proof Hi as [Ht ? ? ? ? ? Hk Hp Hle ? Hl Hr].
  split; simpl; rewrite ?length_insert, ?Hs; try done; try lia.
  - rewrite next_trace, take_insert_next, fmap_app by (done || lia). simpl.
    replace (nr_task info) with (pending_start info + (nr_task info - pending_start info)) at 2 by lia.
    apply (windows_snoc _ _ _ (desc (mk_trace lat (nr_task info - pending_start info)
      (Some (pending_start info))))); simpl; [done|done|lia].
  - intros t. rewrite next_trace, list_lookup_insert_ne by (done || lia). intros Hlt.
    apply Hl in Hlt; [|lia]. split; lia.
  - intros i t Hlt. rewrite list_lookup_insert_ne by lia. apply Hl. lia.
Qed.

Lemma trace_closed_kept info lat :
  info_ok info → nr_trace info < 128 →
  kept (trace_closed info lat) = kept info ++ [(lat, pending info)].
Proof.
  intros Hi Hn. pose proof (io_traces _ Hi). pose proof (io_nr_trace _ Hi).
  unfold kept, trace_closed. simpl.
  rewrite next_trace, take_insert_next, fmap_app by (done || lia). done.
Qed.

Lemma trace_dropped_start info :
  pending_start (trace_dropped info) = pending_start info.
Proof. unfold pending_start, trace_dropped. simpl. by rewrite take_insert_ge by lia. Qed.

Lemma trace_dropped_ok info :
  info_ok info → nr_trace info < 128 → info_ok (trace_dropped info).
Proof.
  intros Hi Hn. pose proof (trace_dropped_start info) as Hs.
  pose proof Hi as [Ht ? ? ? ? ? Hk Hp Hle ? Hl Hr].
  assert (0 ≤ pending_start info) by (by eapply windows_le).
  split; simpl; rewrite ?length_insert, ?Hs; try done; try lia.
  - by rewrite take_insert_ge by lia.
  - intros t. rewrite list_lookup_insert_eq by lia. intros [= <-]. simpl. split; lia.
  - intros i t Hlt. rewrite list_lookup_insert_ne by lia. by apply Hl.
Qed.

Lemma trace_dropped_kept info : kept (trace_dropped info) = kept info.
Proof. unfold kept, trace_dropped. simpl. by rewrite take_insert_ge by lia. Qed.

Lemma pending_empty info :
  info_ok info → (pending info = [] ↔ nr_task info = pending_start info).
Proof.
  intros Hi. pose proof (io_le _ Hi). pose proof (io_tasks _ Hi). pose proof (io_nr_task _ Hi).
  assert (0 ≤ pending_start info) by (eapply windows_le, Hi).
  rewrite <- length_zero_iff_nil. unfold pending, slice.
  rewrite length_take, length_drop. lia.
Qed.

(** The result of a commit. *)
Definition committed (info : runqlat_info) (lat : Z) : runqlat_info * bool * log :=
  let info := counted info lat in
  if nr_task info =? pending_start info then (info, false, [])
  else if threshold info <=? lat then
    if nr_trace info =? 127
    then (runqlat_info_reset (trace_closed info lat) <| i_pid := INVALID_PID |>, true,
          ["BUG: MAX_TRACE_ENTRIES too low!"])
    else (trace_closed info lat, true, [])
  else (trace_dropped info, true, []).

Lemma record_task_commit_cases info lat :
  info_ok info → nr_trace info < 128 → 0 ≤ lat < 2 ^ 64 →
  record_task_commit info lat = Done (committed info lat).
Proof.
  intros Hi Hn Hl. unfold record_task_commit.
  rewrite latency_histogram_store_cases by done. cbn [mbind res_bind].
  assert (info_ok (counted info lat)) as Hc by by apply counted_ok.
  unfold committed. set (i1 := counted info lat) in *.
  assert (nr_trace i1 < 128) as Hn1 by done.
  destruct (pending_trace i1 Hc Hn1) as (t & -> & Ht & Hnr & Hent). cbn [mbind res_bind].
  pose proof (io_traces _ Hc). pose proof (io_nr_trace _ Hc). pose proof (io_nr_task _ Hc).
  pose proof (io_le _ Hc). assert (0 ≤ pending_start i1) by (eapply windows_le, Hc).
  destruct (Z.eqb_spec (nr_tasks t) 0) as [E|E].
  { by replace (nr_task i1 =? pending_start i1) with true by lia. }
  replace (nr_task i1 =? pending_start i1) with false by lia.
  rewrite !aset_in by (unfold zlen; lia). cbn [mbind res_bind].
  destruct (threshold i1 <=? lat).
  - assert (t <| te_latency := lat |> = mk_trace lat (nr_task i1 - pending_start i1)
      (Some (pending_start i1))) as -> by (simpl; by rewrite Hnr, Hent).
    rewrite u32_small by lia. change MAX_TRACE_ENTRIES with 128.
    fold (trace_closed i1 lat).
    change (nr_trace (trace_closed i1 lat)) with (nr_trace i1 + 1).
    destruct (Z.eqb_spec (nr_trace i1) 127).
    + by replace (128 <=? nr_trace i1 + 1) with true by lia.
    + by replace (128 <=? nr_trace i1 + 1) with false by lia.
  - rewrite u32_small by lia. unfold trace_dropped. rewrite Ht. simpl.
    do 4 f_equal. change (nr_task info) with (nr_task i1). lia.
Qed.

(** ** Refinement of the recording operations *)

(** Abstract measurements and what recording and committing do to them. *)
Definition measured : Type := list (Z * list task_entry) * list task_entry.

Definition abs (info : runqlat_info) : measured := (kept info, pending info).

Definition a_record (t : task_entry) (m : measured) : measured := (m.1, m.2 ++ [t]).

Definition a_commit (thr lat : Z) (m : measured) : measured :=
  match m.2 with
  | [] => m
  | _ => if thr <=? lat then (m.1 ++ [(lat, m.2)], []) else (m.1, [])
  end.

(** Switching tracing off first does not change what is recorded. *)
Definition disabled (info : runqlat_info) : runqlat_info := info <| i_pid := INVALID_PID |>.

Lemma disabled_ok info : info_ok info → info_ok (disabled info).
Proof. intros []. split; try done. Qed.

Lemma record_task_ok info p rt :
  info_ok info → nr_trace info < 128 → nr_task info < 2048 →
  ∃ info' l, record_task info p rt = Done (info', l) ∧ info_ok info' ∧
    WARN_entries ∉ l ∧ abs info' = a_record (new_task p rt) (abs info) ∧
    nr_trace info' = nr_trace info ∧ threshold info' = threshold info ∧
    (nr_task info < 2047 → rq_start info' = rq_start info ∧ i_pid info' = i_pid info) ∧
    (nr_task info = 2047 → rq_start info' = 0 ∧ i_pid info' = INVALID_PID).
Proof.
  intros Hi Hn Hnt. rewrite record_task_spec by done.
  assert (abs (task_stored info p rt) = a_record (new_task p rt) (abs info)) as Ha.
  { unfold abs, a_record. by rewrite task_stored_kept, task_stored_pending by done. }
  destruct (Z.eqb_spec (nr_task info) 2047).
  - eexists _, _. split; [done|]. split_and!; try done; try lia.
    + apply (info_ok_reset (task_stored (disabled info) p rt)).
      apply task_stored_ok; auto using disabled_ok.
    + by intros ?%list_elem_of_singleton.
  - eexists _, _. split; [done|]. pose proof (io_nr_task _ Hi).
    split_and!; try done; try lia.
    + apply task_stored_ok; auto; lia.
    + by intros ?%elem_of_nil.
Qed.

Lemma record_task_commit_ok info lat :
  info_ok info → nr_trace info < 128 → 0 ≤ lat < 2 ^ 64 →
  ∃ info' b l, record_task_commit info lat = Done (info', b, l) ∧ info_ok info' ∧
    WARN_entries ∉ l ∧ abs info' = a_commit (threshold info) lat (abs info) ∧
    latency_hist info' = latency_hist (counted info lat).
Proof.
  intros Hi Hn Hl. rewrite record_task_commit_cases by done.
  assert (info_ok (counted info lat)) as Hc by by apply counted_ok.
  unfold committed. set (i1 := counted info lat) in *.
  change (abs info) with (abs i1). change (threshold info) with (threshold i1).
  pose proof (pending_empty i1 Hc) as Hp. unfold a_commit, abs.
  destruct (Z.eqb_spec (nr_task i1) (pending_start i1)) as [E|E].
  { eexists _, _, _. split; [done|]. split_and!; try done; [by intros ?%elem_of_nil|].
    simpl. by rewrite (proj2 Hp E). }
  assert (pending i1 ≠ []) as Hne by naive_solver.
  assert (∀ info', kept info' = kept i1 ++ [(lat, pending i1)] →
      pending info' = [] → (kept info', pending info') =
      match pending i1 with [] => (kept i1, pending i1)
      | _ => (kept i1 ++ [(lat, pending i1)], []) end) as Hclosed.
  { intros info' -> ->. by destruct (pending i1). }
  destruct (threshold i1 <=? lat) eqn:El.
  - assert (nr_trace i1 < 128) as Hn1 by done.
    assert (kept (trace_closed i1 lat) = kept i1 ++ [(lat, pending i1)]) as Hk
      by by apply trace_closed_kept.
    assert (pending (trace_closed i1 lat) = []) as Hpn.
    { unfold pending. rewrite trace_closed_start by done. simpl.
      unfold slice. by rewrite Z.sub_diag. }
    destruct (Z.eqb_spec (nr_trace i1) 127).
    + eexists _, _, _. split; [done|]. split_and!; try done.
      * apply (info_ok_reset (trace_closed (disabled i1) lat)).
        apply trace_closed_ok; auto using disabled_ok.
      * by intros ?%list_elem_of_singleton.
      * simpl. destruct (pending i1) eqn:Ep; [done|]. by apply Hclosed.
    + eexists _, _, _. split; [done|]. split_and!; try done.
      * apply trace_closed_ok; auto. lia.
      * by intros ?%elem_of_nil.
      * simpl. destruct (pending i1) eqn:Ep; [done|]. by apply Hclosed.
  - eexists _, _, _. split; [done|]. split_and!; try done.
    + by apply trace_dropped_ok.
    + by intros ?%elem_of_nil.
    + simpl. rewrite trace_dropped_kept. unfold pending at 1.
      rewrite trace_dropped_start. simpl. unfold slice. rewrite Z.sub_diag. simpl.
      by destruct (pending i1).
Qed.

(** ** Runs *)

Inductive event :=
| ev_wakeup (pk clock : Z) (p : task)
| ev_switch (pk : peeks) (cpu clock : Z) (prev next : task)
| ev_migrate (pk_pid pk_cpu clock : Z) (p : task) (cpu : Z)
| ev_pid_store (pk : Z) (input : option Z) (count : Z)
| ev_threshold_store (input : option Z) (count : Z).

Definition step (ev : event) (info : runqlat_info) : res (runqlat_info * log) :=
  match ev with
  | ev_wakeup pk clock p => Done (probe_sched_wakeup pk clock p info, [])
  | ev_switch pk cpu clock prev next => probe_sched_switch pk cpu clock prev next info
  | ev_migrate pk_pid pk_cpu clock p cpu =>
      probe_sched_migrate_task pk_pid pk_cpu clock p cpu info
  | ev_pid_store pk inp count => Done ((trace_pid_store pk inp count info).1, [])
  | ev_threshold_store inp count => Done ((threshold_store inp count info).1, [])
  end.

Fixpoint run (evs : list event) (info : runqlat_info) : res (runqlat_info * log) :=
  match evs with
  | [] => Done (info, [])
  | ev :: evs' =>
      '(info, l1) ← step ev info;
      '(info, l2) ← run evs' info;
      Done (info, l1 ++ l2)
  end.

(** A task has a pid, and the kernel never reports the reserved value. *)
Definition event_ok (ev : event) : Prop :=
  match ev with
  | ev_migrate _ _ _ p _ => t_pid p ≠ INVALID_PID
  | _ => True
  end.

Definition quiet (r : res (runqlat_info * log)) : Prop :=
  ∃ info' l, r = Done (info', l) ∧ info_ok info' ∧ WARN_entries ∉ l.

Lemma quiet_done info : info_ok info → quiet (Done (info, [])).
Proof. intros. eexists _, _. split_and!; [done|done|]. by intros ?%elem_of_nil. Qed.

(** The step shared by the three places that record the running task. *)
Lemma record_running info p rt :
  info_ok info → i_pid info ≠ INVALID_PID →
  ∃ info' l,
    (if negb (run_start info =? 0) then record_task info p rt else Done (info, [])) =
      Done (info', l) ∧ info_ok info' ∧ WARN_entries ∉ l ∧ nr_trace info' < 128.
Proof.
  intros Hi Hp. destruct (io_room _ Hi Hp). split_if.
  - destruct (record_task_ok info p rt) as (info' & l & -> & Hok & Hw & _ & Hn & _);
      [done..|]. eexists _, _. split_and!; [done|done|done|lia].
  - eexists _, _. split_and!; [done|done| |done]. by intros ?%elem_of_nil.
Qed.

Lemma set_curr_ok (b : bool) c info :
  info_ok info → info_ok (if b then info <| curr := c |> else info).
Proof. intros []. by destruct b. Qed.

Lemma switch_queued_ok cpu now prev next info :
  info_ok info → quiet (switch_queued cpu now prev next info).
Proof.
  intros Hi. unfold switch_queued.
  destruct (negb (i_cpu info =? cpu) || (i_pid info =? INVALID_PID)) eqn:E;
    [by apply quiet_done|].
  cbv zeta. set (info1 := if negb (t_idle next) then _ else info).
  assert (info_ok info1) as H1 by (by apply set_curr_ok).
  assert (i_pid info1 ≠ INVALID_PID) as Hp.
  { subst info1. destruct (negb (t_idle next)); simpl; lia. }
  destruct (i_pid info1 =? t_pid next); [|destruct (i_pid info1 =? t_pid prev)].
  - destruct (record_running info1 prev (u64 (now - run_start info1)) H1 Hp)
      as (info2 & l1 & -> & H2 & Hw1 & Hn2). cbn [mbind res_bind].
    destruct (record_task_commit_ok info2 (u64 (now - rq_start info2)) H2 Hn2 (u64_range _))
      as (info3 & b & l2 & -> & H3 & Hw2 & _). cbn [mbind res_bind].
    eexists _, _. split_and!; [done|done|]. rewrite elem_of_app. naive_solver.
  - split_if; apply quiet_done; by destruct H1.
  - destruct (record_running info1 prev (u64 (now - run_start info1)) H1 Hp)
      as (info2 & l1 & -> & H2 & Hw1 & _). cbn [mbind res_bind].
    eexists _, _. split_and!; [done| |done]. by destruct H2.
Qed.

Lemma runqlat_step_ok ev info : info_ok info → event_ok ev → quiet (step ev info).
Proof.
  intros Hi Hev. destruct ev as [pk cl p|pk cpu cl prev next|pp pc cl p cpu|pk inp n|inp n]; simpl.
  - apply quiet_done. unfold probe_sched_wakeup.
    repeat split_if; try done. by destruct Hi.
  - unfold probe_sched_switch. repeat (split_if; [by apply quiet_done|]).
    split_if; [|split_if; [by apply quiet_done|by apply switch_queued_ok]].
    split_if; [by apply quiet_done|]. apply quiet_done. unfold switch_start.
    repeat split_if; try done; by destruct Hi.
  - unfold probe_sched_migrate_task. split_if; [by apply quiet_done|].
    split_if; [by apply quiet_done|].
    assert (i_pid info ≠ INVALID_PID) as Hp by (simpl in Hev; lia).
    destruct (curr info) as [c|].
    + destruct (record_running info c (u64 (cl - run_start info)) Hi Hp)
        as (info2 & l1 & -> & H2 & Hw1 & _). cbn [mbind res_bind].
      eexists _, _. split_and!; [done| |done]. by destruct H2.
    + apply quiet_done. by destruct Hi.
  - apply quiet_done. unfold trace_pid_store. destruct inp as [q|]; [|done].
    split_if; [done|]. split_if; [done|]. split_if.
    + pose proof info_start_ok as []. split; try done; try (simpl; lia).
    + replace q with INVALID_PID by lia. by apply info_ok_reset.
  - apply quiet_done. destruct inp; [|done]. by destruct Hi.
Qed.

Lemma runqlat_run_ok evs info :
  info_ok info → Forall event_ok evs → quiet (run evs info).
Proof.
  intros Hi Hev. revert info Hi. induction Hev as [|ev evs Hev _ IH]; intros info Hi; simpl.
  - by apply quiet_done.
  - destruct (runqlat_step_ok ev info Hi Hev) as (info1 & l1 & -> & H1 & Hw1). cbn [mbind res_bind].
    destruct (IH info1 H1) as (info2 & l2 & -> & H2 & Hw2). cbn [mbind res_bind].
    eexists _, _. split_and!; [done|done|]. rewrite elem_of_app. naive_solver.
Qed.

(** ** Reading the files *)

Definition trace_text (t : Z * list task_entry) : string :=
  trace_line t.1 (zlen t.2) +:+ texts task_line t.2 +:+ nl.

Lemma show_tasks_text tasks t off :
  te_entries t = Some off → 0 ≤ off → 0 ≤ nr_tasks t → off + nr_tasks t ≤ zlen tasks →
  show_tasks tasks t = Done (texts task_line (slice tasks off (nr_tasks t))).
Proof.
  intros Ho ? ? ?. unfold show_tasks. rewrite Ho. apply print_indexed.
  - unfold slice, zlen in *. rewrite length_take, length_drop. lia.
  - intros k x acc Hk. unfold slice in Hk.
    rewrite lookup_take, lookup_drop in Hk. case_decide; [|done].
    assert (aget tasks (off + Z.of_nat k) = Done x) as Hx.
    { apply aget_done. split; [lia|]. rewrite <- Hk. f_equal. lia. }
    simpl. by rewrite Hx.
Qed.

Lemma runqlat_show_text info :
  info_ok info →
  runqlat_show info =
    Done (if i_pid info =? INVALID_PID then inr (texts trace_text (kept info)) else inl EPERM).
Proof.
  intros Hi. unfold runqlat_show. change INVALID_CPU with INVALID_PID.
  destruct (i_pid info =? INVALID_PID); simpl; [|done].
  erewrite (print_indexed trace_text); [done| |].
  - unfold kept. rewrite length_fmap, length_take. pose proof (io_traces _ Hi).
    pose proof (io_nr_trace _ Hi). lia.
  - intros k [lat ts] acc Hk. unfold kept in Hk.
    apply list_lookup_fmap_Some in Hk as (t & [= -> ->] & Ht).
    assert ((desc <$> take (Z.to_nat (nr_trace info)) (trace_entries info)) !! k = Some (desc t)) as Hd.
    { by rewrite list_lookup_fmap, Ht. }
    destruct (windows_lookup _ _ _ _ _ (io_kept _ Hi) Hd) as (off & Hoff & ? & ? & ?).
    simpl in *. apply lookup_take_Some in Ht as [Ht _].
    pose proof (io_le _ Hi). pose proof (io_nr_task _ Hi). pose proof (io_tasks _ Hi).
    rewrite (aget_nat _ _ _ Ht). simpl.
    rewrite (show_tasks_text _ t off) by (done || (unfold zlen; lia)). simpl.
    rewrite Hoff. unfold trace_text. simpl. rewrite i32_small by lia.
    assert (zlen (slice (task_entries info) off (nr_tasks t)) = nr_tasks t) as ->.
    { unfold zlen, slice. rewrite length_take, length_drop. lia. }
    by rewrite !string_app_assoc.
Qed.

Lemma distribution_show_ok info : info_ok info → is_done (distribution_show info) = true.
Proof.
  intros Hi. unfold distribution_show, histogram_show.
  pose proof (histogram_show_text None (latency_hist info) 1 (io_counts _ Hi)) as H.
  unfold Histogram.histogram_show in H.
  destruct (histogram_scan _ _ _ _) as [cm zi]. destruct (cm =? 0); [done|].
  by destruct (histogram_rows _ _ _ _ _).
Qed.

(** ** Theorems *)

(** C14: whatever the order of wakeups, switches, migrations and writes to the
    proc files, and whatever the probes saw before they took the lock, no
    array access leaves its object and the consistency warning of
    [record_task] never fires; afterwards the runqlat file shows exactly the
    kept traces (or refuses while a task is traced) and the distribution file
    can be read. *)
Theorem runqlat_run_safe evs :
  Forall event_ok evs →
  ∃ info l, run evs runqlat_info_start = Done (info, l) ∧ info_ok info ∧
    WARN_entries ∉ l ∧
    runqlat_show info =
      Done (if i_pid info =? INVALID_PID then inr (texts trace_text (kept info))
            else inl EPERM) ∧
    is_done (distribution_show info) = true.
Proof.
  intros (info & l & -> & Hi & Hw)%(runqlat_run_ok _ _ info_start_ok). exists info, l.
  split_and!; auto using runqlat_show_text, distribution_show_ok.
Qed.

(** [record_task] refines appending the task to the trace being
    collected; using the last of the 2048 task slots switches tracing off. *)
Theorem record_task_refines info p rt :
  info_ok info → nr_trace info < 128 → nr_task info < 2048 →
  ∃ info' l, record_task info p rt = Done (info', l) ∧ info_ok info' ∧
    abs info' = a_record (new_task p rt) (abs info) ∧
    i_pid info' = (if nr_task info =? 2047 then INVALID_PID else i_pid info).
Proof.
  intros Hi Hn Hnt.
  destruct (record_task_ok info p rt Hi Hn Hnt) as (i' & l & Hr & Hok & _ & Ha & _ & _ & H1 & H2).
  exists i', l. split_and!; try done. pose proof (io_nr_task _ Hi).
  split_if; [apply H2|apply H1]; lia.
Qed.

(** C17: [record_task_commit] refines closing the trace being collected: it is
    kept with its latency when that reaches the threshold and dropped
    otherwise, an empty trace is left alone, and the latency is counted in
    every case. *)
Theorem record_task_commit_refines info lat :
  info_ok info → nr_trace info < 128 → 0 ≤ lat < 2 ^ 64 →
  ∃ info' b l, record_task_commit info lat = Done (info', b, l) ∧ info_ok info' ∧
    abs info' = a_commit (threshold info) lat (abs info) ∧
    latency_hist info' =
      alter (fun c => u64 (c + 1)) (Z.to_nat (Z.min (Z.log2 (lat / 1000000)) 11))
        (latency_hist info).
Proof.
  intros Hi Hn Hl. destruct (record_task_commit_ok info lat Hi Hn Hl)
    as (i' & b & l & Hr & Hok & _ & Ha & Hh). by exists i', b, l.
Qed.

(** The switch that uses the last task slot and at the same time brings
    the traced task in keeps the trace with the absolute clock value as its
    latency: [record_task] has already cleared [rq_start]. *)
Theorem runqlat_last_slot_latency cpu now prev next info :
  info_ok info → i_cpu info = cpu → i_pid info = t_pid next →
  i_pid info ≠ INVALID_PID → run_start info ≠ 0 → nr_task info = 2047 →
  threshold info ≤ now → 0 ≤ now < 2 ^ 64 →
  ∃ info' l, switch_queued cpu now prev next info = Done (info', l) ∧
    kept info' = kept info ++
      [(now, pending info ++ [new_task prev (u64 (now - run_start info))])].
Proof.
  intros Hi Hcpu Hpid Hinv Hrun Hnt Hthr Hnow. unfold switch_queued. cbv zeta.
  replace (negb (i_cpu info =? cpu) || (i_pid info =? INVALID_PID)) with false by lia.
  set (info1 := if negb (t_idle next) then _ else info).
  assert (info_ok info1) as H1 by (by apply set_curr_ok).
  assert (i_pid info1 = i_pid info ∧ run_start info1 = run_start info ∧
    nr_task info1 = nr_task info ∧ threshold info1 = threshold info ∧
    abs info1 = abs info) as (E1 & E2 & E3 & E4 & E5)
    by (subst info1; by destruct (negb (t_idle next))).
  rewrite E1, E2. replace (i_pid info =? t_pid next) with true by lia.
  replace (negb (run_start info =? 0)) with true by lia.
  destruct (io_room _ H1) as [Hr1 Hr2]; [by rewrite E1|].
  destruct (record_task_ok info1 prev (u64 (now - run_start info)) H1 Hr1 Hr2)
    as (info2 & l1 & -> & H2 & _ & Ha & Hn2 & Ht2 & _ & Hlast). cbn [mbind res_bind].
  destruct Hlast as [-> _]; [lia|].
  rewrite Z.sub_0_r, u64_small by (simpl in *; lia).
  destruct (record_task_commit_ok info2 now H2) as (info3 & b & l2 & -> & H3 & _ & Hc & _);
    [lia|done|]. cbn [mbind res_bind]. eexists _, _. split; [done|].
  rewrite Ha, E5, Ht2, E4 in Hc. unfold a_commit, a_record, abs in Hc. simpl in Hc.
  replace (threshold info <=? now) with true in Hc by lia.
  destruct (pending info ++ _) eqn:Ep; [by destruct (pending info)|].
  injection Hc as Hk _. by rewrite Hk, <- Ep.
Qed.

(** Starting to trace a task empties the kept and collected traces and the
    histogram, keeps the threshold, and leaves the accumulated [sum_lat] of
    earlier runs in place; while a task is traced a second one is refused. *)
Theorem trace_pid_store_spec pk pid count info :
  pid ≠ INVALID_PID →
  if negb (pk =? INVALID_PID) then trace_pid_store pk (Some pid) count info = (info, - EPERM)
  else i_pid info ≠ pid →
    let '(info', ret) := trace_pid_store pk (Some pid) count info in
    ret = count ∧ i_pid info' = pid ∧ info_ok info' ∧ abs info' = ([], []) ∧
    latency_hist info' = replicate 12 0 ∧ threshold info' = threshold info ∧
    sum_lat info' = sum_lat info.
Proof.
  intros Hpid. unfold trace_pid_store.
  replace (negb (pid =? INVALID_PID)) with true by lia. rewrite andb_true_r.
  split_if; [done|]. intros Hne. replace (i_pid info =? pid) with false by lia.
  split_and!; try done. pose proof info_start_ok as []. split; try done; try (simpl; lia).
Qed.

(** ** Loading *)

(** The probes left registered by a sequence of calls. *)
Definition registered (calls : list icall) (i : nat) : bool :=
  foldl (fun b c => if decide (c = probe_register i) then true
                    else if decide (c = probe_unregister i) then false else b) false calls.

(** The kernel has a tracepoint of this name. *)
Definition has_tp (kernel : list (string * Z)) (nm : string) : bool :=
  existsb (fun k => strcmp k.1 nm =? 0) kernel.

Definition filled (slots : list (option Z)) : Z :=
  zlen (filter is_Some slots).

(** After the tracepoints [ks] were looked at. *)
Definition looked (ks : list (string * Z)) (t : tracepoints_probe) : Prop :=
  tp_names t = tp_names tps_probe ∧ num_initalized t = filled (tps t) ∧
  Forall2 (fun slot nm => bool_decide (is_Some slot) = has_tp ks nm) (tps t) (tp_names t).

Lemma lookup_slots_looked ks name id slots names n slots' n' :
  Forall2 (fun slot nm => bool_decide (is_Some slot) = has_tp ks nm) slots names →
  lookup_slots name id slots names n = (slots', n') →
  n' - n = filled slots' - filled slots ∧
  Forall2 (fun slot nm => bool_decide (is_Some slot) = has_tp (ks ++ [(name, id)]) nm)
    slots' names.
Proof.
  intros H. revert n slots' n'. induction H as [|slot nm slots names Hs _ IH]; intros n slots' n' E.
  { simpl in E. simplify_eq. split; [lia|constructor]. }
  simpl in E.
  destruct (match slot with Some _ => _ | None => _ end) as [s1 n1] eqn:E1.
  destruct (lookup_slots name id slots names n1) as [rest n2] eqn:E2. simplify_eq.
  destruct (IH _ _ _ E2) as [Hn HF].
  assert (has_tp (ks ++ [(name, id)]) nm = has_tp ks nm || (strcmp name nm =? 0)) as Hh.
  { unfold has_tp. rewrite existsb_app. simpl. by rewrite orb_false_r. }
  unfold filled in *. rewrite !filter_cons.
  destruct slot as [v|]; simpl in Hs.
  - simplify_eq. rewrite !decide_True by done. split; [zlen_lia|].
    constructor; [|done]. by rewrite Hh, <- Hs.
  - destruct (strcmp name nm =? 0) eqn:Ec; simpl in E1; simplify_eq;
      repeat (rewrite decide_True by done || rewrite decide_False by (by intros [])).
    + split; [zlen_lia|]. constructor; [|done]. by rewrite Hh, orb_true_r.
    + split; [zlen_lia|]. constructor; [|done]. by rewrite Hh, orb_false_r, <- Hs.
Qed.

(** All four slots are filled when and only when the counter says so. *)
Lemma looked_success ks t :
  looked ks t →
  is_tracepoint_lookup_success t = true ↔ Forall (fun nm => has_tp ks nm = true) (tp_names tps_probe).
Proof.
  intros (Hn & Hc & HF). unfold is_tracepoint_lookup_success. rewrite Hc.
  rewrite Hn in HF. simpl in *.
  repeat match goal with H : Forall2 _ _ (_ :: _) |- _ =>
    apply Forall2_cons_inv_r in H as (? & ? & ? & H & ->) end.
  apply Forall2_nil_inv_r in HF as ->.
  rewrite !Forall_cons, Forall_nil.
  repeat match goal with H : bool_decide (is_Some ?s) = has_tp _ _ |- _ =>
    rewrite <- H; clear H; destruct s end;
  cbv; naive_solver.
Qed.

Lemma tracepoint_lookup_looked ks k t :
  looked ks t → looked (ks ++ [k]) (tracepoint_lookup k.1 k.2 t).
Proof.
  intros Hl. destruct k as [name id]. simpl. unfold tracepoint_lookup.
  destruct (is_tracepoint_lookup_success t) eqn:Es.
  - pose proof (proj1 (looked_success _ _ Hl) Es) as Hall. destruct Hl as (Hn & Hc & HF).
    split_and!; [done..|]. rewrite Hn in *. clear Hn Hc Es.
    induction HF as [|slot nm slots names Hs _ IH]; [constructor|].
    apply Forall_cons in Hall as [Hnm Hall]. constructor; [|by apply IH].
    rewrite Hs, Hnm. unfold has_tp in *. by rewrite existsb_app, Hnm.
  - destruct Hl as (Hn & Hc & HF).
    destruct (lookup_slots _ _ _ _ _) as [slots n] eqn:E.
    destruct (lookup_slots_looked _ _ _ _ _ _ _ _ HF E). split_and!; simpl; [done|lia|done].
Qed.

Lemma runqlat_lookup_success kernel :
  is_tracepoint_lookup_success (for_each_kernel_tracepoint kernel tps_probe) =
  forallb (has_tp kernel) (tp_names tps_probe).
Proof.
  assert (looked kernel (for_each_kernel_tracepoint kernel tps_probe)) as H.
  { unfold for_each_kernel_tracepoint.
    assert (∀ done t, looked done t →
      looked (done ++ kernel) (foldl (fun t k => tracepoint_lookup k.1 k.2 t) t kernel)) as G.
    { induction kernel as [|k kernel IH]; intros dn t Ht; simpl; [by rewrite app_nil_r|].
      replace (dn ++ k :: kernel) with ((dn ++ [k]) ++ kernel) by (by rewrite <- app_assoc).
      by apply IH, tracepoint_lookup_looked. }
    apply (G []). split_and!; [done..|]. by repeat constructor. }
  apply looked_success in H. apply eq_true_iff_eq. rewrite H.
  rewrite forallb_forall, List.Forall_forall. done.
Qed.

(** [register_probes] either registers every slot, or stops at the first
    failing one and unregisters those before it, last first. *)
Lemma register_probes_cases reg i todo :
  (Forall (fun k => reg k = 0) (seq i todo) ∧
   register_probes reg i todo = (0, probe_register <$> seq i todo)) ∨
  (∃ k, (k < todo)%nat ∧ Forall (fun k => reg k = 0) (seq i k) ∧ reg (i + k)%nat ≠ 0 ∧
   register_probes reg i todo =
     (reg (i + k)%nat, (probe_register <$> seq i (S k)) ++ unregister_below (i + k))).
Proof.
  revert i. induction todo as [|todo IH]; intros i; [by left|]. simpl.
  destruct (Z.eqb_spec (reg i) 0) as [E|E]; simpl.
  - destruct (IH (S i)) as [[HF ->]|(k & Hk & HF & Hne & ->)].
    + left. split; [by constructor|done].
    + right. exists (S k). rewrite <- plus_n_Sm. split_and!; [lia|by constructor|done|done].
  - right. exists 0%nat. rewrite Nat.add_0_r. split_and!; [lia|constructor|done|done].
Qed.

Lemma registered_none calls i :
  forallb (fun c => match c with probe_register _ => false | _ => true end) calls = true →
  registered calls i = false.
Proof.
  unfold registered. intros H.
  match goal with |- foldl ?f false _ = _ =>
    assert (∀ b, b = false → foldl f b calls = false) as G; [|by apply G] end.
  induction calls as [|c calls IH]; intros b ->; [done|]. simpl in *.
  apply andb_true_iff in H as [Hc H]. apply IH; [done|].
  rewrite decide_False by (by intros ->). by case_decide.
Qed.

Ltac failed_early :=
  split_and!; try done; try (intros; set_solver); intros; by apply registered_none.

Definition all_ok (kernel : list (string * Z)) (ok : icall → bool) (reg : nat → Z) : bool :=
  forallb ok (vzalloc :: proc_mkdir ::
    (proc_create_data <$> ["pid"; "threshold"; "runqlat"; "distribution"])) &&
  forallb (has_tp kernel) (tp_names tps_probe) &&
  forallb (fun i => reg i =? 0) (seq 0 4).

Definition loaded_calls : list icall :=
  [vzalloc; proc_mkdir; proc_create_data "pid"; proc_create_data "threshold";
   proc_create_data "runqlat"; proc_create_data "distribution";
   probe_register 0; probe_register 1; probe_register 2; probe_register 3].

(** Loading.  The module loads exactly when the buffer, the directory,
    the four files, the four tracepoints (however the kernel orders them) and
    the four registrations are all there.  Otherwise it reports an error, the
    buffer is freed if it was allocated, the directory is removed if it was
    made, and every probe that was registered is unregistered again. *)
Theorem trace_runqlat_init_paths kernel ok reg :
  let '(_, ret, calls) := trace_runqlat_init kernel ok reg in
  if all_ok kernel ok reg then ret = 0 ∧ calls = loaded_calls
  else ret ≠ 0 ∧
    (ok vzalloc = true → vfree ∈ calls) ∧
    (ok vzalloc = true → ok proc_mkdir = true → remove_proc_subtree ∈ calls) ∧
    (∀ i, reg i = 0 → registered calls i = false).
Proof.
  destruct (register_probes reg 0 4) as [r regs] eqn:Er.
  unfold trace_runqlat_init, all_ok. rewrite Er, runqlat_lookup_success.
  unfold create_files, remove_proc, free_buf, ENOMEM. simpl forallb.
  destruct (ok vzalloc) eqn:E1; simpl; [|failed_early].
  destruct (ok proc_mkdir) eqn:E2; simpl; [|failed_early].
  repeat match goal with |- context [ok (proc_create_data ?f)] =>
    destruct (ok (proc_create_data f)); simpl; [|failed_early] end.
  destruct (has_tp _ _ && _); simpl; [|failed_early].
  destruct (register_probes_cases reg 0 4) as [[HF E]|(k & Hk & HF & Hne & E)];
    rewrite E in Er; simplify_eq/=.
  - repeat (apply Forall_cons in HF as [-> HF]). done.
  - replace (reg k =? 0) with false by lia.
    destruct k as [|[|[|[|?]]]]; [..|lia];
    repeat (apply Forall_cons in HF as [-> HF]);
    rewrite ?(proj2 (Z.eqb_neq _ _) Hne); simpl;
    (split_and!; [done|intros; set_solver|intros; set_solver|]);
    intros [|[|[|[|i]]]] Hi; done.
Qed.

(** ** Witnesses *)

Definition demo_task (pid : Z) : task := mk_tsk pid "demo" 0 false true.

Definition demo_events : list event :=
  [ev_pid_store INVALID_PID (Some 7) 2;
   ev_wakeup 7 1000 (demo_task 7);
   ev_switch (mk_peeks 7 0 0 0 7 0) 0 30001000 (demo_task 9) (demo_task 7)].

Lemma runqlat_run_safe_witness :
  ∃ info l, run demo_events runqlat_info_start = Done (info, l) ∧
    kept info = [(30000000, [new_task (demo_task 9) 30000000])] ∧ WARN_entries ∉ l.
Proof.
  destruct (runqlat_run_safe demo_events) as (info & l & H & _ & Hw & _).
  { repeat constructor. }
  exists info, l. split; [exact H|]. split; [|exact Hw].
  assert (∃ i l', run demo_events runqlat_info_start = Done (i, l') ∧
    kept i = [(30000000, [new_task (demo_task 9) 30000000])]) as (i & l' & Hr & Hk).
  { eexists _, _. split; vm_compute; reflexivity. }
  congruence.
Defined.

Lemma record_task_refines_witness :
  ∃ info' l, record_task runqlat_info_start (demo_task 9) 500 = Done (info', l) ∧
    abs info' = ([], [new_task (demo_task 9) 500]).
Proof.
  destruct (record_task_refines runqlat_info_start (demo_task 9) 500 info_start_ok)
    as (info' & l & H & _ & Ha & _); [simpl; lia..|].
  exists info', l. split; [exact H|exact Ha].
Defined.

Lemma record_task_commit_refines_witness :
  ∃ info' b l, record_task_commit runqlat_info_start 3000000 = Done (info', b, l) ∧
    latency_hist info' = [0; 1; 0; 0; 0; 0; 0; 0; 0; 0; 0; 0].
Proof.
  destruct (record_task_commit_refines runqlat_info_start 3000000 info_start_ok)
    as (info' & b & l & H & _ & _ & Hh); [simpl; lia..|].
  exists info', b, l. split; [exact H|]. rewrite Hh. reflexivity.
Defined.

(** A trace of 2047 tasks is being collected for task 7. *)
Definition almost_full : runqlat_info :=
  runqlat_info_start <| i_pid := 7 |> <| i_cpu := 0 |>
    <| rq_start := 20000000 |> <| run_start := 29000000 |>
    <| nr_task := 2047 |>
    <| trace_entries := <[0%nat := mk_trace 0 2047 (Some 0)]> zero_traces |>.

Lemma almost_full_ok : info_ok almost_full.
Proof.
  pose proof info_start_ok as [].
  split; try done; try (simpl; lia).
  - intros t [= <-]. done.
  - intros i t Hi. change (nr_trace almost_full) with 0 in Hi.
    unfold almost_full. cbn [trace_entries set_field].
    change (trace_entries _) with (<[0%nat := mk_trace 0 2047 (Some 0)]> zero_traces).
    rewrite list_lookup_insert_ne by lia.
    by intros [-> _]%lookup_replicate_1.
Qed.

Lemma runqlat_last_slot_latency_witness :
  ∃ info' l,
    switch_queued 0 30000000 (demo_task 9) (demo_task 7) almost_full = Done (info', l) ∧
    fst <$> kept info' = [30000000].
Proof.
  destruct (runqlat_last_slot_latency 0 30000000 (demo_task 9) (demo_task 7) almost_full
    almost_full_ok) as (info' & l & H & Hk); try reflexivity; try (simpl; lia);
    try (vm_compute; discriminate).
  exists info', l. split; [exact H|]. rewrite Hk. reflexivity.
Defined.

Lemma trace_pid_store_spec_witness :
  (trace_pid_store 7 (Some 9) 2 almost_full = (almost_full, - EPERM)) ∧
  sum_lat (trace_pid_store INVALID_PID (Some 9) 2
             (runqlat_info_start <| sum_lat := 11 |>)).1 = 11.
Proof.
  split.
  - apply (trace_pid_store_spec 7 9 2 almost_full). discriminate.
  - assert (9 ≠ INVALID_PID) as H by discriminate.
    pose proof (trace_pid_store_spec INVALID_PID 9 2 (runqlat_info_start <| sum_lat := 11 |>) H)
      as H1.
    cbn [negb Z.eqb] in H1. simpl in H1.
    destruct H1 as (_ & _ & _ & _ & _ & _ & H1); [discriminate|exact H1].
Defined.
