(* ===== verification/PageFlags.v ===== *)
(** * page-types: page flags

    The flag words of [mem/vm/page-types.c]: the table of names, the two
    printers, the filters, and the translation of what the kernel exports
    into what the tool shows.  Flag words are [uint64_t] values in [Z]. *)

From S2P Require Import Prelude CLib.

(** ** Bits *)

(** The bits of [linux/kernel-page-flags.h] that the kernel exports.  The
    header is not part of the sources; it documents that its bits are
    distinct, and the tool takes 32 and up for itself. *)
Class KernelPageFlags := {
  KPF_LOCKED : Z; KPF_ERROR : Z; KPF_REFERENCED : Z; KPF_UPTODATE : Z;
  KPF_DIRTY : Z; KPF_LRU : Z; KPF_ACTIVE : Z; KPF_SLAB : Z;
  KPF_WRITEBACK : Z; KPF_RECLAIM : Z; KPF_BUDDY : Z; KPF_MMAP : Z;
  KPF_ANON : Z; KPF_SWAPCACHE : Z; KPF_SWAPBACKED : Z;
  KPF_COMPOUND_HEAD : Z; KPF_COMPOUND_TAIL : Z; KPF_HUGE : Z;
  KPF_UNEVICTABLE : Z; KPF_HWPOISON : Z; KPF_NOPAGE : Z; KPF_KSM : Z;
  KPF_THP : Z; KPF_OFFLINE : Z; KPF_PGTABLE : Z; KPF_ZERO_PAGE : Z;
  KPF_IDLE : Z;
  kernel_bits : list Z :=
    [KPF_LOCKED; KPF_ERROR; KPF_REFERENCED; KPF_UPTODATE; KPF_DIRTY; KPF_LRU;
     KPF_ACTIVE; KPF_SLAB; KPF_WRITEBACK; KPF_RECLAIM; KPF_BUDDY; KPF_MMAP;
     KPF_ANON; KPF_SWAPCACHE; KPF_SWAPBACKED; KPF_COMPOUND_HEAD;
     KPF_COMPOUND_TAIL; KPF_HUGE; KPF_UNEVICTABLE; KPF_HWPOISON; KPF_NOPAGE;
     KPF_KSM; KPF_THP; KPF_OFFLINE; KPF_PGTABLE; KPF_ZERO_PAGE; KPF_IDLE];
  kernel_bits_distinct : NoDup kernel_bits;
  kernel_bits_low : Forall (fun i => 0 ≤ i < 32) kernel_bits;
}.

Definition KPF_RESERVED : Z := 32.
Definition KPF_MLOCKED : Z := 33.
Definition KPF_MAPPEDTODISK : Z := 34.
Definition KPF_PRIVATE : Z := 35.
Definition KPF_PRIVATE_2 : Z := 36.
Definition KPF_OWNER_PRIVATE : Z := 37.
Definition KPF_ARCH : Z := 38.
Definition KPF_UNCACHED : Z := 39.
Definition KPF_SOFTDIRTY : Z := 40.
Definition KPF_ARCH_2 : Z := 41.
Definition KPF_READAHEAD : Z := 48.
Definition KPF_SLOB_FREE : Z := 49.
Definition KPF_SLUB_FROZEN : Z := 50.
Definition KPF_SLUB_DEBUG : Z := 51.
Definition KPF_FILE : Z := 61.
Definition KPF_SWAP : Z := 62.
Definition KPF_MMAP_EXCLUSIVE : Z := 63.

Definition PM_PFRAME_BITS : Z := 55.
Definition PM_PFRAME_MASK : Z := Z.shiftl 1 PM_PFRAME_BITS - 1.
Definition PM_PFRAME (x : Z) : Z := Z.land x PM_PFRAME_MASK.
Definition MAX_SWAPFILES_SHIFT : Z := 5.
Definition PM_SWAP_OFFSET (x : Z) : Z :=
  Z.shiftr (Z.land x PM_PFRAME_MASK) MAX_SWAPFILES_SHIFT.
Definition PM_SOFT_DIRTY : Z := Z.shiftl 1 55.
Definition PM_MMAP_EXCLUSIVE : Z := Z.shiftl 1 56.
Definition PM_FILE : Z := Z.shiftl 1 61.
Definition PM_SWAP : Z := Z.shiftl 1 62.
Definition PM_PRESENT : Z := Z.shiftl 1 63.

Definition KPF_ALL_BITS : Z := 2 ^ 64 - 1.
Definition KPF_HACKERS_BITS : Z := Z.shiftl 65535 32.
Definition KPF_OVERLOADED_BITS : Z := Z.shiftl 65535 48.

(** [BIT(name)], and the test [flags & m]. *)
Definition BIT (i : Z) : Z := Z.shiftl 1 i.
Definition any (flags m : Z) : bool := negb (Z.land flags m =? 0).
(** [~m] on 64 bits. *)
Definition not64 (m : Z) : Z := u64 (Z.lnot m).

Definition pagemap_pfn (val : Z) : Z :=
  if any val PM_PRESENT then PM_PFRAME val else 0.

Definition pagemap_swap_offset (val : Z) : Z :=
  if any val PM_SWAP then PM_SWAP_OFFSET val else 0.

Section Flags.
Context `{KernelPageFlags}.

Definition BITS_COMPOUND : Z := Z.lor (BIT KPF_COMPOUND_HEAD) (BIT KPF_COMPOUND_TAIL).

(** ** Names *)

Definition kernel_names : list (Z * string) :=
  [(KPF_LOCKED, "L:locked"); (KPF_ERROR, "E:error"); (KPF_REFERENCED, "R:referenced");
   (KPF_UPTODATE, "U:uptodate"); (KPF_DIRTY, "D:dirty"); (KPF_LRU, "l:lru");
   (KPF_ACTIVE, "A:active"); (KPF_SLAB, "S:slab"); (KPF_WRITEBACK, "W:writeback");
   (KPF_RECLAIM, "I:reclaim"); (KPF_BUDDY, "B:buddy");
   (KPF_MMAP, "M:mmap"); (KPF_ANON, "a:anonymous"); (KPF_SWAPCACHE, "s:swapcache");
   (KPF_SWAPBACKED, "b:swapbacked"); (KPF_COMPOUND_HEAD, "H:compound_head");
   (KPF_COMPOUND_TAIL, "T:compound_tail"); (KPF_HUGE, "G:huge");
   (KPF_UNEVICTABLE, "u:unevictable"); (KPF_HWPOISON, "X:hwpoison");
   (KPF_NOPAGE, "n:nopage"); (KPF_KSM, "x:ksm"); (KPF_THP, "t:thp");
   (KPF_OFFLINE, "o:offline"); (KPF_PGTABLE, "g:pgtable");
   (KPF_ZERO_PAGE, "z:zero_page"); (KPF_IDLE, "i:idle_page")].

Definition tool_names : list (Z * string) :=
  [(KPF_RESERVED, "r:reserved"); (KPF_MLOCKED, "m:mlocked");
   (KPF_MAPPEDTODISK, "d:mappedtodisk"); (KPF_PRIVATE, "P:private");
   (KPF_PRIVATE_2, "p:private_2"); (KPF_OWNER_PRIVATE, "O:owner_private");
   (KPF_ARCH, "h:arch"); (KPF_UNCACHED, "c:uncached"); (KPF_SOFTDIRTY, "f:softdirty");
   (KPF_ARCH_2, "H:arch_2");
   (KPF_READAHEAD, "I:readahead"); (KPF_SLOB_FREE, "P:slob_free");
   (KPF_SLUB_FROZEN, "A:slub_frozen"); (KPF_SLUB_DEBUG, "E:slub_debug");
   (KPF_FILE, "F:file"); (KPF_SWAP, "w:swap"); (KPF_MMAP_EXCLUSIVE, "1:mmap_exclusive")].

(** [page_flag_names[]], by designated initialisers; 64 elements, NULL where
    nothing is designated. *)
Definition page_flag_names : list (option string) :=
  foldl (fun a e => <[Z.to_nat e.1 := Some e.2]> a) (replicate 64 None)
    (kernel_names ++ tool_names).

(** [(flags >> i) & 1]. *)
Definition present (flags i : Z) : bool := Z.land (Z.shiftr flags i) 1 =? 1.

Definition letter (nm : string) : ascii :=
  match nm with String c _ => c | EmptyString => "000" end.
(** [page_flag_names[i] + 2]. *)
Definition longpart (nm : string) : string :=
  match nm with String _ (String _ s) => s | _ => EmptyString end.

(** The loop of [page_flag_name], from element [i]; [buf] holds 65 bytes. *)
Fixpoint name_loop (names : list (option string)) (i flags : Z) (buf : string)
    : res string :=
  match names with
  | [] => Done buf
  | None :: rest =>
      if present flags i then Die ("unknown flag bit " +:+ dec i)
      else name_loop rest (i + 1) flags buf
  | Some nm :: rest =>
      if strlen buf <? 65
      then name_loop rest (i + 1) flags
             (buf +:+ String (if present flags i then letter nm else "_") "")
      else Wild
  end.

Definition page_flag_name (flags : Z) : res string :=
  name_loop page_flag_names 0 flags "".

(** The loop of [page_flag_longname]: [buf] holds 1024 bytes of which [n] are
    counted; [snprintf] stores what fits and returns what it wanted. *)
Fixpoint longname_loop (names : list (option string)) (i flags : Z) (buf : string) (n : Z)
    : res (string * Z) :=
  match names with
  | [] => Done (buf, n)
  | None :: rest => longname_loop rest (i + 1) flags buf n
  | Some nm :: rest =>
      if present flags i then
        let s := longpart nm +:+ "," in
        if 1024 <=? n then Wild
        else longname_loop rest (i + 1) flags
               (buf +:+ String.substring 0 (Z.to_nat (1024 - n - 1)) s) (n + strlen s)
      else longname_loop rest (i + 1) flags buf n
  end.

Definition page_flag_longname (flags : Z) : res string :=
  '(buf, n) ← longname_loop page_flag_names 0 flags "" 0;
  let n := if negb (n =? 0) then n - 1 else n in
  if 1024 <=? n then Wild else Done (String.substring 0 (Z.to_nat n) buf).

Definition page_flag_type (flag : Z) : string :=
  if any flag KPF_HACKERS_BITS then "(r)"
  else if any flag KPF_OVERLOADED_BITS then "(o)"
  else rep " " 3.

(** ** Translation *)

Definition expand_overloaded_flags (flags pme : Z) : Z :=
  let swap flags a b :=
    if any flags (BIT a) then Z.lxor flags (Z.lor (BIT a) (BIT b)) else flags in
  let flags :=
    if any flags (BIT KPF_SLAB) then
      let flags := swap flags KPF_PRIVATE KPF_SLOB_FREE in
      let flags := swap flags KPF_ACTIVE KPF_SLUB_FROZEN in
      swap flags KPF_ERROR KPF_SLUB_DEBUG
    else flags in
  let flags :=
    if Z.land flags (Z.lor (BIT KPF_RECLAIM) (BIT KPF_WRITEBACK)) =? BIT KPF_RECLAIM
    then Z.lxor flags (Z.lor (BIT KPF_RECLAIM) (BIT KPF_READAHEAD)) else flags in
  let flags := if any pme PM_SOFT_DIRTY then Z.lor flags (BIT KPF_SOFTDIRTY) else flags in
  let flags := if any pme PM_FILE then Z.lor flags (BIT KPF_FILE) else flags in
  let flags := if any pme PM_SWAP then Z.lor flags (BIT KPF_SWAP) else flags in
  if any pme PM_MMAP_EXCLUSIVE then Z.lor flags (BIT KPF_MMAP_EXCLUSIVE) else flags.

Definition well_known_flags (flags : Z) : Z :=
  let flags := Z.land flags (not64 KPF_HACKERS_BITS) in
  if any flags BITS_COMPOUND && negb (any flags (BIT KPF_HUGE))
  then Z.land flags (not64 BITS_COMPOUND) else flags.

Definition kpageflags_flags (opt_raw : bool) (flags pme : Z) : Z :=
  if opt_raw then expand_overloaded_flags flags pme else well_known_flags flags.

(** ** Bits of the translated words *)

Lemma BIT_testbit a i : 0 ≤ a → Z.testbit (BIT a) i = (a =? i).
Proof.
  intros Ha. unfold BIT. rewrite Z.shiftl_1_l.
  destruct (Z.ltb_spec i 0); [rewrite Z.testbit_neg_r by lia; lia|].
  rewrite Z.pow2_bits_eqb by lia. lia.
Qed.

Lemma any_bit f i : 0 ≤ i → any f (BIT i) = Z.testbit f i.
Proof.
  intros Hi. unfold any. destruct (Z.testbit f i) eqn:E.
  - assert (Z.testbit (Z.land f (BIT i)) i = true) as T.
    { rewrite Z.land_spec, E, BIT_testbit by lia. lia. }
    destruct (Z.eqb_spec (Z.land f (BIT i)) 0) as [E0|]; [|done].
    rewrite E0, Z.bits_0 in T. done.
  - assert (Z.land f (BIT i) = 0) as ->; [|done].
    apply Z.bits_inj'. intros n Hn. rewrite Z.land_spec, BIT_testbit, Z.bits_0 by lia.
    destruct (Z.eqb_spec i n); [subst; by rewrite E|by rewrite andb_false_r].
Qed.

Lemma present_bit f i : 0 ≤ i → present f i = Z.testbit f i.
Proof.
  intros Hi. unfold present. change 1 with (Z.ones 1) at 1. rewrite Z.land_ones by lia.
  rewrite <- (Z.add_0_l i) at 2. rewrite <- Z.shiftr_spec by lia.
  by rewrite Z.bit0_odd, Zodd_mod.
Qed.

Lemma not64_testbit m i : 0 ≤ i → Z.testbit (not64 m) i = (i <? 64) && negb (Z.testbit m i).
Proof.
  intros Hi. unfold not64, wrap. destruct (Z.ltb_spec i 64).
  - rewrite Z.mod_pow2_bits_low, Z.lnot_spec by lia. done.
  - by rewrite Z.mod_pow2_bits_high by lia.
Qed.

Lemma u64_bits f i : 0 ≤ f < 2 ^ 64 → 64 ≤ i → Z.testbit f i = false.
Proof.
  intros Hf Hi. destruct (Z.eq_dec f 0) as [->|]; [apply Z.bits_0|].
  apply Z.bits_above_log2; [lia|]. apply Z.log2_lt_pow2; [lia|].
  eapply Z.lt_le_trans; [apply Hf|]. apply Z.pow_le_mono_r; lia.
Qed.

(** Two words agree when their 64 bits do. *)
Lemma u64_ext f g :
  0 ≤ f < 2 ^ 64 → 0 ≤ g < 2 ^ 64 →
  (∀ i, 0 ≤ i < 64 → Z.testbit f i = Z.testbit g i) → f = g.
Proof.
  intros Hf Hg Hb. apply Z.bits_inj'. intros i Hi.
  destruct (Z.ltb_spec i 64); [apply Hb; lia|]. by rewrite !u64_bits by lia.
Qed.

Lemma range_testbit lo n i :
  0 ≤ lo → 0 ≤ n → 0 ≤ i → Z.testbit (Z.shiftl (Z.ones n) lo) i = (lo <=? i) && (i <? lo + n).
Proof.
  intros Hlo Hn Hi. rewrite Z.shiftl_spec by lia.
  destruct (Z.leb_spec lo i).
  - rewrite Z.testbit_ones_nonneg by lia. lia.
  - rewrite Z.testbit_neg_r by lia. done.
Qed.

(** The bits of the kernel are below 32, and distinct. *)
Lemma kernel_low i : i ∈ kernel_bits → 0 ≤ i < 32.
Proof. intros Hi. pose proof kernel_bits_low as HF. rewrite Forall_forall in HF. by apply HF. Qed.

Definition shown_bit (raw : bool) (f pme i : Z) : bool :=
  let b := Z.testbit f in
  if raw then
    if i =? KPF_PRIVATE then b KPF_PRIVATE && negb (b KPF_SLAB)
    else if i =? KPF_SLOB_FREE then b KPF_PRIVATE && b KPF_SLAB
    else if i =? KPF_ACTIVE then b KPF_ACTIVE && negb (b KPF_SLAB)
    else if i =? KPF_SLUB_FROZEN then b KPF_ACTIVE && b KPF_SLAB
    else if i =? KPF_ERROR then b KPF_ERROR && negb (b KPF_SLAB)
    else if i =? KPF_SLUB_DEBUG then b KPF_ERROR && b KPF_SLAB
    else if i =? KPF_RECLAIM then b KPF_RECLAIM && b KPF_WRITEBACK
    else if i =? KPF_READAHEAD then b KPF_RECLAIM && negb (b KPF_WRITEBACK)
    else if i =? KPF_SOFTDIRTY then b KPF_SOFTDIRTY || Z.testbit pme 55
    else if i =? KPF_FILE then Z.testbit pme 61
    else if i =? KPF_SWAP then Z.testbit pme 62
    else if i =? KPF_MMAP_EXCLUSIVE then Z.testbit pme 56
    else b i
  else
    b i && negb ((32 <=? i) && (i <? 48)) &&
    negb (((i =? KPF_COMPOUND_HEAD) || (i =? KPF_COMPOUND_TAIL)) && negb (b KPF_HUGE)).

Lemma lnz_testbit (c : bool) f m i :
  Z.testbit (if c then Z.lor f m else f) i = Z.testbit f i || (c && Z.testbit m i).
Proof. destruct c; [apply Z.lor_spec|by rewrite orb_false_r]. Qed.

Lemma swap_testbit f a b i :
  0 ≤ a → 0 ≤ b →
  Z.testbit (if any f (BIT a) then Z.lxor f (Z.lor (BIT a) (BIT b)) else f) i =
  xorb (Z.testbit f i) (Z.testbit f a && ((a =? i) || (b =? i))).
Proof.
  intros. rewrite any_bit by lia. destruct (Z.testbit f a).
  - by rewrite Z.lxor_spec, Z.lor_spec, !BIT_testbit by lia.
  - by rewrite andb_false_l, xorb_false_r.
Qed.

Lemma only_bit f a b :
  0 ≤ a → 0 ≤ b → a ≠ b →
  (Z.land f (Z.lor (BIT a) (BIT b)) =? BIT a) = Z.testbit f a && negb (Z.testbit f b).
Proof.
  intros Ha Hb Hab.
  assert (∀ i, Z.testbit (Z.land f (Z.lor (BIT a) (BIT b))) i =
    Z.testbit f i && ((a =? i) || (b =? i))) as T.
  { intros i. by rewrite Z.land_spec, Z.lor_spec, !BIT_testbit by lia. }
  apply eq_true_iff_eq. rewrite Z.eqb_eq, andb_true_iff, negb_true_iff. split.
  - intros E. rewrite E in T. pose proof (T a) as Ta. pose proof (T b) as Tb.
    rewrite BIT_testbit in Ta, Tb by lia.
    destruct (Z.testbit f a), (Z.testbit f b); split; lia.
  - intros [Fa Fb]. apply Z.bits_inj'. intros i Hi. rewrite T, BIT_testbit by lia.
    destruct (Z.eqb_spec a i); [subst; by rewrite Fa|].
    destruct (Z.eqb_spec b i); [subst; by rewrite Fb|]. by rewrite andb_false_r.
Qed.

(** Decides the comparisons of known bit numbers. *)
Ltac eqb_bits :=
  repeat match goal with
  | |- context [?a =? ?b] =>
      first [ rewrite (Z.eqb_refl a)
            | rewrite (proj2 (Z.eqb_neq a b)) by (assumption || by apply not_eq_sym)
            | rewrite (proj2 (Z.eqb_neq a b)) by lia ]
  end.

(** Cases on whether [j] is one of the bits [ks]. *)
Ltac at_bits j ks :=
  lazymatch ks with
  | [] => eqb_bits
  | ?k :: ?ks => destruct (decide (j = k)); [subst; eqb_bits|at_bits j ks]
  end.

Ltac bool_bits f :=
  repeat match goal with
  | |- context [Z.testbit f ?k] => destruct (Z.testbit f k)
  end; simpl; rewrite ?andb_false_r, ?andb_true_r, ?orb_false_r; try done.

Lemma overload_facts :
  NoDup [KPF_ERROR; KPF_ACTIVE; KPF_SLAB; KPF_WRITEBACK; KPF_RECLAIM] ∧
  Forall (fun i => 0 ≤ i < 32) [KPF_ERROR; KPF_ACTIVE; KPF_SLAB; KPF_WRITEBACK; KPF_RECLAIM].
Proof.
  split.
  - eapply sublist_NoDup; [apply kernel_bits_distinct|].
    apply sublist_cons, sublist_skip. do 4 apply sublist_cons. do 4 apply sublist_skip.
    apply sublist_nil_l.
  - rewrite !Forall_cons, Forall_nil. split_and!; try done; apply kernel_low; set_solver.
Qed.

Lemma expand_overloaded_bit f pme i :
  0 ≤ f < 2 ^ 48 → 0 ≤ i →
  Z.testbit (expand_overloaded_flags f pme) i = shown_bit true f pme i.
Proof.
  intros Hf Hi. destruct overload_facts as [ND LOW].
  rewrite !NoDup_cons, !not_elem_of_cons in ND. rewrite !Forall_cons in LOW.
  destruct ND as ((?&?&?&?&_) & (?&?&?&_) & (?&?&_) & (?&_) & _).
  destruct LOW as (?&?&?&?&?&_).
  assert (∀ k, 48 ≤ k → Z.testbit f k = false) as Hhi.
  { intros k Hk. destruct (Z.eq_dec f 0) as [->|]; [apply Z.bits_0|].
    apply Z.bits_above_log2; [lia|]. apply Z.log2_lt_pow2; [lia|].
    eapply Z.lt_le_trans; [apply Hf|]. apply Z.pow_le_mono_r; lia. }
  unfold expand_overloaded_flags.
  change PM_SOFT_DIRTY with (BIT 55). change PM_FILE with (BIT 61).
  change PM_SWAP with (BIT 62). change PM_MMAP_EXCLUSIVE with (BIT 56).
  rewrite !lnz_testbit, (any_bit pme 55), (any_bit pme 61), (any_bit pme 62),
    (any_bit pme 56), (any_bit f KPF_SLAB) by lia.
  set (f1 := if Z.testbit f KPF_SLAB then _ else f).
  rewrite (only_bit f1) by lia.
  assert (∀ (c : bool) g, Z.testbit (if c then Z.lxor g (Z.lor (BIT KPF_RECLAIM) (BIT KPF_READAHEAD))
    else g) i = xorb (Z.testbit g i) (c && ((KPF_RECLAIM =? i) || (KPF_READAHEAD =? i)))) as ->.
  { intros [] g; [|by rewrite xorb_false_r].
    by rewrite Z.lxor_spec, Z.lor_spec, !BIT_testbit by (unfold KPF_READAHEAD; lia). }
  assert (∀ i, Z.testbit f1 i = xorb (Z.testbit f i) (Z.testbit f KPF_SLAB &&
    ((Z.testbit f KPF_PRIVATE && ((KPF_PRIVATE =? i) || (KPF_SLOB_FREE =? i))) ||
     (Z.testbit f KPF_ACTIVE && ((KPF_ACTIVE =? i) || (KPF_SLUB_FROZEN =? i))) ||
     (Z.testbit f KPF_ERROR && ((KPF_ERROR =? i) || (KPF_SLUB_DEBUG =? i)))))) as HS.
  { intros j. subst f1. destruct (Z.testbit f KPF_SLAB); [|by rewrite andb_false_l, xorb_false_r].
    rewrite !swap_testbit by (unfold KPF_PRIVATE, KPF_SLOB_FREE, KPF_SLUB_FROZEN, KPF_SLUB_DEBUG; lia).
    unfold KPF_PRIVATE, KPF_SLOB_FREE, KPF_SLUB_FROZEN, KPF_SLUB_DEBUG.
    at_bits j [35; 49; KPF_ACTIVE; 50; KPF_ERROR; 51]; bool_bits f. }
  assert (Z.testbit f1 KPF_RECLAIM = Z.testbit f KPF_RECLAIM ∧
    Z.testbit f1 KPF_WRITEBACK = Z.testbit f KPF_WRITEBACK) as [-> ->].
  { rewrite !HS. unfold KPF_PRIVATE, KPF_SLOB_FREE, KPF_SLUB_FROZEN, KPF_SLUB_DEBUG.
    clear HS. eqb_bits. by rewrite ?andb_false_r, ?xorb_false_r. }
  rewrite !HS, !BIT_testbit by (unfold KPF_SOFTDIRTY, KPF_FILE, KPF_SWAP, KPF_MMAP_EXCLUSIVE; lia).
  unfold shown_bit, KPF_PRIVATE, KPF_SLOB_FREE, KPF_SLUB_FROZEN, KPF_SLUB_DEBUG,
    KPF_READAHEAD, KPF_SOFTDIRTY, KPF_FILE, KPF_SWAP, KPF_MMAP_EXCLUSIVE.
  clear HS f1 Hf.
  at_bits i [35; 49; KPF_ACTIVE; 50; KPF_ERROR; 51; KPF_RECLAIM; 48; 40; 61; 62; 63]; rewrite ?Hhi by lia; bool_bits f; by rewrite ?orb_false_r.
Qed.

Lemma well_known_bit f pme i :
  0 ≤ f < 2 ^ 64 → 0 ≤ i →
  Z.testbit (well_known_flags f) i = shown_bit false f pme i.
Proof.
  intros Hf Hi.
  assert (0 ≤ KPF_COMPOUND_HEAD < 32) by (apply kernel_low; set_solver).
  assert (0 ≤ KPF_COMPOUND_TAIL < 32) by (apply kernel_low; set_solver).
  assert (0 ≤ KPF_HUGE < 32) by (apply kernel_low; set_solver).
  unfold well_known_flags, shown_bit.
  set (g := Z.land f _).
  assert (∀ j, 0 ≤ j → Z.testbit g j = Z.testbit f j && negb ((32 <=? j) && (j <? 48))) as Hg.
  { intros j Hj. subst g. rewrite Z.land_spec, not64_testbit by lia.
    unfold KPF_HACKERS_BITS. change 65535 with (Z.ones 16).
    rewrite range_testbit by lia. change (32 + 16) with 48.
    destruct (Z.ltb_spec j 64); [done|]. by rewrite (u64_bits f j) by lia. }
  rewrite (any_bit g KPF_HUGE), (Hg KPF_HUGE) by lia.
  replace ((32 <=? KPF_HUGE) && (KPF_HUGE <? 48)) with false by lia. rewrite andb_true_r.
  assert (any g BITS_COMPOUND = Z.testbit g KPF_COMPOUND_HEAD || Z.testbit g KPF_COMPOUND_TAIL) as ->.
  { unfold BITS_COMPOUND, any. rewrite <- !any_bit by lia. unfold any.
    rewrite Z.land_lor_distr_r, <- negb_andb. f_equal. apply eq_true_iff_eq.
    rewrite andb_true_iff, !Z.eqb_eq. by rewrite Z.lor_eq_0_iff. }
  assert (∀ c : bool, Z.testbit (if c then Z.land g (not64 BITS_COMPOUND) else g) i =
    Z.testbit g i && negb (c && ((i =? KPF_COMPOUND_HEAD) || (i =? KPF_COMPOUND_TAIL)))) as ->.
  { intros []; simpl; [|by rewrite andb_true_r].
    rewrite Z.land_spec, not64_testbit by lia. unfold BITS_COMPOUND.
    rewrite Z.lor_spec, !BIT_testbit, !(Z.eqb_sym i) by lia.
    destruct (Z.ltb_spec i 64); [done|]. rewrite Hg, (u64_bits f i) by lia. done. }
  rewrite !Hg by lia. destruct (Z.testbit f KPF_HUGE); simpl; [by rewrite !andb_false_r|].
  destruct (Z.eqb_spec i KPF_COMPOUND_HEAD) as [->|]; simpl.
  { replace ((32 <=? _) && _) with false by lia. simpl. rewrite andb_true_r.
    by destruct (Z.testbit f KPF_COMPOUND_HEAD); rewrite ?andb_false_r. }
  destruct (Z.eqb_spec i KPF_COMPOUND_TAIL) as [->|]; simpl; [|by rewrite andb_false_r].
  replace ((32 <=? KPF_COMPOUND_TAIL) && _) with false by lia. simpl. rewrite !andb_true_r.
  destruct (Z.testbit f KPF_COMPOUND_TAIL); simpl; by rewrite ?orb_true_r.
Qed.

(** ** The table of names *)

Lemma fold_insert_length {A} (tbl : list (Z * A)) (a : list (option A)) :
  length (foldl (fun a e => <[Z.to_nat e.1 := Some e.2]> a) a tbl) = length a.
Proof.
  revert a. induction tbl as [|e tbl IH]; intros a; simpl; [done|].
  by rewrite IH, length_insert.
Qed.

Lemma fold_insert_other {A} (tbl : list (Z * A)) (a : list (option A)) i :
  Forall (fun e => Z.to_nat e.1 ≠ i) tbl →
  foldl (fun a e => <[Z.to_nat e.1 := Some e.2]> a) a tbl !! i = a !! i.
Proof.
  intros HF. revert a. induction HF as [|e tbl He _ IH]; intros a; simpl; [done|].
  by rewrite IH, list_lookup_insert_ne.
Qed.

Lemma fold_insert_lookup {A} (tbl : list (Z * A)) (a : list (option A)) k x :
  NoDup tbl.*1 → Forall (fun e => 0 ≤ e.1 < zlen a) tbl → (k, x) ∈ tbl →
  foldl (fun a e => <[Z.to_nat e.1 := Some e.2]> a) a tbl !! Z.to_nat k = Some (Some x).
Proof.
  revert a. induction tbl as [|[k' x'] tbl IH]; intros a ND HF Hin; [by apply elem_of_nil in Hin|].
  simpl in *. apply NoDup_cons in ND as [Hk ND]. apply Forall_cons in HF as [H0 HF].
  apply elem_of_cons in Hin as [[= -> ->]|Hin].
  - rewrite fold_insert_other.
    + apply list_lookup_insert_eq. unfold zlen in *. simpl in *. lia.
    + rewrite Forall_forall in *. intros [k2 x2] Hin. simpl. intros E. apply Hk.
      apply list_elem_of_fmap. exists (k2, x2). split; [|done]. apply HF in Hin. simpl in *. lia.
  - apply IH; [done| |done]. by rewrite zlen_insert.
Qed.

Definition flag_table : list (Z * string) := kernel_names ++ tool_names.

Lemma flag_table_distinct : NoDup flag_table.*1.
Proof.
  unfold flag_table. rewrite fmap_app. apply NoDup_app. split_and!.
  - apply kernel_bits_distinct.
  - intros i Hi Hj. assert (0 ≤ i < 32) by by apply kernel_low.
    assert (Forall (fun i => 32 ≤ i) tool_names.*1) as HF by (repeat constructor; by vm_compute).
    rewrite Forall_forall in HF. apply HF in Hj. lia.
  - apply (bool_decide_unpack _). by vm_compute.
Qed.

Lemma flag_table_bound : Forall (fun e => 0 ≤ e.1 < 64) flag_table.
Proof.
  apply Forall_app. split.
  - apply (Forall_fmap fst (fun i => 0 ≤ i < 64)). eapply Forall_impl; [apply kernel_bits_low|]. simpl. lia.
  - repeat constructor; by vm_compute.
Qed.

Lemma page_flag_names_length : length page_flag_names = 64%nat.
Proof. unfold page_flag_names. by rewrite fold_insert_length. Qed.

(** Element [i] is the name designated for [i], or NULL. *)
Lemma page_flag_names_lookup i nm :
  page_flag_names !! i = Some (Some nm) ↔ (Z.of_nat i, nm) ∈ flag_table.
Proof.
  split.
  - destruct (decide (Exists (fun e => Z.to_nat e.1 = i) flag_table)) as [HE|HE].
    + apply Exists_exists in HE as ([k x] & Hin & Hk). simpl in Hk. subst i.
      assert (page_flag_names !! Z.to_nat k = Some (Some x)) as ->.
      { apply fold_insert_lookup; [apply flag_table_distinct| |done].
        change (zlen _) with 64. apply flag_table_bound. }
      intros [= ->]. pose proof flag_table_bound as HF. rewrite Forall_forall in HF.
      specialize (HF _ Hin). simpl in HF. by rewrite Z2Nat.id by lia.
    + unfold page_flag_names. rewrite fold_insert_other;
        [by intros [? _]%lookup_replicate|].
      apply Forall_forall. intros e He E. apply HE, Exists_exists. by exists e.
  - intros Hin. rewrite <- (Nat2Z.id i). apply fold_insert_lookup;
      [apply flag_table_distinct| |done].
    change (zlen _) with 64. apply flag_table_bound.
Qed.

(** ** The short names *)

Definition char_of (flags : Z) (e : Z * string) : ascii :=
  if Z.testbit flags e.1 then letter e.2 else "_".

Fixpoint of_chars (l : list ascii) : string :=
  match l with [] => "" | c :: r => String c (of_chars r) end.

(** The named bits from [i] on, in order. *)
Fixpoint named (names : list (option string)) (i : Z) : list (Z * string) :=
  match names with
  | [] => []
  | None :: rest => named rest (i + 1)
  | Some nm :: rest => (i, nm) :: named rest (i + 1)
  end.

Fixpoint unknown (names : list (option string)) (i flags : Z) : option Z :=
  match names with
  | [] => None
  | None :: rest => if Z.testbit flags i then Some i else unknown rest (i + 1) flags
  | Some _ :: rest => unknown rest (i + 1) flags
  end.

Lemma name_loop_spec names i flags buf :
  0 ≤ i → strlen buf + zlen (named names i) ≤ 65 →
  name_loop names i flags buf =
    match unknown names i flags with
    | Some k => Die ("unknown flag bit " +:+ dec k)
    | None => Done (buf +:+ of_chars (char_of flags <$> named names i))
    end.
Proof.
  revert i buf. induction names as [|[nm|] names IH]; intros i buf Hi Hlen; simpl in *.
  - by rewrite string_app_nil_r.
  - pose proof (zlen_nonneg (named names (i + 1))). rewrite zlen_cons in Hlen.
    replace (strlen buf <? 65) with true by lia. rewrite present_bit by lia.
    rewrite IH; [|lia|].
    + case_match; [done|]. rewrite string_app_assoc. done.
    + autorewrite with strlen. unfold strlen at 2. simpl. lia.
  - rewrite present_bit by lia. destruct (Z.testbit flags i); [done|]. apply IH; lia.
Qed.

Lemma named_elem names i k nm :
  (k, nm) ∈ named names i ↔ i ≤ k ∧ names !! Z.to_nat (k - i) = Some (Some nm).
Proof.
  revert i. induction names as [|o names IH]; intros i; simpl.
  - rewrite elem_of_nil. split; [done|]. intros [_ E]. by rewrite lookup_nil in E.
  - assert (i < k → (o :: names) !! Z.to_nat (k - i) = names !! Z.to_nat (k - (i + 1))) as E.
    { intros. by replace (Z.to_nat (k - i)) with (S (Z.to_nat (k - (i + 1)))) by lia. }
    destruct (decide (k = i)) as [->|Hk].
    + rewrite Z.sub_diag. simpl. destruct o as [nm'|].
      * rewrite elem_of_cons, IH. split; [intros [[= ->]|[? _]]; [done|lia]|].
        intros [_ [= ->]]. by left.
      * rewrite IH. split; [lia|by intros [_ ?]].
    + destruct o as [nm'|]; rewrite ?elem_of_cons, IH; split.
      * intros [[= ? _]|[? ?]]; [done|]. rewrite E by lia. split; [lia|done].
      * intros [? ?]. right. rewrite <- E by lia. split; [lia|done].
      * intros [? ?]. rewrite E by lia. split; [lia|done].
      * intros [? ?]. rewrite <- E by lia. split; [lia|done].
Qed.

Lemma named_table k nm : (k, nm) ∈ named page_flag_names 0 ↔ (k, nm) ∈ flag_table.
Proof.
  rewrite named_elem, Z.sub_0_r. destruct (Z.leb_spec 0 k).
  - rewrite page_flag_names_lookup, Z2Nat.id by lia. naive_solver.
  - split; [lia|]. intros Hin. pose proof flag_table_bound as HF. rewrite Forall_forall in HF.
    apply HF in Hin. simpl in Hin. lia.
Qed.

Lemma unknown_none names i flags :
  unknown names i flags = None ↔
  ∀ k, i ≤ k → names !! Z.to_nat (k - i) = Some None → Z.testbit flags k = false.
Proof.
  revert i. induction names as [|o names IH]; intros i; simpl.
  - split; [|done]. intros _ k _ E. by rewrite lookup_nil in E.
  - assert (∀ k, i < k → (o :: names) !! Z.to_nat (k - i) = names !! Z.to_nat (k - (i + 1))) as E.
    { intros k Hk. by replace (Z.to_nat (k - i)) with (S (Z.to_nat (k - (i + 1)))) by lia. }
    assert (unknown names (i + 1) flags = None ↔ ∀ k, i < k →
      (o :: names) !! Z.to_nat (k - i) = Some None → Z.testbit flags k = false) as IH'.
    { rewrite IH. split; intros G k Hk Hl; apply G; try lia; rewrite E in * by lia; done. }
    destruct o as [nm|].
    + rewrite IH'. split; intros G k Hk Hl; apply G; try lia; try done.
      destruct (decide (k = i)) as [->|]; [|lia]. by rewrite Z.sub_diag in Hl.
    + destruct (Z.testbit flags i) eqn:Ei.
      * split; [done|]. intros G. rewrite G in Ei; [done|lia|by rewrite Z.sub_diag].
      * rewrite IH'. split; intros G k Hk Hl; [|apply G; [lia|done]].
        destruct (decide (k = i)) as [->|]; [done|apply G; [lia|done]].
Qed.

(** A word all of whose bits have a name. *)
Definition all_named (flags : Z) : Prop :=
  0 ≤ flags < 2 ^ 64 ∧ ∀ i, Z.testbit flags i = true → i ∈ flag_table.*1.

Lemma named_length names i : zlen (named names i) ≤ zlen names.
Proof.
  revert i. induction names as [|[nm|] names IH]; intros i; simpl; [done|..];
    rewrite ?zlen_cons; specialize (IH (i + 1)); lia.
Qed.

Lemma named_nodup names i : NoDup (named names i).*1.
Proof.
  revert i. induction names as [|[nm|] names IH]; intros i; simpl; [constructor|..]; [|done].
  constructor; [|done]. intros ([k x] & -> & Hin)%list_elem_of_fmap.
  apply named_elem in Hin. simpl in Hin. lia.
Qed.

Lemma named_perm : named page_flag_names 0 ≡ₚ flag_table.
Proof.
  apply NoDup_Permutation.
  - apply (NoDup_fmap_1 fst), named_nodup.
  - apply (NoDup_fmap_1 fst), flag_table_distinct.
  - intros [k nm]. apply named_table.
Qed.

Lemma unknown_all_named flags :
  0 ≤ flags < 2 ^ 64 → (unknown page_flag_names 0 flags = None ↔ all_named flags).
Proof.
  intros Hf. rewrite unknown_none. unfold all_named. split.
  - intros G. split; [done|]. intros i Hi.
    assert (0 ≤ i) as H0 by (destruct (Z.ltb_spec i 0); [rewrite Z.testbit_neg_r in Hi by lia; done|lia]).
    assert (i < 64) as H64.
    { destruct (Z.ltb_spec i 64); [done|]. rewrite u64_bits in Hi by lia. done. }
    destruct (lookup_lt_is_Some_2 page_flag_names (Z.to_nat i)) as [[nm|] Hl];
      [rewrite page_flag_names_length; lia|..].
    + apply page_flag_names_lookup in Hl. rewrite Z2Nat.id in Hl by lia.
      apply list_elem_of_fmap. by exists (i, nm).
    + rewrite (G i) in Hi; [done|lia|by rewrite Z.sub_0_r].
  - intros [_ G] k Hk Hl. destruct (Z.testbit flags k) eqn:E; [|done].
    apply G, list_elem_of_fmap in E as ([k' nm] & -> & Hin).
    rewrite Z.sub_0_r in Hl. simpl in *. rewrite <- (Z2Nat.id k') in Hin by lia.
    apply page_flag_names_lookup in Hin. congruence.
Qed.

Lemma page_flag_name_cases flags :
  page_flag_name flags =
    match unknown page_flag_names 0 flags with
    | Some k => Die ("unknown flag bit " +:+ dec k)
    | None => Done (of_chars (char_of flags <$> named page_flag_names 0))
    end.
Proof.
  unfold page_flag_name. apply name_loop_spec; [lia|].
  pose proof (named_length page_flag_names 0) as Hn. unfold zlen at 2 in Hn.
  rewrite page_flag_names_length in Hn. change (strlen "") with 0. lia.
Qed.

Lemma of_chars_inj l k : of_chars l = of_chars k → l = k.
Proof.
  revert k. induction l as [|c l IH]; intros [|d k] E; simplify_eq/=; [done|].
  f_equal. by apply IH.
Qed.

Lemma of_chars_len l : strlen (of_chars l) = zlen l.
Proof. unfold strlen, zlen. induction l; simpl; lia. Qed.

Lemma letters_visible : Forall (fun e => letter e.2 ≠ "_"%char) flag_table.
Proof.
  assert (forallb (fun e => negb (Ascii.eqb (letter e.2) "_")) flag_table = true) as T by reflexivity.
  rewrite forallb_forall in T. rewrite List.Forall_forall. intros e He E.
  apply T in He. rewrite E in He. done.
Qed.

(** The characters tell which bits are set. *)
Lemma chars_bits f g l :
  Forall (fun e => letter e.2 ≠ "_"%char) l → char_of f <$> l = char_of g <$> l →
  Forall (fun e => Z.testbit f e.1 = Z.testbit g e.1) l.
Proof.
  induction 1 as [|e l He _ IH]; intros E; [constructor|]. simpl in E.
  injection E as E1 E2. constructor; [|by apply IH]. unfold char_of in E1.
  destruct (Z.testbit f e.1), (Z.testbit g e.1); congruence.
Qed.

Lemma chars_inj f g :
  all_named f → all_named g →
  char_of f <$> named page_flag_names 0 = char_of g <$> named page_flag_names 0 → f = g.
Proof.
  intros [Hf Gf] [Hg Gg] E. apply chars_bits in E.
  - rewrite named_perm, Forall_forall in E. apply u64_ext; [done..|].
    intros i _. destruct (decide (i ∈ flag_table.*1)) as [([k nm] & -> & Hin)%list_elem_of_fmap|Hn].
    + apply (E _ Hin).
    + destruct (Z.testbit f i) eqn:Ef; [by apply Gf in Ef|].
      destruct (Z.testbit g i) eqn:Eg; [by apply Gg in Eg|done].
  - rewrite named_perm. apply letters_visible.
Qed.

(** ** The long names *)

(** The names of the bits set, lowest bit first, separated by commas. *)
Definition set_names (flags : Z) : list string :=
  (fun e => longpart e.2) <$> filter (fun e => Z.testbit flags e.1 = true) (named page_flag_names 0).

Fixpoint commas (l : list string) : string :=
  match l with
  | [] => ""
  | [s] => s
  | s :: r => s +:+ "," +:+ commas r
  end.

Fixpoint terminated (l : list string) : string :=
  match l with [] => "" | s :: r => s +:+ "," +:+ terminated r end.

Lemma terminated_commas l : l ≠ [] → terminated l = commas l +:+ ",".
Proof.
  induction l as [|s [|t l] IH]; [done|done|]. intros _.
  change (terminated (s :: t :: l)) with (s +:+ "," +:+ terminated (t :: l)).
  rewrite IH by done. change (commas (s :: t :: l)) with (s +:+ "," +:+ commas (t :: l)).
  by rewrite !string_app_assoc.
Qed.

Definition name_cost (e : Z * string) : Z := strlen (longpart e.2) + 1.
Definition names_cost (l : list (Z * string)) : Z := foldr Z.add 0 (name_cost <$> l).

Lemma names_cost_nonneg l : 0 ≤ names_cost l.
Proof.
  unfold names_cost. induction l as [|e l IH]; [done|]. cbn [fmap list_fmap foldr].
  assert (0 ≤ name_cost e) by (unfold name_cost; pose proof (strlen_nonneg (longpart e.2)); lia).
  lia.
Qed.

#[local] Instance names_cost_perm : Proper ((≡ₚ) ==> (=)) names_cost.
Proof.
  intros l k E. unfold names_cost. induction E; cbn [fmap list_fmap foldr]; lia.
Qed.

Lemma longname_loop_spec names i flags buf n :
  0 ≤ i → n = strlen buf → n + names_cost (named names i) < 1024 →
  longname_loop names i flags buf n =
    let t := terminated ((fun e => longpart e.2) <$>
               filter (fun e => Z.testbit flags e.1 = true) (named names i)) in
    Done (buf +:+ t, n + strlen t).
Proof.
  revert i buf n. induction names as [|[nm|] names IH]; intros i buf n Hi -> Hn; cbn [named] in *.
  - cbn. change (strlen "") with 0. by rewrite string_app_nil_r, Z.add_0_r.
  - rewrite filter_cons. cbn [longname_loop]. rewrite present_bit by lia.
    pose proof (names_cost_nonneg (named names (i + 1))) as Hr.
    change (names_cost ((i, nm) :: named names (i + 1))) with
      (name_cost (i, nm) + names_cost (named names (i + 1))) in Hn.
    assert (strlen (longpart nm +:+ ",") = name_cost (i, nm)) as Hc by by rewrite strlen_app.
    assert (0 ≤ strlen buf) by (unfold strlen; lia).
    assert (0 ≤ strlen (longpart nm +:+ ",")) by (unfold strlen; lia).
    cbn [fst]. destruct (Z.testbit flags i) eqn:Eb.
    + rewrite decide_True by done.
      replace (1024 <=? strlen buf) with false by lia. cbv zeta.
      rewrite substring_all by lia. rewrite IH; [|lia|by rewrite (strlen_app buf)|lia].
      cbn [fmap list_fmap terminated snd]. cbv zeta. rewrite !strlen_app.
      f_equal. f_equal; [by rewrite !string_app_assoc|lia].
    + rewrite decide_False by done. rewrite IH; [done|lia|done|].
      unfold name_cost in Hn. cbn [snd] in Hn. assert (0 ≤ strlen (longpart nm)) by (unfold strlen; lia).
      lia.
  - apply IH; [lia|done|done].
Qed.

Lemma page_flag_longname_text flags : page_flag_longname flags = Done (commas (set_names flags)).
Proof.
  unfold page_flag_longname.
  assert (names_cost (named page_flag_names 0) < 1024) as Hc.
  { rewrite named_perm. by vm_compute. }
  rewrite longname_loop_spec by (done || (change (strlen "") with 0; lia)).
  cbv zeta. cbn [mbind res_bind]. fold (set_names flags).
  pose proof (names_cost_nonneg (named page_flag_names 0)).
  assert (∀ l, strlen (terminated ((fun e => longpart e.2) <$>
    filter (fun e => Z.testbit flags e.1 = true) l)) ≤ names_cost l) as Hle.
  { induction l as [|e l IH]; [done|]. rewrite filter_cons.
    change (names_cost (e :: l)) with (name_cost e + names_cost l).
    assert (0 ≤ strlen (longpart e.2)) by (unfold strlen; lia).
    case_decide; cbn [fmap list_fmap terminated]; rewrite ?strlen_app; unfold name_cost;
      change (strlen ",") with 1; lia. }
  specialize (Hle (named page_flag_names 0)). fold (set_names flags) in Hle.
  change (strlen "") with 0. rewrite Z.add_0_l. change ("" +:+ ?t) with t.
  destruct (decide (set_names flags = [])) as [->|Hne]; [done|].
  rewrite terminated_commas in * by done. rewrite strlen_app in *.
  change (strlen ",") with 1 in *. assert (0 ≤ strlen (commas (set_names flags))) by (unfold strlen; lia).
  replace (negb (_ =? 0)) with true by lia. replace (_ + 1 - 1) with (strlen (commas (set_names flags))) by lia.
  replace (1024 <=? _) with false by lia. unfold strlen. rewrite Nat2Z.id. by rewrite substring_app.
Qed.

End Flags.

(** ** Theorems *)

(** The bit numbers Linux uses. *)
#[export] Instance uapi_flags : KernelPageFlags.
Proof.
  refine (Build_KernelPageFlags 0 1 2 3 4 5 6 7 8 9 10 11 12 13 14 15 16 17 18 19 20 21 22
    23 26 24 25 _ _); apply (bool_decide_unpack _); vm_compute; exact I.
Defined.

(** What the tool shows of a flag word.  In raw mode the bits that SLAB
    pages reuse (private, active, error) move to their slob/slub names,
    reclaim without writeback reads as readahead, and the pagemap entry adds
    soft-dirty, file, swap and exclusive; in normal mode the hacker bits 32 to
    47 are hidden, and so are the compound bits of pages that are not huge.
    Every other bit is shown as the kernel gives it. *)
Theorem kpageflags_flags_bits `{KernelPageFlags} raw flags pme i :
  0 ≤ flags < 2 ^ 64 → (raw = true → flags < 2 ^ 48) → 0 ≤ i →
  Z.testbit (kpageflags_flags raw flags pme) i = shown_bit raw flags pme i.
Proof.
  intros Hf Hr Hi. destruct raw; simpl.
  - apply expand_overloaded_bit; [|done]. specialize (Hr eq_refl). lia.
  - by apply (well_known_bit flags pme).
Qed.

Lemma kpageflags_flags_bits_witness :
  Z.testbit (kpageflags_flags true (BIT KPF_SLAB + BIT KPF_ERROR) 0) KPF_SLUB_DEBUG = true ∧
  Z.testbit (kpageflags_flags false (BIT KPF_COMPOUND_HEAD) 0) KPF_COMPOUND_HEAD = false.
Proof.
  split.
  - rewrite (kpageflags_flags_bits true (BIT KPF_SLAB + BIT KPF_ERROR) 0 KPF_SLUB_DEBUG);
      [reflexivity|vm_compute; split; congruence|intros _; reflexivity|discriminate].
  - rewrite (kpageflags_flags_bits false (BIT KPF_COMPOUND_HEAD) 0 KPF_COMPOUND_HEAD);
      [reflexivity|vm_compute; split; congruence|discriminate|discriminate].
Defined.

(** The column of flag letters is faithful: [page_flag_name] never writes
    outside its 65-byte buffer, it fails exactly on words with a bit that has
    no name, and otherwise prints 44 characters from which the word can be
    read back: no two words print the same. *)
Theorem page_flag_name_faithful `{KernelPageFlags} flags :
  0 ≤ flags < 2 ^ 64 →
  page_flag_name flags ≠ Wild ∧
  (all_named flags ↔ is_done (page_flag_name flags) = true) ∧
  (∀ s, page_flag_name flags = Done s →
     strlen s = 44 ∧
     ∀ flags', 0 ≤ flags' < 2 ^ 64 → page_flag_name flags' = Done s → flags' = flags).
Proof.
  intros Hf. pose proof (unknown_all_named flags Hf) as Hu.
  rewrite page_flag_name_cases. destruct (unknown page_flag_names 0 flags) eqn:E.
  { split; [discriminate|]. split; [|discriminate].
    split; [intros A; by apply Hu in A|discriminate]. }
  split; [discriminate|]. split; [split; [reflexivity|intros _; by apply Hu]|].
  intros s <-%Done_inj. split.
  - rewrite of_chars_len. unfold zlen. rewrite length_fmap, (Permutation_length named_perm).
    reflexivity.
  - intros g Hg. pose proof (unknown_all_named g Hg) as Hgu. rewrite page_flag_name_cases.
    destruct (unknown page_flag_names 0 g); [discriminate|]. intros Es%Done_inj.
    apply chars_inj; [by apply Hgu|by apply Hu|exact (of_chars_inj _ _ Es)].
Qed.

Lemma page_flag_name_faithful_witness :
  is_done (page_flag_name (BIT KPF_LOCKED + BIT KPF_SWAP)) = true ∧
  is_done (page_flag_name (BIT 60)) = false ∧
  all_named (BIT KPF_LOCKED + BIT KPF_SWAP).
Proof.
  split; [reflexivity|]. split; [reflexivity|].
  apply (page_flag_name_faithful (BIT KPF_LOCKED + BIT KPF_SWAP));
    [vm_compute; split; congruence|reflexivity].
Defined.

#[global] Opaque page_flag_names.
