(* ===== verification/PageParse.v ===== *)
(** * page-types: options

    The command line of [mem/vm/page-types.c]: numbers, address ranges, bit
    filters, cgroups and the memory map of a process.  A file the tool reads
    is an argument: [stat] for inodes, the lines of /proc/pid/maps. *)

From S2P Require Import Prelude CLib PageFlags.

Definition MAX_ADDR_RANGES : Z := 1024.
Definition MAX_VMAS : Z := 10240.
Definition MAX_BIT_FILTERS : Z := 64.

(** The static variables the options set. *)
Record settings := mk_settings {
  opt_raw : bool;
  opt_list : Z;
  opt_mark_idle : bool;
  opt_no_summary : bool;
  opt_pid : Z;
  opt_file : option string;
  opt_cgroup : Z;
  opt_list_cgroup : bool;
  opt_list_mapcnt : bool;
  opt_kpageflags : option string;
  nr_addr_ranges : Z;
  opt_offset : list Z;
  opt_size : list Z;
  nr_vmas : Z;
  pg_start : list Z;
  pg_end : list Z;
  nr_bit_filters : Z;
  opt_mask : list Z;
  opt_bits : list Z;
  opt_hwpoison : bool;
  opt_unpoison : bool;
}.
#[export] Instance eta_settings : Eta settings := fun o =>
  mk_settings (opt_raw o) (opt_list o) (opt_mark_idle o) (opt_no_summary o) (opt_pid o)
    (opt_file o) (opt_cgroup o) (opt_list_cgroup o) (opt_list_mapcnt o) (opt_kpageflags o)
    (nr_addr_ranges o) (opt_offset o) (opt_size o) (nr_vmas o) (pg_start o) (pg_end o)
    (nr_bit_filters o) (opt_mask o) (opt_bits o) (opt_hwpoison o) (opt_unpoison o).

Definition settings_start : settings :=
  mk_settings false 0 false false 0 None 0 false false None
    0 (replicate (Z.to_nat MAX_ADDR_RANGES) 0) (replicate (Z.to_nat MAX_ADDR_RANGES) 0)
    0 (replicate (Z.to_nat MAX_VMAS) 0) (replicate (Z.to_nat MAX_VMAS) 0)
    0 (replicate (Z.to_nat MAX_BIT_FILTERS) 0) (replicate (Z.to_nat MAX_BIT_FILTERS) 0)
    false false.

(** ** Numbers and address ranges *)

Definition parse_number (str : string) : res Z :=
  let n := u64 (fst (strtoll 0 str)) in
  if (n =? 0) && negb (Ascii.eqb (letter str) "0")
  then Die ("invalid name or number: " +:+ str +:+ nl)
  else Done n.

Definition add_addr_range (offset size : Z) (o : settings) : res settings :=
  if MAX_ADDR_RANGES <=? nr_addr_ranges o then Die ("too many addr ranges" +:+ nl)
  else
    offs ← aset (opt_offset o) (nr_addr_ranges o) offset;
    sizes ← aset (opt_size o) (nr_addr_ranges o) (Z.min size (u64 (ULONG_MAX - offset)));
    Done (o <| opt_offset := offs |> <| opt_size := sizes |>
            <| nr_addr_ranges := nr_addr_ranges o + 1 |>).

Definition tail (s : string) : string :=
  match s with String _ r => r | EmptyString => EmptyString end.

(** The separator and what follows it: [p]. *)
Definition range_sep (optarg : string) : option string :=
  match strchr optarg "," with
  | Some p => Some p
  | None => strchr optarg "+"
  end.

Definition parse_addr_range (optarg : string) (o : settings) : res settings :=
  match range_sep optarg with
  | Some p =>
      if strlen p =? strlen optarg then
        size ← parse_number (tail p);
        add_addr_range 0 size o
      else
        offset ← parse_number optarg;
        size ← (match tail p with
                | EmptyString => Done ULONG_MAX
                | p1 =>
                    size ← parse_number p1;
                    if Ascii.eqb (letter p) "," then
                      if size <? offset
                      then Die ("invalid range: " +:+ dec offset +:+ "," +:+ dec size +:+ nl)
                      else Done (u64 (size - offset))
                    else Done size
                end);
        add_addr_range offset size o
  | None =>
      offset ← parse_number optarg;
      add_addr_range offset 1 o
  end.

(** ** Flag names and filters *)

Definition add_bits_filter (mask bits : Z) (o : settings) : res settings :=
  if MAX_BIT_FILTERS <=? nr_bit_filters o then Die ("too much bit filters" +:+ nl)
  else
    ms ← aset (opt_mask o) (nr_bit_filters o) mask;
    bs ← aset (opt_bits o) (nr_bit_filters o) bits;
    Done (o <| opt_mask := ms |> <| opt_bits := bs |>
            <| nr_bit_filters := nr_bit_filters o + 1 |>).

(** [for (i = 0; i < nr_bit_filters; i++)], [n] filters from [i] on. *)
Fixpoint bit_mask_loop (o : settings) (flags : Z) (i : Z) (n : nat) : res bool :=
  match n with
  | O => Done true
  | S n =>
      bits ← aget (opt_bits o) i;
      mask ← aget (opt_mask o) i;
      if bits =? KPF_ALL_BITS then
        if Z.land flags mask =? 0 then Done false else bit_mask_loop o flags (i + 1) n
      else
        if negb (Z.land flags mask =? bits) then Done false
        else bit_mask_loop o flags (i + 1) n
  end.

Definition bit_mask_ok (o : settings) (flags : Z) : res bool :=
  bit_mask_loop o flags 0 (Z.to_nat (nr_bit_filters o)).

Section Names.
Context `{KernelPageFlags}.

(** [strncmp(str, name, len) == 0] for the first name that matches. *)
Fixpoint find_name (names : list (option string)) (i : Z) (str : string) (len : Z) : option Z :=
  match names with
  | [] => None
  | Some nm :: rest =>
      if strncmp_eq str (longpart nm) len then Some (BIT i) else find_name rest (i + 1) str len
  | None :: rest => find_name rest (i + 1) str len
  end.

Definition parse_flag_name (str : string) (len : Z) : res Z :=
  if (strlen str =? 0) || (len =? 0) then Done 0
  else if (len <=? 8) && strncmp_eq str "compound" len then Done BITS_COMPOUND
  else match find_name page_flag_names 0 str len with
       | Some b => Done b
       | None => parse_number str
       end.

(** What happens at the end of an item: [str] is its start, [len] its length. *)
Definition flag_item (str : string) (len : Z) (all : bool) (flags : Z) : res Z :=
  if negb (Ascii.eqb (letter str) "~") then
    b ← parse_flag_name str len; Done (Z.lor flags b)
  else if all && negb (strlen (tail str) =? 0) then
    b ← parse_flag_name (tail str) (len - 1); Done (Z.lor flags b)
  else Done flags.

(** The scan, [p] being [len] characters after the start [str] of the item. *)
Fixpoint flag_items (p str : string) (len : Z) (all : bool) (flags : Z) : res Z :=
  match p with
  | EmptyString => flag_item str len all flags
  | String c p' =>
      if Ascii.eqb c "," then
        flags ← flag_item str len all flags;
        flag_items p' p' 0 all flags
      else if Ascii.eqb c "=" then flag_item str len all flags
      else flag_items p' str (len + 1) all flags
  end.

Definition parse_flag_names (str : string) (all : bool) : res Z :=
  flag_items str str 0 all 0.

Definition parse_bits_mask (optarg : string) (o : settings) : res settings :=
  match strchr optarg "=" with
  | Some p =>
      if strlen p =? strlen optarg then
        bits ← parse_flag_names (tail p) false;
        add_bits_filter KPF_ALL_BITS bits o
      else
        mask ← parse_flag_names optarg false;
        bits ← parse_flag_names (tail p) false;
        add_bits_filter mask bits o
  | None =>
      match strchr optarg "~" with
      | Some _ =>
          mask ← parse_flag_names optarg true;
          bits ← parse_flag_names optarg false;
          add_bits_filter mask bits o
      | None =>
          mask ← parse_flag_names optarg false;
          add_bits_filter mask KPF_ALL_BITS o
      end
  end.

Definition hex16 (z : Z) : string := "0x" +:+ padl "0" 16 (hex z).

Definition describe_flags (optarg : string) : res string :=
  flags ← parse_flag_names optarg false;
  short ← page_flag_name flags;
  long ← page_flag_longname flags;
  Done (hex16 flags +:+ tab +:+ short +:+ tab +:+ long +:+ nl).

End Names.

(** ** Files, cgroups and processes *)

Definition parse_file (name : string) (o : settings) : settings :=
  o <| opt_file := Some name |>.

Definition parse_kpageflags (name : string) (o : settings) : settings :=
  o <| opt_kpageflags := Some name |>.

(** What [stat] tells: whether it is a directory, and the inode. *)
Record stat_info := mk_stat { st_isdir : bool; st_ino : Z }.

Definition parse_cgroup (stat : string → option stat_info) (path : string) (o : settings)
    : res settings :=
  if Ascii.eqb (letter path) "@" then
    n ← parse_number (tail path);
    Done (o <| opt_cgroup := n |>)
  else match stat path with
       | None => Die ("stat failed: " +:+ path +:+ ": %m" +:+ nl)
       | Some st =>
           if negb (st_isdir st)
           then Die ("cgroup supposed to be a directory: " +:+ path +:+ nl)
           else Done (o <| opt_cgroup := st_ino st |>)
       end.

(** ** The memory map of a process

    [sscanf(buf, "%lx-%lx %c%c%c%c %llx %x:%x %lu", ...)] with all ten
    conversions: the start and end of the area. *)

Definition scan_hex (s : string) : option (Z * string) :=
  match scan_number 16 s with
  | None => None
  | Some _ => Some (strtoul 16 s)
  end.

Definition scan_char (s : string) : option string :=
  match s with String _ r => Some r | EmptyString => None end.

Definition scan_lit (c : ascii) (s : string) : option string :=
  match s with String x r => if Ascii.eqb x c then Some r else None | EmptyString => None end.

Definition scan_maps_line (s : string) : option (Z * Z) :=
  '(vm_start, s) ← scan_hex s;
  s ← scan_lit "-" s;
  '(vm_end, s) ← scan_hex s;
  let s := skip_space s in
  s ← scan_char s; s ← scan_char s; s ← scan_char s; s ← scan_char s;
  '(_, s) ← scan_hex s;
  '(_, s) ← scan_hex s;
  s ← scan_lit ":" s;
  '(_, s) ← scan_hex s;
  _ ← scan_number 10 s;
  Some (vm_start, vm_end).

(** The loop over the lines of the file, and what goes to stderr. *)
Fixpoint read_maps (page_size : Z) (lines : list string) (o : settings)
    : res (settings * list string) :=
  match lines with
  | [] => Done (o, [])
  | l :: rest =>
      match scan_maps_line l with
      | None =>
          '(o, err) ← read_maps page_size rest o;
          Done (o, ("unexpected line: " +:+ l +:+ nl) :: err)
      | Some (vm_start, vm_end) =>
          starts ← aset (pg_start o) (nr_vmas o) (vm_start / page_size);
          ends ← aset (pg_end o) (nr_vmas o) (vm_end / page_size);
          let o := o <| pg_start := starts |> <| pg_end := ends |>
                     <| nr_vmas := nr_vmas o + 1 |> in
          if MAX_VMAS <=? nr_vmas o then Done (o, ["too many VMAs" +:+ nl])
          else read_maps page_size rest o
      end
  end.

(** [pagemap] and [maps] are the two files of the process, where they can be
    opened. *)
Definition parse_pid (page_size : Z) (pagemap : Z → bool) (maps : Z → option (list string))
    (str : string) (o : settings) : res (settings * list string) :=
  n ← parse_number str;
  let o := o <| opt_pid := i32 n |> in
  if negb (pagemap (opt_pid o))
  then Die ("/proc/" +:+ dec (opt_pid o) +:+ "/pagemap") else
  match maps (opt_pid o) with
  | None => Die ("/proc/" +:+ dec (opt_pid o) +:+ "/maps")
  | Some lines => read_maps page_size lines o
  end.

Example range_demo :
  (o ← parse_addr_range "0x10,0x20" settings_start; o ← parse_addr_range "5," o;
   Done (take 2 (opt_offset o), take 2 (opt_size o))) =
  Done ([16; 5], [16; 2 ^ 64 - 6]).
Proof. vm_compute. reflexivity. Qed.

Example maps_demo :
  scan_maps_line "55d0c0a00000-55d0c0a02000 r--p 00000000 08:01 1234 /bin/cat" =
  Some (94355073269760, 94355073277952).
Proof. vm_compute. reflexivity. Qed.

Example describe_demo :
  describe_flags "locked,0x4" = Done ("0x0000000000000005" +:+ tab +:+
    "L_R_________________________________________" +:+ tab +:+ "locked,referenced" +:+ nl).
Proof. vm_compute. reflexivity. Qed.

(** ** Names read back *)

(** Membership of an entry in the table of names. *)
Ltac in_table :=
  unfold flag_table, kernel_names, tool_names; cbn [app]; by repeat first [left | right].

Section Names_proofs.
Context `{KernelPageFlags}.

Definition prefix_of (t s : string) : bool :=
  bool_decide (String.substring 0 (String.length t) s = t).

(** An item of a list of flags that is read as a name. *)
Definition token_ok (t : string) : bool :=
  negb (strlen t =? 0) && negb (Ascii.eqb (letter t) "~") &&
  negb ((strlen t <=? 8) && prefix_of t "compound") &&
  forallb (fun c => negb (Ascii.eqb c ",") && negb (Ascii.eqb c "=")) (list_ascii_of_string t).

Lemma substring_prefix t rest :
  String.substring 0 (String.length t) (t +:+ rest) = t.
Proof. apply substring_app. Qed.

Lemma strncmp_token t rest s :
  strncmp_eq (t +:+ rest) s (strlen t) = prefix_of t s.
Proof.
  unfold strncmp_eq, prefix_of, strlen. rewrite Nat2Z.id, substring_prefix.
  apply bool_decide_ext. split; congruence.
Qed.

Lemma find_name_first names i t rest j nm :
  names !! j = Some (Some nm) → prefix_of t (longpart nm) = true →
  (∀ j' nm', (j' < j)%nat → names !! j' = Some (Some nm') → prefix_of t (longpart nm') = false) →
  find_name names i (t +:+ rest) (strlen t) = Some (BIT (i + Z.of_nat j)).
Proof.
  revert i j. induction names as [|o names IH]; intros i [|j] Hj Hp Hf; simplify_eq/=.
  - rewrite strncmp_token, Hp. by rewrite Z.add_0_r.
  - assert (find_name names (i + 1) (t +:+ rest) (strlen t) = Some (BIT (i + Z.of_nat (S j)))) as E.
    { rewrite (IH (i + 1) j); [f_equal; f_equal; lia|done|done|].
      intros j' nm' Hl. apply (Hf (S j')). lia. }
    destruct o as [nm'|]; [|done]. rewrite strncmp_token, (Hf 0%nat nm'); [done|lia|done].
Qed.

Lemma flag_items_skip t p str len all flags :
  forallb (fun c => negb (Ascii.eqb c ",") && negb (Ascii.eqb c "=")) (list_ascii_of_string t) = true →
  flag_items (t +:+ p) str len all flags = flag_items p str (len + strlen t) all flags.
Proof.
  revert len. induction t as [|c t IH]; intros len Ht.
  - change (strlen "") with 0. by rewrite Z.add_0_r.
  - cbn [list_ascii_of_string forallb] in Ht. apply andb_true_iff in Ht as [Hc Ht].
    apply andb_true_iff in Hc as [H1 H2].
    change (String c t +:+ p) with (String c (t +:+ p)). cbn [flag_items].
    destruct (Ascii.eqb c ","); [done|]. destruct (Ascii.eqb c "="); [done|].
    rewrite IH by done. f_equal. unfold strlen. cbn [String.length]. lia.
Qed.

Lemma flag_name_unique e e' :
  e ∈ flag_table → e' ∈ flag_table → e.2 = e'.2 → e.1 = e'.1.
Proof.
  assert (NoDup flag_table.*2) as ND by (apply (bool_decide_unpack _); by vm_compute).
  intros [i Hi]%list_elem_of_lookup [j Hj]%list_elem_of_lookup E.
  assert (i = j) as <-; [|by simplify_eq].
  apply (NoDup_lookup _ i j e.2 ND); rewrite list_lookup_fmap, ?Hi, ?Hj; [done|by rewrite E].
Qed.

(** Names that start alike: the shorter one has the lower bit, but for swap. *)
Lemma name_order e e' :
  e ∈ flag_table → e' ∈ flag_table → e.2 ≠ "w:swap" →
  prefix_of (longpart e.2) (longpart e'.2) = true → e.1 = e'.1 ∨ e.1 < e'.1.
Proof.
  intros He He' Hs Hp. pose proof (flag_name_unique e e' He He') as Heq.
  assert (∀ P l k, forallb (fun e => forallb (fun e' => negb (prefix_of (longpart e.2) (longpart e'.2)) || P e e') k) l = true →
    e ∈ l → e' ∈ k → P e e' = true) as use.
  { intros P l k Hf Hl Hk. rewrite forallb_forall in Hf. apply list_elem_of_In in Hl, Hk.
    specialize (Hf _ Hl). rewrite forallb_forall in Hf. specialize (Hf _ Hk).
    rewrite Hp in Hf. done. }
  apply elem_of_app in He as [He|He]; apply elem_of_app in He' as [He'|He'].
  - left. apply Heq, String.eqb_eq.
    apply (use (fun e e' => String.eqb e.2 e'.2) kernel_names kernel_names); [reflexivity|done..].
  - right. assert (0 ≤ e.1 < 32).
    { apply kernel_low. change kernel_bits with kernel_names.*1. by apply list_elem_of_fmap_2. }
    assert (Forall (fun e => 32 ≤ e.1) tool_names) as HF by (repeat constructor; by vm_compute).
    rewrite Forall_forall in HF. apply HF in He'. lia.
  - exfalso. apply Hs, String.eqb_eq.
    apply (use (fun e e' => String.eqb e.2 "w:swap") tool_names kernel_names); [reflexivity|done..].
  - assert ((e.1 <=? e'.1) = true).
    { apply (use (fun e e' => e.1 <=? e'.1) tool_names tool_names); [reflexivity|done..]. }
    lia.
Qed.

Lemma tokens_ok : Forall (fun e => token_ok (longpart e.2) = true) flag_table.
Proof.
  assert (forallb (fun e => token_ok (longpart e.2)) flag_table = true) as T by reflexivity.
  rewrite forallb_forall in T. by rewrite List.Forall_forall.
Qed.

(** The name of a bit is read as that bit. *)
Lemma parse_flag_name_token k nm rest :
  (k, nm) ∈ flag_table → nm ≠ "w:swap" →
  parse_flag_name (longpart nm +:+ rest) (strlen (longpart nm)) = Done (BIT k).
Proof.
  intros Hin Hs. pose proof tokens_ok as HF. rewrite Forall_forall in HF.
  specialize (HF _ Hin). cbn [snd] in HF. unfold token_ok in HF.
  rewrite !andb_true_iff in HF. destruct HF as [[[H1 H2] H3] H4].
  unfold parse_flag_name. rewrite strncmp_token, strlen_app.
  pose proof (strlen_nonneg rest). pose proof (strlen_nonneg (longpart nm)).
  replace (_ || _) with false by lia. rewrite (proj1 (negb_true_iff _) H3).
  pose proof flag_table_bound as HB. rewrite Forall_forall in HB.
  specialize (HB _ Hin). cbn [fst] in HB.
  rewrite (find_name_first _ 0 _ rest (Z.to_nat k) nm).
  - by rewrite Z2Nat.id, Z.add_0_l by lia.
  - apply page_flag_names_lookup. by rewrite Z2Nat.id by lia.
  - unfold prefix_of. apply bool_decide_true. rewrite <- (string_app_nil_r (longpart nm)) at 2.
    apply substring_prefix.
  - intros j' nm' Hj Hl. apply page_flag_names_lookup in Hl.
    destruct (prefix_of (longpart nm) (longpart nm')) eqn:Ep; [exfalso|reflexivity].
    destruct (name_order (k, nm) (Z.of_nat j', nm') Hin Hl Hs Ep); cbn [fst] in *; lia.
Qed.

Lemma table_token k nm :
  (k, nm) ∈ flag_table →
  forallb (fun c => negb (Ascii.eqb c ",") && negb (Ascii.eqb c "="))
    (list_ascii_of_string (longpart nm)) = true.
Proof.
  intros Hin. pose proof tokens_ok as T. rewrite Forall_forall in T. specialize (T _ Hin).
  cbn [snd] in T. unfold token_ok in T. rewrite !andb_true_iff in T. tauto.
Qed.

Definition lor_bits (l : list (Z * string)) (flags : Z) : Z :=
  foldl (fun a e => Z.lor a (BIT e.1)) flags l.

Lemma flag_item_token k nm rest all flags :
  (k, nm) ∈ flag_table → nm ≠ "w:swap" →
  flag_item (longpart nm +:+ rest) (strlen (longpart nm)) all flags = Done (Z.lor flags (BIT k)).
Proof.
  intros Hin Hs. unfold flag_item. rewrite (parse_flag_name_token k nm) by done.
  pose proof tokens_ok as HF. rewrite Forall_forall in HF. specialize (HF _ Hin).
  cbn [snd] in HF. unfold token_ok in HF. rewrite !andb_true_iff in HF.
  destruct HF as [[[H1 H2] _] _].
  assert (letter (longpart nm +:+ rest) = letter (longpart nm)) as ->.
  { by destruct (longpart nm). }
  by rewrite H2.
Qed.

(** Reading a list of names, up to the text [p] after it. *)
Lemma flag_items_commas l p all flags :
  Forall (fun e => e ∈ flag_table ∧ e.2 ≠ "w:swap") l → l ≠ [] →
  let s := commas ((fun e => longpart e.2) <$> l) +:+ p in
  (p = "" ∨ (∃ q, p = "=" +:+ q) → flag_items s s 0 all flags = Done (lor_bits l flags)) ∧
  (∀ q, p = "," +:+ q → flag_items s s 0 all flags = flag_items q q 0 all (lor_bits l flags)).
Proof.
  intros HF. revert flags. induction HF as [|[k nm] l [Hin Hs] HF IH]; intros flags Hne; [done|].
  clear Hne. cbn [fmap list_fmap snd fst] in *.
  assert (forallb (fun c => negb (Ascii.eqb c ",") && negb (Ascii.eqb c "="))
    (list_ascii_of_string (longpart nm)) = true) as Hc by by apply (table_token k nm).
  change (lor_bits ((k, nm) :: l) flags) with (lor_bits l (Z.lor flags (BIT k))).
  destruct l as [|e l].
  - cbn [commas fmap list_fmap]. cbv zeta.
    rewrite !flag_items_skip, Z.add_0_l by done. split.
    + intros [->|[q ->]]; by apply flag_item_token.
    + intros q ->. change (flag_items ("," +:+ q) ?s ?n all flags) with
        (f ← flag_item s n all flags; flag_items q q 0 all f).
      by rewrite (flag_item_token k nm) by done.
  - set (t := commas ((fun e => longpart e.2) <$> (e :: l))) in *.
    change (commas (longpart nm :: ((fun e => longpart e.2) <$> (e :: l)))) with
      (longpart nm +:+ "," +:+ t). cbv zeta in *. rewrite !string_app_assoc.
    rewrite flag_items_skip, Z.add_0_l by done.
    change (flag_items ("," +:+ t +:+ p) ?s ?n all flags) with
      (f ← flag_item s n all flags; flag_items (t +:+ p) (t +:+ p) 0 all f).
    rewrite (flag_item_token k nm) by done. cbn [mbind res_bind]. by apply IH.
Qed.

Lemma lor_bits_testbit l flags i :
  Forall (fun e => 0 ≤ e.1) l →
  Z.testbit (lor_bits l flags) i = Z.testbit flags i || existsb (fun e => e.1 =? i) l.
Proof.
  intros HF. revert flags. induction HF as [|e l He _ IH]; intros flags; cbn.
  - by rewrite orb_false_r.
  - unfold lor_bits in IH. rewrite IH, Z.lor_spec, BIT_testbit by done. by rewrite orb_assoc.
Qed.

(** The bits named in a word make up the word. *)
Lemma lor_bits_named flags :
  all_named flags →
  lor_bits (filter (fun e => Z.testbit flags e.1 = true) (named page_flag_names 0)) 0 = flags.
Proof.
  intros [Hf Hn]. apply Z.bits_inj'. intros i Hi. rewrite lor_bits_testbit, Z.bits_0.
  2:{ apply Forall_forall. intros e He.
      apply list_elem_of_filter in He as [_ He]. destruct e as [k nm].
      apply named_elem in He. cbn. lia. }
  rewrite orb_false_l. apply eq_true_iff_eq. rewrite existsb_exists. split.
  - intros ([k nm] & Hin & Hk). apply list_elem_of_In, list_elem_of_filter in Hin as [Hb _].
    cbn in *. assert (k = i) as <- by lia. done.
  - intros Hb. pose proof (Hn i Hb) as ([k nm] & -> & Hin)%list_elem_of_fmap.
    exists (k, nm). split; [|cbn; lia]. apply list_elem_of_In, list_elem_of_filter.
    split; [done|by apply named_table].
Qed.

Lemma swap_names e :
  e ∈ flag_table → prefix_of "swap" (longpart e.2) = true →
  e.1 = KPF_SWAPCACHE ∨ e.1 = KPF_SWAPBACKED ∨ e.1 = KPF_SWAP.
Proof.
  intros He Hp.
  assert (forallb (fun e => negb (prefix_of "swap" (longpart e.2)) ||
    String.eqb e.2 "s:swapcache" || String.eqb e.2 "b:swapbacked" || String.eqb e.2 "w:swap")
    flag_table = true) as T by reflexivity.
  rewrite forallb_forall in T. pose proof He as Hi. apply list_elem_of_In, T in Hi.
  rewrite Hp in Hi. cbn [negb orb] in Hi. rewrite !orb_true_iff, !String.eqb_eq in Hi.
  destruct Hi as [[E|E]|E]; [left|right; left|right; right];
    [apply (flag_name_unique e (KPF_SWAPCACHE, "s:swapcache"))
    |apply (flag_name_unique e (KPF_SWAPBACKED, "b:swapbacked"))
    |apply (flag_name_unique e (KPF_SWAP, "w:swap"))]; try done; in_table.
Qed.

(** A word the tool can both print and read. *)
Definition readable (flags : Z) : Prop :=
  all_named flags ∧ Z.testbit flags KPF_SWAP = false.

Definition names_of (flags : Z) : string := commas (set_names flags).

Lemma readable_tokens flags :
  readable flags →
  Forall (fun e => e ∈ flag_table ∧ e.2 ≠ "w:swap")
    (filter (fun e => Z.testbit flags e.1 = true) (named page_flag_names 0)).
Proof.
  intros [Hn Hs]. apply Forall_forall. intros [k nm] Hin.
  apply list_elem_of_filter in Hin as [Hb Hin]. apply named_table in Hin. split; [done|].
  cbn [fst snd] in *. intros ->. assert (k = KPF_SWAP) as ->; [|congruence].
  apply (flag_name_unique (k, "w:swap") (KPF_SWAP, "w:swap")); [done| |done].
  in_table.
Qed.

Lemma set_names_nil flags : all_named flags → set_names flags = [] → flags = 0.
Proof.
  intros Hn E. unfold set_names in E. apply fmap_nil_inv in E.
  rewrite <- (lor_bits_named flags Hn), E. done.
Qed.

(** The names of a word, alone or before an equals sign, are read as it. *)
Lemma parse_names flags p all :
  readable flags → p = "" ∨ (∃ q, p = "=" +:+ q) →
  parse_flag_names (names_of flags +:+ p) all = Done flags.
Proof.
  intros Hr Hp. unfold parse_flag_names, names_of.
  destruct (decide (set_names flags = [])) as [E|E].
  { rewrite E. rewrite (set_names_nil flags) by (done || apply Hr).
    destruct Hp as [->|[q ->]]; done. }
  rewrite <- (lor_bits_named flags) at 3 by apply Hr.
  apply flag_items_commas; [by apply readable_tokens| |done].
  intros E'. apply E. unfold set_names. by rewrite E'.
Qed.

End Names_proofs.

(** ** Address ranges *)

Lemma parse_number_dec n rest :
  0 ≤ n < 2 ^ 63 → ends_number rest → parse_number (dec n +:+ rest) = Done n.
Proof.
  intros Hn Hr. unfold parse_number, strtoll. rewrite scan_number_dec by (done || lia).
  cbn [fst]. rewrite Z.min_l by lia. rewrite u64_small by lia.
  destruct (dec_head n rest) as (c & r & -> & _ & Hc); [lia|]. cbn [letter].
  destruct (Z.eqb_spec n 0) as [->|]; [|done].
  by rewrite (proj2 Hc eq_refl).
Qed.

(** Sizes of the tables, and the counters within them. *)
Record settings_ok (o : settings) : Prop := {
  so_offset : zlen (opt_offset o) = MAX_ADDR_RANGES;
  so_size : zlen (opt_size o) = MAX_ADDR_RANGES;
  so_ranges : 0 ≤ nr_addr_ranges o ≤ MAX_ADDR_RANGES;
  so_start : zlen (pg_start o) = MAX_VMAS;
  so_end : zlen (pg_end o) = MAX_VMAS;
  so_vmas : 0 ≤ nr_vmas o ≤ MAX_VMAS;
  so_mask : zlen (opt_mask o) = MAX_BIT_FILTERS;
  so_bits : zlen (opt_bits o) = MAX_BIT_FILTERS;
  so_filters : 0 ≤ nr_bit_filters o ≤ MAX_BIT_FILTERS;
}.

Lemma settings_start_ok : settings_ok settings_start.
Proof. by split; vm_compute. Qed.

(** The first [n] entries of two parallel arrays. *)
Definition table {A B} (n : Z) (a : list A) (b : list B) : list (A * B) :=
  zip (take (Z.to_nat n) a) (take (Z.to_nat n) b).

Lemma table_next {A B} n (a : list A) (b : list B) x y :
  0 ≤ n < zlen a → n < zlen b →
  table (n + 1) (<[Z.to_nat n := x]> a) (<[Z.to_nat n := y]> b) = table n a b ++ [(x, y)].
Proof.
  unfold table, zlen. intros Ha Hb.
  replace (Z.to_nat (n + 1)) with (S (Z.to_nat n)) by lia.
  rewrite !take_insert_next by lia. rewrite zip_with_app; [done|].
  rewrite !length_take. lia.
Qed.

Definition ranges (o : settings) : list (Z * Z) :=
  table (nr_addr_ranges o) (opt_offset o) (opt_size o).
Definition filters (o : settings) : list (Z * Z) :=
  table (nr_bit_filters o) (opt_mask o) (opt_bits o).
Definition vmas (o : settings) : list (Z * Z) :=
  table (nr_vmas o) (pg_start o) (pg_end o).

Lemma add_addr_range_ok o offset size :
  settings_ok o → nr_addr_ranges o < MAX_ADDR_RANGES →
  ∃ o', add_addr_range offset size o = Done o' ∧ settings_ok o' ∧
    ranges o' = ranges o ++ [(offset, Z.min size (u64 (ULONG_MAX - offset)))] ∧
    filters o' = filters o ∧ vmas o' = vmas o.
Proof.
  intros [] Hn. unfold add_addr_range. replace (_ <=? _) with false by lia.
  rewrite !aset_in by lia. cbn [mbind res_bind]. eexists. split; [done|].
  split_and!; [|apply table_next; lia|done|done].
  split; simpl; rewrite ?zlen_insert; done || lia.
Qed.

Lemma add_bits_filter_ok o mask bits :
  settings_ok o → nr_bit_filters o < MAX_BIT_FILTERS →
  ∃ o', add_bits_filter mask bits o = Done o' ∧ settings_ok o' ∧
    filters o' = filters o ++ [(mask, bits)] ∧ ranges o' = ranges o ∧ vmas o' = vmas o.
Proof.
  intros [] Hn. unfold add_bits_filter. replace (_ <=? _) with false by lia.
  rewrite !aset_in by lia. cbn [mbind res_bind]. eexists. split; [done|].
  split_and!; [|apply table_next; lia|done|done].
  split; simpl; rewrite ?zlen_insert; done || lia.
Qed.

(** The forms of an addr-spec, and the pages they stand for. *)
Inductive addr_spec :=
| spec_page (n : Z)          (* N *)
| spec_plus (n m : Z)        (* N+M *)
| spec_upto (n m : Z)        (* N,M *)
| spec_from (n : Z)          (* N, *)
| spec_below (m : Z).        (* ,M *)

Definition spec_text (sp : addr_spec) : string :=
  match sp with
  | spec_page n => dec n
  | spec_plus n m => dec n +:+ "+" +:+ dec m
  | spec_upto n m => dec n +:+ "," +:+ dec m
  | spec_from n => dec n +:+ ","
  | spec_below m => "," +:+ dec m
  end.

Definition spec_ok (sp : addr_spec) : Prop :=
  match sp with
  | spec_page n | spec_from n | spec_below n => 0 ≤ n < 2 ^ 63
  | spec_plus n m => 0 ≤ n < 2 ^ 63 ∧ 0 ≤ m < 2 ^ 63
  | spec_upto n m => 0 ≤ n ≤ m ∧ m < 2 ^ 63
  end.

(** First page and end of the range. *)
Definition spec_range (sp : addr_spec) : Z * Z :=
  match sp with
  | spec_page n => (n, n + 1)
  | spec_plus n m => (n, n + m)
  | spec_upto n m => (n, m)
  | spec_from n => (n, ULONG_MAX)
  | spec_below m => (0, m)
  end.

Lemma dec_cons n : 0 ≤ n → ∃ c r, dec n = String c r.
Proof.
  intros Hn. destruct (dec_head n "" Hn) as (c & r & E & _).
  rewrite string_app_nil_r in E. eauto.
Qed.

Lemma range_sep_dec n rest :
  0 ≤ n → range_sep (dec n +:+ rest) =
    match strchr rest "," with Some p => Some p | None => strchr rest "+" end.
Proof. intros Hn. unfold range_sep. by rewrite !strchr_dec by done. Qed.

Lemma sep_not_first n p : 0 ≤ n → (strlen p =? strlen (dec n +:+ p)) = false.
Proof.
  intros Hn. destruct (dec_cons n Hn) as (c & r & ->). rewrite strlen_app.
  pose proof (strlen_nonneg r). unfold strlen at 2. cbn [String.length]. unfold strlen in *. lia.
Qed.

(** [o'] is [o] with the range [first .. first+len-1] added. *)
Definition range_added (o o' : settings) (first len : Z) : Prop :=
  settings_ok o' ∧ ranges o' = ranges o ++ [(first, len)] ∧
  filters o' = filters o ∧ vmas o' = vmas o.

(** The addr-spec forms of the usage text.  Each of N, N+M, N,M, N, and
    ,M adds the range it describes after the earlier ones, cut off at the
    last page number; nothing else of the settings changes. *)
Theorem parse_addr_range_forms o sp :
  settings_ok o → nr_addr_ranges o < MAX_ADDR_RANGES → spec_ok sp →
  let '(first, last) := spec_range sp in
  ∃ o', parse_addr_range (spec_text sp) o = Done o' ∧
    range_added o o' first (Z.min last ULONG_MAX - first).
Proof.
  intros Ho Hn Hsp.
  assert (∀ first size, 0 ≤ first < 2 ^ 63 →
    ∃ o', add_addr_range first size o = Done o' ∧
    range_added o o' first (Z.min (first + size) ULONG_MAX - first)) as Hadd.
  { intros first size Hf. destruct (add_addr_range_ok o first size Ho Hn) as (o' & E & H1 & R & H2).
    exists o'. split; [done|]. split; [done|]. rewrite R. split; [|done]. do 3 f_equal.
    rewrite u64_small by (unfold ULONG_MAX; lia). lia. }
  unfold parse_addr_range.
  destruct sp as [n|n m|n m|n|m]; cbn [spec_range spec_text spec_ok] in *.
  - rewrite <- (string_app_nil_r (dec n)), range_sep_dec, parse_number_dec by (done || lia).
    by apply Hadd.
  - destruct Hsp as [Hn1 Hm]. rewrite range_sep_dec by lia.
    change (strchr ("+" +:+ dec m) ",") with (strchr (dec m) ",").
    rewrite <- (string_app_nil_r (dec m)), strchr_dec by (done || lia).
    change (strchr "" ",") with (@None string). cbv iota.
    change (strchr ("+" +:+ dec m +:+ "") "+") with (Some ("+" +:+ dec m +:+ "")). cbv iota.
    rewrite sep_not_first, parse_number_dec by (done || lia). cbn [mbind res_bind].
    change (tail ("+" +:+ dec m +:+ "")) with (dec m +:+ "").
    pose proof (parse_number_dec m "" Hm I) as Em. destruct (dec m +:+ "") eqn:Ed.
    { by destruct (dec_head m "" ltac:(lia)) as (c & r & E & _); rewrite Ed in E. }
    rewrite Em. cbn [mbind res_bind]. by apply Hadd.
  - destruct Hsp as [Hn1 Hm]. rewrite range_sep_dec by lia.
    change (strchr ("," +:+ dec m) ",") with (Some ("," +:+ dec m)). cbv iota.
    rewrite sep_not_first, parse_number_dec by (done || lia). cbn [mbind res_bind].
    change (tail ("," +:+ dec m)) with (dec m).
    pose proof (parse_number_dec m "" ltac:(lia) I) as Em. rewrite string_app_nil_r in Em.
    destruct (dec_cons m) as (c & r & Ed); [lia|]. rewrite Ed in *.
    rewrite Em. cbn [mbind res_bind]. change (Ascii.eqb (letter ("," +:+ String c r)) ",") with true.
    cbv iota. replace (m <? n) with false by lia. cbn [mbind res_bind].
    rewrite u64_small by lia. specialize (Hadd n (m - n) ltac:(lia)).
    by replace (n + (m - n)) with m in Hadd by lia.
  - rewrite range_sep_dec by lia. change (strchr "," ",") with (Some ","). cbv iota.
    rewrite sep_not_first, parse_number_dec by (done || lia). cbn [mbind res_bind tail].
    specialize (Hadd n ULONG_MAX Hsp). by rewrite Z.min_r in Hadd by lia.
  - unfold range_sep. change (strchr ("," +:+ dec m) ",") with (Some ("," +:+ dec m)). cbv iota.
    rewrite Z.eqb_refl. change (tail ("," +:+ dec m)) with (dec m).
    rewrite <- (string_app_nil_r (dec m)), parse_number_dec by done. cbn [mbind res_bind].
    by apply (Hadd 0).
Qed.

(** ** Safety of the option parsers *)

Lemma parse_number_safe str : safe (fun n => 0 ≤ n < 2 ^ 64) (parse_number str).
Proof. unfold parse_number. case_match; simpl; [done|apply u64_range]. Qed.

Lemma add_addr_range_safe offset size o :
  settings_ok o → safe (fun o' => settings_ok o' ∧ nr_vmas o' = nr_vmas o) (add_addr_range offset size o).
Proof.
  intros Ho. destruct (Z.leb_spec MAX_ADDR_RANGES (nr_addr_ranges o)).
  - unfold add_addr_range. by replace (_ <=? _) with true by lia.
  - unfold add_addr_range. replace (_ <=? _) with false by lia. destruct Ho.
    rewrite !aset_in by lia. cbn [mbind res_bind safe]. split; [|done].
    split; simpl; rewrite ?zlen_insert; done || lia.
Qed.

Lemma add_bits_filter_safe mask bits o :
  settings_ok o → safe (fun o' => settings_ok o' ∧ nr_vmas o' = nr_vmas o) (add_bits_filter mask bits o).
Proof.
  intros Ho. destruct (Z.leb_spec MAX_BIT_FILTERS (nr_bit_filters o)).
  - unfold add_bits_filter. by replace (_ <=? _) with true by lia.
  - unfold add_bits_filter. replace (_ <=? _) with false by lia. destruct Ho.
    rewrite !aset_in by lia. cbn [mbind res_bind safe]. split; [|done].
    split; simpl; rewrite ?zlen_insert; done || lia.
Qed.

Lemma parse_addr_range_safe optarg o :
  settings_ok o → safe (fun o' => settings_ok o' ∧ nr_vmas o' = nr_vmas o) (parse_addr_range optarg o).
Proof.
  intros Ho. unfold parse_addr_range. destruct (range_sep optarg) as [p|].
  - case_match; (eapply safe_bind; [apply parse_number_safe|]); intros n _;
      [by apply add_addr_range_safe|].
    eapply (safe_bind (fun _ => True)); [|intros; by apply add_addr_range_safe].
    case_match; [done|]. eapply safe_bind; [apply parse_number_safe|].
    intros m _. repeat case_match; done.
  - eapply safe_bind; [apply parse_number_safe|]. intros. by apply add_addr_range_safe.
Qed.

Lemma read_maps_safe page_size lines o :
  settings_ok o → nr_vmas o < MAX_VMAS →
  safe (fun r => settings_ok r.1) (read_maps page_size lines o).
Proof.
  revert o. induction lines as [|l lines IH]; intros o Ho Hn; [done|]. cbn [read_maps].
  destruct (scan_maps_line l) as [[b e]|].
  - pose proof Ho as []. rewrite !aset_in by lia. cbn [mbind res_bind].
    set (o' := o <| pg_start := _ |> <| pg_end := _ |> <| nr_vmas := _ |>).
    assert (settings_ok o') as Ho'.
    { split; simpl; rewrite ?zlen_insert; done || lia. }
    destruct (Z.leb_spec MAX_VMAS (nr_vmas o')); [done|]. by apply IH.
  - eapply safe_bind; [by apply IH|]. by intros [o' err] ?.
Qed.

(** ** Bit filters *)

Definition accepts (flags : Z) (f : Z * Z) : bool :=
  if f.2 =? KPF_ALL_BITS then any flags f.1 else Z.land flags f.1 =? f.2.

Lemma bit_mask_loop_spec o flags n i :
  zlen (opt_mask o) = MAX_BIT_FILTERS → zlen (opt_bits o) = MAX_BIT_FILTERS →
  0 ≤ i → i + Z.of_nat n ≤ MAX_BIT_FILTERS →
  bit_mask_loop o flags i n =
    Done (forallb (accepts flags) (zip (take n (drop (Z.to_nat i) (opt_mask o)))
                                       (take n (drop (Z.to_nat i) (opt_bits o))))).
Proof.
  intros Hm Hb. revert i. induction n as [|n IH]; intros i Hi Hn; [done|].
  destruct (aget_in (opt_bits o) i) as [b Eb]; [lia|].
  destruct (aget_in (opt_mask o) i) as [m Em]; [lia|].
  cbn [bit_mask_loop]. rewrite Eb, Em. cbn [mbind res_bind].
  apply aget_done in Eb as [_ Eb]. apply aget_done in Em as [_ Em].
  rewrite (drop_S _ _ _ Eb), (drop_S _ _ _ Em). cbn [take zip_with forallb].
  replace (S (Z.to_nat i)) with (Z.to_nat (i + 1)) by lia.
  rewrite IH by lia.
  change (accepts flags (m, b)) with
    (if b =? KPF_ALL_BITS then negb (Z.land flags m =? 0) else Z.land flags m =? b).
  destruct (b =? KPF_ALL_BITS); [destruct (Z.land flags m =? 0)|destruct (Z.land flags m =? b)];
    done.
Qed.

Lemma bit_mask_ok_spec o flags :
  settings_ok o → bit_mask_ok o flags = Done (forallb (accepts flags) (filters o)).
Proof.
  intros []. unfold bit_mask_ok. rewrite bit_mask_loop_spec by (done || lia).
  by rewrite !drop_0.
Qed.

(** What a bits-spec makes of the filter. *)
Definition filtered `{KernelPageFlags} (spec : string) (o : settings) (flags : Z) : res bool :=
  o' ← parse_bits_mask spec o; bit_mask_ok o' flags.

Lemma filtered_add o mask bits flags :
  settings_ok o → nr_bit_filters o < MAX_BIT_FILTERS →
  (o' ← add_bits_filter mask bits o; bit_mask_ok o' flags) =
  Done (forallb (accepts flags) (filters o) && accepts flags (mask, bits)).
Proof.
  intros Ho Hn. destruct (add_bits_filter_ok o mask bits Ho Hn) as (o' & -> & Ho' & F & _).
  cbn [mbind res_bind]. rewrite bit_mask_ok_spec, F, forallb_app by done.
  cbn [forallb]. by rewrite andb_true_r.
Qed.

Definition no_char (c : ascii) (s : string) : bool :=
  forallb (fun x => negb (Ascii.eqb x c)) (list_ascii_of_string s).

Lemma strchr_skip c a p : no_char c a = true → strchr (a +:+ p) c = strchr p c.
Proof.
  unfold no_char. induction a as [|x a IH]; [done|]. cbn [list_ascii_of_string forallb].
  intros [Hx Ha]%andb_true_iff. change (String x a +:+ p) with (String x (a +:+ p)).
  cbn [strchr]. destruct (Ascii.eqb x c); [done|]. by apply IH.
Qed.

Lemma no_char_app c a b : no_char c (a +:+ b) = no_char c a && no_char c b.
Proof.
  unfold no_char. induction a as [|x a IH]; [done|].
  change (String x a +:+ b) with (String x (a +:+ b)). cbn [list_ascii_of_string forallb].
  by rewrite IH, andb_assoc.
Qed.

Section NamesSafe.
Context `{KernelPageFlags}.

Lemma parse_flag_name_safe str len : safe (fun _ => True) (parse_flag_name str len).
Proof.
  unfold parse_flag_name. repeat case_match; try done.
  eapply safe_weaken; [apply parse_number_safe|done].
Qed.

Lemma flag_item_safe str len all flags : safe (fun _ => True) (flag_item str len all flags).
Proof.
  unfold flag_item. repeat case_match; try done;
    (eapply safe_bind; [apply parse_flag_name_safe|done]).
Qed.

Lemma parse_flag_names_safe str all : safe (fun _ => True) (parse_flag_names str all).
Proof.
  unfold parse_flag_names. generalize 0 at 1 as len. generalize 0 as flags.
  generalize str at 2 as p0. induction str as [|c str IH]; intros p0 flags len; cbn [flag_items].
  - apply flag_item_safe.
  - destruct (Ascii.eqb c ","); [|destruct (Ascii.eqb c "=")].
    + eapply safe_bind; [apply flag_item_safe|]. intros f _. apply IH.
    + apply flag_item_safe.
    + apply IH.
Qed.

Lemma parse_bits_mask_safe optarg o :
  settings_ok o → safe (fun o' => settings_ok o' ∧ nr_vmas o' = nr_vmas o) (parse_bits_mask optarg o).
Proof.
  intros Ho. unfold parse_bits_mask.
  repeat case_match; repeat (eapply safe_bind; [apply parse_flag_names_safe|]; intros ? _);
    by apply add_bits_filter_safe.
Qed.

Lemma describe_flags_safe optarg : safe (fun _ => True) (describe_flags optarg).
Proof.
  unfold describe_flags. eapply safe_bind; [apply parse_flag_names_safe|]. intros f _.
  rewrite page_flag_name_cases, page_flag_longname_text.
  by destruct (unknown page_flag_names 0 f).
Qed.
End NamesSafe.

Section Forms.
Context `{KernelPageFlags}.

Lemma table_no_char c e :
  c = "="%char ∨ c = "~"%char → e ∈ flag_table → no_char c (longpart e.2) = true.
Proof.
  intros Hc. revert e. apply Forall_forall, List.Forall_forall, forallb_forall.
  destruct Hc as [-> | ->]; reflexivity.
Qed.

Lemma names_no_char c flags :
  c = "="%char ∨ c = "~"%char → no_char c (names_of flags) = true.
Proof.
  intros Hc.
  unfold names_of, set_names.
  assert (Forall (fun s => no_char c s = true) ((fun e => longpart e.2) <$>
    filter (fun e => Z.testbit flags e.1 = true) (named page_flag_names 0))) as HF.
  { apply Forall_fmap. apply Forall_forall. intros e [_ He]%list_elem_of_filter.
    rewrite named_perm in He. by apply table_no_char. }
  induction HF as [|s [|t l] Hs HF IH]; [done|done|].
  change (commas (s :: t :: l)) with (s +:+ "," +:+ commas (t :: l)).
  rewrite !no_char_app, Hs, IH. destruct Hc as [-> | ->]; done.
Qed.

Lemma names_nonempty flags : all_named flags → flags ≠ 0 → 0 < strlen (names_of flags).
Proof.
  intros Hn H0. unfold names_of. destruct (set_names flags) as [|t l] eqn:E.
  { by apply (set_names_nil flags) in E. }
  assert (0 < strlen t) as Ht.
  { assert (t ∈ set_names flags) as Hin by (rewrite E; by left).
    unfold set_names in Hin. apply list_elem_of_fmap in Hin as (e & -> & He).
    apply list_elem_of_filter in He as [_ He]. rewrite named_perm in He.
    pose proof tokens_ok as T. rewrite Forall_forall in T. apply T in He.
    unfold token_ok in He. rewrite !andb_true_iff in He.
    pose proof (strlen_nonneg (longpart e.2)). lia. }
  destruct l; [done|]. change (commas (t :: ?l)) with (t +:+ "," +:+ commas l).
  rewrite !strlen_app. pose proof (strlen_nonneg (commas (s :: l))). change (strlen ",") with 1. lia.
Qed.

Lemma readable_not_all flags : readable flags → (flags =? KPF_ALL_BITS) = false.
Proof. intros [_ Hs]. apply Z.eqb_neq. intros ->. done. Qed.

Lemma land_all flags : 0 ≤ flags < 2 ^ 64 → Z.land flags KPF_ALL_BITS = flags.
Proof.
  intros Hf. change KPF_ALL_BITS with (Z.ones 64). rewrite Z.land_ones by lia.
  by apply Z.mod_small.
Qed.

(** Names followed by a negated one. *)
Lemma parse_negated flags k nm all :
  readable flags → flags ≠ 0 → (k, nm) ∈ flag_table → nm ≠ "w:swap" →
  parse_flag_names (names_of flags +:+ "," +:+ "~" +:+ longpart nm) all =
  Done (if all then Z.lor flags (BIT k) else flags).
Proof.
  intros Hr H0 Hin Hs. unfold parse_flag_names, names_of.
  assert (filter (fun e => Z.testbit flags e.1 = true) (named page_flag_names 0) ≠ []) as Hne.
  { intros E. apply H0, set_names_nil; [apply Hr|]. unfold set_names. by rewrite E. }
  destruct (flag_items_commas _ ("," +:+ "~" +:+ longpart nm) all 0 (readable_tokens _ Hr) Hne)
    as [_ E]. fold (set_names flags) in E. rewrite (E _ eq_refl), lor_bits_named by apply Hr.
  set (q := "~" +:+ longpart nm).
  assert (flag_items q q 0 all flags = flag_item q (0 + strlen q) all flags) as ->.
  { rewrite <- (string_app_nil_r q) at 1. rewrite flag_items_skip; [done|].
    exact (table_token k nm Hin). }
  unfold flag_item. change (Ascii.eqb (letter q) "~") with true. cbn [negb].
  destruct all; cbn [andb]; [|done]. change (tail q) with (longpart nm).
  assert (strlen q = 1 + strlen (longpart nm)) as -> by (unfold q; by rewrite strlen_app).
  pose proof tokens_ok as T. rewrite Forall_forall in T. specialize (T _ Hin).
  unfold token_ok in T. cbn [snd] in T. rewrite !andb_true_iff in T.
  destruct T as [[[T _] _] _]. rewrite T.
  replace (0 + (1 + strlen (longpart nm)) - 1) with (strlen (longpart nm)) by lia.
  rewrite <- (string_app_nil_r (longpart nm)) at 1.
  by rewrite (parse_flag_name_token k nm) by done.
Qed.

End Forms.

(** C6: the long names read back.  What [page_flag_longname] prints for a
    word whose bits all have names (and fits its buffer), [parse_flag_names]
    reads as the same word, so that the output of the tool can be given to
    its -b and -d options; the exception is the bit named swap. *)
Theorem longname_roundtrip `{KernelPageFlags} flags all :
  all_named flags → Z.testbit flags KPF_SWAP = false →
  ∃ s, page_flag_longname flags = Done s ∧ parse_flag_names s all = Done flags.
Proof.
  intros Hn Hs. exists (commas (set_names flags)). split; [apply page_flag_longname_text|].
  rewrite <- (string_app_nil_r (commas _)). apply (parse_names flags "" all); [done|by left].
Qed.

(** The name swap cannot be selected: [strncmp] with the length of the
    item matches the longer name swapcache or swapbacked of a lower bit first. *)
Theorem swap_name_shadowed `{KernelPageFlags} all :
  parse_flag_names "swap" all = Done (BIT (Z.min KPF_SWAPCACHE KPF_SWAPBACKED)).
Proof.
  change (parse_flag_names "swap" all) with
    (b ← match find_name page_flag_names 0 ("swap" +:+ "") (strlen "swap") with
         | Some b => Done b | None => parse_number "swap" end; Done (Z.lor 0 b)).
  assert (0 ≤ KPF_SWAPCACHE < 32) by (apply kernel_low; set_solver).
  assert (0 ≤ KPF_SWAPBACKED < 32) by (apply kernel_low; set_solver).
  set (k := Z.min _ _).
  assert (∃ nm, (k, nm) ∈ flag_table ∧ prefix_of "swap" (longpart nm) = true) as (nm & Hin & Hp).
  { subst k. destruct (Z.min_spec KPF_SWAPCACHE KPF_SWAPBACKED) as [[_ ->]|[_ ->]];
      [exists "s:swapcache"|exists "b:swapbacked"]; (split; [in_table|reflexivity]). }
  rewrite (find_name_first _ 0 "swap" "" (Z.to_nat k) nm).
  - cbn [mbind res_bind]. by rewrite Z.lor_0_l, Z2Nat.id, Z.add_0_l by lia.
  - apply page_flag_names_lookup. by rewrite Z2Nat.id by lia.
  - done.
  - intros j nm' Hj Hl. apply page_flag_names_lookup in Hl.
    destruct (prefix_of "swap" (longpart nm')) eqn:E; [exfalso|done].
    apply (swap_names _ Hl) in E. cbn [fst] in E. unfold KPF_SWAP in E. lia.
Qed.

(** The bits-spec forms of the usage text, for lists of flag names.
    Given after the filters already there, [names1] keeps the pages that have
    one of the flags, [names1=names2] those whose flags among names1 are
    exactly names2, [=names2] those whose flags are exactly names2, and
    [names1,~name] those that have all of names1 and not the negated flag. *)
Theorem parse_bits_mask_forms `{KernelPageFlags} o w1 w2 k nm flags :
  settings_ok o → nr_bit_filters o < MAX_BIT_FILTERS → 0 ≤ flags < 2 ^ 64 →
  readable w1 → w1 ≠ 0 → readable w2 → (k, nm) ∈ flag_table → nm ≠ "w:swap" →
  let kept := forallb (accepts flags) (filters o) in
  filtered (names_of w1) o flags = Done (kept && any flags w1) ∧
  filtered (names_of w1 +:+ "=" +:+ names_of w2) o flags =
    Done (kept && (Z.land flags w1 =? w2)) ∧
  filtered ("=" +:+ names_of w2) o flags = Done (kept && (flags =? w2)) ∧
  filtered (names_of w1 +:+ "," +:+ "~" +:+ longpart nm) o flags =
    Done (kept && (Z.land flags (Z.lor w1 (BIT k)) =? w1)).
Proof.
  intros Ho Hn Hf Hw1 H1 Hw2 Hin Hs kept.
  assert (∀ p, strchr (names_of w1 +:+ p) "=" = strchr p "=") as Heq.
  { intros p. apply strchr_skip, names_no_char. by left. }
  assert (∀ p, strchr (names_of w1 +:+ p) "~" = strchr p "~") as Htl.
  { intros p. apply strchr_skip, names_no_char. by right. }
  assert (∀ w, readable w → parse_flag_names (names_of w) false = Done w) as Hp.
  { intros w Hw. rewrite <- (string_app_nil_r (names_of w)). apply parse_names; [done|by left]. }
  pose proof (readable_not_all w1 Hw1) as Ha1. pose proof (readable_not_all w2 Hw2) as Ha2.
  unfold filtered, parse_bits_mask. split_and!.
  - rewrite <- (string_app_nil_r (names_of w1)), Heq, Htl, string_app_nil_r.
    cbn [strchr]. rewrite Hp by done. cbn [mbind res_bind]. by rewrite filtered_add by done.
  - rewrite Heq. change (strchr ("=" +:+ names_of w2) "=") with (Some ("=" +:+ names_of w2)).
    cbv iota. pose proof (names_nonempty w1 (proj1 Hw1) H1).
    rewrite (strlen_app (names_of w1)). replace (_ =? _) with false by lia.
    rewrite parse_names by (done || (right; by eexists)). cbn [mbind res_bind].
    change (tail ("=" +:+ names_of w2)) with (names_of w2). rewrite Hp by done.
    cbn [mbind res_bind]. rewrite filtered_add by done. unfold accepts at 2. cbn [fst snd].
    by rewrite Ha2.
  - change (strchr ("=" +:+ names_of w2) "=") with (Some ("=" +:+ names_of w2)). cbv iota.
    rewrite Z.eqb_refl. change (tail ("=" +:+ names_of w2)) with (names_of w2).
    rewrite Hp by done. cbn [mbind res_bind]. rewrite filtered_add by done.
    unfold accepts at 2. cbn [fst snd]. by rewrite Ha2, land_all by done.
  - rewrite Heq, Htl. change (strchr ("," +:+ "~" +:+ longpart nm) "=") with
      (strchr (longpart nm) "="). rewrite <- (string_app_nil_r (longpart nm)) at 1.
    rewrite strchr_skip by (apply (table_no_char _ (k, nm)); [by left|done]).
    cbn [strchr]. cbv iota. change (strchr ("," +:+ "~" +:+ longpart nm) "~") with
      (Some ("~" +:+ longpart nm)). cbv iota.
    rewrite !(parse_negated w1 k nm) by done. cbn [mbind res_bind].
    rewrite filtered_add by done. unfold accepts at 2. cbn [fst snd]. by rewrite Ha1.
Qed.

Lemma longname_roundtrip_witness :
  ∃ s, page_flag_longname (BIT KPF_LOCKED + BIT KPF_MMAP_EXCLUSIVE) = Done s ∧
    parse_flag_names s false = Done (BIT KPF_LOCKED + BIT KPF_MMAP_EXCLUSIVE).
Proof.
  apply (longname_roundtrip (BIT KPF_LOCKED + BIT KPF_MMAP_EXCLUSIVE) false);
    [|reflexivity].
  apply unknown_all_named; [vm_compute; split; congruence|]. vm_compute. reflexivity.
Defined.

Lemma parse_addr_range_forms_witness :
  ∃ o', parse_addr_range "16,32" settings_start = Done o' ∧ ranges o' = [(16, 16)].
Proof.
  destruct (parse_addr_range_forms settings_start (spec_upto 16 32) settings_start_ok)
    as (o' & E & _ & R & _); [reflexivity|simpl; lia|].
  exists o'. split; [exact E|exact R].
Defined.

Lemma bit_readable k : 0 ≤ k < 60 → k ∈ flag_table.*1 → readable (BIT k).
Proof.
  intros Hk Hin. unfold BIT. rewrite Z.shiftl_1_l. split; [split|].
  - split; [apply Z.pow_nonneg; lia|apply Z.pow_lt_mono_r; lia].
  - intros i Hi. destruct (decide (k = i)) as [<-|]; [done|].
    rewrite Z.pow2_bits_false in Hi; done.
  - apply Z.pow2_bits_false. unfold KPF_SWAP. lia.
Qed.

Lemma parse_bits_mask_forms_witness :
  filtered "locked" settings_start 17 = Done true ∧
  filtered "locked,~dirty" settings_start 17 = Done false.
Proof.
  assert (readable (BIT KPF_LOCKED)) as R.
  { apply bit_readable; [vm_compute; split; congruence|].
    apply (bool_decide_unpack _). vm_compute. exact I. }
  assert (names_of (BIT KPF_LOCKED) = "locked") as E by (vm_compute; reflexivity).
  destruct (parse_bits_mask_forms settings_start (BIT KPF_LOCKED) (BIT KPF_LOCKED) KPF_DIRTY
      "D:dirty" 17 settings_start_ok) as (H1 & _ & _ & H4); try exact R;
      try (vm_compute; congruence); [vm_compute; split; congruence|in_table|].
  rewrite E in H1, H4. change ("locked" +:+ "," +:+ "~" +:+ longpart "D:dirty")
    with "locked,~dirty" in H4.
  split; [rewrite H1|rewrite H4]; vm_compute; reflexivity.
Defined.
