(* ===== verification/PageHash.v ===== *)
(** * page-types: counting pages by flags

    The open-addressing table of [mem/vm/page-types.c] ([page_flags],
    [nr_pages], [total_pages]) and the summary printed from it.  The table is
    shown to implement a plain histogram of the flag words seen. *)

From S2P Require Import Prelude CLib PageFlags PageParse.

Definition HASH_SHIFT : Z := 13.
Definition HASH_SIZE : Z := Z.shiftl 1 HASH_SHIFT.
Definition HASH_MASK : Z := HASH_SIZE - 1.
Definition HASH_KEY (flags : Z) : Z := Z.land flags HASH_MASK.

Record counts := mk_counts {
  page_flags : list Z;
  nr_pages : list Z;
  total_pages : Z;
}.
#[export] Instance eta_counts : Eta counts := fun c =>
  mk_counts (page_flags c) (nr_pages c) (total_pages c).

Definition counts_start : counts :=
  mk_counts (replicate (Z.to_nat HASH_SIZE) 0) (replicate (Z.to_nat HASH_SIZE) 0) 0.

(** The loop of [hash_slot], with [n] iterations left. *)
Fixpoint hash_loop (t : list Z) (flags k : Z) (n : nat) : res (Z * list Z) :=
  match n with
  | O => Die ("hash table full: bump up HASH_SHIFT?" +:+ nl)
  | S n =>
      let k := if (k =? 0) || (HASH_SIZE <=? k) then 1 else k in
      v ← aget t k;
      if v =? 0 then
        t' ← aset t k flags;
        Done (k, t')
      else if v =? flags then Done (k, t)
      else hash_loop t flags (k + 1) n
  end.

Definition hash_slot (t : list Z) (flags : Z) : res (Z * list Z) :=
  if flags =? 0 then Done (0, t)
  else hash_loop t flags (HASH_KEY flags) (Z.to_nat (HASH_SIZE - 1)).

(** [nr_pages[hash_slot(flags)]++; total_pages++;] *)
Definition count_page (flags : Z) (c : counts) : res counts :=
  '(k, t) ← hash_slot (page_flags c) flags;
  n ← aget (nr_pages c) k;
  nr ← aset (nr_pages c) k (u64 (n + 1));
  Done (mk_counts t nr (u64 (total_pages c + 1))).

Definition pages2mb (page_size pages : Z) : Z := Z.shiftr (u64 (pages * page_size)) 20.

Section Summary.
Context `{KernelPageFlags} (page_size : Z).

Definition summary_line (flags n : Z) : res string :=
  short ← page_flag_name flags;
  long ← page_flag_longname flags;
  Done (hex16 flags +:+ tab +:+ padl " " 10 (dec n) +:+ " " +:+
        padl " " 8 (dec (pages2mb page_size n)) +:+ rep " " 2 +:+ short +:+ tab +:+ long +:+ nl).

Fixpoint summary_lines (flags nrs : list Z) : res string :=
  match flags, nrs with
  | f :: flags, n :: nrs =>
      if negb (n =? 0) then
        l ← summary_line f n;
        rest ← summary_lines flags nrs;
        Done (l +:+ rest)
      else summary_lines flags nrs
  | _, _ => Done ""
  end.

Definition show_summary (c : counts) : res string :=
  lines ← summary_lines (page_flags c) (nr_pages c);
  Done (rep " " 13 +:+ "flags" +:+ tab +:+ "page-count" +:+ rep " " 7 +:+ "MB" +:+
        rep " " 2 +:+ "symbolic-flags" +:+ tab +:+ tab +:+ tab +:+ "long-symbolic-flags" +:+ nl +:+
        lines +:+
        rep " " 13 +:+ "total" +:+ tab +:+ padl " " 10 (dec (total_pages c)) +:+ " " +:+
        padl " " 8 (dec (pages2mb page_size (total_pages c))) +:+ nl).
End Summary.

(** ** The probe sequence *)

Definition norm (k : Z) : Z := if (k =? 0) || (HASH_SIZE <=? k) then 1 else k.

Fixpoint probes (k : Z) (n : nat) : list Z :=
  match n with O => [] | S n => norm k :: probes (norm k + 1) n end.

Definition slots : nat := Z.to_nat (HASH_SIZE - 1).
Definition path (flags : Z) : list Z := probes (HASH_KEY flags) slots.

Lemma norm_range k : 0 ≤ k → 1 ≤ norm k < HASH_SIZE.
Proof. intros. unfold norm. change HASH_SIZE with 8192. case_match; lia. Qed.

Lemma probes_range k n p : 0 ≤ k → p ∈ probes k n → 1 ≤ p < HASH_SIZE.
Proof.
  revert k. induction n as [|n IH]; intros k Hk; [by intros ?%elem_of_nil|].
  pose proof (norm_range k Hk). cbn [probes].
  intros [->|Hin]%elem_of_cons; [done|]. apply (IH (norm k + 1)); [lia|done].
Qed.

(** Going up from [k] reaches every later slot, then the walk wraps to 1. *)
Lemma probes_up k n p :
  1 ≤ k → k ≤ p < k + Z.of_nat n → p < HASH_SIZE → p ∈ probes k n.
Proof.
  revert k. induction n as [|n IH]; intros k Hk Hp Hs; [lia|]. cbn [probes].
  assert (norm k = k) as -> by (unfold norm; change HASH_SIZE with 8192 in *; case_match; lia).
  destruct (decide (p = k)) as [->|]; [left|right; apply IH; lia].
Qed.

Lemma probes_wrap k n m p :
  1 ≤ k → k + Z.of_nat n = HASH_SIZE → p ∈ probes 1 m → p ∈ probes k (n + m).
Proof.
  revert k. induction n as [|n IH]; intros k Hk Hn Hp; cbn [Nat.add].
  - assert (k = HASH_SIZE) as -> by lia. destruct m; [done|]. exact Hp.
  - cbn [probes]. right.
    assert (norm k = k) as -> by (unfold norm; change HASH_SIZE with 8192 in *; case_match; lia).
    apply IH; [lia|lia|done].
Qed.

(** The walk of [hash_slot] visits every slot but 0. *)
Lemma path_complete flags p : 1 ≤ p < HASH_SIZE → p ∈ path flags.
Proof.
  intros Hp. unfold path.
  assert (0 ≤ HASH_KEY flags < HASH_SIZE) as Hk.
  { unfold HASH_KEY, HASH_MASK. change (HASH_SIZE - 1) with (Z.ones 13).
    rewrite Z.land_ones by lia. change HASH_SIZE with (2 ^ 13). apply Z.mod_pos_bound. lia. }
  assert (∀ k, 1 ≤ k < HASH_SIZE → p ∈ probes k slots) as Hall.
  { intros k Hk1. unfold slots. destruct (decide (k ≤ p)).
    - apply probes_up; change HASH_SIZE with 8192 in *; lia.
    - replace (Z.to_nat (HASH_SIZE - 1)) with
        (Z.to_nat (HASH_SIZE - k) + Z.to_nat (k - 1))%nat by (change HASH_SIZE with 8192 in *; lia).
      apply probes_wrap; [lia|lia|]. apply probes_up; lia. }
  destruct (decide (HASH_KEY flags = 0)) as [->|]; [|apply Hall; lia].
  apply (Hall 1). change HASH_SIZE with 8192. lia.
Qed.

Lemma path_range flags p : p ∈ path flags → 1 ≤ p < HASH_SIZE.
Proof.
  apply probes_range. unfold HASH_KEY. apply Z.land_nonneg. right.
  unfold HASH_MASK. change HASH_SIZE with 8192. lia.
Qed.

(** ** Searching *)

Definition at_ (t : list Z) (p : Z) : Z := default 0 (t !! Z.to_nat p).
Definition stop (t : list Z) (flags p : Z) : bool := (at_ t p =? 0) || (at_ t p =? flags).
Definition slot_of (t : list Z) (flags : Z) : option Z := List.find (stop t flags) (path flags).

Lemma aget_at t p : 0 ≤ p < zlen t → aget t p = Done (at_ t p).
Proof.
  intros Hp. destruct (aget_in t p Hp) as [x E]. rewrite E.
  apply aget_done in E as [_ E]. unfold at_. by rewrite E.
Qed.

Lemma at_insert t p v q :
  0 ≤ p < zlen t → 0 ≤ q → at_ (<[Z.to_nat p := v]> t) q = if p =? q then v else at_ t q.
Proof.
  unfold at_, zlen. intros Hp Hq. destruct (Z.eqb_spec p q) as [->|].
  - by rewrite list_lookup_insert_eq by lia.
  - by rewrite list_lookup_insert_ne by lia.
Qed.

(** The loop returns the first slot of the walk that is free or holds the
    flags, which it claims; it fails when there is none. *)
Lemma hash_loop_find t flags k n :
  zlen t = HASH_SIZE → 0 ≤ k →
  hash_loop t flags k n =
    match List.find (stop t flags) (probes k n) with
    | Some p => Done (p, if at_ t p =? 0 then <[Z.to_nat p := flags]> t else t)
    | None => Die ("hash table full: bump up HASH_SHIFT?" +:+ nl)
    end.
Proof.
  intros Ht. revert k. induction n as [|n IH]; intros k Hk; [done|].
  cbn [hash_loop probes List.find]. fold (norm k). cbv zeta.
  pose proof (norm_range k Hk). rewrite aget_at by lia. cbn [mbind res_bind]. unfold stop at 1.
  destruct (at_ t (norm k) =? 0) eqn:E0.
  - cbn [orb]. rewrite E0. rewrite aset_in by lia. done.
  - cbn [orb]. destruct (at_ t (norm k) =? flags); [by rewrite E0|]. apply IH. lia.
Qed.

Lemma find_stable {A} (f g : A → bool) l x :
  List.find f l = Some x → (∀ y, f y = false → g y = false) → g x = true →
  List.find g l = Some x.
Proof.
  induction l as [|y l IH]; cbn; [done|]. intros E Hfg Hx.
  destruct (f y) eqn:Ef; [by simplify_eq; rewrite Hx|]. rewrite (Hfg y Ef). by apply IH.
Qed.

Lemma find_path t flags p :
  slot_of t flags = Some p → 1 ≤ p < HASH_SIZE ∧ stop t flags p = true.
Proof.
  intros [Hin Hs]%List.find_some. split; [|done].
  apply list_elem_of_In in Hin. by apply path_range in Hin.
Qed.

(** ** The table implements a histogram *)

Definition cnt (f : Z) (seen : list Z) : Z := zlen (filter (fun g => g = f) seen).

Record counts_ok (seen : list Z) (c : counts) : Prop := {
  co_flags : zlen (page_flags c) = HASH_SIZE;
  co_nr : zlen (nr_pages c) = HASH_SIZE;
  co_zero : at_ (page_flags c) 0 = 0;
  (* a stored word is where the walk for it stops *)
  co_probe p f : 1 ≤ p < HASH_SIZE → at_ (page_flags c) p = f → f ≠ 0 →
    slot_of (page_flags c) f = Some p;
  co_stored p : 1 ≤ p < HASH_SIZE → at_ (page_flags c) p ≠ 0 → at_ (page_flags c) p ∈ seen;
  co_seen f : f ∈ seen → f ≠ 0 → ∃ p, 1 ≤ p < HASH_SIZE ∧ at_ (page_flags c) p = f;
  co_count p : 0 ≤ p < HASH_SIZE →
    at_ (nr_pages c) p =
      if (p =? 0) || negb (at_ (page_flags c) p =? 0)
      then u64 (cnt (at_ (page_flags c) p) seen) else 0;
  co_total : total_pages c = u64 (zlen seen);
}.

Lemma at_replicate n p : at_ (replicate n 0) p = 0.
Proof.
  unfold at_. destruct (replicate n 0 !! Z.to_nat p) eqn:E; [|done].
  by apply lookup_replicate in E as [-> _].
Qed.

Lemma counts_start_ok : counts_ok [] counts_start.
Proof.
  unfold counts_start. split; cbn [page_flags nr_pages total_pages];
    rewrite ?zlen_replicate; try done.
  - intros p f _ E Hf. by rewrite at_replicate in E.
  - intros p _ Hp. by rewrite at_replicate in Hp.
  - by intros f ?%elem_of_nil.
  - intros p _. rewrite !at_replicate. by destruct (p =? 0).
Qed.

Lemma cnt_snoc f seen g : cnt f (seen ++ [g]) = cnt f seen + if g =? f then 1 else 0.
Proof.
  unfold cnt. rewrite filter_app, zlen_app, filter_cons, filter_nil.
  destruct (Z.eqb_spec g f); [rewrite decide_True by done|rewrite decide_False by done]; done.
Qed.

Lemma wrap_succ z : u64 (u64 z + 1) = u64 (z + 1).
Proof. unfold wrap. by rewrite Zplus_mod_idemp_l. Qed.

(** The words stored, which are as many as there are occupied slots. *)
Definition stored (c : counts) : list Z := at_ (page_flags c) <$> seqZ 1 (HASH_SIZE - 1).

Lemma stored_nodup seen c :
  counts_ok seen c → (∀ p, 1 ≤ p < HASH_SIZE → at_ (page_flags c) p ≠ 0) → NoDup (stored c).
Proof.
  intros Hc Hfull. apply NoDup_fmap_2_strong; [|apply NoDup_seqZ].
  intros p q Hp%elem_of_seqZ Hq%elem_of_seqZ E.
  assert (1 ≤ p < HASH_SIZE) as Hp' by lia. assert (1 ≤ q < HASH_SIZE) as Hq' by lia.
  pose proof (co_probe _ _ Hc p _ Hp' eq_refl (Hfull p Hp')) as E1.
  pose proof (co_probe _ _ Hc q _ Hq' eq_refl (Hfull q Hq')) as E2. congruence.
Qed.

Definition distinct (seen : list Z) : Z := zlen (remove_dups (filter (fun f => f ≠ 0) seen)).

(** A full table has seen 8191 different words. *)
Lemma full_distinct seen c flags :
  counts_ok seen c → flags ≠ 0 → slot_of (page_flags c) flags = None →
  HASH_SIZE ≤ distinct (seen ++ [flags]).
Proof.
  intros Hc Hf Hn.
  assert (∀ p, 1 ≤ p < HASH_SIZE →
    at_ (page_flags c) p ≠ 0 ∧ at_ (page_flags c) p ≠ flags) as Hfull.
  { intros p Hp. pose proof (path_complete flags p Hp) as Hin. apply list_elem_of_In in Hin.
    apply (List.find_none _ _ Hn) in Hin. unfold stop in Hin. lia. }
  assert (NoDup (flags :: stored c)) as ND.
  { constructor; [|apply (stored_nodup seen); [done|intros p Hp; by apply Hfull]].
    intros (p & E & Hp%elem_of_seqZ)%list_elem_of_fmap. by destruct (Hfull p); [lia|]. }
  assert (zlen (flags :: stored c) = HASH_SIZE) as <-.
  { rewrite zlen_cons. unfold stored, zlen. rewrite length_fmap, length_seqZ.
    change HASH_SIZE with 8192. lia. }
  unfold distinct, zlen. apply inj_le. apply submseteq_length, NoDup_submseteq; [done|].
  intros g Hg. apply elem_of_remove_dups, list_elem_of_filter.
  apply elem_of_cons in Hg as [->|(p & -> & Hp%elem_of_seqZ)%list_elem_of_fmap].
  - split; [done|]. apply elem_of_app. right. by left.
  - destruct (Hfull p) as [H0 _]; [lia|]. split; [done|]. apply elem_of_app. left.
    apply (co_stored _ _ Hc); [lia|done].
Qed.

(** The table after slot [p] was claimed for [flags]. *)
Definition claim (t : list Z) (flags p : Z) : list Z :=
  if at_ t p =? 0 then <[Z.to_nat p := flags]> t else t.

Lemma claim_at t flags p q :
  1 ≤ p < zlen t → stop t flags p = true →
  at_ (claim t flags p) q = if p =? q then flags else at_ t q.
Proof.
  unfold claim, stop. intros Hp Hs. destruct (Z.eqb_spec (at_ t p) 0) as [E|E].
  - destruct (Z.ltb_spec q 0); [|by apply at_insert; lia].
    replace (p =? q) with false by lia. unfold at_.
    by rewrite list_lookup_insert_ne by lia.
  - destruct (Z.eqb_spec p q) as [<-|]; [lia|done].
Qed.

Lemma claim_probe t flags p q f :
  zlen t = HASH_SIZE → slot_of t flags = Some p → flags ≠ 0 →
  (∀ q f, 1 ≤ q < HASH_SIZE → at_ t q = f → f ≠ 0 → slot_of t f = Some q) →
  1 ≤ q < HASH_SIZE → at_ (claim t flags p) q = f → f ≠ 0 →
  slot_of (claim t flags p) f = Some q.
Proof.
  intros Ht Hslot Hf Hold Hq Hat Hf0. destruct (find_path _ _ _ Hslot) as [Hp Hs].
  rewrite claim_at in Hat by (done || lia).
  assert (∀ y, stop (claim t flags p) f y =
    ((if p =? y then flags else at_ t y) =? 0) || ((if p =? y then flags else at_ t y) =? f)) as E.
  { intros y. unfold stop. by rewrite claim_at by (done || lia). }
  assert (slot_of t f = Some q) as Hq'.
  { destruct (Z.eqb_spec p q) as [->|]; [congruence|by apply Hold]. }
  apply (find_stable _ _ _ _ Hq').
  - intros y Hy. rewrite E. unfold stop in Hy, Hs. destruct (Z.eqb_spec p y) as [->|]; lia.
  - rewrite E. lia.
Qed.

Lemma cnt_absent f seen : f ∉ seen → cnt f seen = 0.
Proof.
  intros Hf. unfold cnt. destruct (filter _ seen) as [|g l] eqn:E; [done|].
  assert (g ∈ filter (fun g => g = f) seen) as Hg by (rewrite E; by left).
  apply list_elem_of_filter in Hg as [-> Hg]. done.
Qed.

(** Storing one more page of [flags] in its slot [p]. *)
Lemma count_at_ok seen c flags p t' :
  counts_ok seen c → 0 ≤ p < HASH_SIZE → zlen t' = HASH_SIZE →
  (∀ q, at_ t' q = if p =? q then flags else at_ (page_flags c) q) →
  (p = 0 ↔ flags = 0) → (p ≠ 0 → slot_of (page_flags c) flags = Some p) →
  (∀ q f, 1 ≤ q < HASH_SIZE → at_ t' q = f → f ≠ 0 → slot_of t' f = Some q) →
  counts_ok (seen ++ [flags])
    (mk_counts t' (<[Z.to_nat p := u64 (at_ (nr_pages c) p + 1)]> (nr_pages c))
       (u64 (total_pages c + 1))).
Proof.
  intros Hc Hp Hlt Hat Hp0 Hst Hprobe.
  pose proof (co_nr _ _ Hc) as Hln. pose proof (co_zero _ _ Hc) as Hz.
  assert (∀ q, 1 ≤ q < HASH_SIZE → at_ (page_flags c) q = flags → flags ≠ 0 → q = p) as Huniq.
  { intros q Hq E H0. pose proof (co_probe _ _ Hc q flags Hq E H0).
    rewrite Hst in *; [congruence|]. naive_solver. }
  split; cbn [page_flags nr_pages total_pages]; rewrite ?zlen_insert; try done.
  - rewrite Hat. destruct (Z.eqb_spec p 0); naive_solver.
  - intros q Hq. rewrite Hat, elem_of_app. destruct (Z.eqb_spec p q).
    + intros _. right. by left.
    + intros H0. left. by apply (co_stored _ _ Hc).
  - intros f Hf Hf0. destruct (decide (f = flags)) as [->|Hne].
    + exists p. rewrite Hat, Z.eqb_refl. split; [|done].
      assert (p ≠ 0) by naive_solver. lia.
    + apply elem_of_app in Hf as [Hf|Hf]; [|by apply list_elem_of_singleton in Hf].
      destruct (co_seen _ _ Hc f Hf Hf0) as (q & Hq & E). exists q. split; [done|].
      rewrite Hat. destruct (Z.eqb_spec p q) as [<-|]; [|done].
      destruct (find_path _ _ _ (Hst ltac:(lia))) as [_ Hs]. unfold stop in Hs. lia.
  - intros q Hq. rewrite at_insert, Hat, cnt_snoc by lia.
    pose proof (co_count _ _ Hc q Hq) as Eq.
    destruct (Z.eqb_spec p q) as [<-|Hpq].
    + rewrite Z.eqb_refl. replace ((p =? 0) || negb (flags =? 0)) with true by lia.
      rewrite <- (wrap_succ (cnt flags seen)). do 2 f_equal. rewrite Eq.
      destruct (Z.eqb_spec p 0) as [E0|N0]; cbn [orb].
      * rewrite E0, Hz. by rewrite (proj1 Hp0 E0).
      * destruct (find_path _ _ _ (Hst N0)) as [Hp1 Hs]. unfold stop in Hs.
        destruct (Z.eqb_spec (at_ (page_flags c) p) 0) as [Ea|Ea]; cbn [negb orb] in *.
        -- rewrite cnt_absent; [done|]. intros Hin.
           destruct (co_seen _ _ Hc flags Hin) as (q & Hq1 & E1); [naive_solver|].
           rewrite (Huniq q) in E1; naive_solver congruence.
        -- by replace flags with (at_ (page_flags c) p) by lia.
    + rewrite Eq. destruct ((q =? 0) || _) eqn:Eo; [|done].
      replace (flags =? at_ (page_flags c) q) with false; [by rewrite Z.add_0_r|].
      symmetry. apply Z.eqb_neq. intros E. apply Hpq. symmetry.
      destruct (decide (q = 0)) as [->|Hq0].
      * rewrite Hz in E. symmetry. by apply Hp0.
      * apply Huniq; [lia|done|]. rewrite E. lia.
  - rewrite (co_total _ _ Hc), wrap_succ. f_equal. by rewrite zlen_app.
Qed.

Definition full_msg : string := "hash table full: bump up HASH_SHIFT?" +:+ nl.

Lemma count_page_cases seen c flags :
  counts_ok seen c →
  (∃ c', count_page flags c = Done c' ∧ counts_ok (seen ++ [flags]) c') ∨
  (count_page flags c = Die full_msg ∧ HASH_SIZE ≤ distinct (seen ++ [flags])).
Proof.
  intros Hc. pose proof (co_flags _ _ Hc) as Hlf. pose proof (co_nr _ _ Hc) as Hln.
  unfold count_page, hash_slot. change (Z.to_nat (HASH_SIZE - 1)) with slots.
  destruct (Z.eqb_spec flags 0) as [->|Hf].
  - left. cbn [mbind res_bind]. rewrite aget_at by (change HASH_SIZE with 8192 in *; lia).
    cbn [mbind res_bind]. rewrite aset_in by (change HASH_SIZE with 8192 in *; lia).
    cbn [mbind res_bind]. eexists. split; [done|].
    apply count_at_ok; try done.
    + intros q. destruct (Z.eqb_spec 0 q) as [<-|]; [apply (co_zero _ _ Hc)|done].
    + intros q f. apply (co_probe _ _ Hc).
  - rewrite hash_loop_find; [|done|apply Z.land_nonneg; right; done].
    change (List.find _ _) with (slot_of (page_flags c) flags).
    destruct (slot_of (page_flags c) flags) as [p|] eqn:Es.
    2:{ right. split; [done|]. by apply (full_distinct _ c). }
    left.
    destruct (find_path _ _ _ Es) as [Hp Hs]. fold (claim (page_flags c) flags p).
    cbn [mbind res_bind]. rewrite aget_at by lia. cbn [mbind res_bind].
    rewrite aset_in by lia. cbn [mbind res_bind]. eexists. split; [done|].
    apply count_at_ok; try done; try lia.
    + unfold claim. case_match; by rewrite ?zlen_insert.
    + intros q. apply claim_at; [lia|done].
    + intros q f. apply claim_probe; [done..|]. apply (co_probe _ _ Hc).
Qed.

(** Different words are in different slots. *)
Lemma counts_ok_distinct seen c : counts_ok seen c → distinct seen < HASH_SIZE.
Proof.
  intros Hc. assert (length (stored c) = Z.to_nat (HASH_SIZE - 1)) as Hl.
  { unfold stored. by rewrite length_fmap, length_seqZ. }
  assert (distinct seen ≤ zlen (stored c)) as Hle.
  { apply inj_le, submseteq_length, NoDup_submseteq; [apply NoDup_remove_dups|].
    intros f [H0 Hf]%elem_of_remove_dups%list_elem_of_filter.
    destruct (co_seen _ _ Hc f Hf H0) as (p & Hp & <-).
    apply list_elem_of_fmap. exists p. split; [done|]. apply elem_of_seqZ. lia. }
  unfold zlen in Hle. rewrite Hl in Hle. change HASH_SIZE with 8192 in *. lia.
Qed.

Lemma distinct_prefix l k : distinct l ≤ distinct (l ++ k).
Proof.
  unfold distinct, zlen. apply inj_le, submseteq_length, NoDup_submseteq;
    [apply NoDup_remove_dups|].
  intros f. rewrite !elem_of_remove_dups, !list_elem_of_filter, elem_of_app. naive_solver.
Qed.

Fixpoint count_pages (fs : list Z) (c : counts) : res counts :=
  match fs with
  | [] => Done c
  | f :: fs => c ← count_page f c; count_pages fs c
  end.

Lemma count_pages_cases fs seen c :
  counts_ok seen c →
  if distinct (seen ++ fs) <? HASH_SIZE
  then ∃ c', count_pages fs c = Done c' ∧ counts_ok (seen ++ fs) c'
  else count_pages fs c = Die full_msg.
Proof.
  revert seen c. induction fs as [|f fs IH]; intros seen c Hc; cbn [count_pages].
  - rewrite app_nil_r. pose proof (counts_ok_distinct _ _ Hc).
    replace (_ <? _) with true by lia. eauto.
  - replace (seen ++ f :: fs) with ((seen ++ [f]) ++ fs) by by rewrite <- app_assoc.
    destruct (count_page_cases seen c f Hc) as [(c' & -> & Hc')|[-> Hd]]; cbn [mbind res_bind].
    + by apply IH.
    + pose proof (distinct_prefix (seen ++ [f]) fs). by replace (_ <? _) with false by lia.
Qed.

(** ** The summary *)

(** The rows printed: the slots with a count. *)
Definition rows (c : counts) : list (Z * Z) :=
  filter (fun r => r.2 ≠ 0) (zip (page_flags c) (nr_pages c)).

Lemma zip_at t k i x :
  zlen t = zlen k → zip t k !! i = Some x →
  (i < length t)%nat ∧ x = (at_ t (Z.of_nat i), at_ k (Z.of_nat i)).
Proof.
  intros Hl Hx. apply lookup_zip_with_Some in Hx as (a & b & -> & Ha & Hb).
  split; [by eapply lookup_lt_Some|]. unfold at_. by rewrite Nat2Z.id, Ha, Hb.
Qed.

Lemma cnt_bounds f seen : 0 ≤ cnt f seen ≤ zlen seen.
Proof.
  unfold cnt, zlen. pose proof (length_filter (fun g => g = f) seen). lia.
Qed.

Lemma cnt_pos f seen : 0 < cnt f seen → f ∈ seen.
Proof.
  intros H. destruct (decide (f ∈ seen)) as [|Hn]; [done|]. rewrite cnt_absent in H by done. lia.
Qed.

Lemma rows_elem seen c f n :
  counts_ok seen c → zlen seen < 2 ^ 64 →
  (f, n) ∈ rows c ↔ 0 < n ∧ n = cnt f seen.
Proof.
  intros Hc Hs. assert (∀ f, u64 (cnt f seen) = cnt f seen) as Hu.
  { intros g. apply u64_small. pose proof (cnt_bounds g seen). lia. }
  unfold rows. rewrite list_elem_of_filter. cbn [snd]. split.
  - intros [Hn [i Hi]%list_elem_of_lookup].
    apply zip_at in Hi as [Hlt [= -> ->]]; [|by rewrite (co_flags _ _ Hc), (co_nr _ _ Hc)].
    pose proof (co_flags _ _ Hc). unfold zlen in *.
    rewrite (co_count _ _ Hc), Hu in * by lia. pose proof (cnt_bounds (at_ (page_flags c) (Z.of_nat i)) seen).
    case_match; lia.
  - intros [H0 ->]. split; [lia|].
    assert (∃ p, 0 ≤ p < HASH_SIZE ∧ at_ (page_flags c) p = f ∧ (p = 0 ∨ f ≠ 0)) as (p & Hp & Ef & Hor).
    { destruct (decide (f = 0)) as [->|Hf].
      - exists 0. pose proof (co_zero _ _ Hc). change HASH_SIZE with 8192. split_and!; auto; lia.
      - destruct (co_seen _ _ Hc f (cnt_pos _ _ H0) Hf) as (p & Hp & E). exists p.
        split_and!; auto; lia. }
    pose proof (co_count _ _ Hc p Hp) as En.
    replace ((p =? 0) || _) with true in En by (rewrite Ef; lia). rewrite Ef, Hu in En.
    pose proof (co_flags _ _ Hc). pose proof (co_nr _ _ Hc).
    apply list_elem_of_lookup. exists (Z.to_nat p).
    rewrite lookup_zip_with.
    pose proof (aget_at (page_flags c) p ltac:(lia)) as [_ E1]%aget_done.
    pose proof (aget_at (nr_pages c) p ltac:(lia)) as [_ E2]%aget_done.
    rewrite E1, E2. simpl. by rewrite Ef, En.
Qed.

(** No flag word has two rows. *)
Lemma rows_nodup seen c : counts_ok seen c → NoDup (rows c).*1.
Proof.
  intros Hc. unfold rows.
  assert (∀ i j x y, zip (page_flags c) (nr_pages c) !! i = Some x →
    zip (page_flags c) (nr_pages c) !! j = Some y → x.2 ≠ 0 → y.2 ≠ 0 → x.1 = y.1 → i = j) as Hinj.
  { intros i j x y Hx Hy Nx Ny E.
    apply zip_at in Hx as [Hi ->]; [|by rewrite (co_flags _ _ Hc), (co_nr _ _ Hc)].
    apply zip_at in Hy as [Hj ->]; [|by rewrite (co_flags _ _ Hc), (co_nr _ _ Hc)].
    pose proof (co_flags _ _ Hc) as Hl. pose proof (co_zero _ _ Hc) as Hz. unfold zlen in Hl.
    cbn [fst snd] in *. rewrite (co_count _ _ Hc) in Nx, Ny by lia.
    assert (∀ i : nat, (i < length (page_flags c))%nat → at_ (page_flags c) (Z.of_nat i) ≠ 0 →
      slot_of (page_flags c) (at_ (page_flags c) (Z.of_nat i)) = Some (Z.of_nat i)) as Hs.
    { intros k Hk H0. apply (co_probe _ _ Hc); [|done|done].
      destruct (decide (Z.of_nat k = 0)) as [Ek|]; [rewrite Ek in H0; done|lia]. }
    destruct (decide (at_ (page_flags c) (Z.of_nat i) = 0)) as [E0|N0].
    - rewrite <- E, E0 in *. rewrite Z.eqb_refl, orb_false_r in Nx, Ny.
      repeat case_match; lia.
    - pose proof (Hs i Hi N0) as S1. rewrite E in S1, N0. pose proof (Hs j Hj N0) as S2.
      rewrite S1 in S2. simplify_eq. lia. }
  remember (zip (page_flags c) (nr_pages c)) as l eqn:El. clear El Hc c seen.
  induction l as [|x l IH]; [constructor|]. rewrite filter_cons. case_decide as Hx.
  - cbn [fmap list_fmap]. constructor.
    + intros (y & E & [Hy [j Hj]%list_elem_of_lookup]%list_elem_of_filter)%list_elem_of_fmap.
      specialize (Hinj 0%nat (S j) x y eq_refl Hj Hx Hy E). done.
    + apply IH. intros i j a b Ha Hb Na Nb E. by specialize (Hinj (S i) (S j) a b Ha Hb Na Nb E) as [= ?].
  - apply IH. intros i j a b Ha Hb Na Nb E. by specialize (Hinj (S i) (S j) a b Ha Hb Na Nb E) as [= ?].
Qed.

Section SummaryText.
Context `{KernelPageFlags} (page_size : Z).

Definition rows_lines (rs : list (Z * Z)) : res string :=
  foldr (fun r acc => l ← summary_line page_size r.1 r.2; rest ← acc; Done (l +:+ rest))
    (Done "") rs.

Lemma summary_lines_rows flags nrs :
  summary_lines page_size flags nrs = rows_lines (filter (fun r => r.2 ≠ 0) (zip flags nrs)).
Proof.
  revert nrs. induction flags as [|f flags IH]; intros [|n nrs]; try done.
  cbn [summary_lines zip_with]. rewrite filter_cons. cbn [snd].
  destruct (Z.eqb_spec n 0) as [->|Hn]; cbn [negb].
  - rewrite decide_False by lia. apply IH.
  - rewrite decide_True by done. cbn [rows_lines foldr fst snd]. by rewrite IH.
Qed.
End SummaryText.

(** C3: counting by flags is a histogram.  Starting from the empty table,
    counting any sequence of flag words either succeeds, and then the summary
    has one row for each word seen, with the number of times it was seen, and
    the total is the number of pages; or there were more than 8191 different
    nonzero words, and the tool stops with its message.  Words that collide
    in the table, and the word 0, are counted like any other. *)
Theorem summary_histogram `{KernelPageFlags} page_size fs :
  zlen fs < 2 ^ 64 →
  if distinct fs <? HASH_SIZE
  then ∃ c, count_pages fs counts_start = Done c ∧ total_pages c = zlen fs ∧
    NoDup (rows c).*1 ∧ (∀ f n, (f, n) ∈ rows c ↔ 0 < n ∧ n = cnt f fs) ∧
    summary_lines page_size (page_flags c) (nr_pages c) = rows_lines page_size (rows c)
  else count_pages fs counts_start = Die full_msg.
Proof.
  intros Hl. pose proof (count_pages_cases fs [] counts_start counts_start_ok) as Hc.
  cbn [app] in Hc. destruct (distinct fs <? HASH_SIZE); [|done].
  destruct Hc as (c & E & Hc). exists c. split_and!; [done| | | |].
  - rewrite (co_total _ _ Hc). apply u64_small. pose proof (zlen_nonneg fs). lia.
  - by eapply rows_nodup.
  - intros f n. by apply rows_elem.
  - apply summary_lines_rows.
Qed.

Lemma summary_histogram_witness :
  ∃ c, count_pages [5; 0; 8197; 5] counts_start = Done c ∧ total_pages c = 4 ∧
    (5, 2) ∈ rows c ∧ (8197, 1) ∈ rows c ∧ (0, 1) ∈ rows c.
Proof.
  assert (zlen [5; 0; 8197; 5] < 2 ^ 64) as H by reflexivity.
  pose proof (summary_histogram 4096 [5; 0; 8197; 5] H) as Hs.
  change (distinct [5; 0; 8197; 5] <? HASH_SIZE) with true in Hs. cbv iota in Hs.
  destruct Hs as (c & E & Ht & _ & Hr & _). exists c. split; [exact E|]. split; [exact Ht|].
  rewrite !Hr. vm_compute. repeat split; reflexivity.
Defined.
