(* ===== verification/PageRange.v ===== *)
(** * page-types: listing pages

    The two listings of [mem/vm/page-types.c] (pages in ranges, pages one by
    one) and the idle bitmap writer.  The static variables of
    [show_page_range] and [mark_page_idle] are explicit states. *)

From S2P Require Import Prelude CLib PageFlags PageParse.

(** ** Pages and ranges *)

(** What the listings say of a page. *)
Record page := mk_page {
  p_voffset : Z;
  p_offset : Z;
  p_flags : Z;
  p_cgroup : Z;
  p_mapcnt : Z;
}.

(** The statics [flags0], [cgroup0], [mapcnt0], [voff], [index], [count]. *)
Record range := mk_range {
  r_flags : Z;
  r_cgroup : Z;
  r_mapcnt : Z;
  r_voff : Z;
  r_index : Z;
  r_count : Z;
}.
#[export] Instance eta_range : Eta range := fun r =>
  mk_range (r_flags r) (r_cgroup r) (r_mapcnt r) (r_voff r) (r_index r) (r_count r).

Definition range_start : range := mk_range 0 0 0 0 0 0.

Section Listing.
Context `{KernelPageFlags} (o : settings).

(** The columns before the page number. *)
Definition columns (voff cgroup mapcnt : Z) : string :=
  (if negb (opt_pid o =? 0) then hex voff +:+ tab else "") +:+
  (match opt_file o with Some _ => dec voff +:+ tab | None => "" end) +:+
  (if opt_list_cgroup o then "@" +:+ dec cgroup +:+ tab else "") +:+
  (if opt_list_mapcnt o then dec mapcnt +:+ tab else "").

Definition range_line (r : range) : res string :=
  name ← page_flag_name (r_flags r);
  Done (columns (r_voff r) (r_cgroup r) (r_mapcnt r) +:+
        hex (r_index r) +:+ tab +:+ hex (r_count r) +:+ tab +:+ name +:+ nl).

Definition show_page_range (voffset offset size flags cgroup mapcnt : Z) (r : range)
    : res (range * string) :=
  if (flags =? r_flags r) && (cgroup =? r_cgroup r) && (mapcnt =? r_mapcnt r) &&
     (offset =? u64 (r_index r + r_count r)) && negb (size =? 0) &&
     (voffset =? u64 (r_voff r + r_count r))
  then Done (r <| r_count := u64 (r_count r + size) |>, "")
  else
    text ← (if negb (r_count r =? 0) then range_line r else Done "");
    Done (mk_range flags cgroup mapcnt voffset offset size, text).

Definition flush_page_range (r : range) : res (range * string) :=
  show_page_range 0 0 0 0 0 0 r.

Definition show_page (p : page) : res string :=
  name ← page_flag_name (p_flags p);
  Done (columns (p_voffset p) (p_cgroup p) (p_mapcnt p) +:+
        hex (p_offset p) +:+ tab +:+ name +:+ nl).

(** ** Ranges stand for their pages *)

Definition expand (r : range) : list page :=
  (fun j => mk_page (u64 (r_voff r + j)) (u64 (r_index r + j))
              (r_flags r) (r_cgroup r) (r_mapcnt r)) <$> seqZ 0 (r_count r).

(** Page [p] continues range [r]. *)
Definition continues (r : range) (p : page) : bool :=
  (p_flags p =? r_flags r) && (p_cgroup p =? r_cgroup r) && (p_mapcnt p =? r_mapcnt r) &&
  (p_offset p =? u64 (r_index r + r_count r)) && (p_voffset p =? u64 (r_voff r + r_count r)).

Definition single (p : page) : range :=
  mk_range (p_flags p) (p_cgroup p) (p_mapcnt p) (p_voffset p) (p_offset p) 1.

(** The ranges that [ps] are listed as, after [r]. *)
Fixpoint coalesce (r : range) (ps : list page) : list range :=
  match ps with
  | [] => if r_count r =? 0 then [] else [r]
  | p :: ps =>
      if continues r p then coalesce (r <| r_count := r_count r + 1 |>) ps
      else (if r_count r =? 0 then [] else [r]) ++ coalesce (single p) ps
  end.

(** Listing the pages [ps] and flushing. *)
Fixpoint show_pages (ps : list page) (r : range) : res string :=
  match ps with
  | [] => '(_, text) ← flush_page_range r; Done text
  | p :: ps =>
      '(r, text) ← show_page_range (p_voffset p) (p_offset p) 1 (p_flags p) (p_cgroup p)
                     (p_mapcnt p) r;
      rest ← show_pages ps r;
      Done (text +:+ rest)
  end.

Definition range_lines (rs : list range) : res string :=
  foldr (fun r acc => l ← range_line r; rest ← acc; Done (l +:+ rest)) (Done "") rs.

Definition page_ok (p : page) : Prop := 0 ≤ p_voffset p < 2 ^ 64 ∧ 0 ≤ p_offset p < 2 ^ 64.

Lemma range_lines_opt r rs :
  range_lines ((if r_count r =? 0 then [] else [r]) ++ rs) =
    (t ← (if negb (r_count r =? 0) then range_line r else Done "");
     rest ← range_lines rs; Done (t +:+ rest)).
Proof.
  destruct (r_count r =? 0); [|done]. cbn [app negb mbind res_bind].
  by destruct (range_lines rs).
Qed.

Lemma show_pages_lines ps r :
  0 ≤ r_count r → r_count r + zlen ps < 2 ^ 64 →
  show_pages ps r = range_lines (coalesce r ps).
Proof.
  revert r. induction ps as [|p ps IH]; intros r H0 Hlen; cbn [show_pages coalesce].
  - unfold flush_page_range, show_page_range. cbn [Z.eqb negb]. rewrite andb_false_r, andb_false_l.
    cbn [mbind res_bind]. rewrite <- (app_nil_r (if r_count r =? 0 then [] else [r])).
    rewrite range_lines_opt. cbn.
    destruct (if negb (r_count r =? 0) then _ else _); [|done|done].
    simpl. by rewrite string_app_nil_r.
  - rewrite zlen_cons in Hlen. pose proof (zlen_nonneg ps). unfold show_page_range.
    change (negb (1 =? 0)) with true. rewrite andb_true_r.
    fold (continues r p).
    destruct (continues r p).
    + cbn [mbind res_bind]. rewrite u64_small by lia. rewrite IH by (simpl; lia).
      by destruct (range_lines _).
    + rewrite range_lines_opt. destruct (if negb (r_count r =? 0) then _ else _); [|done|done].
      cbn [mbind res_bind]. fold (single p). rewrite IH by (simpl; lia). done.
Qed.

Lemma expand_snoc r p :
  0 ≤ r_count r → continues r p = true →
  expand (r <| r_count := r_count r + 1 |>) = expand r ++ [p].
Proof.
  intros H0 Hc. unfold continues in Hc. rewrite !andb_true_iff, !Z.eqb_eq in Hc.
  destruct Hc as ((((E1 & E2) & E3) & E4) & E5). unfold expand. cbn.
  rewrite seqZ_app by lia. rewrite fmap_app. f_equal. rewrite Z.add_0_l.
  change (seqZ (r_count r) 1) with [r_count r]. cbn [fmap list_fmap].
  rewrite <- E1, <- E2, <- E3, <- E4, <- E5. by destruct p.
Qed.

Lemma expand_single p : page_ok p → expand (single p) = [p].
Proof.
  intros [Hv Ho]. unfold expand, single.
  cbn [r_voff r_index r_flags r_cgroup r_mapcnt r_count].
  change (seqZ 0 1) with [0]. cbn [fmap list_fmap]. rewrite !Z.add_0_r, !u64_small by done.
  by destruct p.
Qed.

Lemma coalesce_expand ps r :
  0 ≤ r_count r → Forall page_ok ps →
  mjoin (expand <$> coalesce r ps) = expand r ++ ps.
Proof.
  intros H0 HF. revert r H0. induction HF as [|p ps Hp HF IH]; intros r H0; cbn [coalesce].
  - rewrite app_nil_r. destruct (Z.eqb_spec (r_count r) 0) as [E|]; cbn;
      [unfold expand; by rewrite E|by rewrite app_nil_r].
  - destruct (continues r p) eqn:Ec.
    + rewrite IH by (simpl; lia). rewrite (expand_snoc r p) by done. by rewrite <- app_assoc.
    + rewrite fmap_app, join_app, IH, expand_single by (done || (simpl; lia)).
      cbn [app]. destruct (Z.eqb_spec (r_count r) 0) as [E|]; cbn;
        [unfold expand; by rewrite E|by rewrite app_nil_r].
Qed.

(** The first page of a range, and lists in which no range could have been
    continued by the next. *)
Definition page_of (r : range) : page :=
  mk_page (r_voff r) (r_index r) (r_flags r) (r_cgroup r) (r_mapcnt r).

Fixpoint maximal (rs : list range) : Prop :=
  match rs with
  | r1 :: (r2 :: _) as rest => continues r1 (page_of r2) = false ∧ maximal rest
  | _ => True
  end.

Lemma coalesce_head ps r :
  0 < r_count r → ∃ r' rest, coalesce r ps = r' :: rest ∧ page_of r' = page_of r.
Proof.
  revert r. induction ps as [|p ps IH]; intros r H0; cbn [coalesce].
  - replace (r_count r =? 0) with false by lia. eauto.
  - destruct (continues r p).
    + destruct (IH (r <| r_count := r_count r + 1 |>)) as (r' & rest & -> & E);
        [simpl; lia|]. eauto.
    + replace (r_count r =? 0) with false by lia. cbn. eauto.
Qed.

Lemma coalesce_maximal ps r : 0 ≤ r_count r → maximal (coalesce r ps).
Proof.
  revert r. induction ps as [|p ps IH]; intros r H0; cbn [coalesce].
  - by destruct (r_count r =? 0).
  - destruct (continues r p) eqn:Ec; [apply IH; simpl; lia|].
    assert (maximal (coalesce (single p) ps)) as Hm by (apply IH; simpl; lia).
    destruct (r_count r =? 0); [done|].
    destruct (coalesce_head ps (single p)) as (r' & rest & E & Ep); [simpl; lia|].
    rewrite E in *. cbn [app]. split; [|done]. rewrite Ep. by destruct p.
Qed.
End Listing.

(** ** The idle bitmap *)

(** The statics [off] and [buf] of [mark_page_idle]. *)
Record idle := mk_idle { i_off : Z; i_buf : Z }.
Definition idle_start : idle := mk_idle 0 0.

(** [write] tells whether [pwrite] succeeds; the second result lists the
    words written, as byte offset and value. *)
Definition mark_page_idle (write : bool) (offset : Z) (s : idle) : idle * list (Z * Z) :=
  let bit := Z.shiftl 1 (offset mod 64) in
  if (offset / 64 =? i_off s / 64) || (i_buf s =? 0)
  then (mk_idle offset (Z.lor (i_buf s) bit), [])
  else if negb write then (s, [])
  else (mk_idle offset bit, [(8 * (i_off s / 64), i_buf s)]).

Fixpoint mark_pages (ms : list Z) (s : idle) : idle * list (Z * Z) :=
  match ms with
  | [] => (s, [])
  | m :: ms =>
      let '(s, w1) := mark_page_idle true m s in
      let '(s, w2) := mark_pages ms s in
      (s, w1 ++ w2)
  end.

(** Page [n] is marked by the word [w]. *)
Definition marks (w : Z * Z) (n : Z) : bool :=
  (n / 64 =? w.1 / 8) && Z.testbit w.2 (n mod 64).

Definition pending_word (s : idle) : Z * Z := (8 * (i_off s / 64), i_buf s).

Lemma marks_bit off b n m :
  0 ≤ n → 0 ≤ m → off / 64 = m / 64 →
  marks (8 * (off / 64), Z.lor b (Z.shiftl 1 (m mod 64))) n =
  marks (8 * (off / 64), b) n || (n =? m).
Proof.
  intros Hn Hm E. unfold marks. cbn [fst snd].
  rewrite (Z.mul_comm 8), Z.div_mul by lia.
  rewrite Z.lor_spec. fold (BIT (m mod 64)).
  rewrite BIT_testbit by (apply Z.mod_pos_bound; lia).
  destruct (Z.eqb_spec n m) as [->|Hne].
  - by rewrite E, !Z.eqb_refl, !orb_true_r.
  - rewrite orb_false_r. destruct (Z.eqb_spec (n / 64) (off / 64)) as [E2|]; [|done].
    replace (m mod 64 =? n mod 64) with false; [by rewrite orb_false_r|].
    symmetry. apply Z.eqb_neq. intros E3. apply Hne.
    rewrite (Z.div_mod n 64), (Z.div_mod m 64) by lia. lia.
Qed.

Lemma mark_pages_spec ms s n :
  Forall (fun m => 0 ≤ m) ms → 0 ≤ n →
  let '(s', ws) := mark_pages ms s in
  existsb (fun w => marks w n) ws || marks (pending_word s') n =
  marks (pending_word s) n || existsb (Z.eqb n) ms.
Proof.
  intros HF Hn. revert s. induction HF as [|m ms Hm _ IH]; intros s; cbn [mark_pages existsb].
  { by rewrite orb_false_r. }
  unfold mark_page_idle.
  destruct ((m / 64 =? i_off s / 64) || (i_buf s =? 0)) eqn:Ec; cbn [negb].
  - specialize (IH (mk_idle m (Z.lor (i_buf s) (Z.shiftl 1 (m mod 64))))).
    destruct (mark_pages ms _) as [s' ws]. cbn [app]. rewrite IH, orb_assoc. f_equal.
    unfold pending_word at 1. cbn [i_off i_buf]. rewrite marks_bit by done. f_equal.
    unfold pending_word. destruct (Z.eqb_spec (i_buf s) 0) as [->|].
    + unfold marks. cbn [snd]. by rewrite Z.bits_0, !andb_false_r.
    + do 2 f_equal. lia.
  - specialize (IH (mk_idle m (Z.shiftl 1 (m mod 64)))).
    destruct (mark_pages ms _) as [s' ws]. cbn [app existsb]. rewrite <- orb_assoc, IH.
    fold (pending_word s). rewrite !orb_assoc. f_equal. f_equal.
    unfold pending_word. cbn [i_off i_buf]. rewrite <- (Z.lor_0_l (Z.shiftl 1 (m mod 64))).
    rewrite marks_bit by done. unfold marks at 1. cbn [snd]. by rewrite Z.bits_0, andb_false_r.
Qed.

Lemma mark_pages_off ms s :
  Forall (fun m => 0 ≤ m) ms → 0 ≤ i_off s → 0 ≤ i_off (mark_pages ms s).1.
Proof.
  intros HF. revert s. induction HF as [|m ms Hm _ IH]; intros s Hs; [done|].
  cbn [mark_pages]. unfold mark_page_idle. cbn [negb].
  destruct (_ || _); (destruct (mark_pages ms _) as [s' w] eqn:E;
    match type of E with mark_pages ms ?s = _ => pose proof (IH s Hm) as G end;
    rewrite E in G; exact G).
Qed.

(** ** Theorems *)

(** C5: the range listing loses nothing.  Listing pages one after the other
    and flushing prints one line per range of [coalesce]; put side by side
    the ranges are the pages given, in the order given and each exactly once,
    and no two neighbouring ranges could have been printed as one. *)
Theorem show_page_range_lossless `{KernelPageFlags} o ps :
  Forall page_ok ps → zlen ps < 2 ^ 64 →
  show_pages o ps range_start = range_lines o (coalesce range_start ps) ∧
  mjoin (expand <$> coalesce range_start ps) = ps ∧
  maximal (coalesce range_start ps).
Proof.
  intros HF Hl. split_and!.
  - apply show_pages_lines; simpl; [lia|lia].
  - rewrite coalesce_expand by done. done.
  - by apply coalesce_maximal.
Qed.

Definition demo_pages : list page :=
  [mk_page 0 0 0 0 0; mk_page 1 1 0 0 0; mk_page 2 2 1 0 0; mk_page 7 3 1 0 0].

Lemma show_page_range_lossless_witness :
  mjoin (expand <$> coalesce range_start demo_pages) = demo_pages ∧
  length (coalesce range_start demo_pages) = 3%nat.
Proof.
  split; [|reflexivity].
  apply (show_page_range_lossless settings_start demo_pages); [|reflexivity].
  repeat constructor; simpl; lia.
Defined.


