(* ===== verification/PageWalk.v ===== *)
(** * page-types: walking pages

    The page walkers of [mem/vm/page-types.c], from reading the kernel's
    files to the action taken for each page.  What the kernel's files contain
    at each read is an argument ([world]); everything the tool keeps or
    outputs is the state [walker]. *)

From S2P Require Import Prelude CLib PageFlags PageParse PageHash PageRange.

(** ** The kernel's files *)

Inductive file := kpageflags | kpagecgroup | kpagecount | pagemap.

(** [pread t f offset bytes]: the result of the [t]-th read, the number of
    bytes (negative on error) and the words read.  [stale i] is what slot [i]
    of an array that was never written holds. *)
Record world := mk_world {
  pread : Z → file → Z → Z → Z * list Z;
  stale : Z → Z;
}.

(** A read returns no more than was asked for. *)
Definition world_ok (W : world) : Prop :=
  ∀ t f off n, 0 ≤ n →
    let '(bytes, ws) := pread W t f off n in
    bytes ≤ n ∧ (0 ≤ bytes → zlen ws = bytes / 8).

Inductive act :=
| act_poison (pfn : Z)
| act_unpoison (pfn : Z)
| act_idle (offset word : Z).

(** The open files, and whether writes to the idle bitmap succeed. *)
Record fds := mk_fds {
  kpagecgroup_open : bool;
  kpagecount_open : bool;
  page_idle_open : bool;
}.

Record walker := mk_walker {
  w_time : Z;
  w_counts : counts;
  w_range : range;
  w_idle : idle;
  w_out : string;
  w_acts : list act;
}.
#[export] Instance eta_walker : Eta walker := fun w =>
  mk_walker (w_time w) (w_counts w) (w_range w) (w_idle w) (w_out w) (w_acts w).

Definition walker_start : walker := mk_walker 0 counts_start range_start idle_start "" [].

Definition KPAGEFLAGS_BATCH : Z := Z.shiftl 64 10.
Definition PAGEMAP_BATCH : Z := Z.shiftl 64 10.

Section Walk.
Context `{KernelPageFlags} (o : settings) (F : fds) (W : world).

(** [name] is what [perror] reports. *)
Definition do_u64_read (f : file) (name : string) (index count : Z) (w : walker)
    : res (list Z * walker) :=
  if ULONG_MAX / 8 <? index then Die ("index overflow: " +:+ dec index +:+ nl)
  else
    let '(bytes, ws) := pread W (w_time w) f (i64 (index * 8)) (u64 (count * 8)) in
    if bytes <? 0 then Die name
    else if negb (bytes mod 8 =? 0) then Die ("partial read: " +:+ dec bytes +:+ " bytes" +:+ nl)
    else Done (ws, w <| w_time := w_time w + 1 |>).

Definition kpageflags_name : string := default "" (opt_kpageflags o).

Definition kpageflags_read (index pages : Z) (w : walker) : res (list Z * walker) :=
  do_u64_read kpageflags kpageflags_name index pages w.

(** A file that is not open leaves the buffer as it is: zeros for the
    cgroups, whatever was there for the counts. *)
Definition kpagecgroup_read (index pages : Z) (w : walker) : res (list Z * walker) :=
  if negb (kpagecgroup_open F) then Done (replicate (Z.to_nat pages) 0, w)
  else do_u64_read kpagecgroup kpageflags_name index pages w.

Definition kpagecount_read (index pages : Z) (w : walker) : res (list Z * walker) :=
  if negb (kpagecount_open F) then Done (stale W <$> seqZ 0 pages, w)
  else do_u64_read kpagecount "/proc/kpagecount" index pages w.

Definition pagemap_read (index pages : Z) (w : walker) : res (list Z * walker) :=
  do_u64_read pagemap "/proc/pid/pagemap" index pages w.

(** ** Actions *)

Definition hwpoison_page (offset : Z) (w : walker) : walker :=
  w <| w_acts := w_acts w ++ [act_poison offset] |>.
Definition unpoison_page (offset : Z) (w : walker) : walker :=
  w <| w_acts := w_acts w ++ [act_unpoison offset] |>.

Definition mark_idle (offset : Z) (w : walker) : walker :=
  let '(s, ws) := mark_page_idle (page_idle_open F) offset (w_idle w) in
  w <| w_idle := s |> <| w_acts := w_acts w ++ ((fun x => act_idle x.1 x.2) <$> ws) |>.

(** [if (opt_list == 1) show_page_range(...) else if (opt_list == 2) show_page(...)]. *)
Definition list_page (p : page) (w : walker) : res walker :=
  if opt_list o =? 1 then
    '(r, text) ← show_page_range o (p_voffset p) (p_offset p) 1 (p_flags p) (p_cgroup p)
                   (p_mapcnt p) (w_range w);
    Done (w <| w_range := r |> <| w_out := w_out w +:+ text |>)
  else if opt_list o =? 2 then
    text ← show_page o p;
    Done (w <| w_out := w_out w +:+ text |>)
  else Done w.

Definition count_flags (flags : Z) (w : walker) : res walker :=
  c ← count_page flags (w_counts w);
  Done (w <| w_counts := c |>).

Definition add_page (voffset offset flags cgroup mapcnt pme : Z) (w : walker) : res walker :=
  let flags := kpageflags_flags (opt_raw o) flags pme in
  ok ← bit_mask_ok o flags;
  if negb ok then Done w
  else if negb (opt_cgroup o =? 0) && negb (cgroup =? opt_cgroup o) then Done w
  else
    let w := if opt_hwpoison o then hwpoison_page offset w else w in
    let w := if opt_unpoison o then unpoison_page offset w else w in
    let w := if opt_mark_idle o then mark_idle offset w else w in
    w ← list_page (mk_page voffset offset flags cgroup mapcnt) w;
    count_flags flags w.

(** ** Walkers *)

(** One page of a batch: its slot and the words read for it. *)
Definition batch_page (voffset index pme : Z) (x : Z * (Z * (Z * Z))) (w : walker) : res walker :=
  let '(i, (flags, (cgroup, mapcnt))) := x in
  add_page (u64 (voffset + i)) (u64 (index + i)) flags cgroup mapcnt pme w.

Definition batch (buf cgi cnt : list Z) : list (Z * (Z * (Z * Z))) :=
  zip (seqZ 0 (zlen buf)) (zip buf (zip cgi cnt)).

(** The body of [while (count)]: index, count and state. *)
Definition walk_pfn_body (voffset pme : Z) (s : Z * Z * walker)
    : res (Z * Z * walker + Z * Z * walker) :=
  let '(index, count, w) := s in
  if count =? 0 then Done (inr s)
  else
    let n := Z.min count KPAGEFLAGS_BATCH in
    '(buf, w) ← kpageflags_read index n w;
    let pages := zlen buf in
    if pages =? 0 then Done (inr (index, count, w))
    else
      '(cgi, w) ← kpagecgroup_read index pages w;
      if negb (zlen cgi =? pages) then Die "kpagecgroup returned fewer pages than expected"
      else
        '(cnt, w) ← kpagecount_read index pages w;
        if negb (zlen cnt =? pages) then Die "kpagecount returned fewer pages than expected"
        else
          w ← foldm (batch_page voffset index pme) (batch buf cgi cnt) w;
          Done (inl (u64 (index + pages), u64 (count - pages), w)).

Definition walk_pfn (voffset index count pme : Z) (w : walker) : res walker :=
  '(_, _, w) ← loop (walk_pfn_body voffset pme) (count + 1) (index, count, w);
  Done w.

Definition walk_swap (voffset pme : Z) (w : walker) : res walker :=
  let flags := kpageflags_flags (opt_raw o) 0 pme in
  ok ← bit_mask_ok o flags;
  if negb ok then Done w
  else if negb (opt_cgroup o =? 0) then Done w
  else
    w ← list_page (mk_page voffset (pagemap_swap_offset pme) flags 0 0) w;
    count_flags flags w.

Definition vma_page (index : Z) (x : Z * Z) (w : walker) : res walker :=
  let '(i, pme) := x in
  let pfn := pagemap_pfn pme in
  w ← (if negb (pfn =? 0) then walk_pfn (u64 (index + i)) pfn 1 pme w else Done w);
  if any pme PM_SWAP then walk_swap (u64 (index + i)) pme w else Done w.

Definition walk_vma_body (s : Z * Z * walker) : res (Z * Z * walker + Z * Z * walker) :=
  let '(index, count, w) := s in
  if count =? 0 then Done (inr s)
  else
    let n := Z.min count PAGEMAP_BATCH in
    '(buf, w) ← pagemap_read index n w;
    let pages := zlen buf in
    if pages =? 0 then Done (inr (index, count, w))
    else
      w ← foldm (vma_page index) (zip (seqZ 0 pages) buf) w;
      Done (inl (u64 (index + pages), u64 (count - pages), w)).

Definition walk_vma (index count : Z) (w : walker) : res walker :=
  '(_, _, w) ← loop walk_vma_body (count + 1) (index, count, w);
  Done w.

End Walk.

(** [while (pg_end[i] <= index) if (++i >= nr_vmas) return;]: [None] when the
    function returns. *)
Fixpoint skip_vmas (o : settings) (index i : Z) (fuel : nat) : res (option Z) :=
  match fuel with
  | O => Die out_of_fuel
  | S fuel =>
      e ← aget (pg_end o) i;
      if e <=? index then
        if nr_vmas o <=? i + 1 then Done None else skip_vmas o index (i + 1) fuel
      else Done (Some i)
  end.

Section Task.
Context {St : Type} (visit : Z → Z → St → res St) (o : settings).

(** The outer loop of [walk_task], [visit] being [walk_vma]. *)
Fixpoint walk_task_loop (end_ index i : Z) (fuel : nat) (s : St) : res St :=
  match fuel with
  | O => Die out_of_fuel
  | S fuel =>
      if index <? end_ then
        r ← skip_vmas o index i (S (Z.to_nat (nr_vmas o)));
        match r with
        | None => Done s
        | Some i =>
            b ← aget (pg_start o) i;
            e ← aget (pg_end o) i;
            if end_ <=? b then Done s
            else
              let start := Z.max b index in
              let index := Z.min e end_ in
              if negb (start <? index) then Die "assert(start < index)"
              else
                s ← visit start (index - start) s;
                walk_task_loop end_ index i fuel s
        end
      else Done s
  end.

Definition walk_task (index count : Z) (s : St) : res St :=
  walk_task_loop (u64 (index + count)) index 0 (S (S (Z.to_nat (nr_vmas o)))) s.
End Task.

Section Ranges.
Context `{KernelPageFlags} (F : fds) (W : world).

Definition walk_range (o : settings) (x : Z * Z) (w : walker) : res walker :=
  if opt_pid o =? 0 then walk_pfn o F W x.1 x.1 x.2 0 w
  else walk_task (walk_vma o F W) o x.1 x.2 w.

(** [open] tells whether the flags file can be opened. *)
Definition walk_addr_ranges (open : bool) (o : settings) (w : walker)
    : res (settings * walker) :=
  if negb open then Die (kpageflags_name o) else
  o ← (if nr_addr_ranges o =? 0 then add_addr_range 0 ULONG_MAX o else Done o);
  w ← foldm (walk_range o) (table (nr_addr_ranges o) (opt_offset o) (opt_size o)) w;
  let w := if opt_mark_idle o then mark_idle F 0 w else w in
  Done (o, w).
End Ranges.

(** ** Termination *)

Section Ends.
Context `{KernelPageFlags} (o : settings) (F : fds) (W : world).
Hypothesis W_ok : world_ok W.

Lemma do_u64_read_len f name index count w ws w' :
  0 ≤ count ≤ KPAGEFLAGS_BATCH →
  do_u64_read W f name index count w = Done (ws, w') → zlen ws ≤ count.
Proof.
  unfold do_u64_read. intros Hc. case_match; [done|].
  pose proof (W_ok (w_time w) f (i64 (index * 8)) (u64 (count * 8))
    (proj1 (u64_range _))) as Hp.
  destruct (pread _ _ _ _ _) as [bytes words]. destruct Hp as [Hle Hl].
  change KPAGEFLAGS_BATCH with 65536 in Hc. rewrite u64_small in Hle by lia.
  case_match; [done|]. case_match; [done|]. intros [= -> _].
  rewrite Hl by lia. apply Z.div_le_upper_bound; lia.
Qed.

Lemma walk_pfn_body_step voffset pme s s' :
  0 ≤ s.1.2 → walk_pfn_body o F W voffset pme s = Done (inl s') →
  0 ≤ s'.1.2 < s.1.2.
Proof.
  destruct s as [[index count] w]. cbn [fst snd]. intros H0. unfold walk_pfn_body.
  destruct (Z.eqb_spec count 0); [done|]. intros E. inv_done.
  destruct v as [buf w1]. apply do_u64_read_len in Hb; [|change KPAGEFLAGS_BATCH with 65536; lia].
  pose proof (zlen_nonneg buf). destruct (Z.eqb_spec (zlen buf) 0); [done|]. inv_done.
  destruct v as [cgi w2]. case_match; [done|]. inv_done. destruct v as [cnt w3].
  case_match; [done|]. inv_done. cbn [fst snd].
  unfold wrap. pose proof (Z.mod_le (count - zlen buf) (2 ^ 64)).
  pose proof (Z.mod_pos_bound (count - zlen buf) (2 ^ 64)). lia.
Qed.

Lemma walk_vma_body_step s s' :
  0 ≤ s.1.2 → walk_vma_body o F W s = Done (inl s') → 0 ≤ s'.1.2 < s.1.2.
Proof.
  destruct s as [[index count] w]. cbn [fst snd]. intros H0. unfold walk_vma_body.
  destruct (Z.eqb_spec count 0); [done|]. intros E. inv_done.
  destruct v as [buf w1]. apply do_u64_read_len in Hb; [|change PAGEMAP_BATCH with 65536 in *;
    change KPAGEFLAGS_BATCH with 65536; lia].
  pose proof (zlen_nonneg buf). destruct (Z.eqb_spec (zlen buf) 0); [done|]. inv_done.
  cbn [fst snd].
  unfold wrap. pose proof (Z.mod_le (count - zlen buf) (2 ^ 64)).
  pose proof (Z.mod_pos_bound (count - zlen buf) (2 ^ 64)). lia.
Qed.
End Ends.

(** C8: the walks end, whatever the kernel's files contain and however they
    change between reads, as long as a read returns no more than was asked:
    neither loop is still running after as many iterations as there are pages
    in the range, since each reads at least one page or stops. *)
Theorem walks_end `{KernelPageFlags} o F W voffset pme index count w :
  world_ok W → 0 ≤ count →
  ¬ still_running (walk_pfn_body o F W voffset pme) (count + 1) (index, count, w) ∧
  ¬ still_running (walk_vma_body o F W) (count + 1) (index, count, w).
Proof.
  intros HW Hc. split.
  - apply (loop_ends _ (fun _ => True) (fun s => s.1.2)); [|done|cbn; lia].
    intros s s' _ Hs E. split; [done|]. by eapply walk_pfn_body_step.
  - apply (loop_ends _ (fun _ => True) (fun s => s.1.2)); [|done|cbn; lia].
    intros s s' _ Hs E. split; [done|]. by eapply walk_vma_body_step.
Qed.

(** ** What a walk visits

    On a system whose files do not change during the walk. *)

Definition stable (W : world) (size : file → Z) (val : file → Z → Z) : Prop :=
  ∀ t f i n, 0 ≤ i → 0 ≤ n →
    pread W t f (i * 8) (n * 8) =
      let k := Z.max 0 (Z.min n (size f - i)) in (k * 8, val f <$> seqZ i k).

Lemma zip_map {A B C} (f : A → B) (g : A → C) l :
  zip (f <$> l) (g <$> l) = (fun x => (f x, g x)) <$> l.
Proof. induction l as [|x l IH]; [done|]. cbn. f_equal. apply IH. Qed.

Lemma seqZ_from {A} (f : Z → A) i k : f <$> seqZ i k = (fun j => f (i + j)) <$> seqZ 0 k.
Proof.
  rewrite <- (Z.add_0_r i) at 1. rewrite <- fmap_add_seqZ, <- list_fmap_compose. done.
Qed.

Lemma zlen_seqZ_map {A} (f : Z → A) i k : 0 ≤ k → zlen (f <$> seqZ i k) = k.
Proof. intros. unfold zlen. rewrite length_fmap, length_seqZ. lia. Qed.

Section Stable.
Context `{KernelPageFlags} (o : settings) (F : fds) (W : world).
Context (size : file → Z) (val : file → Z → Z).
Hypothesis W_stable : stable W size val.

Lemma read_stable f name index count w :
  0 ≤ index < 2 ^ 60 → 0 ≤ count ≤ KPAGEFLAGS_BATCH →
  do_u64_read W f name index count w =
    Done (val f <$> seqZ index (Z.max 0 (Z.min count (size f - index))),
          w <| w_time := w_time w + 1 |>).
Proof.
  intros Hi Hc. unfold do_u64_read. change KPAGEFLAGS_BATCH with 65536 in Hc.
  replace (ULONG_MAX / 8 <? index) with false by (change (ULONG_MAX / 8) with (2 ^ 61 - 1); lia).
  rewrite swrap_small, u64_small by lia. rewrite W_stable by lia.
  set (k := Z.max 0 _). cbv beta iota zeta. replace (k * 8 <? 0) with false by lia.
  by rewrite Z.mod_mul by lia.
Qed.

Definition cgroup_at (i : Z) : Z := if kpagecgroup_open F then val kpagecgroup i else 0.
Definition mapcnt_at (index j : Z) : Z :=
  if kpagecount_open F then val kpagecount (index + j) else stale W (j mod KPAGEFLAGS_BATCH).

Record visit := mk_visit {
  v_voffset : Z; v_offset : Z; v_flags : Z; v_cgroup : Z; v_mapcnt : Z }.

(** The [j]-th page of a walk from [index]; the virtual offset starts again
    with every batch. *)
Definition visit_at (voffset index j : Z) : visit :=
  mk_visit (u64 (voffset + j mod KPAGEFLAGS_BATCH)) (index + j)
    (val kpageflags (index + j)) (cgroup_at (index + j)) (mapcnt_at index j).

Definition visited (voffset index count : Z) : list visit :=
  visit_at voffset index <$> seqZ 0 (Z.max 0 (Z.min count (size kpageflags - index))).

Definition add_visit (pme : Z) (v : visit) (w : walker) : res walker :=
  add_page o F (v_voffset v) (v_offset v) (v_flags v) (v_cgroup v) (v_mapcnt v) pme w.

(** The number of reads so far does not matter to what is done for a page. *)
Lemma list_page_time p w t :
  list_page o p (w <| w_time := t |>) =
    (w' ← list_page o p w; Done (w' <| w_time := t |>)).
Proof.
  unfold list_page. cbn [w_range w_out set_field].
  destruct (opt_list o =? 1); [|destruct (opt_list o =? 2); [|done]].
  - destruct w. cbn. destruct (show_page_range _ _ _ _ _ _ _ _) as [[r text]| |]; done.
  - destruct w. cbn. destruct (show_page o p); done.
Qed.

Lemma add_page_time voff off fl cg mc pme w t :
  add_page o F voff off fl cg mc pme (w <| w_time := t |>) =
    (w' ← add_page o F voff off fl cg mc pme w; Done (w' <| w_time := t |>)).
Proof.
  unfold add_page. destruct (bit_mask_ok o _) as [ok| |]; try done. cbn [mbind res_bind].
  destruct (negb ok); [done|]. destruct (_ && _); [done|].
  set (w1 := if opt_mark_idle o then _ else _).
  set (w2 := if opt_mark_idle o then mark_idle F off (if opt_unpoison o then _ else _) else _).
  assert (w1 = w2 <| w_time := t |>) as ->.
  { subst w1 w2. unfold mark_idle, unpoison_page, hwpoison_page. destruct w. cbn.
    destruct (opt_hwpoison o), (opt_unpoison o), (opt_mark_idle o); cbn;
      try destruct (mark_page_idle _ _ _); done. }
  rewrite list_page_time. destruct (list_page o _ w2) as [w3| |]; try done. cbn [mbind res_bind].
  unfold count_flags. destruct w3. cbn. destruct (count_page _ _); done.
Qed.

Lemma add_visits_time pme l w t :
  foldm (add_visit pme) l (w <| w_time := t |>) =
    (w' ← foldm (add_visit pme) l w; Done (w' <| w_time := t |>)).
Proof.
  revert w. induction l as [|v l IH]; intros w; [done|]. cbn [foldm].
  assert (add_visit pme v (w <| w_time := t |>) =
    (w' ← add_visit pme v w; Done (w' <| w_time := t |>))) as -> by apply add_page_time.
  destruct (add_visit pme v w) as [w'| |]; try done. cbn [mbind res_bind]. apply IH.
Qed.

(** One batch, and the rest of the walk. *)
Lemma visited_split voffset index count k :
  0 ≤ count → k = Z.max 0 (Z.min (Z.min count KPAGEFLAGS_BATCH) (size kpageflags - index)) →
  visited voffset index count =
    (visit_at voffset index <$> seqZ 0 k) ++ visited voffset (index + k) (count - k).
Proof.
  intros Hc Hk. unfold visited. change KPAGEFLAGS_BATCH with 65536 in *.
  set (K := Z.max 0 (Z.min count (size kpageflags - index))).
  replace (Z.max 0 (Z.min (count - k) (size kpageflags - (index + k)))) with (K - k) by lia.
  replace K with (k + (K - k)) at 1 by lia. rewrite seqZ_app, fmap_app by lia. f_equal.
  rewrite seqZ_from, Z.add_0_l.
  destruct (decide (K - k = 0)) as [->|Hne]; [done|].
  assert (k = 65536) as -> by lia. apply list_fmap_ext. intros i j Hj.
  unfold visit_at, mapcnt_at. change KPAGEFLAGS_BATCH with 65536.
  replace (65536 + j) with (j + 1 * 65536) by lia. rewrite Z.mod_add by lia.
  replace (index + (j + 1 * 65536)) with (index + 65536 + j) by lia. done.
Qed.

Lemma batch_visits voffset index pme k w :
  0 ≤ index → 0 ≤ k ≤ KPAGEFLAGS_BATCH → index + k < 2 ^ 64 →
  foldm (batch_page o F voffset index pme)
    (batch (val kpageflags <$> seqZ index k) (cgroup_at <$> seqZ index k)
       (mapcnt_at index <$> seqZ 0 k)) w =
  foldm (add_visit pme) (visit_at voffset index <$> seqZ 0 k) w.
Proof.
  intros Hi Hk Hb. unfold batch. rewrite zlen_seqZ_map by lia.
  rewrite (seqZ_from (val kpageflags)), (seqZ_from cgroup_at), !zip_map.
  rewrite <- (list_fmap_id (seqZ 0 k)) at 1. rewrite zip_map, !foldm_fmap.
  apply foldm_ext. intros j s Hj%elem_of_seqZ. unfold batch_page, add_visit, visit_at.
  cbn [v_voffset v_offset v_flags v_cgroup v_mapcnt id].
  change KPAGEFLAGS_BATCH with 65536 in *. rewrite (Z.mod_small j) by lia.
  by rewrite (u64_small (index + j)) by lia.
Qed.

Lemma cgroup_read_stable index k w :
  size kpagecgroup = size kpageflags →
  0 ≤ index < 2 ^ 60 → 0 ≤ k ≤ KPAGEFLAGS_BATCH → index + k ≤ size kpageflags →
  ∃ t, kpagecgroup_read o F W index k w =
    Done (cgroup_at <$> seqZ index k, w <| w_time := t |>).
Proof.
  intros Hs Hi Hk Hn. unfold kpagecgroup_read, cgroup_at. destruct (kpagecgroup_open F); cbn [negb].
  - rewrite read_stable, Hs by done. eexists. do 2 f_equal. do 2 f_equal. lia.
  - exists (w_time w). f_equal. f_equal; [|by destruct w].
    apply list_eq_same_length with (Z.to_nat k);
      rewrite ?length_replicate, ?length_fmap, ?length_seqZ; try lia.
    intros i x y _ [-> _]%lookup_replicate (z & -> & _)%list_lookup_fmap_Some. done.
Qed.

Lemma count_read_stable index k w :
  size kpagecount = size kpageflags →
  0 ≤ index < 2 ^ 60 → 0 ≤ k ≤ KPAGEFLAGS_BATCH → index + k ≤ size kpageflags →
  ∃ t, kpagecount_read F W index k w =
    Done (mapcnt_at index <$> seqZ 0 k, w <| w_time := t |>).
Proof.
  intros Hs Hi Hk Hn. unfold kpagecount_read, mapcnt_at. destruct (kpagecount_open F); cbn [negb].
  - rewrite read_stable, Hs by done. eexists. f_equal. f_equal.
    rewrite seqZ_from. do 2 f_equal. lia.
  - exists (w_time w). f_equal. f_equal; [|by destruct w].
    apply list_fmap_ext. intros i j Hj%list_elem_of_lookup_2%elem_of_seqZ.
    change KPAGEFLAGS_BATCH with 65536 in *. by rewrite Z.mod_small by lia.
Qed.

Hypothesis sizes : size kpagecgroup = size kpageflags ∧ size kpagecount = size kpageflags ∧
  size kpageflags < 2 ^ 60.

Definition walk_result (voffset pme index count : Z) (w : walker) (r : res (Z * Z * walker)) : Prop :=
  ∃ i c t, r = (w' ← foldm (add_visit pme) (visited voffset index count) w;
                Done (i, c, w' <| w_time := t |>)).

Lemma visited_none voffset index count :
  count = 0 ∨ size kpageflags ≤ index → visited voffset index count = [].
Proof.
  intros Hor. unfold visited.
  replace (Z.max 0 _) with 0 by (pose proof (Z.le_min_l count (size kpageflags - index)); lia).
  done.
Qed.

Lemma walk_pfn_loop voffset pme index count w :
  0 ≤ index < 2 ^ 60 → 0 ≤ count → index + count ≤ ULONG_MAX →
  walk_result voffset pme index count w
    (loop (walk_pfn_body o F W voffset pme) (count + 1) (index, count, w)).
Proof.
  intros Hi Hc Hsum. destruct sizes as (Hcg & Hcnt & HN). unfold ULONG_MAX in *.
  apply (loop_rule _ (fun s => 0 ≤ s.1.1 < 2 ^ 60 ∧ 0 ≤ s.1.2 ∧ s.1.1 + s.1.2 ≤ 2 ^ 64 - 1)
    (fun s => s.1.2) (fun s r => walk_result voffset pme s.1.1 s.1.2 s.2 r));
    [|done|cbn; lia].
  clear index count w Hi Hc Hsum. intros [[index count] w] (Hi & Hc & Hsum) _. cbn [fst snd] in *.
  unfold walk_pfn_body. destruct (Z.eqb_spec count 0) as [->|Hc0].
  { exists index, 0, (w_time w). rewrite visited_none by by left. cbn. by destruct w. }
  set (k := Z.max 0 (Z.min (Z.min count KPAGEFLAGS_BATCH) (size kpageflags - index))).
  assert (0 ≤ k ≤ KPAGEFLAGS_BATCH ∧ k ≤ count) as [Hk Hkc]
    by (change KPAGEFLAGS_BATCH with 65536 in *; lia).
  unfold kpageflags_read. rewrite read_stable by (done || change KPAGEFLAGS_BATCH with 65536; lia).
  fold k. cbn [mbind res_bind]. rewrite zlen_seqZ_map by lia.
  destruct (Z.eqb_spec k 0) as [Ek|Ek].
  { exists index, count, (w_time w + 1). rewrite visited_none; [done|].
    change KPAGEFLAGS_BATCH with 65536 in *. lia. }
  assert (index + k ≤ size kpageflags) as Hend by lia.
  set (w1 := w <| w_time := w_time w + 1 |>).
  destruct (cgroup_read_stable index k w1 Hcg Hi Hk Hend) as [t1 ->]. cbn [mbind res_bind].
  rewrite zlen_seqZ_map, Z.eqb_refl by lia. cbn [negb].
  destruct (count_read_stable index k (w1 <| w_time := t1 |>) Hcnt Hi Hk Hend) as [t2 ->].
  cbn [mbind res_bind]. rewrite zlen_seqZ_map, Z.eqb_refl by lia. cbn [negb].
  rewrite batch_visits by lia.
  assert (w1 <| w_time := t1 |> <| w_time := t2 |> = w <| w_time := t2 |>) as -> by by destruct w.
  rewrite add_visits_time.
  pose proof (visited_split voffset index count k Hc eq_refl) as Hsplit.
  rewrite (u64_small (index + k)), (u64_small (count - k)) by lia.
  destruct (foldm (add_visit pme) (visit_at voffset index <$> seqZ 0 k) w) as [w'| |] eqn:Ew;
    cbn [mbind res_bind fst snd].
  - split; [lia|]. split; [lia|]. intros r (i & c & t & ->). exists i, c, t.
    rewrite Hsplit, foldm_app, Ew. cbn [mbind res_bind]. rewrite add_visits_time.
    by destruct (foldm _ (visited voffset (index + k) (count - k)) w') as [[]| |].
  - exists 0, 0, 0. by rewrite Hsplit, foldm_app, Ew.
  - exists 0, 0, 0. by rewrite Hsplit, foldm_app, Ew.
Qed.

Lemma walk_pfn_visits voffset pme index count w :
  0 ≤ index < 2 ^ 60 → 0 ≤ count → index + count ≤ ULONG_MAX →
  ∃ t, walk_pfn o F W voffset index count pme w =
    (w' ← foldm (add_visit pme) (visited voffset index count) w;
     Done (w' <| w_time := t |>)).
Proof.
  intros Hi Hc Hs. unfold walk_pfn.
  destruct (walk_pfn_loop voffset pme index count w Hi Hc Hs) as (i & c & t & ->).
  exists t. by destruct (foldm _ _ _).
Qed.
End Stable.

(** ** Walking the areas of a process *)

(** Areas in ascending order, none empty, none overlapping. *)
Fixpoint areas_ok (vs : list (Z * Z)) : Prop :=
  match vs with
  | [] => True
  | (b, e) :: rest => b < e ∧ Forall (fun x => e ≤ x.1) rest ∧ areas_ok rest
  end.

(** The nonempty parts of the areas that lie in [index .. end_-1], as first
    page and number of pages. *)
Definition segment (index end_ : Z) (x : Z * Z) : list (Z * Z) :=
  let b := Z.max x.1 index in
  let e := Z.min x.2 end_ in
  if b <? e then [(b, e - b)] else [].

Definition segments (index end_ : Z) (vs : list (Z * Z)) : list (Z * Z) :=
  mjoin (segment index end_ <$> vs).

(** The areas left after those that end at or before [index]. *)
Fixpoint beyond (index : Z) (vs : list (Z * Z)) : list (Z * Z) :=
  match vs with
  | [] => []
  | x :: rest => if x.2 <=? index then beyond index rest else vs
  end.

Lemma segments_cons index end_ x vs :
  segments index end_ (x :: vs) = segment index end_ x ++ segments index end_ vs.
Proof. done. Qed.

Lemma segment_none index end_ x :
  end_ ≤ index ∨ x.2 ≤ index ∨ end_ ≤ x.1 → segment index end_ x = [].
Proof. intros Hor. unfold segment. by replace (_ <? _) with false by lia. Qed.

Lemma segments_none index end_ vs :
  Forall (fun x => end_ ≤ index ∨ x.2 ≤ index ∨ end_ ≤ x.1) vs → segments index end_ vs = [].
Proof.
  induction 1 as [|x vs Hx _ IH]; [done|]. by rewrite segments_cons, segment_none.
Qed.

Lemma segments_beyond index end_ vs :
  segments index end_ (beyond index vs) = segments index end_ vs.
Proof.
  induction vs as [|[b e] vs IH]; [done|]. cbn [beyond snd].
  destruct (Z.leb_spec e index); [|done]. rewrite IH, segments_cons, segment_none; [done|].
  cbn. lia.
Qed.

Lemma beyond_suffix index vs : ∃ k, beyond index vs = drop k vs ∧ (k ≤ length vs)%nat.
Proof.
  induction vs as [|[b e] vs (k & E & Hk)]; [by exists 0%nat|]. cbn.
  destruct (e <=? index); [exists (S k); cbn; split; [done|lia]|exists 0%nat; cbn; split; [done|lia]].
Qed.

Lemma areas_ok_drop k vs : areas_ok vs → areas_ok (drop k vs).
Proof.
  revert vs. induction k as [|k IH]; intros [|[b e] vs]; cbn; try done. intros (_ & _ & H). auto.
Qed.

(** A later start or end changes nothing for areas that lie after it. *)
Lemma segments_later index index' end_ vs :
  Forall (fun x => index ≤ x.1 ∧ index' ≤ x.1) vs →
  segments index end_ vs = segments index' end_ vs.
Proof.
  induction 1 as [|[b e] vs [H1 H2] _ IH]; [done|]. cbn [fst] in *.
  rewrite !segments_cons, IH. f_equal. unfold segment. cbn [fst snd].
  by rewrite !Z.max_l by lia.
Qed.

Section TaskProofs.
Context {St : Type} (visit : Z → Z → St → res St) (o : settings).
Hypothesis o_ok : settings_ok o.

Lemma vmas_lookup i x :
  vmas o !! i = Some x →
  aget (pg_start o) (Z.of_nat i) = Done x.1 ∧ aget (pg_end o) (Z.of_nat i) = Done x.2.
Proof.
  intros Hx. unfold vmas, table in Hx.
  apply lookup_zip_with_Some in Hx as (b & e & -> & Hb & He).
  apply lookup_take_Some in Hb as [Hb _]. apply lookup_take_Some in He as [He _].
  split; by apply aget_nat.
Qed.

Lemma vmas_length : length (vmas o) = Z.to_nat (nr_vmas o).
Proof.
  destruct o_ok. unfold vmas, table, zlen in *. rewrite length_zip_with, !length_take. lia.
Qed.

Lemma skip_vmas_spec index i fuel :
  (i < length (vmas o))%nat → (length (vmas o) - i ≤ fuel)%nat →
  ∃ j, skip_vmas o index (Z.of_nat i) fuel =
         Done (if decide (j = length (vmas o)) then None else Some (Z.of_nat j)) ∧
       (i ≤ j ≤ length (vmas o))%nat ∧ beyond index (drop i (vmas o)) = drop j (vmas o).
Proof.
  pose proof vmas_length as Hl.
  revert i. induction fuel as [|fuel IH]; intros i Hi Hf; [lia|].
  destruct (lookup_lt_is_Some_2 (vmas o) i) as [x Hx]; [done|].
  destruct (vmas_lookup i x Hx) as [_ He]. cbn [skip_vmas]. rewrite He. cbn [mbind res_bind].
  rewrite (drop_S _ _ _ Hx). cbn [beyond].
  destruct (Z.leb_spec x.2 index).
  - destruct (Z.leb_spec (nr_vmas o) (Z.of_nat i + 1)).
    + exists (S i). assert (S i = length (vmas o)) as E by lia.
      rewrite decide_True by done. split; [done|]. split; [lia|].
      by rewrite E, drop_all.
    + replace (Z.of_nat i + 1) with (Z.of_nat (S i)) by lia.
      destruct (IH (S i)) as (j & Ej & Hj & Eb); [lia|lia|]. exists j.
      split; [done|]. split; [lia|done].
  - exists i. rewrite decide_False by lia. split; [done|]. split; [lia|].
    by rewrite (drop_S _ _ _ Hx).
Qed.

Hypothesis o_areas : areas_ok (vmas o).

Lemma walk_task_loop_spec end_ fuel index i s :
  (i < length (vmas o))%nat → (0 < fuel)%nat →
  (index < end_ → (length (beyond index (drop i (vmas o))) < fuel)%nat) →
  walk_task_loop visit o end_ index (Z.of_nat i) fuel s =
  foldm (fun x => visit x.1 x.2) (segments index end_ (drop i (vmas o))) s.
Proof.
  revert index i s. induction fuel as [|fuel IH]; intros index i s Hi H0 Hf; [lia|].
  rewrite <- segments_beyond. cbn [walk_task_loop].
  destruct (Z.ltb_spec index end_) as [Hlt|Hge].
  2:{ rewrite segments_none; [done|]. apply Forall_forall. by left. }
  specialize (Hf Hlt). pose proof vmas_length as Hl.
  destruct (skip_vmas_spec index i (S (Z.to_nat (nr_vmas o)))) as (j & -> & Hj & Eb); [done|lia|].
  rewrite Eb in *. cbn [mbind res_bind].
  case_decide as Ej; [by rewrite Ej, drop_all|].
  destruct (lookup_lt_is_Some_2 (vmas o) j) as [[b e] Hx]; [lia|].
  destruct (vmas_lookup j _ Hx) as [-> ->]. cbn [mbind res_bind fst snd].
  pose proof (areas_ok_drop j _ o_areas) as Ha. rewrite (drop_S _ _ _ Hx) in *.
  cbn [areas_ok] in Ha. destruct Ha as (Hbe & Hrest & _).
  assert (index < e) as Hie.
  { destruct (beyond_suffix index (drop i (vmas o))) as (k & E & _).
    pose proof Eb as Eb'. clear -Eb. induction (drop i (vmas o)) as [|x vs IHv]; [done|].
    cbn in Eb. destruct (Z.leb_spec x.2 index); [by apply IHv|]. by injection Eb as -> _. }
  rewrite segments_cons. cbn [length] in Hf.
  destruct (Z.leb_spec end_ b) as [Hout|Hin].
  - rewrite segment_none, segments_none; [done| |cbn; lia].
    eapply Forall_impl; [exact Hrest|]. cbn. intros. lia.
  - unfold segment. cbn [fst snd]. replace (_ <? _) with true by lia.
    cbn [negb app foldm fst snd].
    destruct (visit _ _ s) as [s'| |]; try done. cbn [mbind res_bind].
    rewrite IH; [|lia|lia|].
    + rewrite (drop_S _ _ _ Hx), segments_cons, segment_none by (cbn; lia). cbn [app]. f_equal.
      apply segments_later. eapply Forall_impl; [exact Hrest|]. cbn. intros. lia.
    + rewrite (drop_S _ _ _ Hx). cbn [beyond snd length] in *. intros Hm.
      replace (e <=? Z.min e end_) with true by lia.
      destruct (beyond_suffix (Z.min e end_) (drop (S j) (vmas o))) as (k & -> & _).
      rewrite length_drop. lia.
Qed.
End TaskProofs.

(** C4: walking a process walks exactly its memory in the range: for the
    areas read from its map, in ascending order, [walk_task] visits the
    nonempty intersections of the areas with the requested pages, each once
    and in order, and its assertion never fails. *)
Theorem walk_task_segments {St} (visit : Z → Z → St → res St) o index count s :
  settings_ok o → areas_ok (vmas o) → 0 < nr_vmas o →
  0 ≤ index → 0 ≤ count → index + count ≤ ULONG_MAX →
  walk_task visit o index count s =
  foldm (fun x => visit x.1 x.2) (segments index (index + count) (vmas o)) s.
Proof.
  intros Ho Ha Hn Hi Hc Hs. unfold walk_task. rewrite u64_small by (unfold ULONG_MAX in *; lia).
  pose proof (vmas_length o Ho) as Hl.
  rewrite (walk_task_loop_spec visit o Ho Ha _ _ index 0); [by rewrite drop_0|lia|lia|].
  intros _. destruct (beyond_suffix index (drop 0 (vmas o))) as (k & -> & _).
  rewrite drop_0, length_drop. lia.
Qed.

(** ** Counting a range of physical pages *)

Section Counted.
Context `{KernelPageFlags} (o : settings) (F : fds) (pme : Z).
Hypothesis o_ok : settings_ok o.
Hypothesis o_list : opt_list o = 0.

Definition shown (v : visit) : Z := kpageflags_flags (opt_raw o) (v_flags v) pme.

(** The page passes the bit filters and the cgroup filter. *)
Definition passes (v : visit) : bool :=
  forallb (accepts (shown v)) (filters o) &&
  ((opt_cgroup o =? 0) || (v_cgroup v =? opt_cgroup o)).

Lemma acts_counts off w :
  w_counts (let w := if opt_hwpoison o then hwpoison_page off w else w in
            let w := if opt_unpoison o then unpoison_page off w else w in
            if opt_mark_idle o then mark_idle F off w else w) = w_counts w ∧
  w_out (let w := if opt_hwpoison o then hwpoison_page off w else w in
         let w := if opt_unpoison o then unpoison_page off w else w in
         if opt_mark_idle o then mark_idle F off w else w) = w_out w.
Proof.
  unfold mark_idle, unpoison_page, hwpoison_page. destruct w. cbn.
  destruct (opt_hwpoison o), (opt_unpoison o), (opt_mark_idle o); cbn;
    try destruct (mark_page_idle _ _ _); done.
Qed.

Definition counted_as (c : res counts) (out : string) (r : res walker) : Prop :=
  match c with
  | Done c => ∃ w, r = Done w ∧ w_counts w = c ∧ w_out w = out
  | Die m => r = Die m
  | Wild => r = Wild
  end.

Lemma add_visit_counted v w :
  counted_as (if passes v then count_page (shown v) (w_counts w) else Done (w_counts w))
    (w_out w) (add_visit o F pme v w).
Proof.
  unfold add_visit, add_page. fold (shown v). rewrite bit_mask_ok_spec by done.
  unfold passes. destruct (forallb _ _); cbn [mbind res_bind negb andb]; [|by exists w].
  replace (negb (opt_cgroup o =? 0) && negb (v_cgroup v =? opt_cgroup o))
    with (negb ((opt_cgroup o =? 0) || (v_cgroup v =? opt_cgroup o)))
    by (by destruct (opt_cgroup o =? 0), (v_cgroup v =? opt_cgroup o)).
  destruct ((opt_cgroup o =? 0) || _); cbn [negb]; [|by exists w].
  destruct (acts_counts (v_offset v) w) as [Ec Eo]. cbv zeta in Ec, Eo |- *.
  set (w1 := if opt_mark_idle o then _ else _) in *.
  unfold list_page. rewrite o_list. cbn [Z.eqb mbind res_bind]. unfold count_flags. rewrite Ec.
  destruct (count_page (shown v) (w_counts w)) as [c| |]; try done. cbn [mbind res_bind counted_as].
  eexists. split; [done|]. by destruct w1.
Qed.

Lemma add_visits_counted l w :
  counted_as (count_pages (shown <$> filter (fun v => passes v = true) l) (w_counts w))
    (w_out w) (foldm (add_visit o F pme) l w).
Proof.
  revert w. induction l as [|v l IH]; intros w; [by exists w|]. cbn [foldm].
  pose proof (add_visit_counted v w) as Hv. rewrite filter_cons.
  destruct (passes v).
  - rewrite decide_True by done. cbn [fmap list_fmap count_pages].
    destruct (count_page (shown v) (w_counts w)) as [c| |]; cbn [counted_as] in Hv.
    + destruct Hv as (w' & -> & <- & <-). cbn [mbind res_bind]. apply IH.
    + by rewrite Hv.
    + by rewrite Hv.
  - rewrite decide_False by done. destruct Hv as (w' & -> & <- & <-). cbn [mbind res_bind].
    apply IH.
Qed.
End Counted.

(** C2: the summary of a range of physical pages.  On a system whose files do
    not change, walking [count] pages from [index] without listing counts
    each page of the range that exists and passes the filters, batch by
    batch, under the flags it shows: the rows are the histogram of those
    pages, as long as they show at most 8191 different words. *)
Theorem walk_pfn_histogram `{KernelPageFlags} o F W size val index count :
  stable W size val →
  size kpagecgroup = size kpageflags ∧ size kpagecount = size kpageflags ∧
    size kpageflags < 2 ^ 60 →
  settings_ok o → opt_list o = 0 → 0 ≤ index < 2 ^ 60 → 0 ≤ count → index + count ≤ ULONG_MAX →
  let seen := shown o 0 <$> filter (fun v => passes o 0 v = true)
                (visited F W size val index index count) in
  distinct seen < HASH_SIZE →
  ∃ w, walk_pfn o F W index index count 0 walker_start = Done w ∧
    total_pages (w_counts w) = zlen seen ∧ NoDup (rows (w_counts w)).*1 ∧
    ∀ f n, (f, n) ∈ rows (w_counts w) ↔ 0 < n ∧ n = cnt f seen.
Proof.
  intros HW Hs Ho Hl Hi Hc Hsum seen Hd.
  destruct (walk_pfn_visits o F W size val HW Hs index 0 index count walker_start) as [t ->];
    [done..|].
  pose proof (add_visits_counted o F 0 Ho Hl (visited F W size val index index count) walker_start)
    as Hv. fold seen in Hv. change (w_counts walker_start) with counts_start in Hv.
  pose proof (count_pages_cases seen [] counts_start counts_start_ok) as Hcp. cbn [app] in Hcp.
  replace (distinct seen <? HASH_SIZE) with true in Hcp by lia.
  destruct Hcp as (c & Ec & Hok). rewrite Ec in Hv. destruct Hv as (w & -> & Hwc & _).
  cbn [mbind res_bind]. eexists. split; [done|].
  assert (w_counts (w <| w_time := t |>) = c) as -> by by destruct w.
  assert (zlen seen < 2 ^ 64) as Hlen.
  { subst seen. unfold zlen. rewrite length_fmap.
    pose proof (length_filter (fun v => passes o 0 v = true) (visited F W size val index index count)) as Hf.
    unfold visited in Hf at 2. rewrite length_fmap, length_seqZ in Hf. lia. }
  split_and!.
  - rewrite (co_total _ _ Hok). apply u64_small. pose proof (zlen_nonneg seen). lia.
  - by eapply rows_nodup.
  - intros f n. by apply rows_elem.
Qed.

(** ** Witnesses *)

(** A machine with four pages, flags 1, 2, 1, 4. *)
Definition demo_size (f : file) : Z := 4.
Definition demo_val (f : file) (i : Z) : Z := if i =? 1 then 2 else if i =? 3 then 4 else 1.
Definition demo_world : world :=
  mk_world (fun _ f off n =>
      let k := Z.max 0 (Z.min (n / 8) (demo_size f - off / 8)) in
      (k * 8, demo_val f <$> seqZ (off / 8) k))
    (fun _ => 0).
Definition demo_fds : fds := mk_fds false false false.

Lemma demo_stable : stable demo_world demo_size demo_val.
Proof.
  intros t f i n Hi Hn. unfold demo_world. cbn [pread]. by rewrite !Z.div_mul by lia.
Qed.

Lemma demo_world_ok : world_ok demo_world.
Proof.
  intros t f off n Hn. unfold demo_world. cbn [pread]. set (k := Z.max 0 _).
  cbv beta iota zeta. split.
  - assert (k ≤ n / 8) by (pose proof (Z.div_pos n 8); lia).
    pose proof (Z.mul_div_le n 8). lia.
  - intros _. rewrite zlen_seqZ_map, Z.div_mul by lia. done.
Qed.

Lemma walks_end_witness :
  ¬ still_running (walk_pfn_body settings_start demo_fds demo_world 0 0) 8 (0, 7, walker_start) ∧
  ¬ still_running (walk_vma_body settings_start demo_fds demo_world) 8 (0, 7, walker_start).
Proof.
  exact (walks_end settings_start demo_fds demo_world 0 0 0 7 walker_start demo_world_ok
    ltac:(lia)).
Defined.

Lemma walk_pfn_histogram_witness :
  ∃ w, walk_pfn settings_start demo_fds demo_world 0 0 ULONG_MAX 0 walker_start = Done w ∧
    total_pages (w_counts w) = 4 ∧ (1, 2) ∈ rows (w_counts w).
Proof.
  destruct (walk_pfn_histogram settings_start demo_fds demo_world demo_size demo_val 0 ULONG_MAX
    demo_stable) as (w & E & Ht & _ & Hr).
  - split; [reflexivity|]. split; [reflexivity|]. vm_compute. reflexivity.
  - exact settings_start_ok.
  - reflexivity.
  - lia.
  - vm_compute. congruence.
  - vm_compute. congruence.
  - vm_compute. reflexivity.
  - exists w. split; [exact E|]. split; [rewrite Ht; vm_compute; reflexivity|].
    apply Hr. vm_compute. split; reflexivity.
Defined.

Definition demo_task : settings :=
  settings_start <| opt_pid := 1 |> <| nr_vmas := 2 |>
    <| pg_start := <[1%nat := 20]> (<[0%nat := 10]> (pg_start settings_start)) |>
    <| pg_end := <[1%nat := 30]> (<[0%nat := 15]> (pg_end settings_start)) |>.

Lemma walk_task_segments_witness :
  walk_task (fun b n s => Done (s ++ [(b, n)])) demo_task 12 10 [] = Done [(12, 3); (20, 2)].
Proof.
  rewrite (walk_task_segments (fun b n s => Done (s ++ [(b, n)])) demo_task 12 10 []).
  - vm_compute. reflexivity.
  - split; vm_compute; try reflexivity; split; congruence.
  - vm_compute. repeat constructor; congruence.
  - reflexivity.
  - lia.
  - lia.
  - vm_compute. congruence.
Defined.
