(* ===== verification/PageMain.v ===== *)
(** * page-types: files, options and main

    The walk of the page cache of files and the main function of
    [mem/vm/page-types.c].  System calls are answered by [sys]; what getopt
    returns is the list of options. *)

From S2P Require Import Prelude CLib PageFlags PageParse PageHash PageRange PageWalk.

Definition MAX_PATH : Z := 256.
Definition PROC_KPAGEFLAGS : string := "/proc/kpageflags".
Definition PROC_KPAGECOUNT : string := "/proc/kpagecount".
Definition PROC_KPAGECGROUP : string := "/proc/kpagecgroup".
Definition SYS_KERNEL_MM_PAGE_IDLE : string := "/sys/kernel/mm/page_idle/bitmap".

(** What [stat] and [strftime] give for a file that is walked. *)
Record fstat := mk_fstat {
  st_size : Z;
  st_inode : Z;
  st_atime : Z;
  st_mtime : Z;
  atime_text : string;
  mtime_text : string;
}.

(** The answers to one round of [mmap], [mincore], [madvise] and the access
    to the mapped pages; [m_sigbus] is [Some a] when a bus error at [a] ends
    the access ([Some 0] when the address is not known). *)
Record mapping := mk_mapping {
  m_ptr : option Z;
  m_mincore : bool;
  m_random : bool;
  m_sigbus : option Z;
  m_sequential : bool;
}.

Inductive fkind := f_regular | f_directory | f_other.
Inductive ftw_type := FTW_F | FTW_DNR | FTW_OTHER.

Record sys := mk_sys {
  page_size : Z;
  can_open : string → bool;              (* checked_open *)
  cgroup_stat : string → option stat_info;
  maps_of : Z → option (list string);
  debugfs : option string;               (* debugfs__mount *)
  kernel : world;
  map_file : string → Z → Z → mapping;   (* name, offset, length *)
  file_kind : string → option fkind;
  file_stat : string → fstat;
  nftw : string → option (list (string * ftw_type * bool));
                                         (* name, type, S_ISREG *)
  now : Z;                               (* time(NULL) *)
}.

Definition checked_open (Y : sys) (path : string) : res unit :=
  if can_open Y path then Done tt else Die path.

(** ** The page cache of a file *)

Section File.
Context `{KernelPageFlags} (Y : sys) (o : settings) (F : fds).

Definition show_file (name : string) (st : fstat) : string :=
  let size := u64 (st_size st) in
  name +:+ tab +:+ "Inode: " +:+ dec (u32 (st_inode st)) +:+ tab +:+ "Size: " +:+ dec size +:+
  " (" +:+ dec (u64 (size + page_size Y - 1) / page_size Y) +:+ " pages)" +:+ nl +:+
  "Modify: " +:+ mtime_text st +:+ " (" +:+ dec (i64 (now Y - st_mtime st)) +:+ " seconds ago)" +:+ nl +:+
  "Access: " +:+ atime_text st +:+ " (" +:+ dec (i64 (now Y - st_atime st)) +:+ " seconds ago)" +:+ nl.

(** [end] after a bus error: [off + sigbus_addr ? sigbus_addr - ptr : 0]. *)
Definition sigbus_end (off ptr end_ : Z) (sigbus : option Z) : Z :=
  match sigbus with
  | None => end_
  | Some a => if negb (u64 (off + a) =? 0) then i64 (a - ptr) else 0
  end.

(** One page of the mapping: [first], the two variables that keep their value
    when their file is not open, and the state. *)
Definition file_page (name : string) (st : fstat) (off : Z) (x : Z * Z)
    (s : bool * Z * Z * walker) : res (bool * Z * Z * walker) :=
  let '(i, pme) := x in
  let '(first, cgroup, mapcnt, w) := s in
  let pfn := pagemap_pfn pme in
  if pfn =? 0 then Done s
  else
    '(fl, w) ← kpageflags_read o (kernel Y) pfn 1 w;
    match fl with
    | [] => Done (first, cgroup, mapcnt, w)
    | flags :: _ =>
        '(cgroup, w) ← (if negb (kpagecgroup_open F) then Done (cgroup, w)
                        else '(l, w) ← kpagecgroup_read o F (kernel Y) pfn 1 w;
                             match l with
                             | [] => Die "kpagecgroup_read failed"
                             | c :: _ => Done (c, w)
                             end);
        '(mapcnt, w) ← (if negb (kpagecount_open F) then Done (mapcnt, w)
                        else '(l, w) ← kpagecount_read F (kernel Y) pfn 1 w;
                             match l with
                             | [] => Die "kpagecount_read failed"
                             | c :: _ => Done (c, w)
                             end);
        '(first, w) ← (if first && negb (opt_list o =? 0) then
                         '(r, text) ← flush_page_range o (w_range w);
                         Done (false, w <| w_range := r |>
                                        <| w_out := w_out w +:+ text +:+ show_file name st |>)
                       else Done (first, w));
        w ← add_page o F (u64 (Z.quot off (page_size Y) + i)) pfn flags cgroup mapcnt pme w;
        Done (first, cgroup, mapcnt, w)
    end.

Definition walk_file_body (name : string) (st : fstat) (s : Z * Z * (bool * Z * Z * walker))
    : res (Z * Z * (bool * Z * Z * walker) + Z * Z * (bool * Z * Z * walker)) :=
  let '(off, end_, v) := s in
  if negb (off <? end_) then Done (inr s)
  else
    let nr := Z.min (Z.quot (end_ - off + page_size Y - 1) (page_size Y)) PAGEMAP_BATCH in
    let len := nr * page_size Y in
    let m := map_file Y name off len in
    match m_ptr m with
    | None => Die ("mmap failed: " +:+ name)
    | Some ptr =>
        if negb (m_mincore m) then Die ("mincore failed: " +:+ name)
        else if negb (m_random m) then Die ("madvice failed: " +:+ name)
        else
          let end_ := sigbus_end off ptr end_ (m_sigbus m) in
          if negb (m_sequential m) then Die ("madvice failed: " +:+ name)
          else
            let '(first, cgroup, mapcnt, w) := v in
            '(buf, w) ← pagemap_read (kernel Y) (ptr / page_size Y) nr w;
            if negb (zlen buf =? nr) then Die "cannot read pagemap"
            else
              v ← foldm (file_page name st off) (zip (seqZ 0 nr) buf) (first, cgroup, mapcnt, w);
              Done (inl (off + len, end_, v))
    end.

(** The offset is an [off_t] and grows by a page at least. *)
Definition off_fuel : Z := 2 ^ 63 + 1.

Definition walk_file (name : string) (st : fstat) (w : walker) : res walker :=
  _ ← checked_open Y name;
  '(_, _, (_, _, _, w)) ← loop (walk_file_body name st) off_fuel (0, st_size st, (true, 0, 0, w));
  Done w.

Definition walk_tree (x : string * ftw_type * bool) (w : walker) : res walker :=
  let '(name, type, isreg) := x in
  match type with
  | FTW_F => if isreg then walk_file name (file_stat Y name) w else Done w
  | FTW_DNR | FTW_OTHER => Done w
  end.

Definition walk_page_cache (name : string) (w : walker) : res walker :=
  _ ← checked_open Y (kpageflags_name o);
  _ ← checked_open Y "/proc/self/pagemap";
  match file_kind Y name with
  | None => Die ("stat failed: " +:+ name +:+ nl)
  | Some f_regular => walk_file name (file_stat Y name) w
  | Some f_directory =>
      match nftw Y name with
      | None => Die ("nftw failed: " +:+ name +:+ nl)
      | Some entries => foldm walk_tree entries w
      end
  | Some f_other => Die ("unhandled file type: " +:+ name +:+ nl)
  end.
End File.

(** ** Options *)

Section Main.
Context `{KernelPageFlags} (Y : sys).

(** [snprintf(buf, MAX_PATH, ...)] of a path below the debug file system;
    the descriptors are opened once. *)
Definition prepare_hwpoison_fd (o : settings) : res unit :=
  match debugfs Y with
  | None => Die "mount debugfs"
  | Some fs =>
      let path f := String.substring 0 (Z.to_nat (MAX_PATH - 1)) (fs +:+ f) in
      _ ← (if opt_hwpoison o then checked_open Y (path "/hwpoison/corrupt-pfn") else Done tt);
      if opt_unpoison o then checked_open Y (path "/hwpoison/unpoison-pfn") else Done tt
  end.

(** [usage]: four names to a line, each with its kind. *)
Fixpoint usage_names (names : list (option string)) (i j : Z) : string :=
  match names with
  | [] => ""
  | None :: rest => usage_names rest (i + 1) j
  | Some nm :: rest =>
      padl " " 16 (longpart nm) +:+ page_flag_type (BIT i) +:+
      (if 3 <? j + 1 then nl else "") +:+
      usage_names rest (i + 1) (if 3 <? j + 1 then 0 else j + 1)
  end.

(** Going on with new settings, or leaving with an exit status and output. *)
Inductive parsed :=
| p_go (o : settings)
| p_exit (status : Z) (out : string).

Definition lift (r : res settings) : res parsed := o ← r; Done (p_go o).

(** [help] is the fixed text of [usage] before the names. *)
Definition main_option (help : string) (x : ascii * string) (o : settings) : res parsed :=
  let '(c, optarg) := x in
  if Ascii.eqb c "r" then Done (p_go (o <| opt_raw := true |>))
  else if Ascii.eqb c "p" then
    '(o, _) ← parse_pid (page_size Y) (fun p => can_open Y ("/proc/" +:+ dec p +:+ "/pagemap"))
                (maps_of Y) optarg o;
    Done (p_go o)
  else if Ascii.eqb c "f" then Done (p_go (parse_file optarg o))
  else if Ascii.eqb c "a" then lift (parse_addr_range optarg o)
  else if Ascii.eqb c "b" then lift (parse_bits_mask optarg o)
  else if Ascii.eqb c "c" then lift (parse_cgroup (cgroup_stat Y) optarg o)
  else if Ascii.eqb c "C" then Done (p_go (o <| opt_list_cgroup := true |>))
  else if Ascii.eqb c "d" then (out ← describe_flags optarg; Done (p_exit 0 out))
  else if Ascii.eqb c "i" then Done (p_go (o <| opt_mark_idle := true |>))
  else if Ascii.eqb c "l" then Done (p_go (o <| opt_list := 1 |>))
  else if Ascii.eqb c "L" then Done (p_go (o <| opt_list := 2 |>))
  else if Ascii.eqb c "M" then Done (p_go (o <| opt_list_mapcnt := true |>))
  else if Ascii.eqb c "N" then Done (p_go (o <| opt_no_summary := true |>))
  else if Ascii.eqb c "X" then
    let o := o <| opt_hwpoison := true |> in
    _ ← prepare_hwpoison_fd o; Done (p_go o)
  else if Ascii.eqb c "x" then
    let o := o <| opt_unpoison := true |> in
    _ ← prepare_hwpoison_fd o; Done (p_go o)
  else if Ascii.eqb c "F" then Done (p_go (parse_kpageflags optarg o))
  else
    let out := help +:+ usage_names page_flag_names 0 0 +:+ nl +:+ rep " " 35 +:+
      "(r) raw mode bits  (o) overloaded bits" +:+ nl in
    Done (p_exit (if Ascii.eqb c "h" then 0 else 1) out).

Fixpoint main_options (help : string) (opts : list (ascii * string)) (o : settings) : res parsed :=
  match opts with
  | [] => Done (p_go o)
  | x :: opts =>
      r ← main_option help x o;
      match r with
      | p_go o => main_options help opts o
      | p_exit _ _ => Done r
      end
  end.

(** The heading of a listing. *)
Definition heading (o : settings) : string :=
  let listing := negb (opt_list o =? 0) in
  (if listing && negb (opt_pid o =? 0) then "voffset" +:+ tab else "") +:+
  (if listing && match opt_file o with Some _ => true | None => false end
   then "foffset" +:+ tab else "") +:+
  (if listing && opt_list_cgroup o then "cgroup" +:+ tab else "") +:+
  (if listing && opt_list_mapcnt o then "map-cnt" +:+ tab else "") +:+
  (if opt_list o =? 1 then "offset" +:+ tab +:+ "len" +:+ tab +:+ "flags" +:+ nl else "") +:+
  (if opt_list o =? 2 then "offset" +:+ tab +:+ "flags" +:+ nl else "").

(** Which optional files are opened. *)
Definition open_files (o : settings) : res fds :=
  let cg := negb (opt_cgroup o =? 0) || opt_list_cgroup o in
  let cn := negb (opt_list o =? 0) && opt_list_mapcnt o in
  let idle := opt_mark_idle o && match opt_file o with Some _ => true | None => false end in
  _ ← (if cg then checked_open Y PROC_KPAGECGROUP else Done tt);
  _ ← (if cn then checked_open Y PROC_KPAGECOUNT else Done tt);
  _ ← (if idle then checked_open Y SYS_KERNEL_MM_PAGE_IDLE else Done tt);
  Done (mk_fds cg cn idle).

(** [main]: exit status, output and final state. *)
Definition main (help : string) (opts : list (ascii * string)) : res (Z * string * walker) :=
  r ← main_options help opts settings_start;
  match r with
  | p_exit status out => Done (status, out, walker_start)
  | p_go o =>
      let o := match opt_kpageflags o with
               | None => o <| opt_kpageflags := Some PROC_KPAGEFLAGS |>
               | Some _ => o
               end in
      F ← open_files o;
      let w := walker_start <| w_out := heading o |> in
      w ← (match opt_file o with
           | Some name => walk_page_cache Y o F name w
           | None =>
               '(_, w) ← walk_addr_ranges F (kernel Y) (can_open Y (kpageflags_name o)) o w;
               Done w
           end);
      w ← (if opt_list o =? 1 then
             '(r, text) ← flush_page_range o (w_range w);
             Done (w <| w_range := r |> <| w_out := w_out w +:+ text |>)
           else Done w);
      if opt_no_summary o then Done (0, w_out w, w)
      else
        let w := if negb (opt_list o =? 0) then w <| w_out := w_out w +:+ nl +:+ nl |> else w in
        text ← show_summary (page_size Y) (w_counts w);
        Done (0, w_out w +:+ text, w)
  end.
End Main.

(** ** Memory safety *)

Definition walker_ok (w : walker) : Prop := ∃ seen, counts_ok seen (w_counts w).

Lemma walker_start_ok : walker_ok walker_start.
Proof. exists []. apply counts_start_ok. Qed.

(** Only the counts matter. *)
Lemma walker_ok_same w w' : w_counts w' = w_counts w → walker_ok w → walker_ok w'.
Proof. unfold walker_ok. by intros ->. Qed.

Section Safety.
Context `{KernelPageFlags}.

Lemma page_flag_name_safe flags : safe (fun _ => True) (page_flag_name flags).
Proof. rewrite page_flag_name_cases. by destruct (unknown _ _ _). Qed.

Lemma show_page_range_safe o vo of_ n fl cg mc r :
  safe (fun _ => True) (show_page_range o vo of_ n fl cg mc r).
Proof.
  unfold show_page_range. case_match; [done|].
  eapply (safe_bind (fun _ => True)); [|done]. case_match; [|done].
  unfold range_line. by eapply safe_bind; [apply page_flag_name_safe|].
Qed.

Lemma list_page_safe o p w : walker_ok w → safe walker_ok (list_page o p w).
Proof.
  intros Hw. unfold list_page. case_match; [|case_match; [|done]].
  - eapply safe_bind; [apply show_page_range_safe|]. intros [r text] _. done.
  - unfold show_page. eapply (safe_bind (fun _ => True)); [|done].
    by eapply safe_bind; [apply page_flag_name_safe|].
Qed.

Lemma count_flags_safe flags w : walker_ok w → safe walker_ok (count_flags flags w).
Proof.
  intros [seen Hc]. unfold count_flags.
  destruct (count_page_cases seen (w_counts w) flags Hc) as [(c & -> & Hc')|[-> _]]; [|done].
  cbn. by exists (seen ++ [flags]).
Qed.

Lemma acts_ok o F off w :
  walker_ok w →
  walker_ok (let w := if opt_hwpoison o then hwpoison_page off w else w in
             let w := if opt_unpoison o then unpoison_page off w else w in
             if opt_mark_idle o then mark_idle F off w else w).
Proof. apply walker_ok_same. apply acts_counts. Qed.

Lemma add_page_safe o F vo of_ fl cg mc pme w :
  settings_ok o → walker_ok w → safe walker_ok (add_page o F vo of_ fl cg mc pme w).
Proof.
  intros Ho Hw. unfold add_page. rewrite bit_mask_ok_spec by done. cbn [mbind res_bind].
  case_match; [done|]. case_match; [done|]. eapply safe_bind; [apply list_page_safe|].
  - by apply acts_ok.
  - intros. by apply count_flags_safe.
Qed.

Lemma do_u64_read_safe W f name index count w :
  walker_ok w → safe (fun r => walker_ok r.2) (do_u64_read W f name index count w).
Proof.
  intros Hw. unfold do_u64_read. case_match; [done|].
  destruct (pread _ _ _ _ _). by repeat case_match.
Qed.

Lemma kpagecgroup_read_safe o F W index n w :
  walker_ok w → safe (fun r => walker_ok r.2) (kpagecgroup_read o F W index n w).
Proof. intros Hw. unfold kpagecgroup_read. case_match; [done|by apply do_u64_read_safe]. Qed.

Lemma kpagecount_read_safe F W index n w :
  walker_ok w → safe (fun r => walker_ok r.2) (kpagecount_read F W index n w).
Proof. intros Hw. unfold kpagecount_read. case_match; [done|by apply do_u64_read_safe]. Qed.

Lemma walk_pfn_safe o F W vo index count pme w :
  settings_ok o → walker_ok w → safe walker_ok (walk_pfn o F W vo index count pme w).
Proof.
  intros Ho Hw. unfold walk_pfn.
  eapply (safe_bind (fun s => walker_ok s.2)); [|by intros [[? ?] ?]].
  apply (loop_safe _ (fun s => walker_ok s.2)); [|done].
  intros [[i c] w1] Hw1. unfold walk_pfn_body. case_match; [done|].
  eapply safe_bind; [by apply do_u64_read_safe|]. intros [buf w2] Hw2. case_match; [done|].
  eapply safe_bind; [by apply kpagecgroup_read_safe|]. intros [cgi w3] Hw3. case_match; [done|].
  eapply safe_bind; [by apply kpagecount_read_safe|]. intros [cnt w4] Hw4. case_match; [done|].
  eapply safe_bind; [apply (foldm_safe walker_ok); [|done]|done].
  intros [j [fl [cg mc]]] w5 _ Hw5. by apply add_page_safe.
Qed.

Lemma walk_swap_safe o vo pme w :
  settings_ok o → walker_ok w → safe walker_ok (walk_swap o vo pme w).
Proof.
  intros Ho Hw. unfold walk_swap. rewrite bit_mask_ok_spec by done. cbn [mbind res_bind].
  case_match; [done|]. case_match; [done|].
  eapply safe_bind; [by apply list_page_safe|]. intros. by apply count_flags_safe.
Qed.

Lemma walk_vma_safe o F W index count w :
  settings_ok o → walker_ok w → safe walker_ok (walk_vma o F W index count w).
Proof.
  intros Ho Hw. unfold walk_vma.
  eapply (safe_bind (fun s => walker_ok s.2)); [|by intros [[? ?] ?]].
  apply (loop_safe _ (fun s => walker_ok s.2)); [|done].
  intros [[i c] w1] Hw1. unfold walk_vma_body. case_match; [done|].
  eapply safe_bind; [by apply do_u64_read_safe|]. intros [buf w2] Hw2. case_match; [done|].
  eapply safe_bind; [apply (foldm_safe walker_ok); [|done]|done].
  intros [j pme] w5 _ Hw5. unfold vma_page.
  eapply (safe_bind walker_ok); [case_match; [by apply walk_pfn_safe|done]|].
  intros. case_match; [by apply walk_swap_safe|done].
Qed.

Lemma skip_vmas_safe o index i fuel :
  settings_ok o → 0 ≤ i < MAX_VMAS →
  safe (fun r => match r with Some j => 0 ≤ j < MAX_VMAS | None => True end)
    (skip_vmas o index i fuel).
Proof.
  intros Ho. pose proof (so_end _ Ho). pose proof (so_vmas _ Ho). revert i.
  induction fuel as [|fuel IH]; intros i Hi; [done|]. cbn [skip_vmas].
  destruct (aget_in (pg_end o) i) as [e ->]; [lia|]. cbn [mbind res_bind].
  case_match; [|done]. case_match eqn:E; [done|]. apply IH. lia.
Qed.

Lemma walk_task_safe {St} (P : St → Prop) visit o index count s :
  settings_ok o → (∀ b n s, P s → safe P (visit b n s)) → P s →
  safe P (walk_task visit o index count s).
Proof.
  intros Ho Hv Hs. unfold walk_task.
  assert (∀ fuel end_ index i s, 0 ≤ i < MAX_VMAS → P s →
    safe P (walk_task_loop visit o end_ index i fuel s)) as Hl.
  { clear -Ho Hv. pose proof (so_end _ Ho). pose proof (so_start _ Ho).
    induction fuel as [|fuel IH]; intros end_ index i s Hi Hs; [done|]. cbn [walk_task_loop].
    case_match; [|done]. eapply safe_bind; [by apply skip_vmas_safe|]. intros [j|] Hj; [|done].
    destruct (aget_in (pg_start o) j) as [b ->]; [lia|].
    destruct (aget_in (pg_end o) j) as [e ->]; [lia|]. cbn [mbind res_bind].
    case_match; [done|]. cbv zeta. case_match; [done|].
    eapply safe_bind; [by apply Hv|]. intros s' Hs'. by apply IH. }
  apply Hl; [|done]. unfold MAX_VMAS. lia.
Qed.

Lemma walk_addr_ranges_safe F W open o w :
  settings_ok o → walker_ok w →
  safe (fun r => walker_ok r.2) (walk_addr_ranges F W open o w).
Proof.
  intros Ho Hw. unfold walk_addr_ranges. case_match; [done|].
  eapply (safe_bind settings_ok).
  { case_match; [|done]. eapply safe_weaken; [by apply add_addr_range_safe|]. by intros ? []. }
  intros o' Ho'. eapply safe_bind; [apply (foldm_safe walker_ok); [|done]|].
  - intros x w' _ Hw'. unfold walk_range. case_match; [by apply walk_pfn_safe|].
    apply (walk_task_safe walker_ok); [done| |done]. intros. by apply walk_vma_safe.
  - intros w' Hw'. cbn. case_match; [|done]. unfold mark_idle.
    by destruct (mark_page_idle _ _ _).
Qed.

(** ** The page cache *)

Lemma checked_open_safe Y path : safe (fun _ => True) (checked_open Y path).
Proof. unfold checked_open. by destruct (can_open Y path). Qed.

Lemma file_page_safe Y o F name st off x s :
  settings_ok o → walker_ok s.2 →
  safe (fun s => walker_ok s.2) (file_page Y o F name st off x s).
Proof.
  destruct x as [i pme], s as [[[f1 c1] m1] w3]. intros Ho Hw3. unfold file_page.
  case_match; [done|].
  eapply safe_bind; [by apply do_u64_read_safe|]. intros [[|fl ?] w4] Hw4; [done|].
  eapply (safe_bind (fun r => walker_ok r.2)).
  { case_match; [done|]. eapply safe_bind; [by apply kpagecgroup_read_safe|].
    by intros [[|? ?] w5] Hw5. }
  intros [c2 w5] Hw5. eapply (safe_bind (fun r => walker_ok r.2)).
  { case_match; [done|]. eapply safe_bind; [by apply kpagecount_read_safe|].
    by intros [[|? ?] w6] Hw6. }
  intros [m2 w6] Hw6. eapply (safe_bind (fun r => walker_ok r.2)).
  { case_match; [|done]. eapply safe_bind; [apply show_page_range_safe|]. by intros [r t] _. }
  intros [f2 w7] Hw7. eapply safe_bind; [by apply add_page_safe|]. done.
Qed.

Lemma walk_file_body_safe Y o F name st s :
  settings_ok o → walker_ok s.2.2 →
  safe (fun r => match r with inl s' | inr s' => walker_ok s'.2.2 end)
    (walk_file_body Y o F name st s).
Proof.
  destruct s as [[off e] [[[first cg] mc] w1]]. intros Ho Hw1. unfold walk_file_body.
  case_match; [done|]. cbv zeta.
  destruct (m_ptr _) as [ptr|]; [|done]. do 3 (case_match; [done|]).
  eapply safe_bind; [by apply do_u64_read_safe|]. intros [buf w2] Hw2. case_match; [done|].
  eapply safe_bind; [apply (foldm_safe (fun s => walker_ok s.2)); [|done]|done].
  intros. by apply file_page_safe.
Qed.

Lemma walk_file_safe Y o F name st w :
  settings_ok o → walker_ok w → safe walker_ok (walk_file Y o F name st w).
Proof.
  intros Ho Hw. unfold walk_file. eapply safe_bind; [apply checked_open_safe|intros _ _].
  apply (safe_bind (fun s => walker_ok s.2.2)).
  - apply (loop_safe _ (fun s => walker_ok s.2.2)); [|done].
    intros. by apply walk_file_body_safe.
  - by intros [[? ?] [[[? ?] ?] ?]].
Qed.

Lemma walk_page_cache_safe Y o F name w :
  settings_ok o → walker_ok w → safe walker_ok (walk_page_cache Y o F name w).
Proof.
  intros Ho Hw. unfold walk_page_cache.
  do 2 (eapply safe_bind; [apply checked_open_safe|intros _ _]).
  destruct (file_kind Y name) as [[]|]; try done; [by apply walk_file_safe|].
  case_match; [|done]. apply (foldm_safe walker_ok); [|done].
  intros [[nm []] []] w' _ Hw'; try done. by apply walk_file_safe.
Qed.

(** ** The whole program *)

Definition pids (opts : list (ascii * string)) : nat :=
  length (filter (fun x => x.1 = "p"%char) opts).

Definition parsed_ok (r : parsed) : Prop :=
  match r with p_go o => settings_ok o | p_exit _ _ => True end.

(** One option keeps the tables in order; only -p adds areas. *)
Lemma main_option_safe Y help x o :
  settings_ok o → (x.1 = "p"%char → nr_vmas o < MAX_VMAS) →
  safe (fun r => match r with
        | p_go o' => settings_ok o' ∧ (x.1 ≠ "p"%char → nr_vmas o' = nr_vmas o)
        | p_exit _ _ => True end) (main_option Y help x o).
Proof.
  intros Ho Hp. destruct x as [c arg]. cbn [fst] in *. unfold main_option.
  destruct (Ascii.eqb_spec c "r") as [->|Hr]; [by destruct Ho|].
  destruct (Ascii.eqb_spec c "p") as [->|Hnp].
  { unfold parse_pid. eapply (safe_bind (fun r => settings_ok r.1)).
    - eapply safe_bind; [apply parse_number_safe|]. intros n _. cbv zeta.
      case_match; [done|]. case_match; [|done]. apply read_maps_safe; [by destruct Ho|].
      by apply Hp.
    - by intros [o' err] Ho'. }
  assert (∀ r, safe (fun o' => settings_ok o' ∧ nr_vmas o' = nr_vmas o) r →
    safe (fun r => match r with
        | p_go o' => settings_ok o' ∧ (c ≠ "p"%char → nr_vmas o' = nr_vmas o)
        | p_exit _ _ => True end) (lift r)) as Hlift.
  { intros r Hr'. unfold lift. eapply safe_bind; [exact Hr'|]. by intros o' []. }
  destruct (Ascii.eqb c "f"); [by destruct Ho|].
  destruct (Ascii.eqb c "a"); [by apply Hlift, parse_addr_range_safe|].
  destruct (Ascii.eqb c "b"); [by apply Hlift, parse_bits_mask_safe|].
  destruct (Ascii.eqb c "c").
  { apply Hlift. unfold parse_cgroup. case_match.
    - eapply safe_bind; [apply parse_number_safe|]. by destruct Ho.
    - case_match; [|done]. case_match; [done|by destruct Ho]. }
  destruct (Ascii.eqb c "C"); [by destruct Ho|].
  destruct (Ascii.eqb c "d").
  { by eapply safe_bind; [apply describe_flags_safe|]. }
  do 5 (match goal with |- context [Ascii.eqb c ?k] => destruct (Ascii.eqb c k) end;
    [by destruct Ho|]).
  assert (∀ o', safe (fun _ => True) (prepare_hwpoison_fd Y o')) as Hprep.
  { intros o'. unfold prepare_hwpoison_fd, checked_open.
    repeat case_match; done. }
  do 2 (match goal with |- context [Ascii.eqb c ?k] => destruct (Ascii.eqb c k) end;
    [eapply safe_bind; [apply Hprep|by destruct Ho]|]).
  destruct (Ascii.eqb c "F"); by destruct Ho.
Qed.

Lemma main_options_safe Y help opts o :
  settings_ok o → (pids opts ≤ 1)%nat → (pids opts = 1%nat → nr_vmas o = 0) →
  safe parsed_ok (main_options Y help opts o).
Proof.
  revert o. induction opts as [|x opts IH]; intros o Ho Hle Hone; [done|].
  cbn [main_options]. unfold pids in *. rewrite filter_cons in *.
  eapply safe_bind; [apply main_option_safe; [done|]|].
  - intros E. rewrite decide_True in Hone, Hle by done. cbn [length] in *.
    rewrite Hone by lia. unfold MAX_VMAS. lia.
  - intros [o'|? ?]; [|done]. intros [Ho' Hsame]. case_decide as Ex.
    + cbn [length] in *. apply IH; [done|lia|lia].
    + apply IH; [done|done|]. intros E. rewrite Hsame; auto.
Qed.

Lemma show_summary_safe ps c : safe (fun _ => True) (show_summary ps c).
Proof.
  unfold show_summary. eapply (safe_bind (fun _ => True)); [|done].
  generalize (nr_pages c) as nrs. induction (page_flags c) as [|f fs IH]; intros [|n nrs]; try done.
  cbn [summary_lines]. case_match; [|apply IH].
  eapply (safe_bind (fun _ => True)).
  - unfold summary_line. eapply safe_bind; [apply page_flag_name_safe|].
    intros s _. by rewrite page_flag_longname_text.
  - intros l _. by eapply safe_bind; [apply IH|].
Qed.
End Safety.


Lemma walk_file_body_step `{KernelPageFlags} Y o F name st off end_ v off' end_' v' :
  0 < page_size Y → end_ < 2 ^ 63 →
  walk_file_body Y o F name st (off, end_, v) = Done (inl (off', end_', v')) →
  off < end_ ∧ off + page_size Y ≤ off' ∧ end_' < 2 ^ 63.
Proof.
  intros Hps He. unfold walk_file_body. destruct (Z.ltb_spec off end_); cbn [negb]; [|done].
  cbv zeta. destruct (m_ptr _) as [ptr|]; [|done]. do 3 (case_match; [done|]).
  destruct v as [[[first cg] mc] w]. intros E. inv_done. destruct v as [buf w'].
  case_match; [done|]. inv_done. split_and!; [done| |].
  - assert (1 ≤ Z.quot (end_ - off + page_size Y - 1) (page_size Y))
      by (apply Z.quot_le_lower_bound; lia).
    change PAGEMAP_BATCH with 65536. nia.
  - unfold sigbus_end. repeat case_match; try done. unfold swrap.
    pose proof (Z.mod_pos_bound (z - ptr + 2 ^ (64 - 1)) (2 ^ 64)). lia.
Qed.

(** The walk of a file ends: every round moves the offset on by a page or
    more, and the end of the file, even as a bus error resets it, is an
    [off_t]; so the loop has left by the time the offset could pass 2^63. *)
Theorem walk_file_ends `{KernelPageFlags} Y o F name st w :
  0 < page_size Y → st_size st < 2 ^ 63 →
  ¬ still_running (walk_file_body Y o F name st) off_fuel (0, st_size st, (true, 0, 0, w)).
Proof.
  intros Hps Hst.
  apply (loop_ends _ (fun s => s.1.2 < 2 ^ 63) (fun s => Z.max 0 (2 ^ 63 - s.1.1)));
    [|done|unfold off_fuel; cbn [fst]; lia].
  intros [[off e] v] [[off' e'] v'] He Hm E. cbn [fst snd] in *.
  apply walk_file_body_step in E as (H1 & H2 & H3); [|done|done]. lia.
Qed.

(** ** Two processes *)

Lemma read_maps_fills page_size lines o :
  settings_ok o → nr_vmas o < MAX_VMAS → Forall (fun l => scan_maps_line l ≠ None) lines →
  MAX_VMAS - nr_vmas o ≤ zlen lines →
  ∃ o' err, read_maps page_size lines o = Done (o', err) ∧ settings_ok o' ∧ nr_vmas o' = MAX_VMAS.
Proof.
  intros Ho Hn HF. revert o Ho Hn. induction HF as [|l lines Hl _ IH]; intros o Ho Hn Hlen.
  { rewrite zlen_nil in Hlen. lia. }
  rewrite zlen_cons in Hlen. cbn [read_maps]. destruct (scan_maps_line l) as [[b e]|]; [|done].
  pose proof Ho as []. rewrite !aset_in by lia. rewrite !bind_Done. cbv zeta.
  set (o' := o <| pg_start := _ |> <| pg_end := _ |> <| nr_vmas := _ |>).
  assert (settings_ok o') as Ho' by (split; simpl; rewrite ?zlen_insert; done || lia).
  assert (nr_vmas o' = nr_vmas o + 1) as En by done.
  destruct (Z.leb_spec MAX_VMAS (nr_vmas o')).
  - exists o'. eexists. split_and!; [done|done|lia].
  - apply IH; [done|lia|lia].
Qed.

(** A second -p option after a process with 10240 areas or more writes
    one element past the end of [pg_start]: the limit is only tested after an
    element was stored. *)
Theorem second_pid_overflows `{KernelPageFlags} Y help lines l1 l2 a1 a2 p1 p2 :
  parse_number a1 = Done p1 → parse_number a2 = Done p2 →
  can_open Y ("/proc/" +:+ dec (i32 p1) +:+ "/pagemap") = true →
  can_open Y ("/proc/" +:+ dec (i32 p2) +:+ "/pagemap") = true →
  maps_of Y (i32 p1) = Some lines → MAX_VMAS ≤ zlen lines →
  Forall (fun l => scan_maps_line l ≠ None) lines →
  maps_of Y (i32 p2) = Some (l1 :: l2) → scan_maps_line l1 ≠ None →
  main_options Y help [("p"%char, a1); ("p"%char, a2)] settings_start = Wild.
Proof.
  intros E1 E2 O1 O2 M1 Hlen HF M2 Hl1. cbn [main_options].
  assert (∀ a o, main_option Y help ("p"%char, a) o =
    ('(o, _) ← parse_pid (page_size Y) (fun p => can_open Y ("/proc/" +:+ dec p +:+ "/pagemap"))
       (maps_of Y) a o; Done (p_go o))) as Hopt by done.
  rewrite Hopt. unfold parse_pid at 1. rewrite E1. rewrite bind_Done. cbv zeta.
  set (o1 := settings_start <| opt_pid := i32 p1 |>). change (opt_pid o1) with (i32 p1).
  rewrite O1, M1. cbn [negb].
  destruct (read_maps_fills (page_size Y) lines o1) as (o2 & err & -> & Ho2 & Hn2);
    [by destruct settings_start_ok|done|done|done|].
  rewrite !bind_Done. rewrite Hopt. unfold parse_pid. rewrite E2, bind_Done. cbv zeta.
  set (o3 := o2 <| opt_pid := i32 p2 |>). change (opt_pid o3) with (i32 p2).
  rewrite O2, M2. cbn [negb read_maps].
  destruct (scan_maps_line l1) as [[b e]|]; [|done].
  assert (aset (pg_start o3) (nr_vmas o3) (b / page_size Y) = Wild) as ->; [|reflexivity].
  apply aset_out. change (pg_start o3) with (pg_start o2).
  change (nr_vmas o3) with (nr_vmas o2). rewrite Hn2, (so_start _ Ho2). lia.
Qed.

(** ** Witnesses *)

Definition demo_line : string := "1000-3000 r--p 00000000 08:01 1234 /bin/cat".

Definition demo_maps (p : Z) : option (list string) :=
  if p =? 1 then Some (replicate (Z.to_nat MAX_VMAS) demo_line) else Some [demo_line].

Definition demo_sys : sys :=
  mk_sys 4096 (fun _ => true) (fun _ => None) demo_maps None
    demo_world (fun _ _ _ => mk_mapping (Some 4096) true true None true)
    (fun _ => Some f_regular) (fun _ => mk_fstat 10000 1 0 0 "" "") (fun _ => None) 0.


Lemma walk_file_ends_witness :
  ¬ still_running (walk_file_body demo_sys settings_start demo_fds "f" (mk_fstat 10000 1 0 0 "" ""))
      off_fuel (0, 10000, (true, 0, 0, walker_start)).
Proof.
  exact (walk_file_ends demo_sys settings_start demo_fds "f" (mk_fstat 10000 1 0 0 "" "")
    walker_start ltac:(reflexivity) ltac:(reflexivity)).
Defined.

Lemma second_pid_overflows_witness :
  main_options demo_sys "" [("p"%char, "1"); ("p"%char, "2")] settings_start = Wild.
Proof.
  apply (second_pid_overflows demo_sys "" (replicate (Z.to_nat MAX_VMAS) demo_line) demo_line
    [] "1" "2" 1 2); [reflexivity..| | | |].
  - rewrite zlen_replicate. unfold MAX_VMAS. lia.
  - apply Forall_replicate. vm_compute. congruence.
  - reflexivity.
  - vm_compute. congruence.
Defined.
