(* ===== verification/SlabAttr.v ===== *)
(** * slabinfo: slab caches, their attributes and their sizes

    The data of [mem/vm/slabinfo.c], the readers of the files below
    [/sys/kernel/slab] and the two small codecs of the tool: [store_size],
    which puts a size into a 20-byte buffer, and [decode_numa_list].

    The file system is an argument ([slab_sys]): paths are relative to the slab
    directory.  A write to a file is recorded in [writes]. *)

From S2P Require Import Prelude CLib.

Definition MAX_SLABS : Z := 500.
Definition MAX_ALIASES : Z := 500.
Definition MAX_NODES : Z := 1024.

Record slabinfo := mk_slabinfo {
  s_name : string;
  s_alias : Z;
  s_refs : Z;
  s_aliases : Z;
  s_align : Z;
  s_cache_dma : Z;
  s_cpu_slabs : Z;
  s_destroy_by_rcu : Z;
  s_hwcache_align : Z;
  s_object_size : Z;
  s_objs_per_slab : Z;
  s_sanity_checks : Z;
  s_slab_size : Z;
  s_store_user : Z;
  s_trace : Z;
  s_order : Z;
  s_poison : Z;
  s_reclaim_account : Z;
  s_red_zone : Z;
  s_partial : Z;
  s_objects : Z;
  s_slabs : Z;
  s_objects_partial : Z;
  s_objects_total : Z;
  s_alloc_fastpath : Z;
  s_alloc_slowpath : Z;
  s_free_fastpath : Z;
  s_free_slowpath : Z;
  s_free_frozen : Z;
  s_free_add_partial : Z;
  s_free_remove_partial : Z;
  s_alloc_from_partial : Z;
  s_alloc_slab : Z;
  s_free_slab : Z;
  s_alloc_refill : Z;
  s_cpuslab_flush : Z;
  s_deactivate_full : Z;
  s_deactivate_empty : Z;
  s_deactivate_to_head : Z;
  s_deactivate_to_tail : Z;
  s_deactivate_remote_frees : Z;
  s_order_fallback : Z;
  s_cmpxchg_double_cpu_fail : Z;
  s_cmpxchg_double_fail : Z;
  s_alloc_node_mismatch : Z;
  s_deactivate_bypass : Z;
  s_cpu_partial_alloc : Z;
  s_cpu_partial_free : Z;
  s_numa : list Z;
  s_numa_partial : list Z
}.

#[export] Instance slabinfo_eta : Eta slabinfo := fun s =>
  mk_slabinfo (s_name s) (s_alias s) (s_refs s) (s_aliases s) (s_align s)
    (s_cache_dma s) (s_cpu_slabs s) (s_destroy_by_rcu s) (s_hwcache_align s)
    (s_object_size s) (s_objs_per_slab s) (s_sanity_checks s) (s_slab_size s)
    (s_store_user s) (s_trace s) (s_order s) (s_poison s) (s_reclaim_account s)
    (s_red_zone s) (s_partial s) (s_objects s) (s_slabs s) (s_objects_partial s)
    (s_objects_total s) (s_alloc_fastpath s) (s_alloc_slowpath s)
    (s_free_fastpath s) (s_free_slowpath s) (s_free_frozen s)
    (s_free_add_partial s) (s_free_remove_partial s) (s_alloc_from_partial s)
    (s_alloc_slab s) (s_free_slab s) (s_alloc_refill s) (s_cpuslab_flush s)
    (s_deactivate_full s) (s_deactivate_empty s) (s_deactivate_to_head s)
    (s_deactivate_to_tail s) (s_deactivate_remote_frees s) (s_order_fallback s)
    (s_cmpxchg_double_cpu_fail s) (s_cmpxchg_double_fail s)
    (s_alloc_node_mismatch s) (s_deactivate_bypass s) (s_cpu_partial_alloc s)
    (s_cpu_partial_free s) (s_numa s) (s_numa_partial s).

(** A symbolic link of the slab directory; [a_slab] is a pointer into
    [slabinfo[]], by index. *)
Record aliasinfo := mk_aliasinfo {
  a_name : string;
  a_ref : string;
  a_slab : option Z
}.
#[export] Instance aliasinfo_eta : Eta aliasinfo := fun a =>
  mk_aliasinfo (a_name a) (a_ref a) (a_slab a).

(** The options, global [int]s used as truth values except [output_lines]. *)
Record slab_opts := mk_slab_opts {
  show_empty : bool;
  show_report : bool;
  show_alias : bool;
  show_slab : bool;
  skip_zero : bool;
  show_numa : bool;
  show_track : bool;
  show_first_alias : bool;
  validate : bool;
  shrink : bool;
  show_inverted : bool;
  show_single_ref : bool;
  show_totals : bool;
  sort_size : bool;
  sort_active : bool;
  set_debug : bool;
  show_ops : bool;
  sort_partial : bool;
  show_activity : bool;
  output_lines : Z;
  sort_loss : bool;
  extended_totals : bool;
  show_bytes : bool;
  unreclaim_only : bool;
  sanity : bool;
  redzone : bool;
  poison : bool;
  tracking : bool;
  tracing : bool
}.
#[export] Instance slab_opts_eta : Eta slab_opts := fun o =>
  mk_slab_opts (show_empty o) (show_report o) (show_alias o) (show_slab o)
    (skip_zero o) (show_numa o) (show_track o) (show_first_alias o) (validate o)
    (shrink o) (show_inverted o) (show_single_ref o) (show_totals o)
    (sort_size o) (sort_active o) (set_debug o) (show_ops o) (sort_partial o)
    (show_activity o) (output_lines o) (sort_loss o) (extended_totals o)
    (show_bytes o) (unreclaim_only o) (sanity o) (redzone o) (poison o)
    (tracking o) (tracing o).

Definition opts_start : slab_opts :=
  mk_slab_opts false false false false true false false false false false
    false false false false false false false false false (-1) false false
    false false false false false false false.

(** What [readdir] reports. *)
Inductive d_type := DT_LNK | DT_DIR | DT_OTHER.
Record dirent := mk_dirent { d_name : string; d_kind : d_type }.

(** The system below the slab directory: whether it can be entered, its
    entries, the targets of links, which directories can be entered, the
    contents of files that open, which files can be written, and which names
    the pattern of the command line does not match. *)
Record slab_sys := mk_slab_sys {
  sysfs_slab : bool;
  slab_entries : list dirent;
  link_target : string → option string;
  can_enter : string → bool;
  file_text : string → option string;
  can_write : string → bool;
  slab_mismatch : string → bool;
  sys_page_size : Z
}.

(** Output so far: the line count, the two streams, the values written. *)
Record world := mk_world {
  line : Z;
  out : string;
  err : string;
  writes : list (string * Z)
}.
#[export] Instance world_eta : Eta world := fun w =>
  mk_world (line w) (out w) (err w) (writes w).

Definition world_start : world := mk_world 0 "" "" [].

Definition printf (text : string) (w : world) : world := w <| out := out w +:+ text |>.
Definition eprintf (text : string) (w : world) : world := w <| err := err w +:+ text |>.

(** [udiv a b]: C leaves division by zero undefined. *)
Definition udiv (a b : Z) : res Z := if b =? 0 then Wild else Done (a / b).

(** ** Attribute files *)

(** [buffer] after [read_obj].  The test for a newline looks at the
    terminating NUL, so a newline stays. *)
Definition read_obj (Y : slab_sys) (path : string) : string :=
  match file_text Y path with
  | None => ""
  | Some text => cstr (fgets 4095 text)
  end.

Definition get_obj (Y : slab_sys) (path : string) : Z :=
  let buffer := read_obj Y path in
  if strlen buffer =? 0 then 0 else u64 (atol buffer).

Fixpoint skip_blanks (s : string) : string :=
  match s with
  | String c r => if Ascii.eqb c " " then skip_blanks r else s
  | EmptyString => s
  end.

(** The number and the text after it ([*x], [NULL] when there is none). *)
Definition get_obj_and_str (Y : slab_sys) (path : string) : Z * option string :=
  let buffer := read_obj Y path in
  if strlen buffer =? 0 then (0, None)
  else
    let '(result, p) := strtoul 10 buffer in
    let p := skip_blanks p in
    (result, if strlen p =? 0 then None else Some p).

(** [snprintf(x, 100, "%s/%s", s->name, name)]. *)
Definition obj_path (s : slabinfo) (name : string) : string :=
  String.substring 0 99 (s_name s +:+ "/" +:+ name).

Definition set_obj (Y : slab_sys) (s : slabinfo) (name : string) (n : Z) (w : world) : res world :=
  let x := obj_path s name in
  if can_write Y x then Done (w <| writes := writes w ++ [(x, n)] |>)
  else Die ("Cannot write to " +:+ x +:+ nl).

(** [fread] fills at most the 4096 bytes of [buffer]; the terminating NUL is
    stored after what was read. *)
Definition read_slab_obj (Y : slab_sys) (s : slabinfo) (name : string) : res (Z * string) :=
  match file_text Y (obj_path s name) with
  | None => Done (0, "")
  | Some text =>
      let l := Z.min (strlen text) 4096 in
      if 4096 <=? l then Wild else Done (l, cstr text)
  end.

(** ** Sizes *)

(** The bytes [text] and a NUL stored at [buf[i]]. *)
Definition put_text (buf : list ascii) (i : Z) (text : string) : res (list ascii) :=
  awrite buf i (String.list_ascii_of_string text ++ ["000"%char]).

(** [memmove(buf + d, buf + s, n)]. *)
Definition memmove (buf : list ascii) (d s n : Z) : res (list ascii) :=
  if (0 <=? s) && (s + n <=? zlen buf) then awrite buf d (slice buf s n) else Wild.

(** The unit of a value: divisor and trailer. *)
Definition size_unit (bytes : bool) (value : Z) : Z * option ascii :=
  if bytes then (1, None)
  else if 1000000000 <? value then (100000000, Some "G"%char)
  else if 1000000 <? value then (100000, Some "M"%char)
  else if 1000 <? value then (100, Some "K"%char)
  else (1, None).

Definition store_size (bytes : bool) (buf : list ascii) (value : Z) : res (Z * list ascii) :=
  let '(divisor, trailer) := size_unit bytes value in
  let value := value / divisor in
  let text := dec (i64 value) in
  buf ← put_text buf 0 text;
  let n := strlen text in
  '(n, buf) ← (match trailer with
               | None => Done (n, buf)
               | Some c => buf ← put_text buf n (String c ""); Done (n + 1, buf)
               end);
  if negb (divisor =? 1) then
    buf ← memmove buf (n - 2) (n - 3) 4;
    buf ← aset buf (n - 2) "."%char;
    Done (n + 1, buf)
  else Done (n, buf).

(** The C string in a buffer. *)
Definition buf_text (buf : list ascii) : string := cstr (String.string_of_list_ascii buf).

(** A size in one of the local 20-byte buffers, as [%s] prints it. *)
Definition size_text (o : slab_opts) (value : Z) : res string :=
  '(_, buf) ← store_size (show_bytes o) (replicate 20 "000"%char) value;
  Done (buf_text buf).

(** ** NUMA lists *)

(** One round of the loop over [N<node>=<count> ...]. *)
Definition numa_body (s : string * list Z * Z)
    : res (string * list Z * Z + string * list Z * Z) :=
  let '(t, numa, highest) := s in
  match t with
  | String "N" t =>
      let '(v, t) := strtoul 10 t in
      let node := i32 v in
      '(t, numa, highest) ← (match t with
        | String "=" t =>
            let '(nr, t) := strtoul 10 t in
            numa ← aset numa node (i32 nr);
            Done (t, numa, Z.max highest node)
        | _ => Done (t, numa, highest)
        end);
      Done (inl (skip_blanks t, numa, highest))
  | _ => Done (inr s)
  end.

(** The array and [highest_node]; every round consumes a character. *)
Definition decode_numa_list (t : option string) (highest : Z) : res (list Z * Z) :=
  let numa := replicate (Z.to_nat MAX_NODES) 0 in
  match t with
  | None => Done (numa, highest)
  | Some t =>
      '(_, numa, highest) ← loop numa_body (strlen t + 1) (t, numa, highest);
      Done (numa, highest)
  end.

(** ** Derived figures

    [page_size << order] is an [int]; sysfs reports orders below 32, C leaves
    others undefined. *)
Definition slab_bytes (Y : slab_sys) (s : slabinfo) : Z :=
  i32 (Z.shiftl (sys_page_size Y) (s_order s)).

Definition slab_size (Y : slab_sys) (s : slabinfo) : Z := u64 (s_slabs s * slab_bytes Y s).

Definition slab_activity (s : slabinfo) : Z :=
  u64 (s_alloc_fastpath s + s_free_fastpath s + s_alloc_slowpath s + s_free_slowpath s).

Definition slab_waste (Y : slab_sys) (s : slabinfo) : Z :=
  u64 (slab_size Y s - u64 (s_objects s * s_object_size s)).

(** ** Facts about texts in buffers *)

Lemma buf_text_of s rest :
  c_string s → buf_text (String.list_ascii_of_string s ++ "000"%char :: rest) = s.
Proof.
  unfold buf_text. induction s as [|c s IH]; [done|]. intros [Hc Hs]%c_string_cons.
  specialize (IH Hs). simpl. apply Ascii.eqb_neq in Hc. rewrite Hc. by f_equal.
Qed.

(** ** [store_size] *)

(** What a size should look like: the number, or tenths of its unit. *)
Definition size_reference (bytes : bool) (v : Z) : string :=
  match size_unit bytes v with
  | (_, None) => dec (i64 v)
  | (d, Some c) => dec (v / d / 10) +:+ "." +:+ dec (v / d mod 10) +:+ String c ""
  end.

(** The bounds of a divided value. *)
Lemma size_unit_cases bytes v :
  size_unit bytes v = (1, None) ∧ (bytes = true ∨ v ≤ 1000) ∨
  ∃ d c, size_unit bytes v = (d, Some c) ∧ 1 < d ∧ bytes = false ∧ 10 ≤ v / d ∧
    c ≠ "000"%char ∧ (v < 2 ^ 64 → v / d < 10 ^ 15).
Proof.
  unfold size_unit. destruct bytes; [by left; auto|].
  destruct (Z.ltb_spec 1000000000 v); [|destruct (Z.ltb_spec 1000000 v);
    [|destruct (Z.ltb_spec 1000 v); [|by left; auto]]]; right; eexists _, _;
    (split; [done|]); split_and!; try done; try lia;
    try (apply Z.div_le_lower_bound; lia); intros ?; apply Z.div_lt_upper_bound; lia.
Qed.

(** The two branches of the routine on a buffer, given the length of the
    digits. *)
Lemma store_plain buf text :
  zlen buf = 20 → c_string text → strlen text < 20 →
  ∃ buf', put_text buf 0 text = Done buf' ∧ zlen buf' = 20 ∧ buf_text buf' = text.
Proof.
  intros Hb Ht Hl. unfold put_text. eexists. split.
  { apply awrite_in; [done|]. autorewrite with zlen. rewrite zlen_list_of. lia. }
  cbn [app]. split.
  - erewrite awrite_len; [apply Hb|]. apply awrite_in; [done|].
    autorewrite with zlen. rewrite zlen_list_of. lia.
  - rewrite <- app_assoc. simpl. by apply buf_text_of.
Qed.

Lemma store_tenths buf p f e c :
  zlen buf = 20 → zlen p < 14 →
  (buf1 ← awrite buf 0 (p ++ [f; e; "000"%char]);
   buf2 ← awrite buf1 (zlen p + 2) [c; "000"%char];
   buf3 ← memmove buf2 (zlen p + 1) (zlen p) 4;
   aset buf3 (zlen p + 1) "."%char) =
  Done (p ++ [f; "."%char; e; c; "000"%char] ++ drop (length p + 5) buf).
Proof.
  intros Hb Hp. pose proof (zlen_nonneg p).
  assert (∃ b x y z u t q, buf = b ++ [x; y; z; u; t] ++ q ∧ zlen b = zlen p) as
    (b & x & y & z & u & t & q & -> & Eb).
  { exists (take (length p) buf). unfold zlen in *.
    assert (length (drop (length p) buf) = (20 - length p)%nat) as Ed
      by (rewrite length_drop; lia).
    destruct (drop (length p) buf) as [|x [|y [|z [|u [|t q]]]]] eqn:E; simpl in Ed; try lia.
    exists x, y, z, u, t, q. split; [|rewrite length_take; lia].
    rewrite <- (take_drop (length p) buf) at 1. by rewrite E. }
  replace (drop (length p + 5) (b ++ [x; y; z; u; t] ++ q)) with q.
  2: { unfold zlen in *. rewrite app_assoc, drop_app_length'; [done|].
       rewrite length_app. simpl. lia. }
  replace (b ++ [x; y; z; u; t] ++ q) with ([] ++ (b ++ [x; y; z]) ++ [u; t] ++ q)
    by (by rewrite <- !app_assoc).
  rewrite awrite_mid by (done || (autorewrite with zlen; lia)). cbn [mbind res_bind app].
  replace ((p ++ [f; e; "000"%char]) ++ u :: t :: q)
    with ((p ++ [f; e]) ++ ["000"%char; u] ++ t :: q) by (by rewrite <- !app_assoc).
  rewrite awrite_mid by (done || (autorewrite with zlen; lia)). cbn [mbind res_bind app].
  replace ((p ++ [f; e]) ++ c :: "000"%char :: t :: q)
    with (p ++ [f; e; c; "000"%char] ++ t :: q) by (by rewrite <- !app_assoc).
  assert (zlen (p ++ [f; e; c; "000"%char] ++ t :: q) = 20) as El
    by (revert Hb; autorewrite with zlen; lia).
  unfold memmove. rewrite slice_mid, El by done.
  replace ((0 <=? zlen p) && (zlen p + 4 <=? 20)) with true by lia.
  replace (p ++ [f; e; c; "000"%char] ++ t :: q)
    with ((p ++ [f]) ++ [e; c; "000"%char; t] ++ q) by (by rewrite <- !app_assoc).
  rewrite awrite_mid by (done || (autorewrite with zlen; lia)). cbn [mbind res_bind app].
  rewrite aset_mid by (autorewrite with zlen; lia). by rewrite <- !app_assoc.
Qed.

Lemma i64_range z : - 2 ^ 63 ≤ i64 z < 2 ^ 63.
Proof. unfold swrap. pose proof (Z.mod_pos_bound (z + 2 ^ (64 - 1)) (2 ^ 64)). lia. Qed.

Lemma strlen_i64 v : strlen (dec (i64 v)) < 20 ↔ - 10 ^ 18 < i64 v.
Proof.
  pose proof (i64_range v) as Hr. destruct (decide (i64 v < 0)) as [Hn|Hn].
  - rewrite strlen_dec_neg by done. split; intros H.
    + destruct (decide (10 ^ 18 ≤ - i64 v)) as [Hb|]; [|lia].
      pose proof (strlen_dec_ge 18 (- i64 v)). lia.
    + pose proof (strlen_dec_le 17 (- i64 v)). lia.
  - pose proof (strlen_dec_le 18 (i64 v)). lia.
Qed.

(** The digits of a scaled value, as the bytes the routine moves. *)
Lemma tenths_digits q :
  10 ≤ q → ∃ p f e, String.list_ascii_of_string (dec q) = p ++ [f; e] ∧
    String.list_ascii_of_string (dec (q / 10)) = p ++ [f] ∧
    String.list_ascii_of_string (dec (q mod 10)) = [e].
Proof.
  intros Hq. pose proof (Z.mod_pos_bound q 10 ltac:(lia)) as Hm.
  pose proof (strlen_digit _ Hm) as He. pose proof (strlen_dec_ge 0 (q / 10)) as Hf.
  assert (1 ≤ q / 10) by (apply Z.div_le_lower_bound; lia).
  rewrite dec_split, list_of_app by done.
  rewrite <- zlen_list_of in He, Hf. unfold zlen in He, Hf.
  destruct (String.list_ascii_of_string (dec (q mod 10))) as [|e [|]]; simpl in He; try lia.
  destruct (String.list_ascii_of_string (dec (q / 10))) as [|f p _] using rev_ind;
    [simpl in Hf; lia|].
  exists p, f, e. by rewrite <- app_assoc.
Qed.

(** C11: [store_size] in a 20-byte buffer, for every [unsigned long]: with
    [-B], and for values up to 1000, the buffer holds the number; above that
    it holds tenths of K, M or G, with the decimal point before the last digit;
    the value returned is the length of the text.  The only value that does
    not fit is a number of 20 characters, a size in bytes of at least 2^63
    whose signed reading is at most -10^18. *)
Theorem store_size_text bytes buf v :
  zlen buf = 20 → 0 ≤ v < 2 ^ 64 →
  if bytes && (i64 v <=? - 10 ^ 18) then store_size bytes buf v = Wild
  else ∃ buf', store_size bytes buf v = Done (strlen (size_reference bytes v), buf') ∧
         zlen buf' = 20 ∧ buf_text buf' = size_reference bytes v.
Proof.
  intros Hb Hv. unfold size_reference, store_size.
  destruct (size_unit_cases bytes v) as
    [[-> Hs]|(d & c & -> & Hd & -> & Hq & Hc & Hq')].
  - rewrite Z.div_1_r. pose proof (strlen_i64 v) as Hl.
    destruct (bytes && (i64 v <=? -10 ^ 18)) eqn:E.
    + unfold put_text, awrite. autorewrite with zlen. rewrite zlen_list_of, Hb.
      by replace ((0 <=? 0) && (0 + (strlen (dec (i64 v)) + (1 + 0)) <=? 20)) with false by lia.
    + assert (- 10 ^ 18 < i64 v).
      { destruct bytes; simpl in E; [lia|]. destruct Hs as [?|Hs]; [done|].
        rewrite swrap_small by lia. lia. }
      destruct (store_plain buf (dec (i64 v)) Hb (dec_c _) ltac:(lia)) as (b & -> & H20 & Ht).
      cbn. eauto.
  - specialize (Hq' ltac:(lia)). cbn [andb]. rewrite (swrap_small 64 (v / d)) by lia.
    destruct (tenths_digits (v / d) Hq) as (p & f & e & E & E1 & E2).
    assert (strlen (dec (v / d)) = zlen p + 2) as El.
    { rewrite <- zlen_list_of, E. autorewrite with zlen. lia. }
    pose proof (strlen_dec_le 14 (v / d) ltac:(lia)) as Hl.
    pose proof (store_tenths buf p f e c Hb ltac:(lia)) as Hst.
    apply bind_done in Hst as (b1 & Hw1 & Hst). apply bind_done in Hst as (b2 & Hw2 & Hst).
    apply bind_done in Hst as (b3 & Hw3 & Hst).
    unfold put_text. rewrite E. rewrite <- app_assoc. cbn [app]. rewrite Hw1.
    cbn [mbind res_bind]. rewrite El. cbn [String.list_ascii_of_string app]. rewrite Hw2.
    cbn [mbind res_bind]. replace (d =? 1) with false by lia. cbn [negb].
    replace (zlen p + 2 + 1 - 2) with (zlen p + 1) by lia.
    replace (zlen p + 2 + 1 - 3) with (zlen p) by lia. rewrite Hw3. cbn [mbind res_bind].
    rewrite Hst. cbn [mbind res_bind]. eexists. split; [|split].
    + do 2 f_equal. rewrite <- zlen_list_of, !list_of_app, E1, E2.
      autorewrite with zlen. simpl. autorewrite with zlen. lia.
    + apply (f_equal zlen) in E1. revert Hb. autorewrite with zlen.
      unfold zlen. rewrite length_drop. intros. unfold zlen in *. lia.
    + replace (p ++ [f; "."%char; e; c; "000"%char] ++ drop (length p + 5) buf) with
        (String.list_ascii_of_string (dec (v / d / 10) +:+ "." +:+ dec (v / d mod 10) +:+ String c "")
          ++ "000"%char :: drop (length p + 5) buf).
      { apply buf_text_of. apply c_string_app; [apply dec_c|]. apply c_string_app; [done|].
        apply c_string_app; [apply dec_c|]. by apply c_string_cons. }
      rewrite !list_of_app, E1, E2. by rewrite <- !app_assoc.
Qed.

Lemma store_size_text_witness :
  (∃ buf', store_size false (replicate 20 "x"%char) 1234567 = Done (4, buf') ∧
     zlen buf' = 20 ∧ buf_text buf' = "1.2M") ∧
  store_size true (replicate 20 "x"%char) (2 ^ 63) = Wild.
Proof.
  split.
  - exact (store_size_text false (replicate 20 "x"%char) 1234567 eq_refl
      ltac:(split; [lia|reflexivity])).
  - exact (store_size_text true (replicate 20 "x"%char) (2 ^ 63) eq_refl
      ltac:(split; [lia|reflexivity])).
Defined.

(** ** NUMA lists read back *)

(** What the kernel prints after a total: [" N<node>=<count>"] per node. *)
Definition numa_text (l : list (Z * Z)) : string :=
  foldr (fun x acc => " N" +:+ dec (fst x) +:+ "=" +:+ dec (snd x) +:+ acc) nl l.

Definition numa_store (numa : list Z) (l : list (Z * Z)) : list Z :=
  foldl (fun a x => <[Z.to_nat (fst x) := snd x]> a) numa l.
Definition numa_highest (h : Z) (l : list (Z * Z)) : Z :=
  foldl (fun h x => Z.max h (fst x)) h l.

(** Nodes and counts the arrays can hold. *)
Definition numa_ok (x : Z * Z) : Prop := 0 ≤ fst x < MAX_NODES ∧ 0 ≤ snd x < 2 ^ 31.

Lemma numa_text_ends l : ends_number (numa_text l).
Proof. by destruct l as [|[k v] l]. Qed.

Lemma numa_body_entry k v l numa h :
  numa_ok (k, v) → zlen numa = MAX_NODES →
  numa_body (skip_blanks (numa_text ((k, v) :: l)), numa, h) =
    Done (inl (skip_blanks (numa_text l), <[Z.to_nat k := v]> numa, Z.max h k)).
Proof.
  unfold numa_ok, MAX_NODES. simpl fst. simpl snd. intros [Hk Hv] Hz.
  change (skip_blanks (numa_text ((k, v) :: l))) with
    (String "N" (dec k +:+ "=" +:+ dec v +:+ numa_text l)).
  unfold numa_body. rewrite strtoul_dec by (unfold ULONG_MAX; done || lia).
  change ("=" +:+ dec v +:+ numa_text l) with (String "=" (dec v +:+ numa_text l)). cbv iota beta.
  rewrite strtoul_dec by (apply numa_text_ends || (unfold ULONG_MAX; lia)).
  rewrite !i32_small by lia. rewrite aset_in by lia. done.
Qed.

Lemma numa_loop l : ∀ numa h fuel,
  Forall numa_ok l → zlen numa = MAX_NODES → zlen l < fuel →
  loop numa_body fuel (skip_blanks (numa_text l), numa, h) =
    Done (nl, numa_store numa l, numa_highest h l).
Proof.
  induction l as [|[k v] l IH]; intros numa h fuel Hl Hn Hf.
  - rewrite loop_step by (rewrite zlen_nil in Hf; lia). done.
  - apply Forall_cons in Hl as [Hx Hl]. rewrite zlen_cons in Hf.
    pose proof (zlen_nonneg l). rewrite loop_step, numa_body_entry by (done || lia). cbn [mbind res_bind].
    apply IH; [done|by rewrite zlen_insert|lia].
Qed.

Lemma strlen_numa_text l : zlen l ≤ strlen (skip_blanks (numa_text l)).
Proof.
  destruct l as [|[k v] l]; [done|].
  change (skip_blanks (numa_text ((k, v) :: l))) with
    (String "N" (dec k +:+ "=" +:+ dec v +:+ numa_text l)).
  rewrite strlen_cons, !strlen_app, zlen_cons.
  pose proof (strlen_nonneg (dec k)). pose proof (strlen_nonneg (dec v)).
  change (strlen "=") with 1.
  assert (zlen l ≤ strlen (numa_text l)); [|lia]. clear - l.
  induction l as [|[k v] l IH]; [done|].
  change (numa_text ((k, v) :: l)) with (" N" +:+ dec k +:+ "=" +:+ dec v +:+ numa_text l).
  rewrite !strlen_app, zlen_cons. pose proof (strlen_nonneg (dec k)).
  pose proof (strlen_nonneg (dec v)). change (strlen " N") with 2. change (strlen "=") with 1. lia.
Qed.

(** The same text as a line. *)
Definition numa_fields (l : list (Z * Z)) : string :=
  foldr (fun x acc => " N" +:+ dec (fst x) +:+ "=" +:+ dec (snd x) +:+ acc) "" l.

Lemma numa_text_line l : numa_text l = numa_fields l +:+ nl.
Proof.
  induction l as [|[k v] l IH]; [done|].
  change (numa_text ((k, v) :: l)) with (" N" +:+ dec k +:+ "=" +:+ dec v +:+ numa_text l).
  change (numa_fields ((k, v) :: l)) with (" N" +:+ dec k +:+ "=" +:+ dec v +:+ numa_fields l).
  by rewrite IH, !string_app_assoc.
Qed.

Lemma numa_fields_c l : c_string (numa_fields l).
Proof.
  induction l as [|[k v] l IH]; [done|].
  change (numa_fields ((k, v) :: l)) with (" N" +:+ dec k +:+ "=" +:+ dec v +:+ numa_fields l).
  repeat (apply c_string_app; [done || apply dec_c|]). done.
Qed.

Lemma numa_fields_one_line l : Forall numa_ok l → strchr (numa_fields l) "010" = None.
Proof.
  induction 1 as [|[k v] l [Hk Hv] _ IH]; [done|]. simpl in Hk, Hv.
  change (numa_fields ((k, v) :: l)) with
    (String " " (String "N" (dec k +:+ String "=" (dec v +:+ numa_fields l)))).
  cbn [strchr Ascii.eqb Bool.eqb]. rewrite strchr_dec by (done || lia).
  cbn [strchr Ascii.eqb Bool.eqb]. by rewrite strchr_dec by (done || lia).
Qed.

(** The attribute files [slabs] and [partial], as the kernel prints them
    (a line of a total and the count of each node that has any), are read back:
    the total, and an array holding each node's count and 0 elsewhere, with
    [highest_node] raised to the largest node listed. *)
Theorem numa_attribute_roundtrip Y path total l h :
  0 ≤ total ≤ ULONG_MAX → Forall numa_ok l →
  file_text Y path = Some (dec total +:+ numa_fields l +:+ nl) →
  strlen (dec total +:+ numa_fields l) < 4095 →
  ∃ t, get_obj_and_str Y path = (total, t) ∧
    decode_numa_list t h =
      Done (numa_store (replicate (Z.to_nat MAX_NODES) 0) l, numa_highest h l).
Proof.
  intros Ht Hl Hf Hs. unfold get_obj_and_str.
  assert (read_obj Y path = dec total +:+ numa_text l) as ->.
  { unfold read_obj. rewrite Hf, numa_text_line, <- !string_app_assoc. apply fgets_line; [| |lia].
    - rewrite strchr_dec by (done || lia). by apply numa_fields_one_line.
    - apply c_string_app; [apply dec_c|apply numa_fields_c]. }
  pose proof (strlen_numa_text l) as Hlen. pose proof (zlen_nonneg l).
  assert (strlen (skip_blanks (numa_text l)) ≠ 0) as Hne
    by (destruct l as [|x l]; [done|]; rewrite zlen_cons in *; pose proof (zlen_nonneg l); lia).
  destruct (dec_head total (numa_text l)) as (c & r & E & _); [lia|].
  replace (strlen (dec total +:+ numa_text l) =? 0) with false
    by (rewrite E, strlen_cons; pose proof (strlen_nonneg r); lia).
  rewrite strtoul_dec by (done || apply numa_text_ends). cbv zeta iota beta.
  replace (strlen (skip_blanks (numa_text l)) =? 0) with false by lia.
  eexists. split; [done|]. unfold decode_numa_list.
  rewrite numa_loop; [done|done|by rewrite zlen_replicate|lia].
Qed.

Definition numa_demo : slab_sys :=
  mk_slab_sys true [] (fun _ => None) (fun _ => true)
    (fun p => if bool_decide (p = "slabs") then Some ("5 N0=2 N3=3" +:+ nl) else None)
    (fun _ => true) (fun _ => false) 4096.

Lemma numa_attribute_roundtrip_witness :
  ∃ t, get_obj_and_str numa_demo "slabs" = (5, t) ∧
    decode_numa_list t 1 =
      Done (numa_store (replicate (Z.to_nat MAX_NODES) 0) [(0, 2); (3, 3)], 3).
Proof.
  refine (numa_attribute_roundtrip numa_demo "slabs" 5 [(0, 2); (3, 3)] 1 _ _ _ _).
  - split; [lia|discriminate].
  - repeat constructor; simpl; lia || reflexivity || discriminate.
  - vm_compute. reflexivity.
  - vm_compute. reflexivity.
Defined.

(** ** Any text *)

Lemma strlen_skip_space s : strlen (skip_space s) ≤ strlen s.
Proof. induction s as [|c s IH]; cbn [skip_space]; [done|]. case_match; rewrite ?strlen_cons; lia. Qed.

Lemma strlen_skip_blanks s : strlen (skip_blanks s) ≤ strlen s.
Proof. induction s as [|c s IH]; cbn [skip_blanks]; [done|]. case_match; rewrite ?strlen_cons; lia. Qed.

Lemma strlen_scan_digits b s acc n : strlen (snd (scan_digits b s acc n)) ≤ strlen s.
Proof.
  revert acc n. induction s as [|c s IH]; intros acc n; cbn [scan_digits]; [done|].
  case_match; [|done]. rewrite strlen_cons.
  specialize (IH (acc * b + digit_val c) (n + 1)). lia.
Qed.

Lemma strlen_scan_sign s : strlen (snd (scan_sign s)) ≤ strlen s.
Proof. destruct s as [|c s]; [done|]. cbn. repeat case_match; cbn [snd]; rewrite strlen_cons; lia. Qed.

Lemma strlen_strtoul s : strlen (snd (strtoul 10 s)) ≤ strlen s.
Proof.
  unfold strtoul, scan_number. pose proof (strlen_skip_space s).
  pose proof (strlen_scan_sign (skip_space s)). destruct (scan_sign _) as [neg s1]. cbn [Z.eqb Pos.eqb].
  pose proof (strlen_scan_digits 10 s1 0 0). destruct (scan_digits _ _ _ _) as [[v n] r].
  cbn [snd] in *. destruct (n =? 0); [cbn; lia|]. case_match; cbn [snd]; lia.
Qed.

Definition numa_state_ok (h0 : Z) (s : string * list Z * Z) : Prop :=
  let '(_, numa, h) := s in zlen numa = MAX_NODES ∧ (h = h0 ∨ h0 ≤ h < MAX_NODES).

Lemma numa_body_step h0 s :
  numa_state_ok h0 s →
  match numa_body s with
  | Done (inl s') => numa_state_ok h0 s' ∧ strlen (fst (fst s')) < strlen (fst (fst s))
  | Done (inr s') => numa_state_ok h0 s'
  | Die _ => False
  | Wild => True
  end.
Proof.
  destruct s as [[t numa] h]. intros [Hz Hh]. unfold numa_body.
  destruct t as [|c t]; [done|]. destruct (decide (c = "N"%char)) as [->|Hc].
  2: { destruct c as [[] [] [] [] [] [] [] []]; done. }
  pose proof (strlen_strtoul t) as Ht. destruct (strtoul 10 t) as [v t1]. cbn [fst snd] in *.
  assert (strlen (skip_blanks t1) < strlen (String "N" t)) as Hlt
    by (pose proof (strlen_skip_blanks t1); rewrite strlen_cons; lia).
  destruct t1 as [|c t1]; [done|]. destruct (decide (c = "="%char)) as [->|Hc].
  2: { destruct c as [[] [] [] [] [] [] [] []]; done. }
  pose proof (strlen_strtoul t1) as Ht1. destruct (strtoul 10 t1) as [nr t2]. cbn [snd] in Ht1.
  destruct (aset numa (i32 v) (i32 nr)) as [numa'| |] eqn:Ea; cbn [mbind res_bind]; try done.
  - apply aset_done in Ea as [Hi ->]. cbn [fst snd]. rewrite !strlen_cons in *.
    pose proof (strlen_skip_blanks t2). split; [|lia]. split; [by rewrite zlen_insert|lia].
  - unfold aset in Ea. case_match; discriminate.
Qed.

Lemma decode_numa_list_cases t h :
  decode_numa_list t h = Wild ∨
  ∃ numa h', decode_numa_list t h = Done (numa, h') ∧ zlen numa = MAX_NODES ∧
    (h' = h ∨ h ≤ h' < MAX_NODES).
Proof.
  unfold decode_numa_list. destruct t as [t|].
  2: { right. eexists _, _. split_and!; [done|by rewrite zlen_replicate|by left]. }
  assert (numa_state_ok h (t, replicate (Z.to_nat MAX_NODES) 0, h)) as H0
    by (split; [by rewrite zlen_replicate|auto]).
  assert (∀ r, r = loop numa_body (strlen t + 1) (t, replicate (Z.to_nat MAX_NODES) 0, h) →
    r = Wild ∨ ∃ s', r = Done s' ∧ numa_state_ok h s') as Hl.
  { intros r ->.
    apply (loop_rule numa_body (numa_state_ok h) (fun s => strlen (fst (fst s)))
      (fun _ r => r = Wild ∨ ∃ s', r = Done s' ∧ numa_state_ok h s')); [|done|].
    - intros s Hs _. pose proof (numa_body_step h s Hs) as Hb.
      destruct (numa_body s) as [[s'|s']| |]; [|eauto|done|by left].
      destruct Hb as [Hs' Hlt]. split; [done|]. split; [|done].
      pose proof (strlen_nonneg (fst (fst s'))). lia.
    - cbn [fst]. pose proof (strlen_nonneg t). lia. }
  destruct (Hl _ eq_refl) as [->|([[t' numa] h'] & -> & Hz & Hh)]; [by left|right].
  by exists numa, h'.
Qed.

(** [decode_numa_list] ends on every text, within one round per
    character: it either stores outside the 1024 nodes, or leaves an array of
    1024 counts, and [highest_node] is unchanged or a larger node of the
    array. *)
Theorem decode_numa_list_total t h :
  decode_numa_list t h = Wild ∨
  ∃ numa h', decode_numa_list t h = Done (numa, h') ∧ zlen numa = MAX_NODES ∧
    (h' = h ∨ h ≤ h' < MAX_NODES).
Proof. apply decode_numa_list_cases. Qed.
