(* ===== verification/SlabLink.v ===== *)
(** * slabinfo: sorting, aliases and names

    [sort_slabs], [sort_aliases], [link_slabs], [rename_slabs],
    [find_one_alias] and [alias] of [mem/vm/slabinfo.c].  The filled parts of
    [slabinfo[]] and [aliasinfo[]] are lists, so that the globals [slabs] and
    [aliases] are their lengths; a pointer to a slab is its index. *)

From Stdlib Require Import Sorted.
From S2P Require Import Prelude CLib SlabAttr.

(** ** The exchange sort of the two tables *)

(** [if (result > 0) swap(x[i], x[j])]. *)
Definition sort_step {A} (gt : A → A → bool) (i j : Z) (l : list A) : res (list A) :=
  a ← aget l i;
  b ← aget l j;
  if gt a b then l ← aset l i b; aset l j a else Done l.

(** The inner loop, [j] from [i + 1], and the outer one. *)
Definition sort_inner {A} (gt : A → A → bool) (i : Z) (l : list A) : res (list A) :=
  foldm (sort_step gt i) (seqZ (i + 1) (zlen l - (i + 1))) l.
Definition exchange_sort {A} (gt : A → A → bool) (l : list A) : res (list A) :=
  foldm (sort_inner gt) (seqZ 0 (zlen l)) l.

Definition b2z (b : bool) : Z := if b then 1 else 0.

(** [result] in [sort_slabs]. *)
Definition slab_compare (Y : slab_sys) (o : slab_opts) (s1 s2 : slabinfo) : Z :=
  let result :=
    if sort_size o then b2z (slab_size Y s1 <? slab_size Y s2)
    else if sort_active o then b2z (slab_activity s1 <? slab_activity s2)
    else if sort_loss o then b2z (slab_waste Y s1 <? slab_waste Y s2)
    else if sort_partial o then b2z (s_partial s1 <? s_partial s2)
    else strcasecmp (s_name s1) (s_name s2) in
  if show_inverted o then - result else result.

Definition sort_slabs (Y : slab_sys) (o : slab_opts) (l : list slabinfo) : res (list slabinfo) :=
  exchange_sort (fun s1 s2 => 0 <? slab_compare Y o s1 s2) l.

Definition alias_key (o : slab_opts) (a : aliasinfo) : string :=
  if show_alias o && negb (show_inverted o) then a_ref a else a_name a.

Definition sort_aliases (o : slab_opts) (l : list aliasinfo) : res (list aliasinfo) :=
  exchange_sort (fun a1 a2 => 0 <? strcasecmp (alias_key o a1) (alias_key o a2)) l.

(** ** Links *)

(** The inner loop of [link_slabs]: the first slab of that name. *)
Fixpoint find_slab (ref : string) (l : list slabinfo) (i : Z) : option Z :=
  match l with
  | [] => None
  | s :: l => if strcmp ref (s_name s) =? 0 then Some i else find_slab ref l (i + 1)
  end.

Definition link_alias (i : Z) (st : list aliasinfo * list slabinfo)
    : res (list aliasinfo * list slabinfo) :=
  let '(al, sl) := st in
  a ← aget al i;
  match find_slab (a_ref a) sl 0 with
  | None => Die ("Unresolved alias " +:+ a_ref a +:+ nl)
  | Some k =>
      al ← aset al i (a <| a_slab := Some k |>);
      s ← aget sl k;
      sl ← aset sl k (s <| s_refs := i32 (s_refs s + 1) |>);
      Done (al, sl)
  end.

Definition link_slabs (al : list aliasinfo) (sl : list slabinfo)
    : res (list aliasinfo * list slabinfo) :=
  foldm link_alias (seqZ 0 (zlen al)) (al, sl).

(** ** Names *)

Fixpoint find_alias_from (find : Z) (l : list aliasinfo) (best : option aliasinfo)
    : option aliasinfo :=
  match l with
  | [] => best
  | a :: l =>
      if bool_decide (a_slab a = Some find) &&
         match best with
         | None => true
         | Some b => strlen (a_name b) <? strlen (a_name a)
         end
      then if strncmp_eq (a_name a) "kmall" 5 then Some a
           else find_alias_from find l (Some a)
      else find_alias_from find l best
  end.

Definition find_one_alias (al : list aliasinfo) (find : Z) : option aliasinfo :=
  find_alias_from find al None.

Definition colon (name : string) : bool :=
  match name with String c _ => Ascii.eqb c ":" | EmptyString => false end.

(** One slab of [rename_slabs]; the state is the table and [actual_slabs]. *)
Definition rename_slab (o : slab_opts) (al : list aliasinfo) (k : Z)
    (st : list slabinfo * Z) : res (list slabinfo * Z) :=
  let '(sl, actual) := st in
  s ← aget sl k;
  if negb (colon (s_name s)) then Done st
  else if (1 <? s_refs s) && negb (show_first_alias o) then Done st
  else
    match find_one_alias al k with
    | Some a => sl ← aset sl k (s <| s_name := a_name a |>); Done (sl, actual)
    | None => sl ← aset sl k (s <| s_name := "*" |>); Done (sl, i32 (actual - 1))
    end.

Definition rename_slabs (o : slab_opts) (al : list aliasinfo) (sl : list slabinfo) (actual : Z)
    : res (list slabinfo * Z) :=
  foldm (rename_slab o al) (seqZ 0 (zlen sl)) (sl, actual).

(** ** The list of aliases *)

(** One line of [alias]: [active] and the text. *)
Definition alias_line (o : slab_opts) (sl : list slabinfo) (a : aliasinfo)
    (st : option string * string) : res (option string * string) :=
  let '(active, text) := st in
  k ← from_opt (a_slab a);
  s ← aget sl k;
  if negb (show_single_ref o) && (s_refs s =? 1) then Done st
  else if negb (show_inverted o) then
    if match active with Some n => strcmp (s_name s) n =? 0 | None => false end
    then Done (active, text +:+ " " +:+ a_name a)
    else Done (Some (s_name s), text +:+ nl +:+ padr 12 (s_name s) +:+ " <- " +:+ a_name a)
  else Done (active, text +:+ padr 15 (a_name a) +:+ " -> " +:+ s_name s +:+ nl).

Definition alias (o : slab_opts) (al : list aliasinfo) (sl : list slabinfo) (w : world) : res world :=
  al ← sort_aliases o al;
  '(al, sl) ← link_slabs al sl;
  '(active, text) ← foldm (alias_line o sl) al (None, "");
  let w := printf text w in
  Done (match active with Some _ => printf nl w | None => w end).

(** ** The exchange sort sorts *)

Section ExchangeSort.
Context {A : Type} (gt : A → A → bool).

(** One pass over the tail, holding the candidate for the first place. *)
Fixpoint bubble (x : A) (l : list A) : A * list A :=
  match l with
  | [] => (x, [])
  | y :: l =>
      if gt x y then let '(m, r) := bubble y l in (m, x :: r)
      else let '(m, r) := bubble x l in (m, y :: r)
  end.

Lemma bubble_perm x l : let '(m, r) := bubble x l in x :: l ≡ₚ m :: r.
Proof.
  revert x. induction l as [|y l IH]; intros x; [by cbn|]. cbn. destruct (gt x y).
  - specialize (IH y). destruct (bubble y l) as [m r]. rewrite IH. apply perm_swap.
  - specialize (IH x). destruct (bubble x l) as [m r]. rewrite perm_swap, IH. apply perm_swap.
Qed.

Lemma inner_bubble pre mid x l :
  foldm (sort_step gt (zlen pre)) (seqZ (zlen pre + 1 + zlen mid) (zlen l)) (pre ++ x :: mid ++ l) =
    let '(m, r) := bubble x l in Done (pre ++ m :: mid ++ r).
Proof.
  revert mid x. induction l as [|y l IH]; intros mid x; [done|].
  pose proof (zlen_nonneg l). pose proof (zlen_nonneg pre). pose proof (zlen_nonneg mid).
  rewrite zlen_cons, seqZ_cons by lia. cbn [foldm].
  replace (Z.pred (1 + zlen l)) with (zlen l) by lia.
  assert (∀ v (t : list A), aget (pre ++ v :: t) (zlen pre) = Done v) as Hi.
  { intros v t. unfold zlen. apply aget_nat. rewrite lookup_app_r by lia. by rewrite Nat.sub_diag. }
  assert (∀ u v t, aget (pre ++ u :: mid ++ v :: t) (zlen pre + 1 + zlen mid) = Done v) as Hj.
  { intros u v t. change (pre ++ u :: mid ++ v :: t) with (pre ++ ([u] ++ mid) ++ [v] ++ t).
    rewrite app_assoc.
    replace (zlen pre + 1 + zlen mid) with (Z.of_nat (length (pre ++ [u] ++ mid)))
      by (unfold zlen; rewrite !length_app; simpl; lia).
    apply aget_nat. rewrite lookup_app_r by lia. by rewrite Nat.sub_diag. }
  assert (∀ i j k, sort_step gt i j k = (a ← aget k i; b ← aget k j;
    if gt a b then k ← aset k i b; aset k j a else Done k)) as Hstep by done.
  rewrite Hstep, Hi. cbn [mbind res_bind]. rewrite Hj. cbn [mbind res_bind bubble].
  replace (Z.succ (zlen pre + 1 + zlen mid)) with (zlen pre + 1 + zlen (mid ++ [y]))
    by (autorewrite with zlen; lia).
  destruct (gt x y).
  - rewrite aset_mid by done. cbn [mbind res_bind].
    change (pre ++ y :: mid ++ y :: l) with (pre ++ ([y] ++ mid) ++ y :: l). rewrite app_assoc.
    rewrite aset_mid by (autorewrite with zlen; lia). cbn [mbind res_bind].
    rewrite <- app_assoc. change (([y] ++ mid) ++ x :: l) with (y :: mid ++ [x] ++ l).
    specialize (IH (mid ++ [x]) y). rewrite <- app_assoc in IH.
    replace (zlen pre + 1 + zlen (mid ++ [y])) with (zlen pre + 1 + zlen (mid ++ [x]))
      by (autorewrite with zlen; lia).
    rewrite IH. destruct (bubble y l) as [m r]. by rewrite <- app_assoc.
  - specialize (IH (mid ++ [y]) x). rewrite <- app_assoc in IH. cbn [app mbind res_bind] in IH |- *.
    rewrite IH.
    destruct (bubble x l) as [m r]. by rewrite <- app_assoc.
Qed.

Lemma sort_inner_bubble pre x l :
  sort_inner gt (zlen pre) (pre ++ x :: l) =
    let '(m, r) := bubble x l in Done (pre ++ m :: r).
Proof.
  unfold sort_inner. pose proof (inner_bubble pre [] x l) as H. cbn [app] in H. rewrite <- H.
  f_equal. f_equal; autorewrite with zlen; lia.
Qed.

(** The order the sort produces, on elements satisfying [P]. *)
Context (P : A → Prop).
Context (gt_trans : ∀ a b c, P a → P b → P c → gt a b = false → gt b c = false → gt a c = false).
Context (gt_asym : ∀ a b, P a → P b → gt a b = true → gt b a = false).

Lemma bubble_min x l :
  P x → Forall P l → let '(m, r) := bubble x l in
  gt m x = false ∧ Forall (fun y => gt m y = false) r ∧ Forall P (m :: r).
Proof.
  revert x. induction l as [|y l IH]; intros x Hx Hl; cbn.
  - split_and!; [|constructor|by constructor].
    destruct (gt x x) eqn:E; [|done]. rewrite <- E. by apply gt_asym.
  - apply Forall_cons in Hl as [Hy Hl]. destruct (gt x y) eqn:E.
    + specialize (IH y Hy Hl). destruct (bubble y l) as [m r]. destruct IH as (Hm & Hr & HP).
      apply Forall_cons in HP as [HPm HPr].
      assert (gt m x = false) as Hmx by (apply (gt_trans m y x); auto).
      split_and!; [done|by constructor|by repeat constructor].
    + specialize (IH x Hx Hl). destruct (bubble x l) as [m r]. destruct IH as (Hm & Hr & HP).
      apply Forall_cons in HP as [HPm HPr].
      split_and!; [done| |by repeat constructor]. constructor; [|done]. by apply (gt_trans m x y).
Qed.

Lemma sort_outer n : ∀ pre l,
  length l = n → Forall P l →
  ∃ l', foldm (sort_inner gt) (seqZ (zlen pre) (zlen l)) (pre ++ l) = Done (pre ++ l') ∧
    l ≡ₚ l' ∧ StronglySorted (fun a b => gt a b = false) l'.
Proof.
  induction n as [|n IH]; intros pre [|x l] Hn Hl; simpl in Hn; try lia.
  - exists []. split_and!; [done|done|constructor].
  - pose proof (zlen_nonneg l). rewrite zlen_cons, seqZ_cons by lia. cbn [foldm].
    rewrite sort_inner_bubble. apply Forall_cons in Hl as [Hx Hl].
    pose proof (bubble_perm x l) as Hp. pose proof (bubble_min x l Hx Hl) as Hm.
    destruct (bubble x l) as [m r]. destruct Hm as (_ & Hr & HP). cbn [mbind res_bind].
    apply Forall_cons in HP as [HPm HPr].
    assert (length l = length r) as El by (apply Permutation_length in Hp; simpl in Hp; lia).
    destruct (IH (pre ++ [m]) r ltac:(lia) HPr) as (l' & E & Hp' & Hs).
    exists (m :: l'). split_and!.
    + revert E. rewrite <- !app_assoc. cbn [app].
      replace (Z.succ (zlen pre)) with (zlen (pre ++ [m])) by (autorewrite with zlen; lia).
      replace (Z.pred (1 + zlen l)) with (zlen r) by (unfold zlen; lia). done.
    + by rewrite Hp, Hp'.
    + constructor; [done|]. by rewrite <- Hp'.
Qed.

Lemma exchange_sort_sorts l :
  Forall P l →
  ∃ l', exchange_sort gt l = Done l' ∧ l ≡ₚ l' ∧ StronglySorted (fun a b => gt a b = false) l'.
Proof. intros Hl. exact (sort_outer (length l) [] l eq_refl Hl). Qed.
End ExchangeSort.

(** A comparison that never asks for a swap. *)
Lemma exchange_sort_id {A} (gt : A → A → bool) l :
  (∀ a b, gt a b = false) → exchange_sort gt l = Done l.
Proof.
  intros Hg. unfold exchange_sort.
  assert (∀ pre l, foldm (sort_inner gt) (seqZ (zlen pre) (zlen l)) (pre ++ l) = Done (pre ++ l)) as H.
  2: exact (H [] l).
  intros pre l'. revert pre. induction l' as [|x l' IH]; intros pre; [done|].
  pose proof (zlen_nonneg l'). rewrite zlen_cons, seqZ_cons by lia. cbn [foldm].
  rewrite sort_inner_bubble.
  assert (∀ x l, bubble gt x l = (x, l)) as ->.
  { intros y k. revert y. induction k as [|z k IHk]; intros y; [done|]. cbn. by rewrite Hg, IHk. }
  cbn [mbind res_bind]. specialize (IH (pre ++ [x])). rewrite <- app_assoc in IH. cbn [app] in IH.
  replace (Z.succ (zlen pre)) with (zlen (pre ++ [x])) by (autorewrite with zlen; lia).
  by replace (Z.pred (1 + zlen l')) with (zlen l') by lia.
Qed.

(** ** The orders *)

(** Transitivity of the two tests on names. *)
Lemma name_trans_up a b c :
  c_string a → c_string b → c_string c →
  (0 <? strcasecmp a b) = false → (0 <? strcasecmp b c) = false → (0 <? strcasecmp a c) = false.
Proof. intros Ha Hb Hc H1 H2. pose proof (strcasecmp_trans a b c Ha Hb Hc). lia. Qed.

Lemma name_trans_down a b c :
  c_string a → c_string b → c_string c →
  (0 <? - strcasecmp a b) = false → (0 <? - strcasecmp b c) = false →
  (0 <? - strcasecmp a c) = false.
Proof.
  intros Ha Hb Hc. rewrite <- !strcasecmp_anti. intros H1 H2. by apply (name_trans_up c b a).
Qed.

(** The figure an option selects; without one the name decides. *)
Definition slab_key (Y : slab_sys) (o : slab_opts) : option (slabinfo → Z) :=
  if sort_size o then Some (slab_size Y)
  else if sort_active o then Some slab_activity
  else if sort_loss o then Some (slab_waste Y)
  else if sort_partial o then Some s_partial
  else None.

Lemma slab_compare_key Y o s1 s2 :
  slab_compare Y o s1 s2 =
    (if show_inverted o then Z.opp else fun r => r)
      match slab_key Y o with
      | Some key => b2z (key s1 <? key s2)
      | None => strcasecmp (s_name s1) (s_name s2)
      end.
Proof. unfold slab_compare, slab_key. by repeat case_match. Qed.

Lemma StronglySorted_weaken {A} (R S : A → A → Prop) l :
  (∀ a b, R a b → S a b) → StronglySorted R l → StronglySorted S l.
Proof.
  intros H. induction 1 as [|a l Hl IH Ha]; constructor; [done|].
  eapply Forall_impl; [done|]. auto.
Qed.

(** The order asked for: by the figure selected, largest first, or by name. *)
Definition sorted_as (Y : slab_sys) (o : slab_opts) (l l' : list slabinfo) : Prop :=
  match slab_key Y o with
  | Some key =>
      if show_inverted o then l' = l
      else StronglySorted (fun a b => key b ≤ key a) l'
  | None =>
      StronglySorted (fun a b => (if show_inverted o then 0 ≤ strcasecmp (s_name a) (s_name b)
                                  else strcasecmp (s_name a) (s_name b) ≤ 0)) l'
  end.

Lemma sort_slabs_sorts Y o l :
  Forall (fun s => c_string (s_name s)) l →
  ∃ l', sort_slabs Y o l = Done l' ∧ l ≡ₚ l' ∧ sorted_as Y o l l'.
Proof.
  intros Hl. unfold sort_slabs, sorted_as.
  set (gt := fun s1 s2 => 0 <? slab_compare Y o s1 s2).
  assert (∀ a b, gt a b = (0 <? slab_compare Y o a b)) as Hgt by done.
  setoid_rewrite slab_compare_key in Hgt.
  destruct (slab_key Y o) as [key|], (show_inverted o); cbv beta iota in Hgt.
  - exists l. split; [|done]. apply exchange_sort_id. intros a b. rewrite Hgt. unfold b2z.
    case_match; done.
  - destruct (exchange_sort_sorts gt (fun _ => True)
      ltac:(intros a b c _ _ _; rewrite !Hgt; unfold b2z; repeat case_match; lia)
      ltac:(intros a b _ _; rewrite !Hgt; unfold b2z; repeat case_match; lia)
      l ltac:(by apply Forall_true)) as (l' & E & Hp & Hs).
    exists l'. split_and!; [done..|]. eapply StronglySorted_weaken; [|done].
    intros a b. cbv beta. rewrite Hgt. unfold b2z. case_match; lia.
  - destruct (exchange_sort_sorts gt (fun s => c_string (s_name s))
      ltac:(intros a b c Ha Hb Hc; rewrite !Hgt; apply name_trans_down; done)
      ltac:(intros a b _ _; rewrite !Hgt, (strcasecmp_anti (s_name b)); lia) l Hl)
      as (l' & E & Hp & Hs).
    exists l'. split_and!; [done..|]. eapply StronglySorted_weaken; [|done].
    intros a b. cbv beta. rewrite Hgt. lia.
  - destruct (exchange_sort_sorts gt (fun s => c_string (s_name s))
      ltac:(intros a b c Ha Hb Hc; rewrite !Hgt; apply name_trans_up; done)
      ltac:(intros a b _ _; rewrite !Hgt, (strcasecmp_anti (s_name b)); lia) l Hl)
      as (l' & E & Hp & Hs).
    exists l'. split_and!; [done..|]. eapply StronglySorted_weaken; [|done].
    intros a b. cbv beta. rewrite Hgt. lia.
Qed.

(** C10: [sort_slabs] permutes the table and sorts it: by the figure the
    options select, largest first, or else by name without regard to case,
    backwards with [-i].  Combined with a figure [-i] does nothing at all: the
    table is left as it was, because the comparison only answers 0 or 1. *)
Theorem sort_slabs_sorted Y o l :
  Forall (fun s => c_string (s_name s)) l →
  ∃ l', sort_slabs Y o l = Done l' ∧ l ≡ₚ l' ∧
    match slab_key Y o with
    | Some key =>
        if show_inverted o then l' = l
        else StronglySorted (fun a b => key b ≤ key a) l'
    | None =>
        StronglySorted (fun a b => (if show_inverted o then 0 ≤ strcasecmp (s_name a) (s_name b)
                                    else strcasecmp (s_name a) (s_name b) ≤ 0)) l'
    end.
Proof. apply sort_slabs_sorts. Qed.

(** The aliases come out sorted by their key. *)
Lemma sort_aliases_sorted o l :
  Forall (fun a => c_string (alias_key o a)) l →
  ∃ l', sort_aliases o l = Done l' ∧ l ≡ₚ l' ∧
    StronglySorted (fun a b => strcasecmp (alias_key o a) (alias_key o b) ≤ 0) l'.
Proof.
  intros Hl. unfold sort_aliases.
  destruct (exchange_sort_sorts
    (fun a1 a2 => 0 <? strcasecmp (alias_key o a1) (alias_key o a2))
    (fun a => c_string (alias_key o a))
    ltac:(intros a b c; apply name_trans_up)
    ltac:(intros a b _ _; cbv beta; rewrite (strcasecmp_anti (alias_key o b)); lia) l Hl)
    as (l' & E & Hp & Hs).
  exists l'. split_and!; [done..|]. eapply StronglySorted_weaken; [|done]. intros a b. cbv beta. lia.
Qed.

(** A slab of a given name, for examples. *)
Definition demo_slab (name : string) (slabs objects size : Z) : slabinfo :=
  mk_slabinfo name 0 0 0 0 0 0 0 0 size 16 0 size 0 0 0 0 0 0 0 objects slabs 0 0
    0 0 0 0 0 0 0 0 0 0 0 0 0 0 0 0 0 0 0 0 0 0 0 0
    (replicate 1024 0) (replicate 1024 0).

Definition demo_sys : slab_sys :=
  mk_slab_sys true [] (fun _ => None) (fun _ => true) (fun _ => None)
    (fun _ => true) (fun _ => false) 4096.

Lemma sort_slabs_sorted_witness :
  (∃ l', sort_slabs demo_sys (opts_start <| sort_size := true |>)
           [demo_slab "b" 1 1 8; demo_slab "a" 5 1 8] = Done l' ∧
     [demo_slab "b" 1 1 8; demo_slab "a" 5 1 8] ≡ₚ l' ∧
     StronglySorted (fun a b => slab_size demo_sys b ≤ slab_size demo_sys a) l').
Proof.
  refine (sort_slabs_sorted demo_sys (opts_start <| sort_size := true |>)
    [demo_slab "b" 1 1 8; demo_slab "a" 5 1 8] _).
  repeat constructor.
Defined.

(** ** Links resolved *)

Lemma find_slab_shift ref l i : find_slab ref l i = Z.add i <$> find_slab ref l 0.
Proof.
  revert i. induction l as [|s l IH]; intros i; [done|]. cbn. case_match.
  - cbn. f_equal. lia.
  - rewrite IH, (IH (0 + 1)). destruct (find_slab ref l 0); [|done]. cbn. f_equal. lia.
Qed.

Lemma find_slab_some ref l k :
  find_slab ref l 0 = Some k →
  ∃ n s, k = Z.of_nat n ∧ l !! n = Some s ∧ strcmp ref (s_name s) = 0 ∧
    ∀ m t, (m < n)%nat → l !! m = Some t → strcmp ref (s_name t) ≠ 0.
Proof.
  revert k. induction l as [|s l IH]; intros k; [done|]. cbn.
  destruct (Z.eqb_spec (strcmp ref (s_name s)) 0) as [E|E].
  - intros [= <-]. exists 0%nat, s. split_and!; [done..|]. lia.
  - rewrite find_slab_shift. destruct (find_slab ref l 0) as [j|]; [|done]. intros [= <-].
    destruct (IH j eq_refl) as (n & t & -> & Hl & Hs & Hf). exists (S n), t.
    split_and!; [lia|done|done|]. intros [|m] u Hm Hu; [by simplify_eq/=|]. apply (Hf m); [lia|done].
Qed.

(** Only the names matter. *)
Lemma find_slab_names ref l l' i :
  s_name <$> l = s_name <$> l' → find_slab ref l i = find_slab ref l' i.
Proof.
  revert l' i. induction l as [|s l IH]; intros [|t l'] i E; try done.
  injection E as E1 E2. cbn. rewrite E1. case_match; [done|]. by apply IH.
Qed.

(** The tables after the links are set: the slab of each alias, and for each
    slab the number of its aliases. *)
Definition linked (sl : list slabinfo) (a : aliasinfo) : aliasinfo :=
  a <| a_slab := find_slab (a_ref a) sl 0 |>.
Definition refs_to (sl : list slabinfo) (al : list aliasinfo) (k : nat) : Z :=
  zlen (filter (fun a => find_slab (a_ref a) sl 0 = Some (Z.of_nat k)) al).
Definition counted (sl : list slabinfo) (al : list aliasinfo) : list slabinfo :=
  imap (fun k s => s <| s_refs := refs_to sl al k |>) sl.

Lemma counted_names sl al : s_name <$> counted sl al = s_name <$> sl.
Proof.
  apply list_eq. intros i. rewrite !list_lookup_fmap. unfold counted.
  rewrite list_lookup_imap. by destruct (sl !! i).
Qed.

Lemma refs_to_snoc sl al a k :
  refs_to sl (al ++ [a]) k =
    refs_to sl al k + (if bool_decide (find_slab (a_ref a) sl 0 = Some (Z.of_nat k)) then 1 else 0).
Proof.
  unfold refs_to. rewrite filter_app, zlen_app, filter_cons, filter_nil.
  case_bool_decide; case_decide; done.
Qed.

Lemma refs_to_le sl al k : 0 ≤ refs_to sl al k ≤ zlen al.
Proof. unfold refs_to, zlen. pose proof (length_filter (fun a => find_slab (a_ref a) sl 0 = Some (Z.of_nat k)) al). lia. Qed.

Lemma counted_snoc sl al a k s :
  find_slab (a_ref a) sl 0 = Some (Z.of_nat k) → counted sl al !! k = Some s → zlen al < 2 ^ 31 - 1 →
  <[k := s <| s_refs := i32 (s_refs s + 1) |>]> (counted sl al) = counted sl (al ++ [a]).
Proof.
  intros Hf Hk Hz. apply list_eq. intros i. destruct (decide (i = k)) as [->|Hi].
  - rewrite list_lookup_insert_eq by (by eapply lookup_lt_Some).
    unfold counted in *. rewrite list_lookup_imap in *.
    destruct (sl !! k) as [t|]; [|done]. cbn in Hk. injection Hk as <-. cbn.
    rewrite refs_to_snoc, bool_decide_true by done.
    pose proof (refs_to_le sl al k). rewrite i32_small by lia. done.
  - rewrite list_lookup_insert_ne by done. unfold counted. rewrite !list_lookup_imap.
    destruct (sl !! i) as [t|]; [|done]. cbn.
    rewrite refs_to_snoc, bool_decide_false, Z.add_0_r; [done|]. rewrite Hf. intros [= E]. lia.
Qed.

Lemma aget_linked sl pre a rest : aget ((linked sl <$> pre) ++ a :: rest) (zlen pre) = Done a.
Proof.
  replace (zlen pre) with (Z.of_nat (length (linked sl <$> pre)))
    by (unfold zlen; by rewrite length_fmap).
  apply aget_nat. rewrite lookup_app_r by lia. by rewrite Nat.sub_diag.
Qed.

Lemma link_alias_none sl pre a rest :
  find_slab (a_ref a) sl 0 = None →
  link_alias (zlen pre) ((linked sl <$> pre) ++ a :: rest, counted sl pre) =
    Die ("Unresolved alias " +:+ a_ref a +:+ nl).
Proof.
  intros E. unfold link_alias. rewrite aget_linked, bind_Done.
  rewrite (find_slab_names _ _ sl) by apply counted_names. by rewrite E.
Qed.

Lemma link_alias_step sl pre a rest k :
  find_slab (a_ref a) sl 0 = Some k → zlen pre < 2 ^ 31 - 1 →
  link_alias (zlen pre) ((linked sl <$> pre) ++ a :: rest, counted sl pre) =
    Done ((linked sl <$> (pre ++ [a])) ++ rest, counted sl (pre ++ [a])).
Proof.
  intros Hf Hz. unfold link_alias. rewrite aget_linked.
  rewrite bind_Done, (find_slab_names _ _ sl) by apply counted_names. rewrite Hf.
  rewrite aset_mid by (unfold zlen; by rewrite length_fmap). rewrite bind_Done.
  destruct (find_slab_some _ _ _ Hf) as (n & t & -> & Hl & _).
  assert (is_Some (counted sl pre !! n)) as [s Hs].
  { unfold counted. rewrite list_lookup_imap, Hl. done. }
  rewrite (aget_nat _ _ _ Hs), bind_Done.
  rewrite aset_in by (apply lookup_lt_Some in Hs; unfold zlen; lia).
  rewrite bind_Done, Nat2Z.id, (counted_snoc _ _ a) by done.
  rewrite fmap_app. cbn [fmap list_fmap]. rewrite <- app_assoc. cbn [app].
  unfold linked at 3. by rewrite Hf.
Qed.

Lemma link_loop sl : ∀ rest pre,
  zlen pre + zlen rest < 2 ^ 31 →
  match list_find (fun a => find_slab (a_ref a) sl 0 = None) rest with
  | None => foldm link_alias (seqZ (zlen pre) (zlen rest)) ((linked sl <$> pre) ++ rest, counted sl pre)
            = Done (linked sl <$> (pre ++ rest), counted sl (pre ++ rest))
  | Some (_, a) => foldm link_alias (seqZ (zlen pre) (zlen rest)) ((linked sl <$> pre) ++ rest, counted sl pre)
            = Die ("Unresolved alias " +:+ a_ref a +:+ nl)
  end.
Proof.
  induction rest as [|a rest IH]; intros pre Hz.
  - cbn. by rewrite !app_nil_r.
  - rewrite zlen_cons in *. pose proof (zlen_nonneg rest). rewrite seqZ_cons by lia.
    replace (Z.pred (1 + zlen rest)) with (zlen rest) by lia. cbn [list_find foldm].
    destruct (decide (find_slab (a_ref a) sl 0 = None)) as [E|E].
    + by rewrite link_alias_none.
    + destruct (find_slab (a_ref a) sl 0) as [k|] eqn:Ek; [|done].
      rewrite (link_alias_step _ _ _ _ k) by (done || lia). rewrite bind_Done.
      specialize (IH (pre ++ [a]) ltac:(autorewrite with zlen; lia)).
      replace (Z.succ (zlen pre)) with (zlen (pre ++ [a])) by (autorewrite with zlen; lia).
      rewrite <- app_assoc in IH. cbn [app] in IH.
      destruct (list_find _ rest) as [[i b]|]; done.
Qed.

(** Before any link is set nothing is counted. *)
Lemma counted_start sl : Forall (fun s => s_refs s = 0) sl → counted sl [] = sl.
Proof.
  intros Hsl. unfold counted. rewrite <- (list_fmap_id sl) at 2. apply list_eq. intros i.
  rewrite list_lookup_imap, list_lookup_fmap. destruct (sl !! i) as [s|] eqn:Es; [|done].
  cbn. f_equal. eapply Forall_lookup_1 in Hsl; [|done].
  change (refs_to sl [] i) with 0. rewrite <- Hsl. by destruct s.
Qed.

Lemma link_slabs_cases al sl :
  zlen al ≤ MAX_ALIASES → Forall (fun s => s_refs s = 0) sl →
  match list_find (fun a => find_slab (a_ref a) sl 0 = None) al with
  | None => link_slabs al sl = Done (linked sl <$> al, counted sl al)
  | Some (_, a) => link_slabs al sl = Die ("Unresolved alias " +:+ a_ref a +:+ nl)
  end.
Proof.
  unfold link_slabs, MAX_ALIASES. intros Hz Hsl.
  pose proof (link_loop sl al [] ltac:(rewrite zlen_nil; lia)) as Hl.
  cbn [app fmap list_fmap] in Hl. by rewrite counted_start in Hl.
Qed.

(** [link_slabs] on freshly read tables: it fails on the first alias that
    names no slab; otherwise every alias points to the first slab of the name
    it refers to, and [refs] of each slab is the number of its aliases. *)
Theorem link_slabs_spec al sl :
  zlen al ≤ MAX_ALIASES → Forall (fun s => s_refs s = 0 ∧ c_string (s_name s)) sl →
  Forall (fun a => c_string (a_ref a)) al →
  match list_find (fun a => find_slab (a_ref a) sl 0 = None) al with
  | Some (_, a) => link_slabs al sl = Die ("Unresolved alias " +:+ a_ref a +:+ nl)
  | None =>
      link_slabs al sl = Done (linked sl <$> al, counted sl al) ∧
      ∀ a, a ∈ al → ∃ k s, a_slab (linked sl a) = Some (Z.of_nat k) ∧ sl !! k = Some s ∧
        s_name s = a_ref a ∧ ∀ j t, (j < k)%nat → sl !! j = Some t → s_name t ≠ a_ref a
  end.
Proof.
  intros Hz Hsl Hal.
  pose proof (link_slabs_cases al sl Hz ltac:(eapply Forall_impl; [done|]; naive_solver)) as Hl.
  destruct (list_find _ al) as [[i b]|] eqn:Ef; [done|]. split; [done|].
  intros a Ha. apply list_find_None in Ef. rewrite Forall_forall in Ef.
  destruct (find_slab (a_ref a) sl 0) as [k|] eqn:Ek; [|by destruct (Ef a)].
  destruct (find_slab_some _ _ _ Ek) as (n & s & -> & Hs & Hc & Hf).
  rewrite Forall_forall in Hal. specialize (Hal a Ha).
  assert (∀ j t, sl !! j = Some t → c_string (s_name t)) as Hn.
  { intros j t Ht. by eapply Forall_lookup_1 in Hsl as [_ H]; [|done]. }
  exists n, s. split_and!; [done|done|symmetry; apply strcmp_eq; eauto|].
  intros j t Hj Ht E. apply (Hf j t Hj Ht). apply strcmp_eq; eauto.
Qed.

Lemma link_slabs_spec_witness :
  link_slabs [mk_aliasinfo "dentry" ":a-192" None; mk_aliasinfo "inode" ":a-192" None]
    [demo_slab "x" 1 1 8; demo_slab ":a-192" 5 1 192] =
  Done (linked [demo_slab "x" 1 1 8; demo_slab ":a-192" 5 1 192] <$>
          [mk_aliasinfo "dentry" ":a-192" None; mk_aliasinfo "inode" ":a-192" None],
        counted [demo_slab "x" 1 1 8; demo_slab ":a-192" 5 1 192]
          [mk_aliasinfo "dentry" ":a-192" None; mk_aliasinfo "inode" ":a-192" None]).
Proof.
  refine (proj1 (link_slabs_spec
    [mk_aliasinfo "dentry" ":a-192" None; mk_aliasinfo "inode" ":a-192" None]
    [demo_slab "x" 1 1 8; demo_slab ":a-192" 5 1 192] _ _ _)).
  - vm_compute. discriminate.
  - repeat constructor.
  - repeat constructor.
Defined.

(** ** Names from aliases *)

Definition kmall (a : aliasinfo) : bool := strncmp_eq (a_name a) "kmall" 5.

(** [a] is the alias chosen for slab [k]: one whose name starts with kmall, or
    a longest one. *)
Definition chosen (al : list aliasinfo) (k : Z) (a : aliasinfo) : Prop :=
  a ∈ al ∧ a_slab a = Some k ∧
  (kmall a = true ∨ ∀ b, b ∈ al → a_slab b = Some k → strlen (a_name b) ≤ strlen (a_name a)).

Lemma find_alias_from_spec k l : ∀ seen best,
  (match best with
   | None => ∀ b, b ∈ seen → a_slab b ≠ Some k
   | Some a => chosen seen k a
   end) →
  (∀ a, best = Some a → kmall a = false) →
  match find_alias_from k l best with
  | None => ∀ b, b ∈ seen ++ l → a_slab b ≠ Some k
  | Some a => chosen (seen ++ l) k a
  end.
Proof.
  induction l as [|x l IH]; intros seen best Hb Hk; [by rewrite app_nil_r|]. cbn [find_alias_from].
  assert (∀ b, b ∈ seen ++ [x] → b ∈ seen ∨ b = x) as Hin by set_solver.
  rewrite (app_assoc seen [x] l : seen ++ x :: l = (seen ++ [x]) ++ l).
  case_bool_decide as Hx; cbn [andb].
  - destruct (match best with Some b => _ | None => _ end) eqn:Elen.
    + assert (∀ b, b ∈ seen ++ [x] → a_slab b = Some k → kmall x = false →
        strlen (a_name b) ≤ strlen (a_name x)) as Hlong.
      { intros b [Hb'| ->]%Hin Hs _; [|lia]. destruct best as [a|]; [|by destruct (Hb b)].
        destruct Hb as (_ & _ & [Hka|Hb]); [by rewrite (Hk a) in Hka|]. specialize (Hb b Hb' Hs). lia. }
      fold (kmall x). destruct (kmall x) eqn:Ek.
      * split_and!; [set_solver|done|by left].
      * apply IH; [|by intros a [= <-]]. split_and!; [set_solver|done|]. right. intros b Hb' Hs.
        by apply Hlong.
    + destruct best as [a|]; [|done]. apply IH; [|done]. destruct Hb as (H1 & H2 & H3).
      split_and!; [set_solver|done|]. right.
      intros b [Hb'| ->]%Hin Hs; [|lia].
      destruct H3 as [H3|H3]; [by rewrite (Hk a) in H3|]. by apply H3.
  - apply IH; [|done]. destruct best as [a|].
    + destruct Hb as (H1 & H2 & H3). split_and!; [set_solver|done|].
      destruct H3 as [H3|H3]; [by left|right]. intros b [Hb'| ->]%Hin Hs; [by apply H3|done].
    + intros b [Hb'| ->]%Hin; [by apply Hb|done].
Qed.

Lemma find_one_alias_spec al k :
  match find_one_alias al k with
  | None => ∀ b, b ∈ al → a_slab b ≠ Some k
  | Some a => chosen al k a
  end.
Proof. apply (find_alias_from_spec k al [] None); [set_solver|done]. Qed.

(** Slabs whose name stays. *)
Definition keeps_name (o : slab_opts) (s : slabinfo) : bool :=
  negb (colon (s_name s)) || ((1 <? s_refs s) && negb (show_first_alias o)).

Definition renamed (o : slab_opts) (al : list aliasinfo) (k : nat) (s : slabinfo) : slabinfo :=
  if keeps_name o s then s
  else s <| s_name := match find_one_alias al (Z.of_nat k) with
                      | Some a => a_name a
                      | None => "*"
                      end |>.

(** Slabs that lose their name: no alias is left for them. *)
Definition nameless (o : slab_opts) (al : list aliasinfo) (k : nat) (s : slabinfo) : Z :=
  b2z (negb (keeps_name o s) &&
       match find_one_alias al (Z.of_nat k) with Some _ => false | None => true end).

Lemma rename_slab_step o al pre s rest actual :
  rename_slab o al (zlen pre) (pre ++ s :: rest, actual) =
    Done (pre ++ renamed o al (length pre) s :: rest,
          if nameless o al (length pre) s =? 0 then actual else i32 (actual - 1)).
Proof.
  unfold rename_slab, renamed, nameless, keeps_name.
  assert (aget (pre ++ s :: rest) (zlen pre) = Done s) as ->.
  { apply aget_nat. rewrite lookup_app_r by lia. by rewrite Nat.sub_diag. }
  rewrite bind_Done. destruct (colon (s_name s)); cbn [negb orb]; [|done].
  destruct ((1 <? s_refs s) && negb (show_first_alias o)); cbn [negb andb]; [done|].
  unfold zlen. destruct (find_one_alias al (Z.of_nat (length pre))); by rewrite aset_mid.
Qed.

Fixpoint sum_nameless (o : slab_opts) (al : list aliasinfo) (k : nat) (l : list slabinfo) : Z :=
  match l with
  | [] => 0
  | s :: l => nameless o al k s + sum_nameless o al (S k) l
  end.

Lemma rename_loop o al rest : ∀ pre actual,
  zlen rest ≤ actual < 2 ^ 31 →
  foldm (rename_slab o al) (seqZ (zlen pre) (zlen rest)) (pre ++ rest, actual) =
    Done (pre ++ imap (fun k => renamed o al (length pre + k)) rest,
          actual - sum_nameless o al (length pre) rest).
Proof.
  induction rest as [|s rest IH]; intros pre actual Ha.
  - cbn. rewrite Z.sub_0_r. done.
  - rewrite zlen_cons in *. pose proof (zlen_nonneg rest). rewrite seqZ_cons by lia.
    replace (Z.pred (1 + zlen rest)) with (zlen rest) by lia. cbn [foldm].
    rewrite rename_slab_step, bind_Done.
    assert (nameless o al (length pre) s = 0 ∨ nameless o al (length pre) s = 1) as Hn
      by (unfold nameless, b2z; case_match; auto).
    specialize (IH (pre ++ [renamed o al (length pre) s])
      (actual - nameless o al (length pre) s) ltac:(lia)).
    rewrite zlen_app, <- app_assoc in IH. cbn [app] in IH.
    change (zlen [renamed o al (length pre) s]) with 1 in IH.
    replace (if nameless o al (length pre) s =? 0 then actual else i32 (actual - 1))
      with (actual - nameless o al (length pre) s)
      by (destruct Hn as [-> | ->]; cbn; [lia|rewrite i32_small by lia; lia]).
    replace (Z.succ (zlen pre)) with (zlen pre + 1) by lia. rewrite IH.
    rewrite length_app, <- app_assoc. cbn [app imap length sum_nameless].
    rewrite Nat.add_0_r, Nat.add_1_r. do 2 f_equal; [|lia]. do 2 f_equal.
    apply imap_ext. intros i x _. cbn. f_equal. lia.
Qed.

(** [rename_slabs] changes the name of exactly the slabs that start with a
    colon and have at most one alias (or any, with [-f]): to the name of an
    alias of that slab, one that starts with kmall or else one of the longest
    (not the shortest), and to [*] when it has no alias; [actual_slabs] goes
    down by the number of the latter. *)
Theorem rename_slabs_spec o al sl :
  zlen sl ≤ MAX_SLABS →
  rename_slabs o al sl (zlen sl) =
    Done (imap (renamed o al) sl, zlen sl - sum_nameless o al 0 sl) ∧
  ∀ k s, sl !! k = Some s → keeps_name o s = false →
    (∃ a, chosen al (Z.of_nat k) a ∧ renamed o al k s = s <| s_name := a_name a |> ∧
          nameless o al k s = 0) ∨
    (∀ a, a ∈ al → a_slab a ≠ Some (Z.of_nat k)) ∧
    renamed o al k s = s <| s_name := "*" |> ∧ nameless o al k s = 1.
Proof.
  unfold MAX_SLABS. intros Hz. split.
  - unfold rename_slabs. apply (rename_loop o al sl [] (zlen sl)). lia.
  - intros k s _ Hk. unfold renamed, nameless. rewrite Hk.
    pose proof (find_one_alias_spec al (Z.of_nat k)) as Hs.
    destruct (find_one_alias al (Z.of_nat k)) as [a|]; [left; by exists a|by right].
Qed.

Lemma rename_slabs_spec_witness :
  rename_slabs opts_start [mk_aliasinfo "ab" ":x" (Some 0); mk_aliasinfo "abcd" ":x" (Some 0)]
    [demo_slab ":x" 1 1 8; demo_slab ":y" 5 1 192; demo_slab "z" 5 1 192] 3 =
  Done ([demo_slab "abcd" 1 1 8; demo_slab "*" 5 1 192; demo_slab "z" 5 1 192], 2).
Proof.
  refine (proj1 (rename_slabs_spec opts_start
    [mk_aliasinfo "ab" ":x" (Some 0); mk_aliasinfo "abcd" ":x" (Some 0)]
    [demo_slab ":x" 1 1 8; demo_slab ":y" 5 1 192; demo_slab "z" 5 1 192] _)).
  vm_compute. discriminate.
Defined.
