(* ===== verification/SlabReport.v ===== *)
(** * slabinfo: reports, totals and debug settings

    What [mem/vm/slabinfo.c] prints for one slab ([slab_numa],
    [show_tracking], [ops], [slab_stats], [report], [slabcache]), the summary
    over all slabs ([totals]) and the changes it makes ([slab_validate],
    [slab_shrink], [slab_debug]). *)

From S2P Require Import Prelude CLib SlabAttr SlabLink.

(** The slab without a name, skipped everywhere. *)
Definition starred (s : slabinfo) : bool := strcmp (s_name s) "*" =? 0.

Definition slab_validate (Y : slab_sys) (s : slabinfo) (w : world) : res world :=
  if starred s then Done w else set_obj Y s "validate" 1 w.

Definition slab_shrink (Y : slab_sys) (s : slabinfo) (w : world) : res world :=
  if starred s then Done w else set_obj Y s "shrink" 1 w.

Definition first_line (o : slab_opts) : string :=
  if show_activity o then
    "Name                   Objects      Alloc       Free   %Fast Fallb O CmpX   UL" +:+ nl
  else
    "Name                   Objects Objsize           " +:+
    (if sort_loss o then " Loss" else "Space") +:+
    " Slabs/Part/Cpu  O/S O %Fr %Ef Flg" +:+ nl.

(** ** NUMA nodes *)

(** [for (node = 0; node <= highest_node; node++)] printing. *)
Definition nodes_text (highest : Z) (txt : Z → res string) : res string :=
  foldm (fun node acc => t ← txt node; Done (acc +:+ t)) (seqZ 0 (highest + 1)) "".

(** [store_size(b, numa[node]); printf(" %4s", b)]. *)
Definition node_size (o : slab_opts) (numa : list Z) (node : Z) : res string :=
  v ← aget numa node;
  b ← size_text o (u64 v);
  Done (" " +:+ padl " " 4 b).

Definition slab_numa (o : slab_opts) (highest : Z) (s : slabinfo) (mode : bool) (w : world)
    : res world :=
  if starred s then Done w
  else if highest =? 0 then
    Done (printf (nl +:+ s_name s +:+ ": No NUMA information available." +:+ nl) w)
  else if skip_zero o && (s_slabs s =? 0) then Done w
  else
    w ← (if line w =? 0 then
           cols ← nodes_text highest (fun node => Done (" " +:+ padl " " 4 (dec node)));
           bars ← nodes_text highest (fun _ => Done "-----");
           Done (printf (nl +:+ padr 21 (if mode then "NUMA nodes" else "Slab") +:+ ":" +:+ cols +:+
                         nl +:+ "----------------------" +:+ bars +:+ nl) w)
         else Done w);
    sizes ← nodes_text highest (node_size o (s_numa s));
    let w := printf (padr 21 (if mode then "All slabs" else s_name s) +:+ " " +:+ sizes +:+ nl) w in
    w ← (if mode then
           sizes ← nodes_text highest (node_size o (s_numa_partial s));
           Done (printf (padr 21 "Partial slabs" +:+ " " +:+ sizes +:+ nl) w)
         else Done w);
    Done (w <| line := i32 (line w + 1) |>).

(** ** Call tracking and operations *)

Definition show_tracking (Y : slab_sys) (s : slabinfo) (w : world) : res world :=
  '(l1, text1) ← read_slab_obj Y s "alloc_calls";
  '(l2, text2) ← read_slab_obj Y s "free_calls";
  Done (printf (nl +:+ s_name s +:+ ": Kernel object allocation" +:+ nl +:+
    rep "-" 71 +:+ nl +:+ (if l1 =? 0 then "No Data" +:+ nl else text1) +:+
    nl +:+ s_name s +:+ ": Kernel object freeing" +:+ nl +:+
    rep "-" 72 +:+ nl +:+ (if l2 =? 0 then "No Data" +:+ nl else text2)) w).

Definition ops (Y : slab_sys) (s : slabinfo) (w : world) : res world :=
  if starred s then Done w
  else
    '(l, text) ← read_slab_obj Y s "ops";
    if l =? 0 then Done (printf (nl +:+ s_name s +:+ " has no kmem_cache operations" +:+ nl) w)
    else Done (printf (nl +:+ s_name s +:+ ": kmem_cache operations" +:+ nl +:+
                       rep "-" 44 +:+ nl +:+ text) w).

Definition onoff (x : Z) : string := if x =? 0 then "Off" else "On ".

(** ** Performance counters *)

(** [a * 100 / total] of [unsigned long]s. *)
Definition percent (a total : Z) : res Z := udiv (u64 (a * 100)) total.

(** One row: counts of allocations and frees with their percentages. *)
Definition perf_row (label : string) (al fr total_alloc total_free : Z) : res string :=
  pa ← percent al total_alloc;
  pf ← (if total_free =? 0 then Done 0 else percent fr total_free);
  Done (label +:+ padl " " 8 (dec al) +:+ " " +:+ padl " " 8 (dec fr) +:+ " " +:+
        padl " " 3 (dec pa) +:+ " " +:+ padl " " 3 (dec pf) +:+ nl).

Definition deactivation_row (label : string) (n total : Z) : res string :=
  p ← percent n total;
  Done (label +:+ padl " " 7 (dec n) +:+ "  " +:+ padl " " 3 (dec p) +:+ "%" +:+ nl).

Definition slab_stats (s : slabinfo) : res string :=
  if s_alloc_slab s =? 0 then Done ""
  else
    let total_alloc := u64 (s_alloc_fastpath s + s_alloc_slowpath s) in
    let total_free := u64 (s_free_fastpath s + s_free_slowpath s) in
    if total_alloc =? 0 then Done ""
    else
      let slow := u64 (total_alloc - s_alloc_fastpath s) in
      let partial := u64 (s_deactivate_to_head s + s_deactivate_to_tail s) in
      r1 ← perf_row "Fastpath             " (s_alloc_fastpath s) (s_free_fastpath s) total_alloc total_free;
      r2 ← perf_row "Slowpath             " slow (s_free_slowpath s) total_alloc total_free;
      r3 ← perf_row "Page Alloc           " (s_alloc_slab s) (s_free_slab s) total_alloc total_free;
      r4 ← perf_row "Add partial          " partial (s_free_add_partial s) total_alloc total_free;
      r5 ← perf_row "Remove partial       " (s_alloc_from_partial s) (s_free_remove_partial s) total_alloc total_free;
      r6 ← perf_row "Cpu partial list     " (s_cpu_partial_alloc s) (s_cpu_partial_free s) total_alloc total_free;
      r7 ← perf_row "RemoteObj/SlabFrozen " (s_deactivate_remote_frees s) (s_free_frozen s) total_alloc total_free;
      let total := u64 (s_deactivate_full s + s_deactivate_empty s + s_deactivate_to_head s +
                        s_deactivate_to_tail s + s_deactivate_bypass s) in
      deact ← (if total =? 0 then Done ""
               else
                 d1 ← deactivation_row "Slab full                     " (s_deactivate_full s) total;
                 d2 ← deactivation_row "Slab empty                    " (s_deactivate_empty s) total;
                 d3 ← deactivation_row "Moved to head of partial list " (s_deactivate_to_head s) total;
                 d4 ← deactivation_row "Moved to tail of partial list " (s_deactivate_to_tail s) total;
                 d5 ← deactivation_row "Deactivation bypass           " (s_deactivate_bypass s) total;
                 d6 ← deactivation_row "Refilled from foreign frees   " (s_alloc_refill s) total;
                 d7 ← deactivation_row "Node mismatch                 " (s_alloc_node_mismatch s) total;
                 Done (nl +:+ "Slab Deactivation             Occurrences %" +:+ nl +:+
                       rep "-" 49 +:+ nl +:+ d1 +:+ d2 +:+ d3 +:+ d4 +:+ d5 +:+ d6 +:+ d7));
      Done (nl +:+ "Slab Perf Counter       Alloc     Free %Al %Fr" +:+ nl +:+ rep "-" 50 +:+ nl +:+
            r1 +:+ r2 +:+ r3 +:+ r4 +:+ r5 +:+ r6 +:+ r7 +:+
            "Total                " +:+ padl " " 8 (dec total_alloc) +:+ " " +:+
            padl " " 8 (dec total_free) +:+ nl +:+ nl +:+
            (if s_cpuslab_flush s =? 0 then ""
             else "Flushes " +:+ padl " " 8 (dec (s_cpuslab_flush s)) +:+ nl) +:+
            deact +:+
            (if (s_cmpxchg_double_fail s =? 0) && (s_cmpxchg_double_cpu_fail s =? 0) then ""
             else nl +:+ "Cmpxchg_double Looping" +:+ nl +:+ rep "-" 24 +:+ nl +:+
                  "Locked Cmpxchg Double redos   " +:+ dec (s_cmpxchg_double_fail s) +:+ nl +:+
                  "Unlocked Cmpxchg Double redos " +:+ dec (s_cmpxchg_double_cpu_fail s) +:+ nl)).

(** ** The detailed report *)

(** [%7d] of an [unsigned int] and [%7ld] of an [unsigned long]. *)
Definition d7 (x : Z) : string := padl " " 7 (dec (i32 x)).
Definition ld7 (x : Z) : string := padl " " 7 (dec (i64 x)).

Definition report_flags (s : slabinfo) : string :=
  (if s_hwcache_align s =? 0 then "" else "** Hardware cacheline aligned" +:+ nl) +:+
  (if s_cache_dma s =? 0 then "" else "** Memory is allocated in a special DMA zone" +:+ nl) +:+
  (if s_destroy_by_rcu s =? 0 then "" else "** Slabs are destroyed via RCU" +:+ nl) +:+
  (if s_reclaim_account s =? 0 then "" else "** Reclaim accounting active" +:+ nl).

Definition report_table (Y : slab_sys) (s : slabinfo) : string :=
  let bytes := slab_bytes Y s in
  let used := u64 (s_objects s * s_object_size s) in
  let loss := u32 (s_slab_size s - s_object_size s) in
  nl +:+ "Sizes (bytes)     Slabs              Debug                Memory" +:+ nl +:+
  rep "-" 72 +:+ nl +:+
  "Object : " +:+ d7 (s_object_size s) +:+ "  Total  : " +:+ ld7 (s_slabs s) +:+
  "   Sanity Checks : " +:+ onoff (s_sanity_checks s) +:+ "  Total: " +:+
  ld7 (u64 (s_slabs s * bytes)) +:+ nl +:+
  "SlabObj: " +:+ d7 (s_slab_size s) +:+ "  Full   : " +:+
  ld7 (u64 (s_slabs s - s_partial s - s_cpu_slabs s)) +:+
  "   Redzoning     : " +:+ onoff (s_red_zone s) +:+ "  Used : " +:+ ld7 used +:+ nl +:+
  "SlabSiz: " +:+ d7 bytes +:+ "  Partial: " +:+ ld7 (s_partial s) +:+
  "   Poisoning     : " +:+ onoff (s_poison s) +:+ "  Loss : " +:+
  ld7 (u64 (u64 (s_slabs s * bytes) - used)) +:+ nl +:+
  "Loss   : " +:+ d7 loss +:+ "  CpuSlab: " +:+ d7 (s_cpu_slabs s) +:+
  "   Tracking      : " +:+ onoff (s_store_user s) +:+ "  Lalig: " +:+
  ld7 (u64 (loss * s_objects s)) +:+ nl +:+
  "Align  : " +:+ d7 (s_align s) +:+ "  Objects: " +:+ d7 (s_objs_per_slab s) +:+
  "   Tracing       : " +:+ onoff (s_trace s) +:+ "  Lpadd: " +:+
  ld7 (u64 (u32 (bytes - u32 (s_objs_per_slab s * s_slab_size s)) * s_slabs s)) +:+ nl.

Definition report (Y : slab_sys) (o : slab_opts) (highest : Z) (s : slabinfo) (w : world) : res world :=
  if starred s then Done w
  else
    let w := printf (nl +:+ "Slabcache: " +:+ padr 15 (s_name s) +:+ "  Aliases: " +:+
      padl " " 2 (dec (s_aliases s)) +:+ " Order : " +:+ padl " " 2 (dec (s_order s)) +:+
      " Objects: " +:+ dec (s_objects s) +:+ nl +:+ report_flags s +:+ report_table Y s) w in
    w ← ops Y s w;
    w ← show_tracking Y s w;
    w ← slab_numa o highest s true w;
    text ← slab_stats s;
    Done (printf text w).

(** ** One line per slab *)

Definition flag_letters (s : slabinfo) : string :=
  let letter x (c : string) := if x =? 0 then "" else c in
  letter (s_aliases s) "*" +:+ letter (s_cache_dma s) "d" +:+ letter (s_hwcache_align s) "A" +:+
  letter (s_poison s) "P" +:+ letter (s_reclaim_account s) "a" +:+ letter (s_red_zone s) "Z" +:+
  letter (s_sanity_checks s) "F" +:+ letter (s_store_user s) "U" +:+ letter (s_trace s) "T".

Definition activity_line (s : slabinfo) : res string :=
  let ld n x := padl " " n (dec (i64 x)) in
  let total_alloc := u64 (s_alloc_fastpath s + s_alloc_slowpath s) in
  let total_free := u64 (s_free_fastpath s + s_free_slowpath s) in
  pa ← (if total_alloc =? 0 then Done 0 else percent (s_alloc_fastpath s) total_alloc);
  pf ← (if total_free =? 0 then Done 0 else percent (s_free_fastpath s) total_free);
  Done (padr 21 (s_name s) +:+ " " +:+ ld 8 (s_objects s) +:+ " " +:+ ld 10 total_alloc +:+ " " +:+
    ld 10 total_free +:+ " " +:+ ld 3 pa +:+ " " +:+ ld 3 pf +:+ " " +:+ ld 5 (s_order_fallback s) +:+
    " " +:+ padl " " 1 (dec (s_order s)) +:+ " " +:+ ld 4 (s_cmpxchg_double_fail s) +:+ " " +:+
    ld 4 (s_cmpxchg_double_cpu_fail s) +:+ nl).

Definition size_line (Y : slab_sys) (s : slabinfo) (size_str dist_str : string) : res string :=
  pp ← (if s_slabs s =? 0 then Done 100 else percent (s_partial s) (s_slabs s));
  pe ← (if s_slabs s =? 0 then Done 100
        else udiv (u64 (s_objects s * s_object_size s * 100)) (slab_size Y s));
  Done (padr 21 (s_name s) +:+ " " +:+ padl " " 8 (dec (i64 (s_objects s))) +:+ " " +:+
    d7 (s_object_size s) +:+ " " +:+ padl " " 15 size_str +:+ " " +:+ padl " " 14 dist_str +:+ " " +:+
    padl " " 4 (dec (i32 (s_objs_per_slab s))) +:+ " " +:+ padl " " 1 (dec (s_order s)) +:+ " " +:+
    padl " " 3 (dec (i64 pp)) +:+ " " +:+ padl " " 3 (dec (i64 pe)) +:+ " " +:+ flag_letters s +:+ nl).

Definition slabcache (Y : slab_sys) (o : slab_opts) (highest actual_slabs : Z) (s : slabinfo) (w : world)
    : res world :=
  if starred s then Done w
  else if unreclaim_only o && negb (s_reclaim_account s =? 0) then Done w
  else if actual_slabs =? 1 then report Y o highest s w
  else if skip_zero o && negb (show_empty o) && (s_slabs s =? 0) then Done w
  else if show_empty o && negb (s_slabs s =? 0) then Done w
  else
    size_str ← size_text o (if sort_loss o then slab_waste Y s else slab_size Y s);
    let dist_str := String.substring 0 39
      (dec (u64 (s_slabs s - s_cpu_slabs s)) +:+ "/" +:+ dec (s_partial s) +:+ "/" +:+
       dec (s_cpu_slabs s)) in
    let w := if line w =? 0 then printf (first_line o) w else w in
    let w := w <| line := i32 (line w + 1) |> in
    text ← (if show_activity o then activity_line s else size_line Y s size_str dist_str);
    Done (printf text w).

(** ** Debug options *)

(** The letters of [-d]: [None] when one is unknown or given twice. *)
Definition debug_letter (c : ascii) (o : slab_opts) : option slab_opts :=
  let on (cur : bool) o' := if cur then None else Some o' in
  if Ascii.eqb c "F" || Ascii.eqb c "f" then on (sanity o) (o <| sanity := true |>)
  else if Ascii.eqb c "P" || Ascii.eqb c "p" then on (poison o) (o <| poison := true |>)
  else if Ascii.eqb c "Z" || Ascii.eqb c "z" then on (redzone o) (o <| redzone := true |>)
  else if Ascii.eqb c "U" || Ascii.eqb c "u" then on (tracking o) (o <| tracking := true |>)
  else if Ascii.eqb c "T" || Ascii.eqb c "t" then on (tracing o) (o <| tracing := true |>)
  else None.

Fixpoint debug_letters (opt : string) (o : slab_opts) : option slab_opts :=
  match opt with
  | EmptyString => Some o
  | String c opt => match debug_letter c o with Some o => debug_letters opt o | None => None end
  end.

(** The settings after [debug_opt_scan] answers 1, [None] for 0. *)
Definition debug_opt_scan (opt : option string) (o : slab_opts) : option slab_opts :=
  match opt with
  | None => Some o
  | Some opt =>
      if (strlen opt =? 0) || (strcmp opt "-" =? 0) then Some o
      else if strcasecmp opt "a" =? 0 then
        Some (o <| sanity := true |> <| poison := true |> <| redzone := true |> <| tracking := true |>)
      else debug_letters opt o
  end.

(** Whether the slab is empty; an empty slab that still has pages is shrunk. *)
Definition slab_empty (Y : slab_sys) (s : slabinfo) (w : world) : res (bool * world) :=
  if 0 <? s_objects s then Done (false, w)
  else
    w ← (if negb (s_slabs s =? 0) then set_obj Y s "shrink" 1 w else Done w);
    Done (true, w).

(** [if (slab_empty(s)) set_obj(s, name, n); else complain]. *)
Definition set_if_empty (Y : slab_sys) (s : slabinfo) (name : string) (n : Z) (what : string)
    (w : world) : res world :=
  '(e, w) ← slab_empty Y s w;
  if e : bool then set_obj Y s name n w
  else Done (eprintf (s_name s +:+ " not empty cannot " +:+ what +:+ nl) w).

Definition slab_debug (Y : slab_sys) (o : slab_opts) (slabs : Z) (s : slabinfo) (w : world) : res world :=
  let when (c : bool) (f : world → res world) w := if c then f w else Done w in
  let has x := negb (x =? 0) in
  if starred s then Done w
  else
    w ← when (sanity o && negb (has (s_sanity_checks s))) (set_obj Y s "sanity_checks" 1) w;
    w ← when (negb (sanity o) && has (s_sanity_checks s))
          (set_if_empty Y s "sanity_checks" 0 "disable sanity checks") w;
    w ← when (redzone o && negb (has (s_red_zone s)))
          (set_if_empty Y s "red_zone" 1 "enable redzoning") w;
    w ← when (negb (redzone o) && has (s_red_zone s))
          (set_if_empty Y s "red_zone" 0 "disable redzoning") w;
    w ← when (poison o && negb (has (s_poison s)))
          (set_if_empty Y s "poison" 1 "enable poisoning") w;
    w ← when (negb (poison o) && has (s_poison s))
          (set_if_empty Y s "poison" 0 "disable poisoning") w;
    w ← when (tracking o && negb (has (s_store_user s)))
          (set_if_empty Y s "store_user" 1 "enable tracking") w;
    w ← when (negb (tracking o) && has (s_store_user s))
          (set_if_empty Y s "store_user" 0 "disable tracking") w;
    w ← when (tracing o && negb (has (s_trace s)))
          (fun w => if slabs =? 1 then set_obj Y s "trace" 1 w
                    else Done (eprintf (s_name s +:+
                           " can only enable trace for one slab at a time" +:+ nl) w)) w;
    when (negb (tracing o) && has (s_trace s)) (set_obj Y s "trace" 1) w.

(** ** Totals *)

(** The smallest and the largest value of a figure. *)
Record range := mk_range { lo : Z; hi : Z }.
Definition range_add (r : range) (v : Z) : range :=
  mk_range (if v <? lo r then v else lo r) (if hi r <? v then v else hi r).

(** The variables of [totals]: a range and where there is one a sum for each
    figure. *)
Record tally := mk_tally {
  used_slabs : Z;
  r_objsize : range;
  r_partial : range;
  r_slabs : range;
  r_size : range;
  r_used : range;
  r_waste : range;
  r_objects : range;
  r_objwaste : range;
  r_memobj : range;
  r_ppart : range;
  r_partobj : range;
  r_ppartobj : range;
  total_partial : Z;
  total_slabs : Z;
  total_size : Z;
  total_used : Z;
  total_waste : Z;
  total_objects : Z;
  total_objwaste : Z;
  total_objsize : Z;
  total_ppart : Z;
  total_partobj : Z;
  total_ppartobj : Z
}.

Definition tally_start : tally :=
  let max := mk_range (2 ^ 63) 0 in
  let pct := mk_range 100 0 in
  mk_tally 0 max max max max max max max max max pct max pct 0 0 0 0 0 0 0 0 0 0 0.

(** The figures of a slab. *)
Definition slab_used (s : slabinfo) : Z := u64 (s_objects s * s_object_size s).
Definition slab_wasted (Y : slab_sys) (s : slabinfo) : Z := u64 (slab_size Y s - slab_used s).
Definition slab_objwaste (s : slabinfo) : Z := u32 (s_slab_size s - s_object_size s).
Definition percentage_partial_slabs (s : slabinfo) : Z :=
  Z.min 100 (u64 (s_partial s * 100) / s_slabs s).
Definition percentage_partial_objs (s : slabinfo) : Z :=
  Z.min 100 (u64 (s_objects_partial s * 100) / s_objects s).

(** The body of the loop for a slab in use. *)
Definition tally_add (Y : slab_sys) (t : tally) (s : slabinfo) : tally :=
  mk_tally (used_slabs t + 1)
    (range_add (r_objsize t) (s_object_size s))
    (range_add (r_partial t) (s_partial s))
    (range_add (r_slabs t) (s_slabs s))
    (range_add (r_size t) (slab_size Y s))
    (range_add (r_used t) (slab_used s))
    (range_add (r_waste t) (slab_wasted Y s))
    (range_add (r_objects t) (s_objects s))
    (range_add (r_objwaste t) (slab_objwaste s))
    (range_add (r_memobj t) (s_slab_size s))
    (range_add (r_ppart t) (percentage_partial_slabs s))
    (range_add (r_partobj t) (s_objects_partial s))
    (range_add (r_ppartobj t) (percentage_partial_objs s))
    (u64 (total_partial t + s_partial s))
    (u64 (total_slabs t + s_slabs s))
    (u64 (total_size t + slab_size Y s))
    (u64 (total_used t + slab_used s))
    (u64 (total_waste t + slab_wasted Y s))
    (u64 (total_objects t + s_objects s))
    (u64 (total_objwaste t + s_objects s * slab_objwaste s))
    (u64 (total_objsize t + s_objects s * s_slab_size s))
    (u64 (total_ppart t + percentage_partial_slabs s))
    (u64 (total_partobj t + s_objects_partial s))
    (u64 (total_ppartobj t + percentage_partial_objs s)).

(** [if (!s->slabs || !s->objects) continue]. *)
Definition in_use (s : slabinfo) : bool := negb (s_slabs s =? 0) && negb (s_objects s =? 0).

Definition tally_slabs (Y : slab_sys) (l : list slabinfo) : tally :=
  foldl (fun t s => if in_use s then tally_add Y t s else t) tally_start l.

(** Four sizes and a row of three or four columns of 15. *)
Definition totals_row (o : slab_opts) (label sep : string) (vs : list Z) : res string :=
  text ← foldm (fun v acc => b ← size_text o v;
                  Done (acc +:+ (if strlen acc =? 0 then "" else sep) +:+ padl " " 15 b)) vs "";
  Done (label +:+ text).

Definition totals (Y : slab_sys) (o : slab_opts) (sl : list slabinfo) (aliases alias_targets : Z)
    (w : world) : res world :=
  let t := tally_slabs Y sl in
  let ranges r := [lo r; hi r] in
  if total_objects t =? 0 then Done (printf ("No objects" +:+ nl) w)
  else if used_slabs t =? 0 then Done (printf ("No slabs" +:+ nl) w)
  else
    let avg x := x / used_slabs t in
    let avg_objsize := total_used t / total_objects t in
    let avg_objwaste := total_objwaste t / total_objects t in
    let avg_partobj := u64 (total_partobj t * 100) / total_objects t in
    let avg_memobj := total_objsize t / total_objects t in
    b1 ← size_text o (total_size t);
    b2 ← size_text o (total_waste t);
    mratio ← udiv (u64 (total_waste t * 100)) (total_used t);
    b3 ← size_text o mratio;
    c1 ← size_text o (total_objects t);
    c2 ← size_text o (total_partobj t);
    c3 ← size_text o avg_partobj;
    objects ← totals_row o "#Objects  " "  " ([avg (total_objects t)] ++ ranges (r_objects t) ++ [total_objects t]);
    slabs ← totals_row o "#Slabs    " "  " ([avg (total_slabs t)] ++ ranges (r_slabs t) ++ [total_slabs t]);
    partial ← totals_row o "#PartSlab " "  " ([avg (total_partial t)] ++ ranges (r_partial t) ++ [total_partial t]);
    pslabs ← udiv (u64 (total_partial t * 100)) (total_slabs t);
    ppart ← totals_row o "%PartSlab" "% " ([avg (total_ppart t)] ++ ranges (r_ppart t) ++ [pslabs]);
    partobj ← totals_row o "PartObjs  " "  " ([avg_partobj] ++ ranges (r_partobj t) ++ [total_partobj t]);
    ppartobj ← totals_row o "% PartObj" "% " ([avg (total_ppartobj t)] ++ ranges (r_ppartobj t) ++ [avg_partobj]);
    memory ← totals_row o "Memory    " "  " ([avg (total_size t)] ++ ranges (r_size t) ++ [total_size t]);
    used ← totals_row o "Used      " "  " ([avg (total_used t)] ++ ranges (r_used t) ++ [total_used t]);
    loss ← totals_row o "Loss      " "  " ([avg (total_waste t)] ++ ranges (r_waste t) ++ [total_waste t]);
    omemory ← totals_row o "Memory    " "  " (avg_memobj :: ranges (r_memobj t));
    ouser ← totals_row o "User      " "  " (avg_objsize :: ranges (r_objsize t));
    oloss ← totals_row o "Loss      " "  " (avg_objwaste :: ranges (r_objwaste t));
    Done (printf ("Slabcache Totals" +:+ nl +:+ "----------------" +:+ nl +:+
      "Slabcaches : " +:+ padl " " 15 (dec (zlen sl)) +:+ "   Aliases  : " +:+
      padl " " 11 (dec aliases) +:+ "->" +:+ padr 3 (dec alias_targets) +:+ "  Active:    " +:+
      padl " " 3 (dec (used_slabs t)) +:+ nl +:+
      "Memory used: " +:+ padl " " 15 b1 +:+ "   # Loss   : " +:+ padl " " 15 b2 +:+
      "   MRatio:" +:+ padl " " 6 b3 +:+ "%" +:+ nl +:+
      "# Objects  : " +:+ padl " " 15 c1 +:+ "   # PartObj: " +:+ padl " " 15 c2 +:+
      "   ORatio:" +:+ padl " " 6 c3 +:+ "%" +:+ nl +:+ nl +:+
      "Per Cache         Average              Min              Max            Total" +:+ nl +:+
      rep "-" 76 +:+ nl +:+
      objects +:+ nl +:+ slabs +:+ nl +:+ partial +:+ nl +:+ ppart +:+ "%" +:+ nl +:+
      partobj +:+ nl +:+ ppartobj +:+ "%" +:+ nl +:+ memory +:+ nl +:+ used +:+ nl +:+ loss +:+ nl +:+
      nl +:+ "Per Object        Average              Min              Max" +:+ nl +:+
      rep "-" 59 +:+ nl +:+
      omemory +:+ nl +:+ ouser +:+ nl +:+ oloss +:+ nl) w).

(** ** What the debug settings do *)

(** The value of an attribute after some writes. *)
Definition after (ws : list (string * Z)) (path : string) (old : Z) : Z :=
  foldl (fun v x => if bool_decide (fst x = path) then snd x else v) old ws.

Lemma after_app ws ws' p old : after (ws ++ ws') p old = after ws' p (after ws p old).
Proof. unfold after. by rewrite foldl_app. Qed.

Section Debug.
Context (Y : slab_sys) (s : slabinfo).
Context (writable : ∀ p, can_write Y p = true).
Context (short : strlen (s_name s) ≤ 80).

(** An empty slab is shrunk before a setting is written. *)
Definition shrink_first : list (string * Z) :=
  if s_slabs s =? 0 then [] else [(obj_path s "shrink", 1)].

Definition setting (c : bool) (name : string) (n : Z) : list (string * Z) :=
  if c && negb (0 <? s_objects s) then shrink_first ++ [(obj_path s name, n)] else [].

Lemma set_obj_writes name n w :
  set_obj Y s name n w = Done (w <| writes := writes w ++ [(obj_path s name, n)] |>).
Proof. unfold set_obj. by rewrite writable. Qed.

Lemma set_if_empty_writes (c : bool) name n what w :
  ∃ w', (if c then set_if_empty Y s name n what w else Done w) = Done w' ∧
    writes w' = writes w ++ setting c name n.
Proof.
  unfold setting. destruct c; cbn [andb]; [|exists w; by rewrite app_nil_r].
  unfold set_if_empty, slab_empty, shrink_first.
  destruct (0 <? s_objects s); cbn [negb mbind res_bind].
  - eexists. split; [done|]. cbn. by rewrite app_nil_r.
  - destruct (s_slabs s =? 0); cbn [negb]; rewrite ?set_obj_writes; cbn [mbind res_bind].
    + rewrite set_obj_writes. eexists. by split.
    + rewrite set_obj_writes. eexists. split; [done|]. cbn. by rewrite <- app_assoc.
Qed.

(** The attributes are different files. *)
Lemma obj_path_inj a b :
  strlen a ≤ 18 → strlen b ≤ 18 → obj_path s a = obj_path s b → a = b.
Proof.
  intros Ha Hb. unfold obj_path.
  rewrite !substring_all by (rewrite !strlen_app; change (strlen "/") with 1; lia).
  rewrite <- !string_app_assoc. generalize (s_name s +:+ "/"). intros p.
  induction p as [|c p IH]; [done|]. intros [= E]. by apply IH.
Qed.

Lemma after_setting c a n b old :
  strlen a ≤ 18 → strlen b ≤ 18 → b ≠ "shrink" →
  after (setting c a n) (obj_path s b) old =
    if c && negb (0 <? s_objects s) && bool_decide (a = b) then n else old.
Proof.
  intros Ha Hb Hs. unfold setting. destruct (c && negb (0 <? s_objects s)); [|done].
  assert (bool_decide (obj_path s a = obj_path s b) = bool_decide (a = b)) as E.
  { apply bool_decide_ext. split; [by apply obj_path_inj|by intros ->]. }
  assert (obj_path s "shrink" ≠ obj_path s b) as Es.
  { intros H. apply Hs. symmetry. apply (obj_path_inj "shrink" b); [by vm_compute|done|done]. }
  unfold shrink_first. destruct (s_slabs s =? 0); unfold after; cbn; rewrite E; [done|].
  by rewrite (bool_decide_false _ Es).
Qed.

(** An unconditional write. *)
Lemma after_write (c : bool) a n b old :
  strlen a ≤ 18 → strlen b ≤ 18 →
  after (if c then [(obj_path s a, n)] else []) (obj_path s b) old =
    if c && bool_decide (a = b) then n else old.
Proof.
  intros Ha Hb. destruct c; [|done]. unfold after. cbn.
  replace (bool_decide (obj_path s a = obj_path s b)) with (bool_decide (a = b)); [done|].
  apply bool_decide_ext. split; [by intros ->|by apply obj_path_inj].
Qed.

Lemma write_when (c : bool) name n w :
  ∃ w', (if c then set_obj Y s name n w else Done w) = Done w' ∧
    writes w' = writes w ++ (if c then [(obj_path s name, n)] else []).
Proof.
  destruct c; [rewrite set_obj_writes; by eexists|]. exists w. by rewrite app_nil_r.
Qed.

Definition on (x : Z) : bool := negb (x =? 0).

Ltac next c a n what w :=
  let w' := fresh "w" in let H := fresh "H" in
  destruct (set_if_empty_writes c a n what w) as (w' & -> & H); rewrite bind_Done.

(** Every write of [slab_debug], in order. *)
Lemma slab_debug_writes o slabs w :
  starred s = false →
  ∃ w', slab_debug Y o slabs s w = Done w' ∧
    writes w' = writes w ++
      (if sanity o && negb (on (s_sanity_checks s)) then [(obj_path s "sanity_checks", 1)] else []) ++
      setting (negb (sanity o) && on (s_sanity_checks s)) "sanity_checks" 0 ++
      setting (redzone o && negb (on (s_red_zone s))) "red_zone" 1 ++
      setting (negb (redzone o) && on (s_red_zone s)) "red_zone" 0 ++
      setting (poison o && negb (on (s_poison s))) "poison" 1 ++
      setting (negb (poison o) && on (s_poison s)) "poison" 0 ++
      setting (tracking o && negb (on (s_store_user s))) "store_user" 1 ++
      setting (negb (tracking o) && on (s_store_user s)) "store_user" 0 ++
      (if tracing o && negb (on (s_trace s)) && (slabs =? 1) then [(obj_path s "trace", 1)] else []) ++
      (if negb (tracing o) && on (s_trace s) then [(obj_path s "trace", 1)] else []).
Proof.
  intros Hst. unfold slab_debug. rewrite Hst. cbv zeta.
  change (fun x => negb (x =? 0)) with on. fold (on (s_sanity_checks s)) (on (s_red_zone s))
    (on (s_poison s)) (on (s_store_user s)) (on (s_trace s)).
  destruct (write_when (sanity o && negb (on (s_sanity_checks s))) "sanity_checks" 1 w)
    as (w1 & -> & H1). rewrite bind_Done.
  next (negb (sanity o) && on (s_sanity_checks s)) "sanity_checks" 0 "disable sanity checks" w1.
  next (redzone o && negb (on (s_red_zone s))) "red_zone" 1 "enable redzoning" w0.
  next (negb (redzone o) && on (s_red_zone s)) "red_zone" 0 "disable redzoning" w2.
  next (poison o && negb (on (s_poison s))) "poison" 1 "enable poisoning" w3.
  next (negb (poison o) && on (s_poison s)) "poison" 0 "disable poisoning" w4.
  next (tracking o && negb (on (s_store_user s))) "store_user" 1 "enable tracking" w5.
  next (negb (tracking o) && on (s_store_user s)) "store_user" 0 "disable tracking" w6.
  assert (∃ w9, (if tracing o && negb (on (s_trace s)) then
      (if slabs =? 1 then set_obj Y s "trace" 1 w7
       else Done (eprintf (s_name s +:+ " can only enable trace for one slab at a time" +:+ nl) w7))
      else Done w7) = Done w9 ∧ writes w9 = writes w7 ++
      (if tracing o && negb (on (s_trace s)) && (slabs =? 1) then [(obj_path s "trace", 1)] else []))
    as (w9 & -> & H9).
  { destruct (tracing o && negb (on (s_trace s))); cbn [andb];
      [|exists w7; by rewrite app_nil_r].
    destruct (slabs =? 1); [rewrite set_obj_writes; by eexists|].
    eexists. split; [done|]. cbn. by rewrite app_nil_r. }
  rewrite bind_Done.
  destruct (write_when (negb (tracing o) && on (s_trace s)) "trace" 1 w9) as (w10 & -> & H10).
  exists w10. split; [done|]. rewrite H10, H9. repeat match goal with
    | H : writes ?x = _ |- context [writes ?x] => rewrite H
    end. by rewrite <- !app_assoc.
Qed.
End Debug.

(** What [-d] does to a slab, when its files can be written.  On an empty
    slab sanity checks, redzoning, poisoning and tracking end up exactly as
    asked.  On a slab with objects only sanity checks change, and they are
    only switched on.  Tracing is switched on when the slab is the only one
    listed, and is never switched off: when tracing is not asked for, the tool
    writes 1 to [trace] as well. *)
Theorem slab_debug_spec Y o slabs s :
  (∀ p, can_write Y p = true) → strlen (s_name s) ≤ 80 → starred s = false →
  ∃ w', slab_debug Y o slabs s world_start = Done w' ∧
    let now a old := on (after (writes w') (obj_path s a) old) in
    let full := 0 <? s_objects s in
    now "sanity_checks" (s_sanity_checks s) = sanity o || (full && on (s_sanity_checks s)) ∧
    now "red_zone" (s_red_zone s) = (if full then on (s_red_zone s) else redzone o) ∧
    now "poison" (s_poison s) = (if full then on (s_poison s) else poison o) ∧
    now "store_user" (s_store_user s) = (if full then on (s_store_user s) else tracking o) ∧
    now "trace" (s_trace s) = on (s_trace s) || (tracing o && (slabs =? 1)).
Proof.
  intros Hw Hn Hst. destruct (slab_debug_writes Y s Hw o slabs world_start Hst) as (w' & E & Ew).
  exists w'. split; [done|]. cbv zeta. rewrite Ew. cbn [writes world_start app].
  rewrite !after_app, !after_write, !after_setting by (done || by vm_compute).
  unfold on. split_and!; repeat (case_bool_decide; try done); cbn [andb];
    rewrite ?andb_false_r, ?andb_true_r.
  all: repeat match goal with
    | |- context [sanity ?p] => destruct (sanity p)
    | |- context [redzone ?p] => destruct (redzone p)
    | |- context [poison ?p] => destruct (poison p)
    | |- context [tracking ?p] => destruct (tracking p)
    | |- context [tracing ?p] => destruct (tracing p)
    | |- context [0 <? ?y] => destruct (0 <? y)
    end; cbn [negb andb orb]; rewrite ?andb_false_r, ?andb_true_r, ?orb_false_r, ?orb_true_r.
  all: repeat (case_match; try done); lia.
Qed.

Lemma slab_debug_spec_witness :
  ∃ w', slab_debug demo_sys (opts_start <| redzone := true |>) 2 (demo_slab "dentry" 3 0 192) world_start = Done w' ∧
    let now a old := on (after (writes w') (obj_path (demo_slab "dentry" 3 0 192) a) old) in
    now "sanity_checks" 0 = false ∧ now "red_zone" 0 = true ∧ now "poison" 0 = false ∧
    now "store_user" 0 = false ∧ now "trace" 0 = false.
Proof.
  refine (slab_debug_spec demo_sys (opts_start <| redzone := true |>) 2
    (demo_slab "dentry" 3 0 192) _ _ _).
  - reflexivity.
  - vm_compute. discriminate.
  - reflexivity.
Defined.

(** ** What the totals are *)

(** The figures that have a sum: the figure of a slab, its range with the
    initial minimum, and its total. *)
Definition rows (Y : slab_sys) : list ((slabinfo → Z) * (tally → range) * Z * (tally → Z)) :=
  [(s_objects, r_objects, 2 ^ 63, total_objects);
   (s_slabs, r_slabs, 2 ^ 63, total_slabs);
   (s_partial, r_partial, 2 ^ 63, total_partial);
   (percentage_partial_slabs, r_ppart, 100, total_ppart);
   (s_objects_partial, r_partobj, 2 ^ 63, total_partobj);
   (percentage_partial_objs, r_ppartobj, 100, total_ppartobj);
   (slab_size Y, r_size, 2 ^ 63, total_size);
   (slab_used, r_used, 2 ^ 63, total_used);
   (slab_wasted Y, r_waste, 2 ^ 63, total_waste)].

(** A projection of a fold is a fold. *)
Lemma foldl_proj {S T R} (π : S → R) (f : S → T → S) (g : R → T → R) l s :
  (∀ s x, π (f s x) = g (π s) x) → π (foldl f s l) = foldl g (π s) l.
Proof.
  intros H. revert s. induction l as [|x l IH]; intros s; [done|]. cbn. by rewrite IH, H.
Qed.

Lemma foldl_filter {S T} (c : T → bool) (f : S → T → S) l s :
  foldl (fun s x => if c x then f s x else s) s l = foldl f s (filter c l).
Proof.
  revert s. induction l as [|x l IH]; intros s; [done|]. rewrite filter_cons. cbn.
  destruct (c x); cbn; apply IH.
Qed.

Lemma sum_fold {A} (m : A → Z) l acc :
  0 ≤ acc → Forall (fun x => 0 ≤ m x) l → acc + sum_of m l < 2 ^ 64 →
  foldl (fun t x => u64 (t + m x)) acc l = acc + sum_of m l.
Proof.
  revert acc. induction l as [|x l IH]; intros acc Ha Hl Hs; [cbn; lia|].
  apply Forall_cons in Hl as [Hx Hl]. cbn in *.
  assert (0 ≤ sum_of m l) by (clear - Hl; induction Hl; cbn; [done|unfold sum_of in *; lia]).
  rewrite u64_small by (unfold sum_of in *; lia). rewrite IH by (done || unfold sum_of in *; lia).
  unfold sum_of. lia.
Qed.

Lemma range_fold {A} (m : A → Z) l r :
  let r' := foldl (fun r x => range_add r (m x)) r l in
  lo r' ≤ lo r ∧ hi r ≤ hi r' ∧ (∀ x, x ∈ l → lo r' ≤ m x ≤ hi r') ∧
  (lo r' = lo r ∨ ∃ x, x ∈ l ∧ m x = lo r') ∧ (hi r' = hi r ∨ ∃ x, x ∈ l ∧ m x = hi r').
Proof.
  revert r. induction l as [|x l IH]; intros r; cbn.
  - split_and!; [lia|lia|set_solver|by left|by left].
  - specialize (IH (range_add r (m x))). cbv zeta in IH.
    set (r' := foldl _ _ l) in *. destruct IH as (H1 & H2 & H3 & H4 & H5).
    cbn [range_add lo hi] in *.
    assert (∀ y, y ∈ l → y ∈ x :: l) as Hsub by set_solver.
    split_and!.
    + destruct (Z.ltb_spec (m x) (lo r)); lia.
    + destruct (Z.ltb_spec (hi r) (m x)); lia.
    + intros y [-> | Hy]%elem_of_cons; [|by apply H3].
      destruct (Z.ltb_spec (m x) (lo r)), (Z.ltb_spec (hi r) (m x)); lia.
    + destruct H4 as [E|(y & Hy & E)]; [|right; eauto].
      destruct (Z.ltb_spec (m x) (lo r)); [right; exists x; split; [by left|done]|by left].
    + destruct H5 as [E|(y & Hy & E)]; [|right; eauto].
      destruct (Z.ltb_spec (hi r) (m x)); [right; exists x; split; [by left|done]|by left].
Qed.

(** Each row of the table is a fold of its own. *)
Lemma tally_row Y l m r i tot :
  (m, r, i, tot) ∈ rows Y →
  r (tally_slabs Y l) = foldl (fun r s => range_add r (m s)) (mk_range i 0) (filter in_use l) ∧
  tot (tally_slabs Y l) = foldl (fun t s => u64 (t + m s)) 0 (filter in_use l) ∧
  used_slabs (tally_slabs Y l) = foldl (fun t (_ : slabinfo) => t + 1) 0 (filter in_use l).
Proof.
  intros Hin. unfold tally_slabs. rewrite foldl_filter.
  assert ((∀ t s, r (tally_add Y t s) = range_add (r t) (m s)) ∧
    (∀ t s, tot (tally_add Y t s) = u64 (tot t + m s)) ∧
    r tally_start = mk_range i 0 ∧ tot tally_start = 0) as (Hr & Ht & Er & Et).
  { unfold rows in Hin. repeat (apply elem_of_cons in Hin as [Hin|Hin]; [by simplify_eq|]).
    by apply elem_of_nil in Hin. }
  split_and!; [rewrite <- Er; by apply foldl_proj|rewrite <- Et; by apply foldl_proj|].
  by apply (foldl_proj used_slabs).
Qed.


