(* ===== verification/SlabMain.v ===== *)
(** * slabinfo: the slab directory, the output loop and main

    [read_slab_dir], [output_slabs], [xtotals] and [main] of
    [mem/vm/slabinfo.c].  [getopt_long] hands out the options as a list of a
    letter and its argument; [regcomp] either accepts the pattern or not. *)

From S2P Require Import Prelude CLib SlabAttr SlabLink SlabReport.

(** ** Reading the directory *)

(** What follows the last slash. *)
Fixpoint last_part (s cur : string) : string :=
  match s with
  | EmptyString => cur
  | String c r => if Ascii.eqb c "/" then last_part r r else last_part r cur
  end.

(** The tables as they are filled. *)
Record tables := mk_tables {
  t_slabs : list slabinfo;
  t_aliases : list aliasinfo;
  t_alias_targets : Z;
  t_highest_node : Z
}.
#[export] Instance tables_eta : Eta tables := fun t =>
  mk_tables (t_slabs t) (t_aliases t) (t_alias_targets t) (t_highest_node t).

Definition tables_start : tables := mk_tables [] [] 0 0.

(** The attributes of one slab, in the directory [d]. *)
Definition read_slab (Y : slab_sys) (d : string) (highest : Z) : res (slabinfo * Z) :=
  let obj a := get_obj Y (d +:+ "/" +:+ a) in
  let int a := i32 (obj a) in
  let uint a := u32 (obj a) in
  let '(partial, t) := get_obj_and_str Y (d +:+ "/" +:+ "partial") in
  '(numa_partial, highest) ← decode_numa_list t highest;
  let '(slabs, t) := get_obj_and_str Y (d +:+ "/" +:+ "slabs") in
  '(numa, highest) ← decode_numa_list t highest;
  Done ({|
    s_name := d;
    s_alias := 0;
    s_refs := 0;
    s_aliases := int "aliases";
    s_align := int "align";
    s_cache_dma := int "cache_dma";
    s_cpu_slabs := int "cpu_slabs";
    s_destroy_by_rcu := int "destroy_by_rcu";
    s_hwcache_align := uint "hwcache_align";
    s_object_size := uint "object_size";
    s_objs_per_slab := uint "objs_per_slab";
    s_sanity_checks := uint "sanity_checks";
    s_slab_size := uint "slab_size";
    s_store_user := uint "store_user";
    s_trace := uint "trace";
    s_order := int "order";
    s_poison := int "poison";
    s_reclaim_account := int "reclaim_account";
    s_red_zone := int "red_zone";
    s_partial := partial;
    s_objects := obj "objects";
    s_slabs := slabs;
    s_objects_partial := obj "objects_partial";
    s_objects_total := obj "objects_total";
    s_alloc_fastpath := obj "alloc_fastpath";
    s_alloc_slowpath := obj "alloc_slowpath";
    s_free_fastpath := obj "free_fastpath";
    s_free_slowpath := obj "free_slowpath";
    s_free_frozen := obj "free_frozen";
    s_free_add_partial := obj "free_add_partial";
    s_free_remove_partial := obj "free_remove_partial";
    s_alloc_from_partial := obj "alloc_from_partial";
    s_alloc_slab := obj "alloc_slab";
    s_free_slab := obj "free_slab";
    s_alloc_refill := obj "alloc_refill";
    s_cpuslab_flush := obj "cpuslab_flush";
    s_deactivate_full := obj "deactivate_full";
    s_deactivate_empty := obj "deactivate_empty";
    s_deactivate_to_head := obj "deactivate_to_head";
    s_deactivate_to_tail := obj "deactivate_to_tail";
    s_deactivate_remote_frees := obj "deactivate_remote_frees";
    s_order_fallback := obj "order_fallback";
    s_cmpxchg_double_cpu_fail := obj "cmpxchg_double_cpu_fail";
    s_cmpxchg_double_fail := obj "cmpxchg_double_fail";
    s_alloc_node_mismatch := obj "alloc_node_mismatch";
    s_deactivate_bypass := obj "deactivate_bypass";
    s_cpu_partial_alloc := obj "cpu_partial_alloc";
    s_cpu_partial_free := obj "cpu_partial_free";
    s_numa := numa;
    s_numa_partial := numa_partial
  |}, highest).

(** Entries that are looked at: not hidden, and internal ([:]) or matching. *)
Definition selected (Y : slab_sys) (de : dirent) : bool :=
  match d_name de with
  | String "." _ => false
  | n => colon n || negb (slab_mismatch Y n)
  end.

Definition read_entry (Y : slab_sys) (de : dirent) (t : tables) : res tables :=
  if negb (selected Y de) then Done t
  else
    match d_kind de with
    | DT_LNK =>
        if negb (zlen (t_aliases t) <? MAX_ALIASES) then Wild
        else
          match link_target Y (d_name de) with
          | None => Die ("Cannot read symlink " +:+ d_name de +:+ nl)
          | Some target =>
              let buffer := String.substring 0 4095 target in
              let a := mk_aliasinfo (d_name de) (last_part buffer buffer) None in
              Done (t <| t_aliases := t_aliases t ++ [a] |>)
          end
    | DT_DIR =>
        if negb (can_enter Y (d_name de)) then Die "Unable to access slab"
        else if negb (zlen (t_slabs t) <? MAX_SLABS) then Wild
        else
          '(s, highest) ← read_slab Y (d_name de) (t_highest_node t);
          Done (t <| t_slabs := t_slabs t ++ [s] |>
                  <| t_highest_node := highest |>
                  <| t_alias_targets := t_alias_targets t + b2z (colon (s_name s)) |>)
    | DT_OTHER => Die "Unknown file type"
    end.

Definition read_slab_dir (Y : slab_sys) : res tables :=
  if negb (sysfs_slab Y) then Die ("SYSFS support for SLUB not active" +:+ nl)
  else
    t ← foldm (read_entry Y) (slab_entries Y) tables_start;
    if MAX_SLABS <? zlen (t_slabs t) then Die ("Too many slabs" +:+ nl)
    else if MAX_ALIASES <? zlen (t_aliases t) then Die ("Too many aliases" +:+ nl)
    else Done t.

(** ** Output *)

(** What is done for one slab. *)
Definition output_slab (Y : slab_sys) (o : slab_opts) (highest slabs actual : Z) (s : slabinfo)
    (w : world) : res world :=
  if show_numa o then slab_numa o highest s false w
  else if show_track o then show_tracking Y s w
  else if validate o then slab_validate Y s w
  else if shrink o then slab_shrink Y s w
  else if set_debug o then slab_debug Y o slabs s w
  else if show_ops o then ops Y s w
  else if show_slab o then slabcache Y o highest actual s w
  else if show_report o then report Y o highest s w
  else Done w.

Fixpoint output_from (f : slabinfo → world → res world) (l : list slabinfo) (lines : Z) (w : world)
    : res world :=
  match l with
  | [] => Done w
  | s :: l =>
      if lines =? 0 then Done w
      else if negb (s_alias s =? 0) then output_from f l lines w
      else
        let lines := if lines =? -1 then lines else lines - 1 in
        w ← f s w;
        output_from f l lines w
  end.

Definition output_slabs (Y : slab_sys) (o : slab_opts) (highest actual : Z) (sl : list slabinfo)
    (w : world) : res world :=
  output_from (output_slab Y o highest (zlen sl) actual) sl (output_lines o) w.

(** ** Extended totals *)

Definition _xtotals (Y : slab_sys) (highest actual : Z) (title : string) (loss size partial : bool)
    (st : slab_opts * list slabinfo * world) : res (slab_opts * list slabinfo * world) :=
  let '(o, sl, w) := st in
  let w := (printf title w) <| line := 0 |> in
  let o := o <| sort_loss := loss |> <| sort_size := size |> <| sort_partial := partial |> in
  sl ← sort_slabs Y o sl;
  w ← output_slabs Y o highest actual sl w;
  Done (o, sl, w).

Definition xtotals (Y : slab_sys) (o : slab_opts) (t : tables) (w : world) : res world :=
  let highest := t_highest_node t in
  w ← totals Y o (t_slabs t) (zlen (t_aliases t)) (t_alias_targets t) w;
  '(al, sl) ← link_slabs (t_aliases t) (t_slabs t);
  '(sl, actual) ← rename_slabs o al sl (zlen sl);
  st ← _xtotals Y highest actual
         (nl +:+ "Slabs sorted by size" +:+ nl +:+ rep "-" 20 +:+ nl) false true false (o, sl, w);
  st ← _xtotals Y highest actual
         (nl +:+ "Slabs sorted by loss" +:+ nl +:+ rep "-" 20 +:+ nl) true false false st;
  '(_, _, w) ← _xtotals Y highest actual
         (nl +:+ "Slabs sorted by number of partial slabs" +:+ nl +:+ rep "-" 39 +:+ nl)
         false false true st;
  Done (printf nl w).

(** ** Options and main *)

(** One option: [None] after [-h]. *)
Definition slab_option (x : ascii * option string) (o : slab_opts) : res (option slab_opts) :=
  let '(c, optarg) := x in
  let go o := Done (Some o) in
  let opt := Ascii.eqb c in
  if opt "a"%char then go (o <| show_alias := true |>)
  else if opt "A"%char then go (o <| sort_active := true |>)
  else if opt "B"%char then go (o <| show_bytes := true |>)
  else if opt "d"%char then
    match debug_opt_scan optarg (o <| set_debug := true |>) with
    | Some o => go o
    | None => Die "Invalid debug option"
    end
  else if opt "D"%char then go (o <| show_activity := true |>)
  else if opt "e"%char then go (o <| show_empty := true |>)
  else if opt "f"%char then go (o <| show_first_alias := true |>)
  else if opt "h"%char then Done None
  else if opt "i"%char then go (o <| show_inverted := true |>)
  else if opt "l"%char then go (o <| show_slab := true |>)
  else if opt "L"%char then go (o <| sort_loss := true |>)
  else if opt "n"%char then go (o <| show_numa := true |>)
  else if opt "N"%char then
    match optarg with
    | Some a => go (o <| output_lines := Z.max 1 (atoi a) |>)
    | None => go o
    end
  else if opt "o"%char then go (o <| show_ops := true |>)
  else if opt "r"%char then go (o <| show_report := true |>)
  else if opt "P"%char then go (o <| sort_partial := true |>)
  else if opt "s"%char then go (o <| shrink := true |>)
  else if opt "S"%char then go (o <| sort_size := true |>)
  else if opt "t"%char then go (o <| show_track := true |>)
  else if opt "T"%char then go (o <| show_totals := true |>)
  else if opt "U"%char then go (o <| unreclaim_only := true |>)
  else if opt "v"%char then go (o <| validate := true |>)
  else if opt "X"%char then
    let o := if output_lines o =? -1 then o <| output_lines := 1 |> else o in
    go (o <| extended_totals := true |> <| show_bytes := true |>)
  else if opt "z"%char then go (o <| skip_zero := false |>)
  else if opt "1"%char then go (o <| show_single_ref := true |>)
  else Die "Invalid option".

Fixpoint slab_options (opts : list (ascii * option string)) (o : slab_opts) : res (option slab_opts) :=
  match opts with
  | [] => Done (Some o)
  | x :: opts =>
      r ← slab_option x o;
      match r with Some o => slab_options opts o | None => Done None end
  end.

(** Without any mode the slabs are listed. *)
Definition default_mode (o : slab_opts) : slab_opts :=
  if show_slab o || show_alias o || show_track o || show_report o || validate o || shrink o ||
     set_debug o || show_ops o
  then o else o <| show_slab := true |>.

(** [usage] is the fixed help text; [regcomp] whether the pattern is valid. *)
Definition main (Y : slab_sys) (usage : string) (regcomp : bool) (opts : list (ascii * option string))
    : res world :=
  r ← slab_options opts opts_start;
  match r with
  | None => Done (printf usage world_start)
  | Some o =>
      let o := default_mode o in
      if negb regcomp then Die "Invalid pattern"
      else
        t ← read_slab_dir Y;
        let w := world_start in
        if show_alias o then alias o (t_aliases t) (t_slabs t) w
        else if extended_totals o then xtotals Y o t w
        else if show_totals o then totals Y o (t_slabs t) (zlen (t_aliases t)) (t_alias_targets t) w
        else
          '(al, sl) ← link_slabs (t_aliases t) (t_slabs t);
          '(sl, actual) ← rename_slabs o al sl (zlen sl);
          sl ← sort_slabs Y o sl;
          output_slabs Y o (t_highest_node t) actual sl w
  end.

(** ** What reading the directory yields *)

Definition of_kind (k : d_type) (Y : slab_sys) (de : dirent) : bool :=
  selected Y de && match k, d_kind de with
                   | DT_LNK, DT_LNK | DT_DIR, DT_DIR => true
                   | _, _ => false
                   end.

(** The tables hold the directories and the links among [seen], in order. *)
Definition tables_hold (Y : slab_sys) (seen : list dirent) (t : tables) : Prop :=
  s_name <$> t_slabs t = d_name <$> filter (of_kind DT_DIR Y) seen ∧
  a_name <$> t_aliases t = d_name <$> filter (of_kind DT_LNK Y) seen ∧
  zlen (t_slabs t) ≤ MAX_SLABS ∧ zlen (t_aliases t) ≤ MAX_ALIASES ∧
  Forall (fun s => s_refs s = 0 ∧ s_alias s = 0) (t_slabs t).

Lemma read_slab_done Y d h s h' :
  read_slab Y d h = Done (s, h') → s_name s = d ∧ s_refs s = 0 ∧ s_alias s = 0.
Proof.
  unfold read_slab. destruct (get_obj_and_str Y (d +:+ "/" +:+ "partial")) as [p t].
  intros H. apply bind_done in H as ([np h1] & _ & H).
  destruct (get_obj_and_str Y (d +:+ "/" +:+ "slabs")) as [q t'].
  apply bind_done in H as ([nn h2] & _ & H). by injection H as <- _.
Qed.

(** The ways reading can fail. *)
Definition read_failure (why : string) : Prop :=
  why ≠ "Too many slabs" +:+ nl ∧ why ≠ "Too many aliases" +:+ nl.

Lemma decode_not_die t h why : decode_numa_list t h ≠ Die why.
Proof. destruct (decode_numa_list_cases t h) as [-> | (? & ? & -> & _)]; discriminate. Qed.

Lemma read_slab_not_die Y d h why : read_slab Y d h ≠ Die why.
Proof.
  unfold read_slab. destruct (get_obj_and_str Y (d +:+ "/" +:+ "partial")) as [p t].
  destruct (decode_numa_list t h) as [[np h1]| |] eqn:E1; cbn [mbind res_bind];
    [|by apply decode_not_die in E1|done].
  destruct (get_obj_and_str Y (d +:+ "/" +:+ "slabs")) as [q t'].
  destruct (decode_numa_list t' h1) as [[nn h2]| |] eqn:E2; cbn [mbind res_bind];
    [done|by apply decode_not_die in E2|done].
Qed.

Lemma filter_snoc {A} (f : A → bool) (l : list A) x :
  filter f (l ++ [x]) = filter f l ++ (if f x then [x] else []).
Proof. rewrite filter_app, filter_cons, filter_nil. by destruct (f x). Qed.

Lemma read_entry_step Y seen de t :
  tables_hold Y seen t →
  match read_entry Y de t with
  | Done t' => tables_hold Y (seen ++ [de]) t'
  | Die why => read_failure why
  | Wild => True
  end.
Proof.
  intros (Hs & Ha & Hls & Hla & Hf). unfold read_entry, tables_hold.
  rewrite !filter_snoc. unfold of_kind.
  destruct (selected Y de) eqn:Esel; cbn [negb andb]; [|by rewrite !app_nil_r].
  destruct (d_kind de) eqn:Ek.
  - destruct (Z.ltb_spec (zlen (t_aliases t)) MAX_ALIASES); cbn [negb]; [|done].
    destruct (link_target Y (d_name de)) as [target|]; [|done]. cbn -[zlen MAX_SLABS MAX_ALIASES].
    rewrite app_nil_r, !fmap_app, Ha. autorewrite with zlen. split_and!; try done. lia.
  - destruct (can_enter Y (d_name de)); cbn [negb]; [|done].
    destruct (Z.ltb_spec (zlen (t_slabs t)) MAX_SLABS); cbn [negb]; [|done].
    destruct (read_slab Y (d_name de) (t_highest_node t)) as [[s h]| |] eqn:Er;
      cbn [mbind res_bind]; [|by apply read_slab_not_die in Er|done].
    apply read_slab_done in Er as (E1 & E2 & E3). cbn -[zlen MAX_SLABS MAX_ALIASES].
    rewrite app_nil_r, !fmap_app, Hs. autorewrite with zlen. cbn. rewrite E1.
    split_and!; try done; [lia|]. apply Forall_app. split; [done|]. by repeat constructor.
  - done.
Qed.

Lemma read_entries Y l : ∀ seen t,
  tables_hold Y seen t →
  match foldm (read_entry Y) l t with
  | Done t' => tables_hold Y (seen ++ l) t'
  | Die why => read_failure why
  | Wild => True
  end.
Proof.
  induction l as [|de l IH]; intros seen t Ht; cbn [foldm]; [by rewrite app_nil_r|].
  pose proof (read_entry_step Y seen de t Ht) as H.
  destruct (read_entry Y de t) as [t'| |]; cbn [mbind res_bind]; [|done|done].
  specialize (IH _ _ H). by rewrite <- app_assoc in IH.
Qed.

Lemma tables_hold_start Y : tables_hold Y [] tables_start.
Proof. split_and!; done || (by vm_compute) || constructor. Qed.

Lemma read_slab_dir_cases Y :
  match read_slab_dir Y with
  | Done t => tables_hold Y (slab_entries Y) t
  | Die why => read_failure why
  | Wild => True
  end.
Proof.
  unfold read_slab_dir. destruct (sysfs_slab Y); cbn [negb]; [|done].
  pose proof (read_entries Y (slab_entries Y) [] tables_start (tables_hold_start Y)) as H.
  destruct (foldm (read_entry Y) (slab_entries Y) tables_start) as [t| |];
    cbn [mbind res_bind]; [|done|done].
  cbn [app] in H. destruct H as (? & ? & ? & ? & ?).
  replace (MAX_SLABS <? zlen (t_slabs t)) with false by lia.
  by replace (MAX_ALIASES <? zlen (t_aliases t)) with false by lia.
Qed.

(** An entry that cannot fail. *)
Definition plain_dir (Y : slab_sys) (de : dirent) : Prop :=
  of_kind DT_DIR Y de = true ∧ can_enter Y (d_name de) = true ∧
  ∀ h, ∃ r, read_slab Y (d_name de) h = Done r.

Lemma read_plain_entry Y de t :
  plain_dir Y de →
  if zlen (t_slabs t) <? MAX_SLABS
  then ∃ t', read_entry Y de t = Done t' ∧ zlen (t_slabs t') = zlen (t_slabs t) + 1
  else read_entry Y de t = Wild.
Proof.
  intros (Hk & Hc & Hr). unfold read_entry, of_kind in *.
  destruct (selected Y de); [|done]. cbn [negb andb] in *.
  destruct (d_kind de); try done. rewrite Hc. cbn [negb].
  destruct (zlen (t_slabs t) <? MAX_SLABS); cbn [negb]; [|done].
  destruct (Hr (t_highest_node t)) as [[s h] ->]. eexists. split; [done|].
  cbn -[zlen]. autorewrite with zlen. lia.
Qed.

Lemma read_plain Y l : Forall (plain_dir Y) l → ∀ t,
  MAX_SLABS < zlen (t_slabs t) + zlen l → zlen (t_slabs t) ≤ MAX_SLABS →
  foldm (read_entry Y) l t = Wild.
Proof.
  induction 1 as [|de l Hd Hl IH]; intros t Hz Hle; [rewrite zlen_nil in Hz; lia|].
  cbn [foldm]. rewrite zlen_cons in Hz. pose proof (read_plain_entry Y de t Hd) as H.
  destruct (Z.ltb_spec (zlen (t_slabs t)) MAX_SLABS).
  - destruct H as (t' & -> & E). cbn [mbind res_bind]. apply IH; lia.
  - by rewrite H.
Qed.

(** [read_slab_dir] either fails, or yields the selected directories and
    links in the order of the directory, at most 500 of each, every slab with
    [refs] 0.  Its own limit checks never fire: they come after the tables have
    been filled, so a 501st slab is stored outside [slabinfo[]] instead. *)
Theorem read_slab_dir_bounds Y :
  match read_slab_dir Y with
  | Done t => tables_hold Y (slab_entries Y) t
  | Die why => why ≠ "Too many slabs" +:+ nl ∧ why ≠ "Too many aliases" +:+ nl
  | Wild => True
  end ∧
  (sysfs_slab Y = true → Forall (plain_dir Y) (slab_entries Y) →
   MAX_SLABS < zlen (slab_entries Y) → read_slab_dir Y = Wild).
Proof.
  split; [apply read_slab_dir_cases|]. intros Hs Hp Hz. unfold read_slab_dir. rewrite Hs.
  cbn [negb]. by rewrite read_plain.
Qed.

(** ** The listing as a whole *)

(** Only so many lines: all for -1, the first [n] otherwise. *)
Definition first_lines {A} (n : Z) (l : list A) : list A :=
  if n =? -1 then l else take (Z.to_nat n) l.

Lemma output_from_first f l : ∀ n w,
  Forall (fun s => s_alias s = 0) l → n = -1 ∨ 0 ≤ n →
  output_from f l n w = foldm f (first_lines n l) w.
Proof.
  induction l as [|s l IH]; intros n w Hl Hn.
  - unfold first_lines. case_match; [done|]. by rewrite take_nil.
  - apply Forall_cons in Hl as [Hs Hl]. cbn [output_from]. rewrite Hs. cbn [Z.eqb negb].
    unfold first_lines. destruct (Z.eqb_spec n 0) as [->|H0]; [done|].
    destruct (Z.eqb_spec n (-1)) as [->|H1]; cbn [foldm].
    + destruct (f s w); try done. cbn [mbind res_bind]. by apply (IH (-1)); [|left].
    + replace (Z.to_nat n) with (S (Z.to_nat (n - 1))) by lia. cbn [take foldm].
      destruct (f s w); try done. cbn [mbind res_bind]. rewrite IH by (done || lia).
      unfold first_lines. by replace (n - 1 =? -1) with false by lia.
Qed.

Definition lines_ok (o : slab_opts) : Prop := output_lines o = -1 ∨ 1 ≤ output_lines o.

Lemma debug_letters_lines opt o o' :
  debug_letters opt o = Some o' → output_lines o' = output_lines o.
Proof.
  revert o. induction opt as [|c opt IH]; intros o; cbn; [by intros [= ->]|].
  destruct (debug_letter c o) as [o1|] eqn:E; [|done]. intros ->%IH. revert E.
  unfold debug_letter. repeat case_match; intros; by simplify_eq.
Qed.

Lemma debug_opt_scan_lines opt o o' :
  debug_opt_scan opt o = Some o' → output_lines o' = output_lines o.
Proof.
  unfold debug_opt_scan. repeat case_match; intros; simplify_eq; try done.
  by eapply debug_letters_lines.
Qed.

Lemma slab_option_lines x o r :
  lines_ok o → slab_option x o = Done r → match r with Some o' => lines_ok o' | None => True end.
Proof.
  destruct x as [c a]. unfold slab_option, lines_ok. intros Ho. cbv zeta.
  repeat match goal with
  | |- context [Ascii.eqb c ?d] => destruct (Ascii.eqb c d)
  end; try (intros H; by simplify_eq).
  - destruct (debug_opt_scan a _) as [o'|] eqn:E; intros H; simplify_eq.
    by rewrite (debug_opt_scan_lines _ _ _ E).
  - destruct a; intros H; simplify_eq; [|done]. cbn. right. lia.
  - intros H. simplify_eq. destruct (Z.eqb_spec (output_lines o) (-1)); cbn; [right; lia|done].
Qed.

Lemma slab_options_lines opts : ∀ o r,
  lines_ok o → slab_options opts o = Done r → match r with Some o' => lines_ok o' | None => True end.
Proof.
  induction opts as [|x opts IH]; intros o r Ho; cbn; [by intros [= <-]|].
  destruct (slab_option x o) as [[o1|]| |] eqn:E; cbn; try done; [|by intros [= <-]].
  apply IH. by apply (slab_option_lines x o (Some o1)).
Qed.

Lemma default_mode_lines o : output_lines (default_mode o) = output_lines o.
Proof. unfold default_mode. by case_match. Qed.

(** C strings stay C strings. *)
Lemma last_part_c s cur : c_string s → c_string cur → c_string (last_part s cur).
Proof.
  revert cur. induction s as [|c s IH]; intros cur Hs Hc; [done|].
  apply c_string_cons in Hs as [_ Hs]. cbn. case_match; by apply IH.
Qed.

Lemma substring_c n s : c_string s → c_string (String.substring 0 n s).
Proof.
  revert n. induction s as [|c s IH]; intros [|n] Hs; try done.
  apply c_string_cons in Hs as [Hc Hs]. cbn. apply c_string_cons. auto.
Qed.

(** The names the kernel hands out. *)
Definition entry_names (Y : slab_sys) : Prop :=
  Forall (fun de => c_string (d_name de)) (slab_entries Y).

Lemma tables_names Y t :
  entry_names Y → tables_hold Y (slab_entries Y) t →
  Forall (fun s => c_string (s_name s)) (t_slabs t) ∧
  Forall (fun a => c_string (a_name a)) (t_aliases t).
Proof.
  intros Hk (Hs & Ha & _).
  assert (∀ k, Forall c_string (d_name <$> filter (of_kind k Y) (slab_entries Y))) as Hf.
  { intros k. apply Forall_fmap. unfold entry_names in Hk. rewrite Forall_forall in *.
    intros de [_ Hde]%list_elem_of_filter. by apply Hk. }
  split; [apply (Forall_fmap s_name c_string); rewrite Hs|
    apply (Forall_fmap a_name c_string); rewrite Ha]; apply Hf.
Qed.

(** Names after renaming. *)
Lemma renamed_names o al sl :
  Forall (fun s => c_string (s_name s)) sl → Forall (fun a => c_string (a_name a)) al →
  Forall (fun s => c_string (s_name s)) (imap (renamed o al) sl).
Proof.
  intros Hs Ha. apply Forall_lookup. intros i s. rewrite list_lookup_imap.
  destruct (sl !! i) as [s0|] eqn:E; [|done]. cbn. intros [= <-].
  eapply Forall_lookup_1 in Hs; [|done]. unfold renamed. case_match; [done|]. cbn.
  pose proof (find_one_alias_spec al (Z.of_nat i)) as Hf.
  destruct (find_one_alias al (Z.of_nat i)) as [a|]; [|done].
  destruct Hf as (Hin & _). rewrite Forall_forall in Ha. by apply Ha.
Qed.

Lemma renamed_alias o al k s : s_alias (renamed o al k s) = s_alias s.
Proof. unfold renamed. by case_match. Qed.

Lemma listing_alias o al sl al' :
  Forall (fun s => s_refs s = 0 ∧ s_alias s = 0) sl →
  Forall (fun s => s_alias s = 0) (imap (renamed o al') (counted sl al)).
Proof.
  intros Hs. apply Forall_lookup. intros i s. unfold counted. rewrite !list_lookup_imap.
  destruct (sl !! i) as [s0|] eqn:E; [|done]. cbn. intros [= <-]. rewrite renamed_alias. cbn.
  by eapply Forall_lookup_1 in Hs as [_ H]; [|done].
Qed.

Lemma zlen_imap {A B} (f : nat → A → B) l : zlen (imap f l) = zlen l.
Proof. unfold zlen. by rewrite length_imap. Qed.

(** C9: the whole tool in its listing modes.  When the directory can be read
    and every link leads to a slab, [main] goes through the slabs of the
    directory, each with its aliases counted and renamed after one of them,
    sorted as the options ask, and handles the first [-N] of them (all without
    [-N]) in that order. *)
Theorem slabinfo_listing Y usage opts o0 t :
  slab_options opts opts_start = Done (Some o0) → entry_names Y →
  let o := default_mode o0 in
  show_alias o = false → extended_totals o = false → show_totals o = false →
  read_slab_dir Y = Done t →
  Forall (fun a => find_slab (a_ref a) (t_slabs t) 0 ≠ None) (t_aliases t) →
  let al := linked (t_slabs t) <$> t_aliases t in
  let named := imap (renamed o al) (counted (t_slabs t) (t_aliases t)) in
  let actual := zlen named - sum_nameless o al 0 (counted (t_slabs t) (t_aliases t)) in
  ∃ sl, named ≡ₚ sl ∧ sorted_as Y o named sl ∧
    main Y usage true opts =
      foldm (output_slab Y o (t_highest_node t) (zlen sl) actual)
        (first_lines (output_lines o) sl) world_start.
Proof.
  intros Hopt Hk o H1 H2 H3 Hr Hl al named actual. subst o.
  pose proof (read_slab_dir_cases Y) as Ht. rewrite Hr in Ht.
  destruct (tables_names Y t Hk Ht) as [Hns Hna]. destruct Ht as (_ & _ & Hzs & Hza & Hz0).
  pose proof (link_slabs_cases (t_aliases t) (t_slabs t) Hza
    (Forall_impl _ _ _ Hz0 (fun s H => proj1 H))) as Hlink.
  assert (list_find (fun a => find_slab (a_ref a) (t_slabs t) 0 = None) (t_aliases t) = None) as Ef
    by (by apply list_find_None).
  rewrite Ef in Hlink. set (o := default_mode o0) in *.
  assert (rename_slabs o al (counted (t_slabs t) (t_aliases t))
            (zlen (counted (t_slabs t) (t_aliases t))) = Done (named, actual)) as Hren.
  { unfold actual, named. rewrite zlen_imap. unfold MAX_SLABS in Hzs.
    apply (rename_loop o al (counted (t_slabs t) (t_aliases t)) []).
    unfold counted. rewrite zlen_imap. lia. }
  assert (Forall (fun s => c_string (s_name s)) named) as Hnn.
  { apply renamed_names.
    - apply (Forall_fmap s_name c_string). rewrite counted_names. by apply (Forall_fmap s_name c_string).
    - apply Forall_fmap. eapply Forall_impl; [exact Hna|]. done. }
  destruct (sort_slabs_sorts Y o named Hnn) as (sl & Es & Hp & Hs).
  exists sl. split_and!; [done|done|]. unfold main. rewrite Hopt, bind_Done. cbn [negb].
  fold o. rewrite Hr, bind_Done, H1, H2, H3. rewrite Hlink, bind_Done.
  fold al. rewrite Hren, bind_Done, Es, bind_Done. unfold output_slabs.
  apply output_from_first.
  - rewrite <- Hp. by apply listing_alias.
  - pose proof (slab_options_lines opts opts_start (Some o0) (or_introl eq_refl) Hopt) as Hlo.
    unfold o. rewrite default_mode_lines. unfold lines_ok in Hlo. lia.
Qed.

(** A directory of two caches, one of them reached through a link. *)
Definition demo_dir : slab_sys :=
  mk_slab_sys true
    [mk_dirent "." DT_DIR; mk_dirent ":a-0000192" DT_DIR; mk_dirent "dentry" DT_LNK;
     mk_dirent "inode" DT_DIR]
    (fun _ => Some "../slab/:a-0000192") (fun _ => true)
    (fun p => if bool_decide (p = "inode/slabs") then Some ("7 N0=7" +:+ nl)
              else if bool_decide (p = "inode/objects") then Some ("90" +:+ nl) else None)
    (fun _ => true) (fun _ => false) 4096.

Definition demo_tables : tables :=
  match read_slab_dir demo_dir with Done t => t | _ => tables_start end.

Lemma slabinfo_listing_witness :
  let o := opts_start <| sort_size := true |> <| show_slab := true |> in
  let al := linked (t_slabs demo_tables) <$> t_aliases demo_tables in
  let named := imap (renamed o al) (counted (t_slabs demo_tables) (t_aliases demo_tables)) in
  let actual := zlen named - sum_nameless o al 0 (counted (t_slabs demo_tables) (t_aliases demo_tables)) in
  ∃ sl, named ≡ₚ sl ∧ sorted_as demo_dir o named sl ∧
    main demo_dir "" true [("S"%char, None)] =
      foldm (output_slab demo_dir o (t_highest_node demo_tables) (zlen sl) actual)
        (first_lines (-1) sl) world_start.
Proof.
  refine (slabinfo_listing demo_dir "" [("S"%char, None)] (opts_start <| sort_size := true |>)
    demo_tables _ _ _ _ _ _ _).
  - reflexivity.
  - repeat constructor.
  - reflexivity.
  - reflexivity.
  - reflexivity.
  - vm_compute. reflexivity.
  - vm_compute. repeat constructor; discriminate.
Defined.
