(* ===== verification/PgScan.v ===== *)
(** * pgcache_scan: the largest page caches

    The kernel module [kmem/pgcache_scan]: [cache_scan.c] keeps a list of
    inodes ordered by the number of cached pages, filled by walking the super
    blocks and the open files of processes, [sysctl.c] holds its settings and
    [kernel.c] loads it.

    The kernel's data are arguments.  The spin lock of the list is part of the
    state: taking it twice deadlocks ([Die]), releasing it when it is not held
    is undefined ([Wild]).  The locks of inodes and tasks and the RCU section
    are taken and released around straight code and leave no trace. *)

From Stdlib Require Import Sorted.
From S2P Require Import Prelude CLib.

(** ** Nodes and the ordered list *)

Record pgcount_node := mk_node {
  ino : Z;
  pagecount : Z;
  icount : Z;
  pid : Z;
  size : Z;
  devname : string;
  comm : string;
  abspath : option string
}.
#[export] Instance pgcount_node_eta : Eta pgcount_node := fun n =>
  mk_node (ino n) (pagecount n) (icount n) (pid n) (size n) (devname n) (comm n) (abspath n).

(** A node fresh from [kzalloc]. *)
Definition zero_node : pgcount_node := mk_node 0 0 0 0 0 "" "" None.

(** Before the first node with fewer pages, else at the end. *)
Fixpoint order_list_add (new : pgcount_node) (l : list pgcount_node) : list pgcount_node :=
  match l with
  | [] => [new]
  | node :: rest =>
      if pagecount node <? pagecount new then new :: l
      else node :: order_list_add new rest
  end.

(** ** What the kernel shows of files *)

(** [bd_disk->disk_name] and [bd_part->partno] of a device. *)
Record bdev := mk_bdev { disk_name : string; partno : Z }.

Record inode := mk_inode {
  i_ino : Z;
  i_nlink : Z;
  i_count : Z;
  i_size : Z;
  i_busy : bool;        (** being freed or new *)
  nrpages : Z
}.

Record super_block := mk_sb { s_bdev : option bdev; s_inodes : list inode }.

(** [f_mapping->host], the path and the device of an open file; [f_sb] is
    [None] when the inode has no super block. *)
Record file := mk_file {
  f_inode : option inode;
  f_path : string;
  f_sb : option (option bdev)
}.

(** A process: whether it is [init_task] or [current], its open files. *)
Record task := mk_task {
  t_pid : Z;
  t_comm : string;
  t_self : bool;
  t_files : option (list file)
}.

Record kernel := mk_kernel {
  supers : list super_block;
  tasks : list task;
  alloc_ok : Z → bool;         (** outcome of the n-th allocation *)
  page_bytes : Z               (** [PAGE_SIZE] *)
}.

(** The state of the module. *)
Record scanner := mk_scanner {
  ordered_list : list pgcount_node;
  list_lock : bool;
  allocs : Z;
  leaked : Z;                  (** nodes allocated and neither linked nor freed *)
  scan_top_n : Z;
  scan_mode : Z;
  scan_deleted : bool;
  dmesg : string
}.
#[export] Instance scanner_eta : Eta scanner := fun s =>
  mk_scanner (ordered_list s) (list_lock s) (allocs s) (leaked s) (scan_top_n s) (scan_mode s)
    (scan_deleted s) (dmesg s).

Definition scanner_start : scanner := mk_scanner [] false 0 0 0 0 false "".

Definition printk (text : string) (s : scanner) : scanner := s <| dmesg := dmesg s +:+ text |>.

Definition spin_lock (s : scanner) : res scanner :=
  if list_lock s then Die "deadlock" else Done (s <| list_lock := true |>).
Definition spin_unlock (s : scanner) : res scanner :=
  if list_lock s then Done (s <| list_lock := false |>) else Wild.

Definition add_node (n : pgcount_node) (s : scanner) : scanner :=
  s <| ordered_list := order_list_add n (ordered_list s) |>.

Definition order_list_clear (s : scanner) : res scanner :=
  s ← spin_lock s;
  spin_unlock (s <| ordered_list := [] |>).

(** ** Printing *)

Definition K : Z := 1024.
Definition M : Z := 1024 * K.
Definition G : Z := 1024 * M.

(** [%s] of a pointer that may be [NULL]. *)
Definition str (s : option string) : string :=
  match s with Some s => s | None => "(null)" end.

(** The line of a node, with the unit names of its branch. *)
Definition node_line (n : pgcount_node) (gb mb kb : Z) (mb_unit : string) : string :=
  "pgscan: " +:+ padl " " 6 (devname n) +:+ " ino: " +:+ padl " " 10 (dec (ino n)) +:+
  " icount: " +:+ dec (icount n) +:+ " nrpage: " +:+ padl " " 8 (dec (pagecount n)) +:+ " " +:+
  padl " " 3 (dec gb) +:+ "GB," +:+ padl " " 3 (dec mb) +:+ mb_unit +:+ "," +:+
  padl " " 3 (dec kb) +:+ "KB isz: " +:+ dec (u64 (size n)) +:+ tab +:+ " pid: " +:+
  padr 6 (dec (u32 (pid n))) +:+ tab +:+ " comm: " +:+ comm n +:+ " path: " +:+
  str (abspath n) +:+ nl.

Definition print_node (page_bytes : Z) (n : pgcount_node) : string :=
  let bytes := u64 (pagecount n * page_bytes) in
  let gb := bytes / G in
  let mb := (bytes - gb * G) / M in
  let kb := (bytes - gb * G - mb * M) / K in
  if negb (gb =? 0) then node_line n gb mb kb "MB"
  else if negb (mb =? 0) then node_line n gb mb kb "MB"
  else if negb (kb =? 0) then node_line n gb mb kb "Mb"
  else "".

(** [if (count++ < num)] over the list. *)
Fixpoint print_nodes (page_bytes : Z) (l : list pgcount_node) (count num : Z) : string :=
  match l with
  | [] => ""
  | n :: l =>
      (if count <? num then print_node page_bytes n else "") +:+
      print_nodes page_bytes l (i32 (count + 1)) num
  end.

Definition print_top_num (E : kernel) (num : Z) (s : scanner) : res scanner :=
  match ordered_list s with
  | [] => spin_unlock (printk ("ordered_list is empty !" +:+ nl) s)
  | l =>
      s ← spin_lock s;
      spin_unlock (printk (nl +:+ print_nodes (page_bytes E) l 0 num +:+ nl) s)
  end.

(** ** Scanning *)

(** [kzalloc]. *)
Definition kzalloc (E : kernel) (s : scanner) : bool * scanner :=
  (alloc_ok E (allocs s), s <| allocs := allocs s + 1 |>).

Definition dev_text (d : option bdev) : string :=
  match d with
  | Some d => String.substring 0 63 (disk_name d +:+ dec (partno d))
  | None => "(null)"
  end.

(** What is recorded of an inode of a super block. *)
Definition sb_node (sb : super_block) (i : inode) : pgcount_node :=
  match s_bdev sb with
  | Some _ =>
      zero_node <| ino := i_ino i |> <| devname := dev_text (s_bdev sb) |>
                <| pagecount := nrpages i |> <| icount := u32 (i_count i) |>
  | None => zero_node <| devname := dev_text None |>
  end.

(** The loop over the inodes; [pgc] tells whether a node is at hand. *)
Fixpoint scan_inodes (E : kernel) (sb : super_block) (l : list inode) (pgc : bool) (s : scanner)
    : bool * scanner :=
  match l with
  | [] => (pgc, s)
  | i :: l =>
      let '(ok, s) := if pgc then (true, s) else kzalloc E s in
      if negb ok then (false, printk "kmalloc failed, nomem" s)
      else if i_busy i || (nrpages i =? 0) then scan_inodes E sb l true s
      else scan_inodes E sb l false (add_node (sb_node sb i) s)
  end.

Definition scan_inodes_pagecache_one_sb (E : kernel) (sb : super_block) (s : scanner) : res scanner :=
  s ← spin_lock s;
  let '(pgc, s) := scan_inodes E sb (s_inodes sb) false s in
  spin_unlock (if pgc then s <| leaked := leaked s + 1 |> else s).

(** Files that are left out: nothing cached, or not deleted when only deleted
    files are asked for. *)
Definition skip_file (deleted : bool) (i : inode) : bool :=
  (nrpages i =? 0) || (deleted && negb ((i_nlink i =? 0) && negb (i_count i =? 0))).

Definition file_node (t : task) (f : file) (i : inode) : pgcount_node :=
  zero_node <| ino := i_ino i |> <| size := i_size i |> <| abspath := Some (f_path f) |>
            <| devname := match f_sb f with Some d => dev_text d | None => "" end |>
            <| pagecount := nrpages i |> <| icount := u32 (i_count i) |>
            <| pid := t_pid t |> <| comm := t_comm t |>.

Definition scan_file_inode (E : kernel) (t : task) (f : file) (s : scanner) : scanner :=
  match f_inode f with
  | None => s
  | Some i =>
      if skip_file (scan_deleted s) i then s
      else
        let '(ok, s) := kzalloc E s in
        if ok then add_node (file_node t f i) s else s
  end.

Definition scan_task (E : kernel) (t : task) (s : scanner) : res scanner :=
  if t_self t then Done s
  else
    match t_files t with
    | None => Done s
    | Some files =>
        s ← spin_lock s;
        spin_unlock (foldl (fun s f => scan_file_inode E t f s) s files)
    end.

Definition scan_process_inodes_pagecache (E : kernel) (s : scanner) : res scanner :=
  foldm (scan_task E) (tasks E) s.

Definition iterate_supers (E : kernel) (s : scanner) : res scanner :=
  foldm (scan_inodes_pagecache_one_sb E) (supers E) s.

(** ** Settings *)

(** [scan_caches_sysctl_handler] of [pgcache_scan_top_n]: [dointvec] is the
    answer of [proc_dointvec_minmax], the value stored or an error. *)
Definition scan_caches_sysctl_handler (E : kernel) (write : bool) (dointvec : Z + Z) (s : scanner)
    : res (Z * scanner) :=
  match dointvec with
  | inr ret => Done (ret, s)
  | inl v =>
      if negb write then Done (0, s)
      else
        let s := s <| scan_top_n := v |> in
        s ← (if scan_mode s =? 0 then
               s ← order_list_clear s;
               s ← scan_process_inodes_pagecache E s;
               print_top_num E (scan_top_n s) s
             else if scan_mode s =? 1 then
               s ← order_list_clear s;
               s ← iterate_supers E s;
               print_top_num E (scan_top_n s) s
             else if scan_mode s =? 2 then
               s ← order_list_clear s;
               s ← iterate_supers E s;
               s ← scan_process_inodes_pagecache E s;
               print_top_num E (scan_top_n s) s
             else Done s);
        Done (0, s)
  end.

(** The other two settings go through [proc_dointvec_minmax] alone. *)
Definition write_mode (v : Z) (s : scanner) : scanner :=
  if (0 <=? v) && (v <=? 2) then s <| scan_mode := v |> else s.
Definition write_deleted (v : Z) (s : scanner) : scanner :=
  if (0 <=? v) && (v <=? 1) then s <| scan_deleted := negb (v =? 0) |> else s.

(** ** Loading *)

(** [kallsyms_lookup_name_addr] must be a kernel address. *)
Definition get_kallsyms_lookup_name_function (addr : Z) : Z :=
  if negb (Z.land addr (Z.shiftl 4294967295 32) =? Z.shiftl 4294967295 32) || (addr =? 0)
  then -1 else 0.

(** The symbols [lookup] has to know, in order. *)
Definition kernel_symbols : list string :=
  ["super_blocks"; "sb_lock"; "inode_sb_list_lock"; "iterate_supers"].

Definition get_kernel_not_export_function_and_data (lookup : string → Z) : Z :=
  if existsb (fun n => lookup n =? 0) kernel_symbols then -1 else 0.

(** [init]: the return value and whether the settings are registered. *)
Definition init (addr : Z) (lookup : string → Z) : Z * bool :=
  if negb (get_kallsyms_lookup_name_function addr =? 0) then (-1, false)
  else if negb (get_kernel_not_export_function_and_data lookup =? 0) then (-1, false)
  else (0, true).

Definition fini (s : scanner) : res scanner := order_list_clear s.

(** ** The list is ordered *)

Definition by_pages (a b : pgcount_node) : Prop := pagecount b ≤ pagecount a.

Lemma order_list_add_perm n l : order_list_add n l ≡ₚ n :: l.
Proof.
  induction l as [|m l IH]; [done|]. cbn. case_match; [done|]. rewrite IH. apply perm_swap.
Qed.

Lemma order_list_add_sorted n l :
  StronglySorted by_pages l → StronglySorted by_pages (order_list_add n l).
Proof.
  induction 1 as [|m l Hl IH Hm]; [by repeat constructor|]. cbn.
  destruct (Z.ltb_spec (pagecount m) (pagecount n)).
  - constructor; [by constructor|]. constructor; [unfold by_pages; lia|].
    eapply Forall_impl; [done|]. unfold by_pages. lia.
  - constructor; [done|]. rewrite order_list_add_perm. constructor; [unfold by_pages; lia|done].
Qed.

(** Adding nodes one after the other. *)
Definition add_all (ns : list pgcount_node) (l : list pgcount_node) : list pgcount_node :=
  foldl (fun l n => order_list_add n l) l ns.

Lemma add_all_sorts ns : ∀ l,
  StronglySorted by_pages l → StronglySorted by_pages (add_all ns l) ∧ add_all ns l ≡ₚ l ++ ns.
Proof.
  induction ns as [|n ns IH]; intros l Hl; cbn; [by rewrite app_nil_r|].
  destruct (IH (order_list_add n l) (order_list_add_sorted n l Hl)) as [H1 H2].
  split; [done|]. unfold add_all in *. rewrite H2, order_list_add_perm.
  rewrite (Permutation_middle l ns n). done.
Qed.

(** ** What a scan collects *)

Definition sb_nodes (sb : super_block) : list pgcount_node :=
  sb_node sb <$> filter (fun i => negb (i_busy i || (nrpages i =? 0))) (s_inodes sb).

Definition file_nodes (deleted : bool) (t : task) (f : file) : list pgcount_node :=
  match f_inode f with
  | Some i => if skip_file deleted i then [] else [file_node t f i]
  | None => []
  end.

Definition task_nodes (deleted : bool) (t : task) : list pgcount_node :=
  if t_self t then []
  else match t_files t with Some fs => fs ≫= file_nodes deleted t | None => [] end.

Definition scan_nodes (E : kernel) (deleted : bool) (mode : Z) : list pgcount_node :=
  (if mode =? 0 then [] else supers E ≫= sb_nodes) ++
  (if mode =? 1 then [] else tasks E ≫= task_nodes deleted).

(** The scan has added [ns] and changed nothing else that matters. *)
Definition scanned (ns : list pgcount_node) (s s' : scanner) : Prop :=
  ordered_list s' = add_all ns (ordered_list s) ∧ list_lock s' = list_lock s ∧
  scan_top_n s' = scan_top_n s ∧ scan_mode s' = scan_mode s ∧ scan_deleted s' = scan_deleted s ∧
  dmesg s' = dmesg s.

Lemma scanned_refl s : scanned [] s s.
Proof. by split_and!. Qed.

Lemma scanned_trans ns ns' s s' s'' :
  scanned ns s s' → scanned ns' s' s'' → scanned (ns ++ ns') s s''.
Proof.
  intros (E1 & E2 & E3 & E4 & E5 & E6) (F1 & F2 & F3 & F4 & F5 & F6).
  split_and!; try congruence. rewrite F1, E1. unfold add_all. by rewrite foldl_app.
Qed.

(** A section of code under the list lock. *)
Lemma locked (f : scanner → scanner) ns s :
  list_lock s = false → (∀ s, scanned ns s (f s)) →
  ∃ s', (s ← spin_lock s; spin_unlock (f s)) = Done s' ∧ scanned ns s s'.
Proof.
  intros Hl Hf. unfold spin_lock. rewrite Hl. cbn [mbind res_bind].
  destruct (Hf (s <| list_lock := true |>)) as (E1 & E2 & E3 & E4 & E5 & E6).
  unfold spin_unlock. rewrite E2. cbn in *. eexists. split; [done|]. split_and!; cbn; done.
Qed.

Section Scan.
Context (E : kernel) (alloc : ∀ n, alloc_ok E n = true).

Lemma scan_inodes_nodes sb l : ∀ pgc s,
  scanned (sb_node sb <$> filter (fun i => negb (i_busy i || (nrpages i =? 0))) l)
    s (scan_inodes E sb l pgc s).2.
Proof.
  induction l as [|i l IH]; intros pgc s; [apply scanned_refl|]. cbn [scan_inodes].
  assert (∀ s1, scanned [] s s1 → scanned
    (sb_node sb <$> filter (fun i => negb (i_busy i || (nrpages i =? 0))) (i :: l)) s
    (if i_busy i || (nrpages i =? 0) then scan_inodes E sb l true s1
     else scan_inodes E sb l false (add_node (sb_node sb i) s1)).2) as H.
  { intros s1 H1. rewrite filter_cons. destruct (i_busy i || (nrpages i =? 0)); cbn [negb].
    - apply (scanned_trans [] _ _ _ _ H1), IH.
    - apply (scanned_trans [] _ _ _ _ H1). cbn.
      apply (scanned_trans [sb_node sb i] _ _ (add_node (sb_node sb i) s1)); [|apply IH].
      by split_and!. }
  destruct pgc; cbn [negb].
  - apply H, scanned_refl.
  - unfold kzalloc. rewrite alloc. cbn [negb]. apply H. by split_and!.
Qed.

Lemma scan_sb_nodes sb s :
  list_lock s = false →
  ∃ s', scan_inodes_pagecache_one_sb E sb s = Done s' ∧ scanned (sb_nodes sb) s s'.
Proof.
  intros Hl. unfold scan_inodes_pagecache_one_sb.
  destruct (locked (fun s => let '(pgc, s) := scan_inodes E sb (s_inodes sb) false s in
    if pgc then s <| leaked := leaked s + 1 |> else s) (sb_nodes sb) s Hl) as (s' & E1 & H).
  - intros s0. pose proof (scan_inodes_nodes sb (s_inodes sb) false s0) as H.
    destruct (scan_inodes E sb (s_inodes sb) false s0) as [[] s1]; exact H.
  - exists s'. split; [|done]. rewrite <- E1. destruct (spin_lock s) as [s0| |]; [|done..].
    cbn [mbind res_bind]. by destruct (scan_inodes E sb (s_inodes sb) false s0).
Qed.

Lemma scan_file_nodes t f s : scanned (file_nodes (scan_deleted s) t f) s (scan_file_inode E t f s).
Proof.
  unfold file_nodes, scan_file_inode. destruct (f_inode f) as [i|]; [|apply scanned_refl].
  destruct (skip_file (scan_deleted s) i); [apply scanned_refl|].
  unfold kzalloc. rewrite alloc. by split_and!.
Qed.

Lemma scan_files_nodes t fs : ∀ s,
  scanned (fs ≫= file_nodes (scan_deleted s) t) s (foldl (fun s f => scan_file_inode E t f s) s fs).
Proof.
  induction fs as [|f fs IH]; intros s; [apply scanned_refl|]. cbn.
  pose proof (scan_file_nodes t f s) as Hf. eapply scanned_trans; [exact Hf|].
  destruct Hf as (_ & _ & _ & _ & <- & _). apply IH.
Qed.

Lemma scan_task_nodes t s :
  list_lock s = false →
  ∃ s', scan_task E t s = Done s' ∧ scanned (task_nodes (scan_deleted s) t) s s'.
Proof.
  intros Hl. unfold scan_task, task_nodes.
  destruct (t_self t); [exists s; split; [done|apply scanned_refl]|].
  destruct (t_files t) as [fs|]; [|exists s; split; [done|apply scanned_refl]].
  unfold spin_lock. rewrite Hl. cbn [mbind res_bind].
  pose proof (scan_files_nodes t fs (s <| list_lock := true |>)) as (E1 & E2 & E3 & E4 & E5 & E6).
  unfold spin_unlock. rewrite E2. cbn [list_lock set_field]. eexists. split; [done|].
  by split_and!.
Qed.

(** A loop of such scans. *)
Lemma scan_all {A} (step : A → scanner → res scanner) (nodes : bool → A → list pgcount_node) l :
  (∀ a s, list_lock s = false →
     ∃ s', step a s = Done s' ∧ scanned (nodes (scan_deleted s) a) s s') →
  ∀ s, list_lock s = false →
  ∃ s', foldm step l s = Done s' ∧ scanned (l ≫= nodes (scan_deleted s)) s s'.
Proof.
  intros Hstep. induction l as [|a l IH]; intros s Hl; [exists s; split; [done|apply scanned_refl]|].
  cbn [foldm]. destruct (Hstep a s Hl) as (s1 & -> & H1). cbn [mbind res_bind].
  assert (list_lock s1 = false ∧ scan_deleted s1 = scan_deleted s) as [Hl1 Hd1]
    by (destruct H1 as (_ & -> & _ & _ & -> & _); done).
  destruct (IH s1 Hl1) as (s2 & -> & H2). exists s2. split; [done|].
  rewrite Hd1 in H2. exact (scanned_trans _ _ _ _ _ H1 H2).
Qed.

Lemma iterate_supers_nodes s :
  list_lock s = false →
  ∃ s', iterate_supers E s = Done s' ∧ scanned (supers E ≫= sb_nodes) s s'.
Proof.
  intros Hl. apply (scan_all (scan_inodes_pagecache_one_sb E) (fun _ => sb_nodes)); [|done].
  intros. by apply scan_sb_nodes.
Qed.

Lemma scan_process_nodes s :
  list_lock s = false →
  ∃ s', scan_process_inodes_pagecache E s = Done s' ∧
    scanned (tasks E ≫= task_nodes (scan_deleted s)) s s'.
Proof. intros Hl. apply (scan_all (scan_task E) task_nodes); [|done]. apply scan_task_nodes. Qed.
End Scan.

(** Printing the first [num - count]. *)
Lemma print_nodes_take pb l : ∀ count num,
  0 ≤ count → count + zlen l < 2 ^ 31 → 0 ≤ num →
  print_nodes pb l count num = texts (print_node pb) (take (Z.to_nat (num - count)) l).
Proof.
  induction l as [|n l IH]; intros count num Hc Hz Hn; [by rewrite take_nil|].
  rewrite zlen_cons in Hz. pose proof (zlen_nonneg l). cbn [print_nodes].
  rewrite i32_small, IH by lia. destruct (Z.ltb_spec count num).
  - replace (Z.to_nat (num - count)) with (S (Z.to_nat (num - (count + 1)))) by lia. done.
  - replace (Z.to_nat (num - count)) with 0%nat by lia.
    by replace (Z.to_nat (num - (count + 1))) with 0%nat by lia.
Qed.

(** Every mode clears the list, scans, and prints. *)
Lemma handler_scans E v s :
  (∀ n, alloc_ok E n = true) → list_lock s = false → 0 ≤ scan_mode s ≤ 2 →
  ∃ s1, scan_caches_sysctl_handler E true (inl v) s = (s ← print_top_num E v s1; Done (0, s)) ∧
    scanned (scan_nodes E (scan_deleted s) (scan_mode s))
      (s <| scan_top_n := v |> <| ordered_list := [] |>) s1.
Proof.
  intros Ha Hl Hm. set (s0 := s <| scan_top_n := v |> <| ordered_list := [] |>).
  assert (order_list_clear (s <| scan_top_n := v |>) = Done s0) as Ec.
  { unfold order_list_clear, spin_lock. cbn. rewrite Hl. unfold s0. cbn. by rewrite Hl. }
  assert (list_lock s0 = false) as Hl0 by done.
  unfold scan_caches_sysctl_handler. cbn [negb]. cbv zeta.
  change (scan_mode (s <| scan_top_n := v |>)) with (scan_mode s).
  destruct (iterate_supers_nodes E Ha s0 Hl0) as (sa & Ea & Hsa).
  destruct (scan_process_nodes E Ha s0 Hl0) as (sb & Eb & Hsb).
  assert (scan_mode s = 0 ∨ scan_mode s = 1 ∨ scan_mode s = 2) as [Em|[Em|Em]] by lia;
    unfold scan_nodes; rewrite Em; cbn [Z.eqb Pos.eqb]; rewrite Ec, bind_Done.
  - rewrite Eb, bind_Done. exists sb. by rewrite (proj1 (proj2 (proj2 Hsb))).
  - rewrite Ea, bind_Done. exists sa. rewrite app_nil_r. by rewrite (proj1 (proj2 (proj2 Hsa))).
  - rewrite Ea, bind_Done.
    destruct (scan_process_nodes E Ha sa) as (sc & -> & Hsc); [by destruct Hsa as (_ & -> & _)|].
    assert (scan_deleted sa = scan_deleted s) as Ed by (by destruct Hsa as (_ & _ & _ & _ & -> & _)).
    rewrite Ed in Hsc. rewrite bind_Done. exists sc.
    assert (scan_top_n sc = v) as ->
      by (destruct Hsc as (_ & _ & -> & _); by destruct Hsa as (_ & _ & -> & _)).
    split; [done|]. exact (scanned_trans _ _ _ _ _ Hsa Hsc).
Qed.

(** C19: writing [pgcache_scan_top_n], when memory can be allocated.  In every
    mode the list is rebuilt: exactly one node for each inode with cached pages
    that the mode covers, ordered by the number of pages, and the first [n] of
    them are printed; the lock is free again.  When nothing is cached,
    [print_top_num] releases the lock without holding it. *)
Theorem scan_handler_spec E v s :
  (∀ n, alloc_ok E n = true) → list_lock s = false → 0 ≤ scan_mode s ≤ 2 → 0 ≤ v →
  let nodes := scan_nodes E (scan_deleted s) (scan_mode s) in
  zlen nodes < 2 ^ 31 →
  if bool_decide (nodes = []) then scan_caches_sysctl_handler E true (inl v) s = Wild
  else
    ∃ s', scan_caches_sysctl_handler E true (inl v) s = Done (0, s') ∧
      ordered_list s' ≡ₚ nodes ∧ StronglySorted by_pages (ordered_list s') ∧ list_lock s' = false ∧
      dmesg s' = dmesg s +:+ nl +:+
        texts (print_node (page_bytes E)) (take (Z.to_nat v) (ordered_list s')) +:+ nl.
Proof.
  intros Ha Hl Hm Hv nodes Hz.
  destruct (handler_scans E v s Ha Hl Hm) as (s1 & -> & E1 & E2 & _ & _ & _ & E6).
  fold nodes in E1. cbn [ordered_list list_lock dmesg set_field] in E1, E2, E6. rewrite Hl in E2.
  destruct (add_all_sorts nodes [] ltac:(constructor)) as [Hs Hp].
  unfold print_top_num. rewrite E1.
  assert (bool_decide (nodes = []) = bool_decide (add_all nodes [] = [])) as ->.
  { apply bool_decide_ext. split; intros E0; [by rewrite E0|]. rewrite E0 in Hp.
    by apply Permutation_nil in Hp. }
  case_bool_decide as En.
  - rewrite En. unfold spin_unlock. cbn [list_lock printk set_field]. by rewrite E2.
  - destruct (add_all nodes []) as [|n l] eqn:El; [done|].
    unfold spin_lock. rewrite E2. cbn [mbind res_bind]. eexists. split; [done|].
    cbn [ordered_list list_lock dmesg set_field printk]. rewrite E1.
    split_and!; [done|done|done|].
    rewrite print_nodes_take, Z.sub_0_r, E6; [done|lia| |lia].
    unfold zlen in *. apply Permutation_length in Hp. cbn in *. lia.
Qed.

(** Two processes, one holding a deleted file. *)
Definition demo_inode (n pages nlink : Z) : inode := mk_inode n nlink 1 100 false pages.
Definition demo_kernel : kernel :=
  mk_kernel [mk_sb (Some (mk_bdev "sda" 1)) [demo_inode 7 3 1]]
    [mk_task 1 "init" true None;
     mk_task 42 "cat" false (Some [mk_file (Some (demo_inode 8 1 1)) "/tmp/a" (Some None);
                                   mk_file (Some (demo_inode 9 5 0)) "/tmp/b" (Some None)])]
    (fun _ => true) 4096.

Lemma scan_handler_spec_witness :
  ∃ s', scan_caches_sysctl_handler demo_kernel true (inl 2) (scanner_start <| scan_mode := 2 |>)
      = Done (0, s') ∧
    ordered_list s' ≡ₚ scan_nodes demo_kernel false 2 ∧ StronglySorted by_pages (ordered_list s') ∧
    list_lock s' = false ∧
    dmesg s' = "" +:+ nl +:+ texts (print_node 4096) (take 2 (ordered_list s')) +:+ nl.
Proof.
  refine (scan_handler_spec demo_kernel 2 (scanner_start <| scan_mode := 2 |>) _ _ _ _ _).
  - reflexivity.
  - reflexivity.
  - split; discriminate.
  - discriminate.
  - vm_compute. reflexivity.
Defined.
