(* ===== verification/PageOwner.v ===== *)
(** * page_owner_sort: a histogram of page owners

    [mem/vm/page_owner_sort.c] reads blocks of lines separated by empty lines,
    leaves out the lines that start with PFN, and prints every distinct block
    with the number of its occurrences, most frequent first.

    The input file is the text still to be read.  [qsort] is a class: the C
    standard promises a sorted permutation and nothing about equal elements. *)

From Stdlib Require Import Sorted.
From S2P Require Import Prelude CLib.

Definition BUF_SIZE : Z := 128 * 1024.

Record block_list := mk_block { txt : string; num : Z }.
#[export] Instance block_list_eta : Eta block_list := fun b => mk_block (txt b) (num b).

(** ** Reading a block *)

(** What is left after [fgets]. *)
Definition fgets_rest (n : nat) (s : string) : string :=
  let line := fgets n s in
  String.substring (String.length line) (String.length s - String.length line) s.

Definition newline_first (line : string) : bool :=
  match line with String c _ => Ascii.eqb c "010" | EmptyString => false end.

(** State of [read_block]: the text in [buf], the rest of the input, and the
    result once the loop is left ([None] for -1). *)
Definition block_state : Type := string * string * option string.

Definition read_block_body (s : block_state) : res (block_state + block_state) :=
  let '(buf, rest, _) := s in
  let space := BUF_SIZE - strlen buf in
  if negb (1 <? space) then Done (inr (buf, rest, None))
  else
    let line := fgets (Z.to_nat (space - 1)) rest in
    let rest := fgets_rest (Z.to_nat (space - 1)) rest in
    if strlen line =? 0 then Done (inr (buf, rest, None))
    else if newline_first line then Done (inr (buf, rest, Some buf))
    else if strncmp_eq line "PFN" 3 then Done (inl (buf, rest, None))
    else Done (inl (buf +:+ cstr line, rest, None)).

(** Every round reads a character at least. *)
Definition read_block (file : string) : res (option string * string) :=
  '(_, rest, r) ← loop read_block_body (strlen file + 1) ("", file, None);
  Done (r, rest).

(** ** The list of blocks *)

(** [add_list]: the last element counts a repetition. *)
Definition add_list (max_size : Z) (buf : string) (l : list block_list) : res (list block_list) :=
  match last l with
  | Some b =>
      if bool_decide (txt b = buf)
      then Done (<[(length l - 1)%nat := b <| num := i32 (num b + 1) |>]> l)
      else if zlen l =? max_size then Die ("max_size too small??" +:+ nl)
           else Done (l ++ [mk_block buf 1])
  | None =>
      if zlen l =? max_size then Die ("max_size too small??" +:+ nl)
      else Done (l ++ [mk_block buf 1])
  end.

(** The reading loop of [main]: the rest of the input and the list. *)
Definition load_body (max_size : Z) (s : string * list block_list)
    : res (string * list block_list + string * list block_list) :=
  let '(file, l) := s in
  '(r, rest) ← read_block file;
  match r with
  | None => Done (inr (rest, l))
  | Some buf => l ← add_list max_size buf l; Done (inl (rest, l))
  end.

Definition load (max_size : Z) (file : string) : res (list block_list) :=
  '(_, l) ← loop (load_body max_size) (strlen file + 1) (file, []);
  Done l.

(** ** Sorting and culling *)

Definition compare_txt (a b : block_list) : Z := strcmp (txt a) (txt b).
Definition compare_num (a b : block_list) : Z := i32 (num b - num a).

(** [qsort]: for a comparison that is an order on the elements, a sorted
    permutation of them. *)
Class Qsort := {
  qsort : (block_list → block_list → Z) → list block_list → list block_list;
  qsort_sorts : ∀ cmp (P : block_list → Prop) l,
    (∀ a b c, P a → P b → P c → cmp a b ≤ 0 → cmp b c ≤ 0 → cmp a c ≤ 0) →
    (∀ a b, P a → P b → 0 < cmp a b → cmp b a ≤ 0) → Forall P l →
    qsort cmp l ≡ₚ l ∧ StronglySorted (fun a b => cmp a b ≤ 0) (qsort cmp l)
}.

(** Neighbours with the same text are added up. *)
Definition cull_step (list2 : list block_list) (b : block_list) : list block_list :=
  match last list2 with
  | Some c =>
      if strcmp (txt c) (txt b) =? 0
      then <[(length list2 - 1)%nat := c <| num := i32 (num c + num b) |>]> list2
      else list2 ++ [b]
  | None => list2 ++ [b]
  end.
Definition cull (l : list block_list) : list block_list := foldl cull_step [] l.

Definition block_text (b : block_list) : string :=
  dec (num b) +:+ " times:" +:+ nl +:+ txt b +:+ nl.

(** [main] on two files that can be opened; [st_size] is the size of the
    input.  The result is the output file. *)
Definition main `{Qsort} (file : string) : res string :=
  let max_size := i32 (strlen file / 100) in
  l ← load max_size file;
  let l := qsort compare_txt l in
  let list2 := cull l in
  Done (texts block_text (qsort compare_num list2)).

(** ** Files made of blocks *)

(** A line of a block, without its newline. *)
Definition line_ok (line : string) : Prop :=
  line ≠ "" ∧ strchr line "010" = None ∧ c_string line.

Definition render_block (lines : list string) : string :=
  foldr (fun l acc => l +:+ nl +:+ acc) nl lines.

(** What is kept of it. *)
Definition is_pfn (line : string) : bool := strncmp_eq (line +:+ nl) "PFN" 3.
Definition block_of (lines : list string) : string :=
  texts (fun l => l +:+ nl) (filter (fun l => negb (is_pfn l)) lines).

Lemma fgets_nl n line rest :
  strchr line "010" = None → strlen line < Z.of_nat n → fgets n (line +:+ nl +:+ rest) = line +:+ nl.
Proof.
  revert n. induction line as [|c line IH]; intros [|n] Hl Hn;
    try (unfold strlen in Hn; simpl in Hn; lia); [done|].
  rewrite strlen_cons in Hn. change (String c line +:+ nl +:+ rest) with (String c (line +:+ nl +:+ rest)).
  cbn [fgets strchr] in *. destruct (Ascii.eqb c "010"); [done|].
  change (String c line +:+ nl) with (String c (line +:+ nl)). f_equal. apply IH; [done|lia].
Qed.

Lemma string_length_app (a b : string) :
  String.length (a +:+ b) = (String.length a + String.length b)%nat.
Proof. induction a as [|c a IH]; [done|]. simpl. by f_equal. Qed.

Lemma substring_skip (a b : string) :
  String.substring (String.length a) (String.length (a +:+ b) - String.length a) (a +:+ b) = b.
Proof.
  induction a as [|c a IH]; [|exact IH]. cbn [String.length]. rewrite Nat.sub_0_r.
  change ("" +:+ b) with b. apply substring_all. unfold strlen. lia.
Qed.

Lemma fgets_rest_nl n line rest :
  strchr line "010" = None → strlen line < Z.of_nat n → fgets_rest n (line +:+ nl +:+ rest) = rest.
Proof.
  intros Hl Hn. unfold fgets_rest. rewrite fgets_nl by done.
  rewrite <- string_app_assoc. apply substring_skip.
Qed.

(** One line read. *)
Lemma read_line buf line rest r :
  line_ok line → strlen buf + strlen line + 2 < BUF_SIZE →
  read_block_body (buf, line +:+ nl +:+ rest, r) =
    Done (inl (if is_pfn line then buf else buf +:+ line +:+ nl, rest, None)).
Proof.
  intros (Hne & Hnl & Hc) Hs. unfold read_block_body.
  pose proof (strlen_nonneg line). pose proof (strlen_nonneg buf).
  replace (1 <? BUF_SIZE - strlen buf) with true by lia. cbn [negb].
  rewrite fgets_nl, fgets_rest_nl by (done || lia). destruct line as [|c line]; [done|].
  change (String c line +:+ nl) with (String c (line +:+ nl)) in *.
  rewrite strlen_cons. pose proof (strlen_nonneg (line +:+ nl)).
  replace (1 + strlen (line +:+ nl) =? 0) with false by lia. cbn [newline_first].
  cbn [strchr] in Hnl. destruct (Ascii.eqb c "010"); [done|].
  unfold is_pfn. change (String c line +:+ nl) with (String c (line +:+ nl)).
  case_match; [done|]. f_equal. f_equal. f_equal. f_equal. f_equal.
  change (c_string (String c line +:+ nl)). by apply c_string_app.
Qed.

Lemma strlen_render_cons line lines :
  strlen (render_block (line :: lines)) = strlen line + 1 + strlen (render_block lines).
Proof.
  change (render_block (line :: lines)) with (line +:+ nl +:+ render_block lines).
  rewrite !strlen_app. change (strlen nl) with 1. lia.
Qed.

Lemma strlen_render lines : 1 ≤ strlen (render_block lines).
Proof.
  destruct lines as [|l lines]; [done|]. rewrite strlen_render_cons.
  pose proof (strlen_nonneg l). pose proof (strlen_nonneg (render_block lines)). lia.
Qed.

Lemma block_of_cons l lines :
  block_of (l :: lines) = if is_pfn l then block_of lines else (l +:+ nl) +:+ block_of lines.
Proof. unfold block_of. rewrite filter_cons. by destruct (is_pfn l). Qed.

Lemma read_lines lines rest : ∀ buf fuel,
  Forall line_ok lines → strlen buf + strlen (render_block lines) < BUF_SIZE - 1 →
  zlen lines < fuel →
  loop read_block_body fuel (buf, render_block lines +:+ rest, None) =
    Done (buf +:+ block_of lines, rest, Some (buf +:+ block_of lines)).
Proof.
  induction lines as [|l lines IH]; intros buf fuel Hl Hs Hf.
  - rewrite loop_step by (unfold zlen in Hf; simpl in Hf; lia). unfold read_block_body.
    change (strlen (render_block [])) with 1 in Hs.
    replace (1 <? BUF_SIZE - strlen buf) with true by lia. cbn [negb].
    change (render_block [] +:+ rest) with ("" +:+ nl +:+ rest).
    rewrite fgets_nl, fgets_rest_nl by (done || (change (strlen "") with 0; lia)).
    change ("" +:+ nl) with nl. change (strlen nl =? 0) with false.
    change (newline_first nl) with true. cbv iota. cbn [mbind res_bind].
    change (block_of []) with "". by rewrite string_app_nil_r.
  - apply Forall_cons in Hl as [Hx Hl]. rewrite strlen_render_cons in Hs. rewrite zlen_cons in Hf.
    pose proof (zlen_nonneg lines). pose proof (strlen_render lines). pose proof (strlen_nonneg l).
    change (render_block (l :: lines) +:+ rest) with ((l +:+ nl +:+ render_block lines) +:+ rest).
    rewrite !string_app_assoc, loop_step, read_line by (done || lia). cbn [mbind res_bind].
    rewrite block_of_cons. destruct (is_pfn l).
    + apply IH; [done|lia|lia].
    + rewrite IH; [|done|rewrite !strlen_app; change (strlen nl) with 1; lia|lia].
      by rewrite !string_app_assoc.
Qed.

Definition block_ok (lines : list string) : Prop :=
  Forall line_ok lines ∧ 100 ≤ strlen (render_block lines) < BUF_SIZE - 1.

Lemma strlen_lines lines : zlen lines < strlen (render_block lines).
Proof.
  induction lines as [|l lines IH]; [done|]. rewrite strlen_render_cons, zlen_cons.
  pose proof (strlen_nonneg l). lia.
Qed.

Lemma read_block_rendered lines rest :
  block_ok lines →
  read_block (render_block lines +:+ rest) = Done (Some (block_of lines), rest).
Proof.
  intros [Hl Hs]. unfold read_block. pose proof (strlen_lines lines). pose proof (strlen_nonneg rest).
  rewrite (read_lines lines rest ""); [done|done|change (strlen "") with 0; lia|].
  rewrite strlen_app. lia.
Qed.

Lemma read_block_eof : read_block "" = Done (None, "").
Proof. reflexivity. Qed.

(** ** Weights *)

(** How often [t] is counted in a list, and how often it occurs. *)
Definition counts_as (t : string) (b : block_list) : Z := if bool_decide (txt b = t) then num b else 0.
Definition weight (t : string) (l : list block_list) : Z := sum_of (counts_as t) l.
Definition occurrences (t : string) (bs : list string) : Z := zlen (filter (fun b => b = t) bs).

Lemma occurrences_snoc t bs b :
  occurrences t (bs ++ [b]) = occurrences t bs + (if bool_decide (b = t) then 1 else 0).
Proof.
  unfold occurrences. rewrite filter_app, zlen_app, filter_cons, filter_nil.
  case_bool_decide; case_decide; done.
Qed.

Lemma occurrences_le t bs : 0 ≤ occurrences t bs ≤ zlen bs.
Proof. unfold occurrences, zlen. pose proof (length_filter (fun b => b = t) bs). lia. Qed.

Definition total (l : list block_list) : Z := sum_of num l.

(** Every count is positive and [t] weighs as much as it occurred. *)
Definition counted_as (bs : list string) (l : list block_list) : Prop :=
  Forall (fun b => 0 < num b) l ∧ total l = zlen bs ∧ ∀ t, weight t l = occurrences t bs.

Lemma weight_app t l k : weight t (l ++ k) = weight t l + weight t k.
Proof. apply sum_of_app. Qed.

Lemma counts_as_nonneg t l : Forall (fun b => 0 < num b) l → 0 ≤ weight t l.
Proof.
  intros Hl. apply sum_of_nonneg. rewrite Forall_forall in Hl. intros b Hb.
  specialize (Hl b Hb). unfold counts_as. case_match; lia.
Qed.

(** The last element, apart. *)
Lemma last_split {A} (l : list A) : l = [] ∨ ∃ pre b, l = pre ++ [b].
Proof. destruct l as [|b pre _] using rev_ind; [by left|right; eauto]. Qed.

Lemma insert_last {A} (pre : list A) b c :
  <[(length (pre ++ [b]) - 1)%nat := c]> (pre ++ [b]) = pre ++ [c].
Proof.
  rewrite length_app. simpl. replace (length pre + 1 - 1)%nat with (length pre + 0)%nat by lia.
  by rewrite insert_app_r.
Qed.

Lemma add_list_counts max_size buf l bs :
  counted_as bs l → zlen l < max_size → zlen bs < 2 ^ 31 - 1 →
  ∃ l', add_list max_size buf l = Done l' ∧ counted_as (bs ++ [buf]) l' ∧ zlen l' ≤ zlen l + 1 ∧
    ∀ b, b ∈ txt <$> l' → b ∈ txt <$> l ∨ b = buf.
Proof.
  intros (Hp & Ht & Hw) Hz Hb. unfold add_list.
  assert (counted_as (bs ++ [buf]) (l ++ [mk_block buf 1])) as Hnew.
  { split; [apply Forall_app; split; [done|by repeat constructor]|].
    split; [unfold total in *; rewrite sum_of_app, zlen_app, Ht; done|]. intros t.
    rewrite weight_app, occurrences_snoc, Hw. unfold weight, sum_of, counts_as. cbn.
    case_bool_decide; lia. }
  assert (∀ b, b ∈ txt <$> (l ++ [mk_block buf 1]) → b ∈ txt <$> l ∨ b = buf) as Hin.
  { intros b. rewrite fmap_app. set_solver. }
  destruct (last_split l) as [->|(pre & b & ->)].
  - cbn [last]. replace (zlen [] =? max_size) with false by lia.
    eexists. split; [done|]. split_and!; [done| |done]. rewrite zlen_app. done.
  - rewrite last_snoc. case_bool_decide as Et.
    + rewrite insert_last. eexists. split; [done|].
      apply Forall_app in Hp as [Hp1 [Hpb _]%Forall_cons].
      assert (num b ≤ zlen bs) as Hle.
      { pose proof (Hw (txt b)) as E. rewrite weight_app in E.
        pose proof (counts_as_nonneg (txt b) pre Hp1). pose proof (occurrences_le (txt b) bs).
        unfold weight at 2 in E. unfold sum_of, counts_as in E. cbn in E.
        rewrite bool_decide_true in E by done. lia. }
      rewrite i32_small by lia. split_and!.
      * split; [apply Forall_app; split; [done|]; constructor; [cbn; lia|done]|].
        split; [unfold total in *; rewrite sum_of_app in Ht; rewrite sum_of_app, zlen_app;
                cbn in *; change (zlen [buf]) with 1; unfold sum_of in *; lia|]. intros t.
        rewrite occurrences_snoc, <- Hw, !weight_app. unfold weight, sum_of, counts_as. cbn.
        rewrite Et. case_bool_decide; lia.
      * rewrite !zlen_app. change (zlen [_]) with 1. lia.
      * intros c. rewrite !fmap_app. cbn. set_solver.
    + replace (zlen (pre ++ [b]) =? max_size) with false by lia.
      eexists. split; [done|]. split_and!; [done| |done]. rewrite (zlen_app _ [_]). done.
Qed.

Lemma add_all_counts max_size new : ∀ l bs,
  counted_as bs l → zlen l + zlen new ≤ max_size → zlen bs + zlen new < 2 ^ 31 →
  ∃ l', foldm (add_list max_size) new l = Done l' ∧ counted_as (bs ++ new) l' ∧
    ∀ b, b ∈ txt <$> l' → b ∈ txt <$> l ∨ b ∈ new.
Proof.
  induction new as [|buf new IH]; intros l bs Hc Hz Hb.
  - exists l. rewrite app_nil_r. split_and!; [done|done|by left].
  - rewrite zlen_cons in *. pose proof (zlen_nonneg new). cbn [foldm].
    destruct (add_list_counts max_size buf l bs Hc) as (l1 & -> & Hc1 & Hz1 & Hi1); [lia|lia|].
    cbn [mbind res_bind].
    destruct (IH l1 (bs ++ [buf]) Hc1) as (l2 & E & Hc2 & Hi2);
      [lia|rewrite zlen_app; change (zlen [buf]) with 1; lia|].
    rewrite <- app_assoc in Hc2. exists l2. split_and!; [done|done|].
    intros b [H1|H1]%Hi2; [|right; by right]. apply Hi1 in H1 as [H1| ->]; [by left|right; by left].
Qed.

(** One block loaded. *)
Lemma load_block max_size b rest l :
  block_ok b →
  load_body max_size (render_block b +:+ rest, l) =
    (l ← add_list max_size (block_of b) l; Done (inl (rest, l))).
Proof. intros Hb. unfold load_body. by rewrite read_block_rendered. Qed.

(** The loading loop adds the blocks one by one. *)
Lemma load_blocks max_size blocks : ∀ l fuel,
  Forall block_ok blocks → zlen blocks < fuel →
  loop (load_body max_size) fuel (texts render_block blocks, l) =
    (l ← foldm (add_list max_size) (block_of <$> blocks) l; Done ("", l)).
Proof.
  induction blocks as [|b blocks IH]; intros l fuel Hb Hf.
  - rewrite loop_step by (unfold zlen in Hf; simpl in Hf; lia). reflexivity.
  - apply Forall_cons in Hb as [Hx Hb]. rewrite zlen_cons in Hf. pose proof (zlen_nonneg blocks).
    rewrite loop_step by lia.
    change (texts render_block (b :: blocks)) with (render_block b +:+ texts render_block blocks).
    rewrite load_block by done. cbn [fmap list_fmap foldm].
    destruct (add_list max_size (block_of b) l) as [l1| |]; cbn [mbind res_bind]; [|done|done].
    apply IH; [done|lia].
Qed.

Lemma strlen_file blocks :
  Forall block_ok blocks → 100 * zlen blocks ≤ strlen (texts render_block blocks).
Proof.
  induction 1 as [|b blocks [_ Hb] _ IH]; [done|].
  change (texts render_block (b :: blocks)) with (render_block b +:+ texts render_block blocks).
  rewrite strlen_app, zlen_cons. lia.
Qed.

Lemma load_counts blocks :
  Forall block_ok blocks → strlen (texts render_block blocks) < 2 ^ 31 →
  ∃ l, load (i32 (strlen (texts render_block blocks) / 100)) (texts render_block blocks) = Done l ∧
    counted_as (block_of <$> blocks) l ∧ ∀ t, t ∈ txt <$> l → t ∈ block_of <$> blocks.
Proof.
  intros Hb Hs. pose proof (strlen_file blocks Hb) as Hf. pose proof (zlen_nonneg blocks).
  assert (zlen blocks ≤ strlen (texts render_block blocks) / 100) as Hm
    by (apply Z.div_le_lower_bound; lia).
  rewrite i32_small by (split; [apply Z.le_trans with 0; [lia|apply Z.div_pos; lia]|
    apply Z.div_lt_upper_bound; lia]).
  unfold load. rewrite load_blocks by (done || lia).
  assert (zlen (block_of <$> blocks) = zlen blocks) as El by (unfold zlen; by rewrite length_fmap).
  destruct (add_all_counts (strlen (texts render_block blocks) / 100) (block_of <$> blocks) [] [])
    as (l & -> & Hc & Hi).
  - split_and!; [constructor|done|done].
  - rewrite El. change (zlen []) with 0. lia.
  - rewrite El. change (zlen []) with 0. lia.
  - exists l. split_and!; [done|done|]. intros t [Ht|Ht]%Hi; [by apply elem_of_nil in Ht|done].
Qed.

(** Block texts are C strings. *)
Lemma block_of_c lines : Forall line_ok lines → c_string (block_of lines).
Proof.
  induction 1 as [|l lines (_ & _ & Hl) _ IH]; [done|]. rewrite block_of_cons.
  case_match; [done|]. by repeat apply c_string_app.
Qed.

(** ** Culling *)

Definition txt_le (a b : block_list) : Prop := compare_txt a b ≤ 0.
(** Counts and texts survive a permutation. *)
Lemma counted_perm bs l k : l ≡ₚ k → counted_as bs l → counted_as bs k.
Proof.
  intros Hp (H1 & H2 & H3). split; [by rewrite <- Hp|]. split.
  - rewrite <- H2. symmetry. by apply sum_of_perm.
  - intros t. rewrite <- H3. symmetry. by apply sum_of_perm.
Qed.

Section Cull.
Context (N : Z) (N_small : N < 2 ^ 31).

(** What has been culled: strictly increasing, below what is to come. *)
Definition cull_inv (done rest : list block_list) : Prop :=
  StronglySorted (fun a b => compare_txt a b < 0) done ∧
  Forall (fun b => 0 < num b ∧ c_string (txt b)) (done ++ rest) ∧
  StronglySorted txt_le rest ∧ (∀ a b, a ∈ done → b ∈ rest → txt_le a b) ∧
  total (done ++ rest) ≤ N.

Lemma StronglySorted_snoc {A} (R : A → A → Prop) l x :
  StronglySorted R l → (∀ y, y ∈ l → R y x) → StronglySorted R (l ++ [x]).
Proof.
  induction 1 as [|a l Hl IH Ha]; intros H; [by repeat constructor|]. cbn. constructor.
  - apply IH. intros. apply H. by right.
  - apply Forall_app. split; [done|]. constructor; [|done]. apply H. by left.
Qed.

Lemma StronglySorted_snoc_inv {A} (R : A → A → Prop) l x :
  StronglySorted R (l ++ [x]) → StronglySorted R l ∧ ∀ y, y ∈ l → R y x.
Proof.
  induction l as [|a l IH]; intros H; [split; [constructor|set_solver]|].
  cbn in H. inversion H as [|? ? Hl Ha]; subst. destruct (IH Hl) as [H1 H2].
  apply Forall_app in Ha as [Ha1 [Hax _]%Forall_cons]. split; [by constructor|].
  intros y [-> | Hy]%elem_of_cons; auto.
Qed.

(** [b] joins the last element: same text. *)
Lemma cull_join pre c b rest :
  cull_inv (pre ++ [c]) (b :: rest) → txt c = txt b →
  cull_inv (pre ++ [c <| num := num c + num b |>]) rest ∧ num c + num b ≤ N ∧
  ∀ t, weight t (pre ++ [c <| num := num c + num b |>]) = weight t (pre ++ [c]) + counts_as t b.
Proof.
  intros (Hd & Hp & Hs & Hle & Ht) E. inversion Hs as [|? ? Hs' Hb]; subst.
  apply StronglySorted_snoc_inv in Hd as [Hd1 Hd2].
  rewrite <- app_assoc in Hp. apply Forall_app in Hp as [Hp1 [Hpc [Hpb Hp2]%Forall_cons]%Forall_cons].
  assert (0 ≤ sum_of num pre ∧ 0 ≤ sum_of num rest) as [Hn1 Hn2].
  { split; apply sum_of_nonneg; rewrite Forall_forall in Hp1, Hp2; intros x Hx;
      [specialize (Hp1 x Hx)|specialize (Hp2 x Hx)]; lia. }
  unfold total in Ht. rewrite !sum_of_app in Ht. cbn in Ht. unfold sum_of in Hn1, Hn2, Ht.
  split; [|split; [lia|]].
  - split_and!.
    + by apply StronglySorted_snoc.
    + rewrite <- app_assoc. apply Forall_app. split; [done|]. constructor; [|done].
      cbn. destruct Hpc. split; [lia|done].
    + done.
    + intros x y [Hx|Hx]%elem_of_app Hy; [apply Hle; [set_solver|by right]|].
      apply list_elem_of_singleton in Hx as ->.
      apply (Hle c y); [set_solver|by right].
    + unfold total. rewrite !sum_of_app. cbn. unfold sum_of. lia.
  - intros t. rewrite !weight_app. unfold weight, sum_of, counts_as. cbn. rewrite E.
    case_bool_decide; lia.
Qed.

(** [b] starts a new element: its text is larger. *)
Lemma cull_new done b rest :
  cull_inv done (b :: rest) → (∀ c, last done = Some c → txt c ≠ txt b) →
  cull_inv (done ++ [b]) rest.
Proof.
  intros (Hd & Hp & Hs & Hle & Ht) Hne. inversion Hs as [|? ? Hs' Hb]; subst.
  rewrite Forall_app in Hp. destruct Hp as [Hp1 [Hpb Hp2]%Forall_cons].
  assert (∀ y, y ∈ done → compare_txt y b < 0) as Hlt.
  { intros y Hy. rewrite Forall_forall in Hp1. unfold compare_txt in *.
    pose proof (Hle y b Hy ltac:(by left)) as Hyb. unfold txt_le, compare_txt in Hyb.
    destruct (decide (strcmp (txt y) (txt b) = 0)) as [E|]; [exfalso|lia].
    apply strcmp_eq in E; [|by destruct (Hp1 y Hy)|by destruct Hpb].
    destruct (last_split done) as [->|(pre & c & ->)]; [by apply elem_of_nil in Hy|].
    specialize (Hne c ltac:(by rewrite last_snoc)).
    apply StronglySorted_snoc_inv in Hd as [_ Hd].
    apply elem_of_app in Hy as [Hy|Hy]; [|apply list_elem_of_singleton in Hy as ->; done].
    specialize (Hd y Hy). rewrite E in Hd. fold (strcmp (txt b) (txt c)) in Hd.
    pose proof (Hle c b ltac:(set_solver) ltac:(by left)) as Hcb. unfold txt_le, compare_txt in Hcb.
    unfold strcmp in *. rewrite strcmp_anti in Hd. lia. }
  split_and!.
  - by apply StronglySorted_snoc.
  - rewrite <- app_assoc. apply Forall_app. split; [done|]. by constructor.
  - done.
  - intros x y [Hx|Hx]%elem_of_app Hy; [apply Hle; [done|by right]|].
    apply list_elem_of_singleton in Hx as ->. rewrite Forall_forall in Hb. by apply Hb.
  - unfold total in *. rewrite <- app_assoc. done.
Qed.

Lemma cull_fold rest : ∀ done,
  cull_inv done rest →
  let out := foldl cull_step done rest in
  cull_inv out [] ∧ (∀ t, weight t out = weight t (done ++ rest)) ∧
  ∀ t, t ∈ txt <$> out → t ∈ txt <$> (done ++ rest).
Proof.
  induction rest as [|b rest IH]; intros done Hi; cbn [foldl].
  { rewrite app_nil_r. auto. }
  assert (0 < num b ∧ c_string (txt b)) as [Hbn Hb].
  { destruct Hi as (_ & Hp & _). rewrite Forall_forall in Hp. apply Hp. set_solver. }
  destruct (last_split done) as [->|(pre & c & ->)].
  - cbn [cull_step last app]. destruct (IH [b]) as (H1 & H2 & H3).
    + by apply (cull_new [] b rest).
    + auto.
  - assert (c_string (txt c)) as Hc.
    { destruct Hi as (_ & Hp & _). rewrite Forall_forall in Hp. apply Hp. set_solver. }
    unfold cull_step at 2 4 6. rewrite last_snoc.
    destruct (Z.eqb_spec (strcmp (txt c) (txt b)) 0) as [E|E].
    + apply strcmp_eq in E; [|done|done]. rewrite insert_last.
      destruct (cull_join pre c b rest Hi E) as (Hi' & Hn & Hw).
      assert (0 < num c) as Hcn.
      { destruct Hi as (_ & Hp & _). rewrite Forall_forall in Hp. apply Hp. set_solver. }
      rewrite i32_small by lia. destruct (IH _ Hi') as (H1 & H2 & H3). split_and!; [done| |].
      * intros t. rewrite H2. specialize (Hw t).
        rewrite (weight_app t _ rest), Hw, (weight_app t (pre ++ [c]) (b :: rest)).
        unfold weight, sum_of. cbn. lia.
      * intros t Ht%H3. revert Ht. rewrite !fmap_app. cbn. set_solver.
    + destruct (IH ((pre ++ [c]) ++ [b])) as (H1 & H2 & H3).
      * apply cull_new; [done|]. rewrite last_snoc. intros d [= <-] E'. apply E.
        by apply strcmp_eq.
      * rewrite <- (app_assoc (pre ++ [c]) [b] rest) in H2, H3. auto.
Qed.
End Cull.

(** ** The whole tool *)

Lemma weight_absent t l : t ∉ txt <$> l → weight t l = 0.
Proof.
  induction l as [|b l IH]; intros Ht; [done|]. change (counts_as t b + weight t l = 0).
  rewrite IH by set_solver. unfold counts_as. rewrite bool_decide_false; [done|]. set_solver.
Qed.

Lemma weight_nodup b l : NoDup (txt <$> l) → b ∈ l → weight (txt b) l = num b.
Proof.
  induction l as [|c l IH]; intros Hd Hb; [by apply elem_of_nil in Hb|].
  cbn in Hd. apply NoDup_cons in Hd as [Hc Hd]. change (counts_as (txt b) c + weight (txt b) l = num b).
  unfold counts_as. apply elem_of_cons in Hb as [->|Hb].
  - rewrite bool_decide_true, weight_absent by done. lia.
  - rewrite bool_decide_false, IH by (done || (intros E; apply Hc; rewrite E; by apply list_elem_of_fmap_2)).
    lia.
Qed.

Lemma sorted_nodup l : StronglySorted (fun a b => compare_txt a b < 0) l → NoDup (txt <$> l).
Proof.
  induction 1 as [|a l Hl IH Ha]; [constructor|]. cbn. apply NoDup_cons. split; [|done].
  intros (b & E & Hb)%list_elem_of_fmap. rewrite Forall_forall in Ha. specialize (Ha b Hb).
  unfold compare_txt, strcmp in Ha. rewrite <- E, strcmp_refl in Ha. lia.
Qed.

Lemma occurrences_in t bs : t ∈ bs → 0 < occurrences t bs.
Proof.
  intros Ht. unfold occurrences.
  assert (t ∈ filter (fun b => b = t) bs) as H by (by apply list_elem_of_filter).
  destruct (filter (fun b => b = t) bs); [by apply elem_of_nil in H|]. unfold zlen. simpl. lia.
Qed.

(** The two comparisons are orders. *)
Lemma compare_txt_sorts `{Qsort} l :
  Forall (fun b => c_string (txt b)) l →
  qsort compare_txt l ≡ₚ l ∧ StronglySorted txt_le (qsort compare_txt l).
Proof.
  apply (qsort_sorts compare_txt (fun b => c_string (txt b))).
  - intros a b c Ha Hb Hc. unfold compare_txt. apply strcmp_trans; try done.
    intros x Hx. unfold zchar. assert (nat_of_ascii x ≠ 0%nat); [|lia].
    intros E. apply Hx. by rewrite <- (ascii_nat_embedding x), E.
  - intros a b _ _. unfold compare_txt, strcmp. rewrite (strcmp_anti zchar (txt b)). lia.
Qed.

Lemma compare_num_sorts `{Qsort} l :
  Forall (fun b => 0 < num b < 2 ^ 31) l →
  qsort compare_num l ≡ₚ l ∧ StronglySorted (fun a b => compare_num a b ≤ 0) (qsort compare_num l).
Proof.
  apply (qsort_sorts compare_num (fun b => 0 < num b < 2 ^ 31)); unfold compare_num;
    intros *; intros; rewrite ?i32_small in * by lia; lia.
Qed.

Lemma cull_histogram bs l :
  counted_as bs l → Forall (fun b => c_string (txt b)) l → StronglySorted txt_le l →
  zlen bs < 2 ^ 31 →
  NoDup (txt <$> cull l) ∧ (∀ t, t ∈ txt <$> cull l ↔ t ∈ bs) ∧
  Forall (fun b => num b = occurrences (txt b) bs ∧ 0 < num b) (cull l).
Proof.
  intros (Hp & Ht & Hw) Hc Hs Hz.
  destruct (cull_fold (zlen bs) Hz l []) as (Hi & Hw' & Hin).
  { split; [apply SSorted_nil|]. split; [cbn; rewrite Forall_forall in *; auto|].
    split_and!; [done|set_solver|change (total l ≤ zlen bs); lia]. }
  fold (cull l) in *. cbn [app] in *. destruct Hi as (Hd & Hpos & _). rewrite app_nil_r in Hpos.
  apply sorted_nodup in Hd. split_and!; [done| |].
  - intros t. split.
    + intros Ht'. destruct (decide (t ∈ bs)) as [|Hn]; [done|]. exfalso.
      apply list_elem_of_fmap in Ht' as (b & -> & Hb).
      pose proof (weight_nodup b _ Hd Hb) as E. rewrite Hw', Hw in E.
      rewrite Forall_forall in Hpos. destruct (Hpos b Hb) as [Hn0 _].
      assert (occurrences (txt b) bs = 0); [|lia]. unfold occurrences.
      destruct (filter (fun x => x = txt b) bs) as [|x f] eqn:Ef; [done|]. exfalso.
      assert (x ∈ filter (fun x => x = txt b) bs) as [-> Hx]%list_elem_of_filter by (rewrite Ef; by left).
      done.
    + intros Ht'. destruct (decide (t ∈ txt <$> cull l)) as [|Hn]; [done|]. exfalso.
      pose proof (weight_absent t _ Hn) as E. rewrite Hw', Hw in E.
      pose proof (occurrences_in t bs Ht'). lia.
  - rewrite Forall_forall in *. intros b Hb. destruct (Hpos b Hb). split; [|done].
    rewrite <- Hw, <- Hw'. symmetry. by apply weight_nodup.
Qed.

(** C20: on a file of blocks, each of at least 100 characters and small enough
    for the buffer, the tool prints every distinct block (without its PFN
    lines) exactly once, with the number of its occurrences, most frequent
    first. *)
Theorem page_owner_histogram `{Qsort} blocks :
  Forall block_ok blocks → strlen (texts render_block blocks) < 2 ^ 31 →
  ∃ l, main (texts render_block blocks) = Done (texts block_text l) ∧
    NoDup (txt <$> l) ∧ StronglySorted (fun a b => num b ≤ num a) l ∧
    (∀ t, t ∈ txt <$> l ↔ t ∈ block_of <$> blocks) ∧
    Forall (fun b => num b = occurrences (txt b) (block_of <$> blocks)) l.
Proof.
  intros Hb Hs. destruct (load_counts blocks Hb Hs) as (l0 & El & Hc & Hi).
  unfold main. rewrite El, bind_Done.
  assert (Forall (fun b => c_string (txt b)) l0) as Hcs.
  { rewrite Forall_forall. intros b Hb'.
    specialize (Hi (txt b) ltac:(by apply list_elem_of_fmap_2)).
    apply list_elem_of_fmap in Hi as (ls & -> & Hls). rewrite Forall_forall in Hb.
    apply block_of_c, (Hb ls Hls). }
  destruct (compare_txt_sorts l0 Hcs) as [Hp1 Hs1].
  assert (zlen (block_of <$> blocks) < 2 ^ 31) as Hz.
  { pose proof (strlen_file blocks Hb). pose proof (zlen_nonneg blocks). unfold zlen in *.
    rewrite length_fmap. lia. }
  destruct (cull_histogram (block_of <$> blocks) (qsort compare_txt l0)) as (Hd & Ht & Hn);
    [by eapply counted_perm; [symmetry|]|by rewrite Hp1|done|done|].
  destruct (compare_num_sorts (cull (qsort compare_txt l0))) as [Hp2 Hs2].
  { eapply Forall_impl; [exact Hn|]. intros b [E ?].
    pose proof (occurrences_le (txt b) (block_of <$> blocks)). lia. }
  eexists. split; [done|]. split_and!.
  - by rewrite Hp2.
  - assert (Forall (fun b => 0 < num b < 2 ^ 31) (qsort compare_num (cull (qsort compare_txt l0)))) as Hr.
    { rewrite Hp2. eapply Forall_impl; [exact Hn|]. intros b [E ?].
      pose proof (occurrences_le (txt b) (block_of <$> blocks)). lia. }
    clear - Hs2 Hr. induction Hs2 as [|a l Hl IH Ha]; [constructor|].
    apply Forall_cons in Hr as [Hra Hr]. constructor; [by apply IH|].
    rewrite Forall_forall in *. intros b Hb. specialize (Ha b Hb). specialize (Hr b Hb).
    unfold compare_num in Ha. rewrite i32_small in Ha by lia. lia.
  - intros t. by rewrite Hp2.
  - rewrite Hp2. eapply Forall_impl; [exact Hn|]. by intros b [E _].
Qed.

(** ** A sorting routine that keeps the promise *)

Section InsertionSort.
Context (cmp : block_list → block_list → Z).

Fixpoint insert_sorted (b : block_list) (l : list block_list) : list block_list :=
  match l with
  | [] => [b]
  | c :: r => if 0 <? cmp b c then c :: insert_sorted b r else b :: l
  end.

Definition insertion_sort (l : list block_list) : list block_list := foldr insert_sorted [] l.

Lemma insert_sorted_perm b l : insert_sorted b l ≡ₚ b :: l.
Proof.
  induction l as [|c l IH]; [done|]. cbn. case_match; [|done]. rewrite IH. apply perm_swap.
Qed.

Context (P : block_list → Prop).
Context (cmp_trans : ∀ a b c, P a → P b → P c → cmp a b ≤ 0 → cmp b c ≤ 0 → cmp a c ≤ 0).
Context (cmp_asym : ∀ a b, P a → P b → 0 < cmp a b → cmp b a ≤ 0).

Lemma insert_sorted_sorted b l :
  P b → Forall P l → StronglySorted (fun a b => cmp a b ≤ 0) l →
  StronglySorted (fun a b => cmp a b ≤ 0) (insert_sorted b l).
Proof.
  intros Hb Hl Hs. induction Hs as [|c l Hs IH Hc]; [by repeat constructor|].
  apply Forall_cons in Hl as [HPc Hl]. cbn. destruct (Z.ltb_spec 0 (cmp b c)) as [E|E].
  - constructor; [by apply IH|]. rewrite insert_sorted_perm. constructor; [by apply cmp_asym|done].
  - constructor; [by constructor|]. constructor; [done|]. rewrite Forall_forall in *.
    intros d Hd. apply (cmp_trans b c d); auto.
Qed.

Lemma insertion_sort_sorts l :
  Forall P l → insertion_sort l ≡ₚ l ∧ StronglySorted (fun a b => cmp a b ≤ 0) (insertion_sort l).
Proof.
  induction 1 as [|b l Hb Hl [IH1 IH2]]; [split; [done|apply SSorted_nil]|]. cbn. split.
  - rewrite insert_sorted_perm. by constructor.
  - apply insert_sorted_sorted; [done|by rewrite IH1|done].
Qed.
End InsertionSort.

Definition insertion_qsort : Qsort :=
  {| qsort := insertion_sort;
     qsort_sorts := fun cmp P l Ht Ha Hl => insertion_sort_sorts cmp P Ht Ha l Hl |}.

(** Two equal blocks up to their PFN lines, and a third one. *)
Definition demo_line (c : ascii) : string := rep c 99.
Definition demo_blocks : list (list string) :=
  [["PFN 1"; demo_line "a"]; [demo_line "b"]; ["PFN 2"; demo_line "a"]].

Lemma page_owner_histogram_witness :
  ∃ l, @main insertion_qsort (texts render_block demo_blocks) = Done (texts block_text l) ∧
    NoDup (txt <$> l) ∧ StronglySorted (fun a b => num b ≤ num a) l ∧
    (∀ t, t ∈ txt <$> l ↔ t ∈ block_of <$> demo_blocks) ∧
    Forall (fun b => num b = occurrences (txt b) (block_of <$> demo_blocks)) l.
Proof.
  refine (@page_owner_histogram insertion_qsort demo_blocks _ _).
  - repeat constructor; try discriminate; try reflexivity; vm_compute; discriminate.
  - vm_compute. reflexivity.
Defined.
