(* ===== verification/Leet.v ===== *)
(** * Two exercises: binary search and climbing stairs

    [leet/dichotomy.c] and [leet/climbStairs.c]. *)

From S2P Require Import Prelude.

(** ** Binary search *)

(** [while (left < right)]: the state is [left], [right] and the index
    returned early. *)
Definition search_body (nums : list Z) (target : Z) (s : Z * Z * option Z)
    : res (Z * Z * option Z + Z * Z * option Z) :=
  let '(lft, rgt, r) := s in
  if negb (lft <? rgt) then Done (inr s)
  else
    let half := lft + (rgt - lft) / 2 in
    v ← aget nums half;
    if target <? v then Done (inl (lft, half, None))
    else if v <? target then Done (inl (half + 1, rgt, None))
    else Done (inr (lft, rgt, Some half)).

(** The index of [target], or the one where it would be inserted. *)
Definition search (nums : list Z) (numsSize target : Z) : res Z :=
  '(lft, _, r) ← loop (search_body nums target) (numsSize + 1) (0, numsSize - 1, None);
  match r with
  | Some half => Done half
  | None => v ← aget nums lft; if target <=? v then Done lft else Done (lft + 1)
  end.

(** An array in ascending order, and a position where [target] belongs. *)
Definition ascending (nums : list Z) : Prop :=
  ∀ i j x y, (i ≤ j)%nat → nums !! i = Some x → nums !! j = Some y → x ≤ y.

Definition belongs (nums : list Z) (target r : Z) : Prop :=
  0 ≤ r ≤ zlen nums ∧
  (∀ i x, nums !! i = Some x → Z.of_nat i < r → x ≤ target) ∧
  (∀ i x, nums !! i = Some x → r ≤ Z.of_nat i → target ≤ x) ∧
  (target ∈ nums → nums !! Z.to_nat r = Some target).

(** What is known between the bounds: everything left of [lft] is smaller,
    everything from [rgt] on is larger, except the last element, which has
    not been looked at. *)
Definition search_inv (nums : list Z) (target : Z) (s : Z * Z * option Z) : Prop :=
  let '(lft, rgt, r) := s in
  0 ≤ lft ≤ rgt ∧ rgt < zlen nums ∧
  (∀ i x, nums !! i = Some x → Z.of_nat i < lft → x < target) ∧
  (∀ i x, nums !! i = Some x → rgt ≤ Z.of_nat i → target < x ∨ rgt = zlen nums - 1) ∧
  match r with Some h => 0 ≤ h < zlen nums ∧ nums !! Z.to_nat h = Some target | None => True end.

Lemma search_body_step nums target s :
  ascending nums → search_inv nums target s →
  match search_body nums target s with
  | Done (inl s') => search_inv nums target s' ∧
      0 ≤ s'.1.2 - s'.1.1 < s.1.2 - s.1.1
  | Done (inr s') => search_inv nums target s' ∧ (s'.2 = None → s'.1.2 ≤ s'.1.1)
  | _ => False
  end.
Proof.
  destruct s as [[lft rgt] r]. intros Ha Hinv. pose proof Hinv as (H1 & H2 & H3 & H4 & H5). unfold search_body.
  destruct (Z.ltb_spec lft rgt) as [Hlt|Hge]; cbn [negb]; [|by split].
  set (half := lft + (rgt - lft) / 2).
  assert (lft ≤ half < rgt) as Hh.
  { subst half. pose proof (Z.div_pos (rgt - lft) 2). 
    pose proof (Z.div_lt_upper_bound (rgt - lft) 2 (rgt - lft)). lia. }
  destruct (aget_in nums half) as [v Hv]; [lia|]. rewrite Hv. cbn [mbind res_bind].
  apply aget_done in Hv as [_ Hv].
  destruct (Z.ltb_spec target v); [|destruct (Z.ltb_spec v target)]; cbn [fst snd].
  - split; [|lia]. split_and!; [lia|lia|lia|done| |done].
    intros i x Hx Hi. left. pose proof (Ha (Z.to_nat half) i v x ltac:(lia) Hv Hx). lia.
  - split; [|lia]. split_and!; [lia|lia|lia| |done|done].
    intros i x Hx Hi. pose proof (Ha i (Z.to_nat half) x v ltac:(lia) Hx Hv). lia.
  - assert (v = target) as -> by lia. split; [|done]. split_and!; try done; lia.
Qed.

(** Binary search in a nonempty ascending array ends, stays inside the
    array, and answers an index of the target when it is there, and otherwise
    the place where it would have to be inserted. *)
Theorem search_finds nums target :
  ascending nums → nums ≠ [] → ∃ r, search nums (zlen nums) target = Done r ∧ belongs nums target r.
Proof.
  intros Ha Hne. assert (0 < zlen nums) as Hz by (destruct nums; [done|]; unfold zlen; simpl; lia).
  unfold search.
  assert (∃ s, loop (search_body nums target) (zlen nums + 1) (0, zlen nums - 1, None) = Done s ∧
    search_inv nums target s ∧ (s.2 = None → s.1.2 ≤ s.1.1)) as ([[lft rgt] r] & -> & Hi & Hend).
  { apply (loop_rule (search_body nums target) (search_inv nums target) (fun s => s.1.2 - s.1.1)
      (fun _ res => ∃ s, res = Done s ∧ search_inv nums target s ∧ (s.2 = None → s.1.2 ≤ s.1.1))).
    - intros s Hs _. pose proof (search_body_step nums target s Ha Hs) as Hb.
      destruct (search_body nums target s) as [[s'|s']| |]; [|eauto|done|done].
      destruct Hb as [Hs' Hm]. split_and!; [done|lia|lia|done].
    - split_and!; try done; try lia; try (intros i x Hx Hi; lia || by right).
    - cbn. lia. }
  destruct Hi as (H1 & H2 & H3 & H4 & H5). cbn [fst snd mbind res_bind] in *.
  assert (∀ h, 0 ≤ h < zlen nums → nums !! Z.to_nat h = Some target → belongs nums target h) as Hhit.
  { intros h Hh Ht. split_and!; [lia|lia| | |done].
    - intros i x Hx Hi. apply (Ha i (Z.to_nat h) x target); [lia|done|done].
    - intros i x Hx Hi. apply (Ha (Z.to_nat h) i target x); [lia|done|done]. }
  destruct r as [h|]; [exists h; split; [done|]; destruct H5; by apply Hhit|].
  specialize (Hend eq_refl). assert (rgt = lft) as -> by lia.
  destruct (aget_in nums lft) as [v Hv]; [lia|]. rewrite Hv. cbn [mbind res_bind].
  apply aget_done in Hv as [_ Hv].
  destruct (decide (v = target)) as [->|Hvt].
  { rewrite Z.leb_refl. exists lft. split; [done|]. apply Hhit; [lia|done]. }
  destruct (Z.leb_spec target v) as [Hle|Hgt]; eexists; (split; [done|]).
  - split_and!; [lia|lia|intros i x Hx Hi; specialize (H3 i x Hx Hi); lia| |].
    + intros i x Hx Hi. pose proof (Ha (Z.to_nat lft) i v x ltac:(lia) Hv Hx). lia.
    + intros (i & Hi)%list_elem_of_lookup. exfalso.
      destruct (decide (Z.of_nat i < lft)) as [Hl|Hl]; [specialize (H3 i target Hi Hl); lia|].
      pose proof (Ha (Z.to_nat lft) i v target ltac:(lia) Hv Hi). lia.
  - assert (∀ i x, nums !! i = Some x → lft < Z.of_nat i → target < x) as Hr.
    { intros i x Hx Hi. destruct (H4 i x Hx ltac:(lia)) as [|E]; [done|].
      apply lookup_lt_Some in Hx. unfold zlen in *. lia. }
    assert (∀ i x, nums !! i = Some x → Z.of_nat i ≤ lft → x < target) as Hl.
    { intros i x Hx Hi. pose proof (Ha i (Z.to_nat lft) x v ltac:(lia) Hx Hv). lia. }
    split_and!; [lia|lia|intros i x Hx Hi; specialize (Hl i x Hx ltac:(lia)); lia|
                 intros i x Hx Hi; specialize (Hr i x Hx ltac:(lia)); lia|].
    intros (i & Hi)%list_elem_of_lookup. exfalso. destruct (decide (Z.of_nat i ≤ lft)) as [Hc|Hc].
    + specialize (Hl i target Hi Hc). lia.
    + specialize (Hr i target Hi ltac:(lia)). lia.
Qed.

Lemma search_finds_witness :
  ∃ r, search [-1; 0; 3; 5; 9; 12] 6 9 = Done r ∧ belongs [-1; 0; 3; 5; 9; 12] 9 r.
Proof.
  refine (search_finds [-1; 0; 3; 5; 9; 12] 9 _ _); [|discriminate].
  intros i j x y Hij Hx Hy.
  do 6 (destruct i as [|i]; [do 6 (destruct j as [|j]; [simpl in *; congruence || (simplify_eq; lia) |]);
    simpl in Hy; discriminate|]).
  simpl in Hx. discriminate.
Defined.

(** ** Climbing stairs *)

(** The loop of [climbStairs], from [p], [q] and [r]. *)
Fixpoint climb_loop (n : nat) (q r : Z) : Z :=
  match n with
  | O => r
  | S n => climb_loop n r (i32 (q + r))
  end.

Definition climbStairs (n : Z) : Z := climb_loop (Z.to_nat n) 0 1.

(** [climb2] by recursion, [None] when the stack does not suffice: for
    [cnt < 1] the recursion never ends. *)
Fixpoint climb2 (fuel : nat) (cnt : Z) : option Z :=
  match fuel with
  | O => None
  | S fuel =>
      if cnt =? 1 then Some 1
      else if cnt =? 2 then Some 2
      else
        a ← climb2 fuel (cnt - 1);
        b ← climb2 fuel (cnt - 2);
        Some (i32 (a + b))
  end.

Lemma climb_loop_step n : ∀ q r,
  climb_loop (S (S n)) q r = i32 (climb_loop (S n) q r + climb_loop n q r) ∨ ¬ (i32 r = r).
Proof.
  induction n as [|n IH]; intros q r.
  - destruct (decide (i32 r = r)); [|by right]. left. cbn. f_equal. lia.
  - destruct (decide (i32 r = r)) as [Hr|]; [|by right]. left.
    destruct (IH r (i32 (q + r))) as [E|E]; [exact E|].
    exfalso. apply E. unfold swrap. set (m := (q + r + _) mod _).
    rewrite Z.sub_add. unfold m. by rewrite Z.mod_mod.
Qed.

(** The loop and the recursion climb the same stairs, for every number of
    steps, overflow included; the recursion is as deep as there are steps. *)
Theorem climb_agree (n : nat) fuel :
  (1 ≤ n ≤ fuel)%nat → climb2 fuel (Z.of_nat n) = Some (climbStairs (Z.of_nat n)).
Proof.
  unfold climbStairs. rewrite Nat2Z.id. revert fuel.
  induction n as [n IH] using (well_founded_induction lt_wf). intros fuel Hn.
  destruct fuel as [|fuel]; [lia|]. cbn [climb2].
  destruct (Z.eqb_spec (Z.of_nat n) 1) as [E|E]; [by replace n with 1%nat by lia|].
  destruct (Z.eqb_spec (Z.of_nat n) 2) as [E2|E2]; [by replace n with 2%nat by lia|].
  destruct n as [|[|n]]; [lia|lia|].
  replace (Z.of_nat (S (S n)) - 1) with (Z.of_nat (S n)) by lia.
  replace (Z.of_nat (S (S n)) - 2) with (Z.of_nat n) by lia.
  rewrite !IH by lia. cbn [mbind option_bind]. f_equal.
  destruct (climb_loop_step n 0 1) as [->|H]; [done|]. by destruct H.
Qed.

Lemma climb_agree_witness : climb2 5 4 = Some (climbStairs 4).
Proof. exact (climb_agree 4 5 ltac:(lia)). Defined.
