(* ===== verification/Pagemap.v ===== *)
(** * Virtual to physical addresses

    The tools [qemu_pci/v2p.c] (and its copy [mem/read_pagemap.c]) and
    [qemu_pci/vtop.c] look an address up in [/proc/<pid>/pagemap].  The file is
    an argument: the byte at an offset, or nothing past its end. *)

From S2P Require Import Prelude CLib.

Definition PAGEMAP_ENTRY : Z := 8.
Definition GET_BIT (x y : Z) : Z := Z.shiftr (Z.land x (Z.shiftl 1 y)) y.
Definition GET_PFN (x : Z) : Z := Z.land x 36028797018963967. (* 0x7FFFFFFFFFFFFF *)

Definition pagemap_file : Type := Z → option Z.

(** ** v2p *)

(** The [getc] loop: the bytes in the order of [c_buf], and the text; [None]
    at the end of the file. *)
Fixpoint read_entry (big : bool) (f : pagemap_file) (off : Z) (i : Z) (n : nat)
    (c_buf : list Z) (text : string) : option (list Z) * string :=
  match n with
  | O => (Some c_buf, text)
  | S n =>
      match f (off + i) with
      | None => (None, text +:+ nl +:+ "Reached end of the file" +:+ nl)
      | Some c =>
          let k := if big then i else PAGEMAP_ENTRY - i - 1 in
          read_entry big f off (i + 1) n (<[Z.to_nat k := c]> c_buf)
            (text +:+ "[" +:+ dec i +:+ "]0x" +:+ hex c +:+ " ")
      end
  end.

(** [read_val = (read_val << 8) + c_buf[i]]. *)
Definition combine (c_buf : list Z) : Z :=
  foldl (fun v c => u64 (u64 (Z.shiftl v 8) + c)) 0 c_buf.

(** The physical address printed. *)
Definition phys_addr (page_size virt_addr pfn : Z) : Z :=
  u64 (pfn * page_size + virt_addr mod page_size).

Definition entry_text (page_size virt_addr read_val : Z) : string :=
  nl +:+ "Result: 0x" +:+ hex read_val +:+ nl +:+
  (if negb (GET_BIT read_val 63 =? 0) then
     let pfn := GET_PFN read_val in
     "PFN: 0x" +:+ hex pfn +:+ " (0x" +:+ hex (phys_addr page_size virt_addr pfn) +:+ ")" +:+ nl
   else "Page not present" +:+ nl) +:+
  (if negb (GET_BIT read_val 62 =? 0) then "Page swapped" +:+ nl else "").

Definition file_offset (page_size virt_addr : Z) : Z := u64 (virt_addr / page_size * PAGEMAP_ENTRY).

(** Return value and output; [file] is [None] when it cannot be opened and
    [seek] whether [fseek] works. *)
Definition read_pagemap (big : bool) (page_size : Z) (file : option pagemap_file) (seek : bool)
    (path : string) (virt_addr : Z) : Z * string :=
  let out := "Big endian? " +:+ dec (if big then 1 else 0) +:+ nl in
  match file with
  | None => (-1, out +:+ "Error! Cannot open " +:+ path +:+ nl)
  | Some f =>
      let off := file_offset page_size virt_addr in
      let out := out +:+ "Vaddr: 0x" +:+ hex virt_addr +:+ ", Page_size: " +:+ dec (i64 page_size) +:+
        ", Entry_size: " +:+ dec PAGEMAP_ENTRY +:+ nl +:+
        "Reading " +:+ path +:+ " at 0x" +:+ hex off +:+ nl in
      if negb seek then (-1, out)
      else
        match read_entry big f off 0 (Z.to_nat PAGEMAP_ENTRY)
                (replicate (Z.to_nat PAGEMAP_ENTRY) 0) out with
        | (None, out) => (0, out)
        | (Some c_buf, out) => (0, out +:+ entry_text page_size virt_addr (combine c_buf))
        end
  end.

(** [main]: the arguments without the program name. *)
Definition main (big : bool) (page_size : Z) (open : string → option pagemap_file) (seek : bool)
    (args : list string) : Z * string :=
  match args with
  | [a1; a2] =>
      let virt_addr := u64 (fst (strtoll 16 a2)) in
      let go path := (0, snd (read_pagemap big page_size (open path) seek path virt_addr)) in
      if bool_decide (a1 = "self") then go "/proc/self/pagemap"
      else
        let '(v, end_) := strtoll 10 a1 in
        let pid := i32 v in
        if (strlen end_ =? strlen a1) || negb (strlen end_ =? 0) || (pid <=? 0)
        then (-1, "PID must be a positive number or 'self'" +:+ nl)
        else go ("/proc/" +:+ dec (u32 pid) +:+ "/pagemap")
  | _ => (-1, "Argument number is not correct!" +:+ nl +:+ " pagemap PID VIRTUAL_ADDRESS" +:+ nl)
  end.

(** ** vtop *)

Definition PAGE_SHIFT : Z := 12.
Definition PFN_PRESENT : Z := Z.shiftl 1 63.
Definition PFN_PFN : Z := Z.shiftl 1 55 - 1.

Definition page_offset (addr : Z) : Z := Z.land (u32 addr) (Z.shiftl 1 PAGE_SHIFT - 1).

(** [pagemap] is the entry at an offset of the file. *)
Definition gva_to_gfn (pagemap : Z → Z) (addr : Z) : Z :=
  let offset := Z.land (Z.shiftr addr 9) (Z.lnot 7) in
  let pme := pagemap offset in
  if Z.land pme PFN_PRESENT =? 0 then u64 (-1) else Z.land pme PFN_PFN.

Definition gva_to_gpa (pagemap : Z → Z) (addr : Z) : res Z :=
  let gfn := gva_to_gfn pagemap addr in
  if gfn =? u64 (-1) then Die "assert(gfn != -1)"
  else Done (Z.lor (u64 (Z.shiftl gfn PAGE_SHIFT)) (page_offset addr)).

(** ** The two tools agree *)

(** The entry the eight bytes at an offset stand for, on a little-endian
    machine. *)
Definition entry_at (f : Z → Z) (off : Z) : Z :=
  sum_of (fun i => f (off + i) * 2 ^ (8 * i)) (seqZ 0 8).

Lemma combine_bytes b0 b1 b2 b3 b4 b5 b6 b7 :
  Forall (fun b => 0 ≤ b < 256) [b0; b1; b2; b3; b4; b5; b6; b7] →
  combine [b7; b6; b5; b4; b3; b2; b1; b0] =
    b0 + b1 * 2 ^ 8 + b2 * 2 ^ 16 + b3 * 2 ^ 24 + b4 * 2 ^ 32 + b5 * 2 ^ 40 + b6 * 2 ^ 48 + b7 * 2 ^ 56.
Proof.
  intros H. repeat (apply Forall_cons in H as [? H]). unfold combine. cbn [foldl].
  rewrite !Z.shiftl_mul_pow2 by done. change (2 ^ 8) with 256.
  assert (∀ v c k, 0 ≤ v < k → k ≤ 2 ^ 56 → 0 ≤ c < 256 →
    u64 (u64 (v * 256) + c) = v * 256 + c ∧ 0 ≤ v * 256 + c < k * 256) as Hs.
  { intros v c k Hv Hk Hc. rewrite (u64_small (v * 256)) by lia. rewrite u64_small by lia. lia. }
  change (u64 (0 * 256)) with 0. rewrite (u64_small (0 + b7)) by lia. rewrite Z.add_0_l.
  destruct (Hs b7 b6 256) as [-> K6]; [lia..|].
  destruct (Hs (b7 * 256 + b6) b5 (256 * 256)) as [-> K5]; [lia..|].
  destruct (Hs _ b4 (256 * 256 * 256) K5) as [-> K4]; [lia..|].
  destruct (Hs _ b3 (256 * 256 * 256 * 256) K4) as [-> K3]; [lia..|].
  destruct (Hs _ b2 (256 * 256 * 256 * 256 * 256) K3) as [-> K2]; [lia..|].
  destruct (Hs _ b1 (256 * 256 * 256 * 256 * 256 * 256) K2) as [-> K1]; [lia..|].
  destruct (Hs _ b0 (256 * 256 * 256 * 256 * 256 * 256 * 256) K1) as [-> K0]; [lia..|].
  lia.
Qed.

Lemma land_ones_mod x n : 0 ≤ n → Z.land x (Z.shiftl 1 n - 1) = x mod 2 ^ n.
Proof.
  intros Hn. rewrite <- Z.land_ones by done. done.
Qed.

Lemma page_offset_mod addr : page_offset addr = addr mod 4096.
Proof.
  unfold page_offset, PAGE_SHIFT. rewrite land_ones_mod by done. change (2 ^ 12) with 4096.
  unfold wrap. change (2 ^ 32) with (4096 * 1048576).
  rewrite Z.rem_mul_r by lia. rewrite Z.mul_comm, Z.mod_add by lia.
  by rewrite Z.mod_mod by lia.
Qed.

Lemma file_offset_bits addr :
  0 ≤ addr < 2 ^ 64 → file_offset 4096 addr = Z.land (Z.shiftr addr 9) (Z.lnot 7).
Proof.
  intros Ha. unfold file_offset, PAGEMAP_ENTRY.
  assert (0 ≤ addr / 4096 < 2 ^ 52) as Hd
    by (split; [apply Z.div_pos; lia|apply Z.div_lt_upper_bound; lia]).
  rewrite u64_small by lia. rewrite <- Z.ldiff_land.
  change 7 with (Z.ones 3). rewrite Z.ldiff_ones_r, Z.shiftr_shiftr by lia.
  rewrite Z.shiftl_mul_pow2, Z.shiftr_div_pow2 by lia. done.
Qed.

(** Masking one bit. *)
Lemma land_bit x k : 0 ≤ k → Z.land x (2 ^ k) = if Z.testbit x k then 2 ^ k else 0.
Proof.
  intros Hk. destruct (Z.testbit x k) eqn:E; apply Z.bits_inj'; intros n Hn;
    rewrite Z.land_spec, ?Z.pow2_bits_eqb, ?Z.bits_0 by lia;
    destruct (Z.eqb_spec k n) as [<-|]; rewrite ?E, ?andb_false_r; done.
Qed.

Lemma get_bit_63 x : (GET_BIT x 63 =? 0) = (Z.land x PFN_PRESENT =? 0).
Proof.
  unfold GET_BIT, PFN_PRESENT. change (Z.shiftl 1 63) with (2 ^ 63). rewrite land_bit by lia.
  by destruct (Z.testbit x 63).
Qed.

Lemma get_bit_62 x : negb (GET_BIT x 62 =? 0) = Z.testbit x 62.
Proof.
  unfold GET_BIT. change (Z.shiftl 1 62) with (2 ^ 62). rewrite land_bit by lia.
  by destruct (Z.testbit x 62).
Qed.

(** Sum and union of a page's address and an offset inside the page. *)
Lemma phys_addr_lor pfn addr :
  0 ≤ pfn → phys_addr 4096 addr pfn = Z.lor (u64 (Z.shiftl pfn PAGE_SHIFT)) (page_offset addr).
Proof.
  intros Hp. rewrite page_offset_mod. unfold phys_addr, PAGE_SHIFT.
  rewrite Z.shiftl_mul_pow2 by lia. change (2 ^ 12) with 4096.
  pose proof (Z.mod_pos_bound addr 4096 ltac:(lia)) as Ho.
  assert (u64 (pfn * 4096) = (pfn mod 2 ^ 52) * 4096) as E.
  { unfold wrap. change (2 ^ 64) with (2 ^ 52 * 4096).
    rewrite Z.mul_mod_distr_r by lia. done. }
  pose proof (Z.mod_pos_bound pfn (2 ^ 52) ltac:(lia)) as Hq.
  assert (u64 (pfn * 4096 + addr mod 4096) = u64 (pfn * 4096) + addr mod 4096) as ->.
  { unfold wrap at 1. rewrite <- Zplus_mod_idemp_l. fold (u64 (pfn * 4096)).
    rewrite E. apply u64_small. lia. }
  rewrite E. rewrite <- Z.add_lor_land.
  assert (Z.land ((pfn mod 2 ^ 52) * 4096) (addr mod 4096) = 0) as ->; [|lia].
  apply Z.bits_inj'. intros n Hn. rewrite Z.land_spec, Z.bits_0.
  change 4096 with (2 ^ 12). rewrite Z.mul_pow2_bits by lia.
  destruct (decide (n < 12)) as [Hlt|Hge].
  - rewrite Z.testbit_neg_r by lia. done.
  - rewrite (Z.mod_pow2_bits_high addr 12 n) by lia. by rewrite andb_false_r.
Qed.

(** The loop that reads an entry, on a little-endian machine. *)
Lemma read_entry_bytes f off out :
  ∃ head, read_entry false (fun i => Some (f i)) off 0 (Z.to_nat PAGEMAP_ENTRY)
      (replicate (Z.to_nat PAGEMAP_ENTRY) 0) out =
    (Some ((fun i => f (off + i)) <$> [7; 6; 5; 4; 3; 2; 1; 0]), head).
Proof. eexists. reflexivity. Qed.

Lemma entry_sum f off :
  entry_at f off = f (off + 0) + f (off + 1) * 2 ^ 8 + f (off + 2) * 2 ^ 16 + f (off + 3) * 2 ^ 24 +
    f (off + 4) * 2 ^ 32 + f (off + 5) * 2 ^ 40 + f (off + 6) * 2 ^ 48 + f (off + 7) * 2 ^ 56.
Proof.
  unfold entry_at. change (seqZ 0 8) with [0; 1; 2; 3; 4; 5; 6; 7]. unfold sum_of.
  cbn [foldr]. change (8 * 0) with 0. rewrite Z.pow_0_r. lia.
Qed.

Lemma combine_entry f off :
  (∀ i, 0 ≤ f i < 256) →
  combine ((fun i => f (off + i)) <$> [7; 6; 5; 4; 3; 2; 1; 0]) = entry_at f off.
Proof. intros Hf. cbn [fmap list_fmap]. rewrite combine_bytes by (repeat constructor; apply Hf). by rewrite entry_sum. Qed.

Lemma get_pfn_range x : 0 ≤ GET_PFN x < 2 ^ 55.
Proof.
  unfold GET_PFN. change 36028797018963967 with (Z.ones 55). rewrite Z.land_ones by lia.
  apply Z.mod_pos_bound. lia.
Qed.

(** On a little-endian machine with 4096-byte pages, [v2p] reads the entry
    of the page of the address, prints it, and when bit 63 says the page is
    present prints the physical address, the frame number times the page size
    plus the offset in the page, modulo 2^64: the very address [vtop] computes
    from the same file.  When the page is not present [v2p] says so and [vtop]
    stops. *)
Theorem v2p_vtop_agree (f : Z → Z) path addr :
  (∀ i, 0 ≤ f i < 256) → 0 ≤ addr < 2 ^ 64 →
  let e := entry_at f (file_offset 4096 addr) in
  ∃ head, read_pagemap false 4096 (Some (fun i => Some (f i))) true path addr =
      (0, head +:+ nl +:+ "Result: 0x" +:+ hex e +:+ nl +:+
        (match gva_to_gpa (entry_at f) addr with
         | Done pa => "PFN: 0x" +:+ hex (GET_PFN e) +:+ " (0x" +:+ hex pa +:+ ")" +:+ nl
         | _ => "Page not present" +:+ nl
         end) +:+ (if Z.testbit e 62 then "Page swapped" +:+ nl else "")).
Proof.
  intros Hf Ha e. unfold read_pagemap. cbn [negb].
  destruct (read_entry_bytes f (file_offset 4096 addr)
    (("Big endian? " +:+ dec 0 +:+ nl) +:+ "Vaddr: 0x" +:+ hex addr +:+ ", Page_size: " +:+
     dec (i64 4096) +:+ ", Entry_size: " +:+ dec PAGEMAP_ENTRY +:+ nl +:+ "Reading " +:+ path +:+
     " at 0x" +:+ hex (file_offset 4096 addr) +:+ nl)) as [head ->].
  rewrite combine_entry by done. fold e. exists head. f_equal. f_equal. unfold entry_text.
  rewrite get_bit_63, get_bit_62.
  unfold gva_to_gpa, gva_to_gfn. rewrite <- file_offset_bits by done. fold e.
  destruct (Z.land e PFN_PRESENT =? 0); cbn [negb]; [done|].
  assert (Z.land e PFN_PFN = GET_PFN e) as -> by done.
  pose proof (get_pfn_range e) as Hp.
  replace (GET_PFN e =? u64 (-1)) with false by (change (u64 (-1)) with 18446744073709551615; lia).
  by rewrite phys_addr_lor by lia.
Qed.

Lemma v2p_vtop_agree_witness :
  let f i := if i =? 15 then 128 else if i =? 8 then 5 else 0 in
  let e := entry_at f (file_offset 4096 4660) in
  ∃ head, read_pagemap false 4096 (Some (fun i => Some (f i))) true "/proc/self/pagemap" 4660 =
      (0, head +:+ nl +:+ "Result: 0x" +:+ hex e +:+ nl +:+
        (match gva_to_gpa (entry_at f) 4660 with
         | Done pa => "PFN: 0x" +:+ hex (GET_PFN e) +:+ " (0x" +:+ hex pa +:+ ")" +:+ nl
         | _ => "Page not present" +:+ nl
         end) +:+ (if Z.testbit e 62 then "Page swapped" +:+ nl else "")) ∧
    gva_to_gpa (entry_at f) 4660 = Done 21044.
Proof.
  cbv zeta.
  edestruct (v2p_vtop_agree (fun i => if i =? 15 then 128 else if i =? 8 then 5 else 0)
    "/proc/self/pagemap" 4660) as [head E].
  - intros i. cbv beta. repeat split_if; lia.
  - lia.
  - exists head. split; [exact E|reflexivity].
Defined.
