(* ===== verification/CDouble.v ===== *)
(** * Doubles

    IEEE 754 binary64 numbers ([SpecFloat] with precision 53 and exponents up
    to 1024), rounded to nearest, and their text. *)

From Stdlib Require Import SpecFloat.
From S2P Require Import Prelude CLib.

Definition double : Type := spec_float.
Definition of_Z (z : Z) : double := binary_normalize 53 1024 z 0 false.
Definition ddiv : double → double → double := SFdiv 53 1024.
Definition dmul : double → double → double := SFmul 53 1024.

(** [ceil] of a finite nonnegative double, as an integer. *)
Definition dceil (d : double) : Z :=
  match d with
  | S754_finite false m e =>
      if 0 <=? e then Zpos m * 2 ^ e else - ((- Zpos m) / 2 ^ (- e))
  | _ => 0
  end.

(** [n] units of 10^-[k]. *)
Definition decimals (k n : Z) : string :=
  dec (n / 10 ^ k) +:+ "." +:+ padl "0" k (dec (n mod 10 ^ k)).

(** The quotient to the nearest integer, ties to even. *)
Definition round_div (a b : Z) : Z :=
  let q := a / b in
  let r := a mod b in
  if (2 * r <? b) || ((2 * r =? b) && Z.even q) then q else q + 1.

(** [%.kf]. *)
Definition show_f (k : Z) (d : double) : string :=
  match d with
  | S754_zero s => (if s then "-" else "") +:+ decimals k 0
  | S754_infinity s => if s then "-inf" else "inf"
  | S754_nan => "-nan"
  | S754_finite s m e =>
      let n := if 0 <=? e then Zpos m * 2 ^ e * 10 ^ k
               else round_div (Zpos m * 10 ^ k) (2 ^ (- e)) in
      (if s then "-" else "") +:+ decimals k n
  end.

Example show_f_thirds : show_f 2 (ddiv (of_Z 200) (of_Z 3)) = "66.67".
Proof. reflexivity. Qed.
Example show_f_tie : show_f 2 (ddiv (of_Z 1) (of_Z 8)) = "0.12".
Proof. reflexivity. Qed.
