(* ===== verification/Fincore.v ===== *)
(** * fincore: which pages of a file are cached

    [mem/linux-ftools/linux-fincore.c].  Percentages are doubles ([CDouble]),
    computed and rounded as the C code does.  The system calls on a file answer through [fin_sys]; a
    [goto cleanup] before the mapping and the vector exist frees pointers that
    were never set, which is undefined ([Wild]). *)

From Stdlib Require Import SpecFloat.
From S2P Require Import Prelude CLib CDouble.

Definition perc (val range : Z) : double :=
  if range =? 0 then of_Z 0 else dmul (ddiv (of_Z val) (of_Z range)) (of_Z 100).

(** ** Settings *)

Record fin_opts := mk_fin_opts {
  arg_pages : bool;
  arg_summarize : bool;
  arg_only_cached : bool;
  arg_graph : bool;
  arg_verbose : Z;
  arg_vertical : Z;
  arg_min_size : Z;
  arg_min_cached_size : Z;
  arg_min_cached_perc : Z
}.
#[export] Instance fin_opts_eta : Eta fin_opts := fun o =>
  mk_fin_opts (arg_pages o) (arg_summarize o) (arg_only_cached o) (arg_graph o) (arg_verbose o)
    (arg_vertical o) (arg_min_size o) (arg_min_cached_size o) (arg_min_cached_perc o).

Definition fin_opts_start : fin_opts := mk_fin_opts false true false false 0 0 (-1) (-1) (-1).

Definition DEFAULT_NR_REGIONS : Z := 160.

(** The answers of the system for a file: [None] when the call fails.  [group]
    tells whether the locale was set, so that the quote flag of a format groups
    digits; [f_regions], whether the arrays of the graph could be allocated. *)
Record fin_sys := mk_fin_sys {
  f_regions : bool;
  f_open : string → bool;
  f_stat : string → option Z;
  f_mmap : string → bool;
  f_calloc : string → bool;
  f_mincore : string → option (list Z);
  page_bytes : Z;
  group : bool
}.

Definition _argtobool (optarg : option string) : bool :=
  match optarg with
  | None => true
  | Some a => bool_decide (a = "true") || bool_decide (a = "1")
  end.
Definition _argtoint (optarg : option string) (dflt : Z) : Z :=
  match optarg with None => dflt | Some a => atoi a end.

(** ** Printing *)

(** Thousands separated by commas, from the last digit on. *)
Fixpoint commas (s : list ascii) : list ascii :=
  match s with
  | a :: b :: c :: ((_ :: _) as r) => a :: b :: c :: ","%char :: commas r
  | _ => s
  end.
Definition grouped (Y : fin_sys) (z : Z) : string :=
  if group Y then
    let digits := String.list_ascii_of_string (dec (Z.abs z)) in
    (if z <? 0 then "-" else "") +:+ String.string_of_list_ascii (rev (commas (rev digits)))
  else dec z.

Definition str_row (cols : list string) : string :=
  match cols with
  | [] => nl
  | c :: cols => padr 80 c +:+ texts (fun c => " " +:+ padl " " 18 c) cols +:+ nl
  end.
Definition _show_headers : string :=
  str_row ["filename"; "size"; "total_pages"; "min_cached page"; "cached_pages"; "cached_size";
           "cached_perc"] +:+
  str_row ["--------"; "----"; "-----------"; "---------------"; "------------"; "-----------";
           "-----------"].

Definition graph_header (nr_regions : Z) : string :=
  " ------" +:+ rep "-" (Z.to_nat nr_regions) +:+ nl.

(** One cell of the graph. *)
Definition graph_cell (val : double) (perc_index : Z) : string :=
  if SFltb val (of_Z 1) then " "
  else if SFleb (of_Z perc_index) val then "*" else " ".

Definition graph_text (regions : list double) (nr_regions : Z) : string :=
  let perc_width := 10 in
  nl +:+ graph_header nr_regions +:+
  texts (fun i =>
      let perc_index := 100 - (i + 1) * perc_width in
      padl " " 4 (dec (perc_index + perc_width)) +:+ " % " +:+
      texts (fun val => graph_cell val perc_index) regions +:+ " | " +:+ nl)
    (seqZ 0 perc_width) +:+
  graph_header nr_regions +:+ nl.

(** ** One file *)

(** What the loop over the pages accumulates. *)
Record page_scan := mk_scan {
  cached : Z;
  min_cached_page : Z;
  printed : string;
  regions : list Z
}.

(** One page: [vec] is the vector of [mincore]. *)
Definition scan_page (o : fin_opts) (vec : list Z) (region_ptr page_index : Z) (s : page_scan)
    : res page_scan :=
  v ← aget vec page_index;
  if Z.land v 1 =? 0 then Done s
  else
    let first := if (min_cached_page s =? -1) || (page_index <? u64 (min_cached_page s))
                 then page_index else min_cached_page s in
    let text := if arg_pages o then printed s +:+ dec page_index +:+ " " else printed s in
    regions ← (if 0 <? region_ptr then
                 let region := i32 (page_index / region_ptr) in
                 n ← aget (regions s) region;
                 aset (regions s) region (n + 1)
               else Done (regions s));
    Done (mk_scan (cached s + 1) first text regions).

(** [for (page_index = 0; page_index <= st_size / page_size; page_index++)]. *)
Definition scan_pages (o : fin_opts) (vec : list Z) (region_ptr nr_regions pages : Z) : res page_scan :=
  foldm (scan_page o vec region_ptr) (seqZ 0 (pages + 1))
    (mk_scan 0 (-1) "" (replicate (Z.to_nat nr_regions) 0)).

(** The lines about a file. *)
Definition file_report (Y : fin_sys) (o : fin_opts) (path : string) (nr_regions st_size total_pages
    cached_size region_ptr : Z) (cached_perc : double) (s : page_scan) : string :=
  (if arg_graph o then _show_headers else "") +:+
  (if negb (arg_vertical o =? 0) then
     path +:+ nl +:+ "size: " +:+ grouped Y st_size +:+ nl +:+
     "total_pages: " +:+ grouped Y (i64 total_pages) +:+ nl +:+
     "min_cached_page: " +:+ grouped Y (min_cached_page s) +:+ nl +:+
     "cached: " +:+ grouped Y (cached s) +:+ nl +:+
     "cached_size: " +:+ grouped Y (i64 cached_size) +:+ nl +:+
     "cached_perc: " +:+ show_f 2 cached_perc +:+ nl
   else
     str_row [path; grouped Y st_size; grouped Y (i32 total_pages); grouped Y (min_cached_page s);
              grouped Y (cached s); grouped Y (i64 cached_size); show_f 2 cached_perc]) +:+
  (if arg_graph o && (nr_regions <? total_pages)
   then graph_text ((fun n => perc n region_ptr) <$> regions s) nr_regions else "").

(** A message built in a buffer of 1024 bytes. *)
Definition message (text : string) : res unit := if strlen text <? 1024 then Done tt else Wild.

(** [total_pages]: a value that is no [int] makes the conversion undefined. *)
Definition page_count (Y : fin_sys) (st_size : Z) : res Z :=
  let n := dceil (ddiv (of_Z st_size) (of_Z (page_bytes Y))) in
  if n <? 2 ^ 31 then Done (u64 n) else Wild.

(** [region_ptr]: how many pages a region stands for. *)
Definition region_pages (total_pages nr_regions : Z) : Z := i32 (u64 (total_pages - 1) / nr_regions).

(** What is left to do with a scanned file: the limits and the report. *)
Definition fincore_result (Y : fin_sys) (o : fin_opts) (nr_regions : Z) (path : string)
    (st_size total_pages : Z) (s : page_scan) : Z * string :=
  let out := if strlen (printed s) =? 0 then "" else printed s +:+ nl in
  let cached_perc := dmul (of_Z 100) (ddiv (of_Z (cached s)) (of_Z total_pages)) in
  let cached_size := u64 (cached s * page_bytes Y) in
  if (0 <? arg_min_cached_size o) && (cached_size <=? arg_min_cached_size o) then (0, out)
  else if (0 <? arg_min_cached_perc o) && SFleb cached_perc (of_Z (arg_min_cached_perc o))
  then (0, out)
  else if (0 <? arg_min_size o) && (st_size <=? arg_min_size o) then (0, out)
  else
    let out := if negb (arg_only_cached o) || (0 <? cached s)
               then out +:+ file_report Y o path nr_regions st_size total_pages cached_size
                              (region_pages total_pages nr_regions) cached_perc s
               else out in
    (i64 cached_size, out).

(** [result->cached_size] and the output. *)
Definition fincore (Y : fin_sys) (o : fin_opts) (nr_regions : Z) (path : string) : res (Z * string) :=
  if negb (f_regions Y) then Wild
  else if negb (f_open Y path) then
    _ ← message ("Could not open file: " +:+ path); Done (0, "")
  else
    match f_stat Y path with
    | None => Wild
    | Some st_size =>
        if st_size =? 0 then Wild
        else if negb (f_mmap Y path) then Wild
        else if negb (f_calloc Y path) then Die "Could not calloc"
        else
          match f_mincore Y path with
          | None => _ ← message (path +:+ ": Could not call mincore on file");
                    Die "Could not call mincore on file"
          | Some vec =>
              total_pages ← page_count Y st_size;
              s ← scan_pages o vec (region_pages total_pages nr_regions) nr_regions
                    (st_size / page_bytes Y);
              Done (fincore_result Y o nr_regions path st_size total_pages s)
          end
    end.

(** ** Options and main *)

(** [None] after [-h] or an item that is no option. *)
Definition fin_option (x : ascii * option string) (o : fin_opts) : option fin_opts :=
  let '(c, optarg) := x in
  let opt := Ascii.eqb c in
  if opt "p"%char then Some (o <| arg_pages := _argtobool optarg |>)
  else if opt "s"%char then Some (o <| arg_summarize := _argtobool optarg |>)
  else if opt "c"%char then Some (o <| arg_only_cached := _argtobool optarg |>)
  else if opt "g"%char then Some (o <| arg_graph := _argtobool optarg |>)
  else if opt "v"%char then Some (o <| arg_verbose := _argtoint optarg 1 |>)
  else if opt "S"%char then Some (o <| arg_min_size := _argtoint optarg 0 |>)
  else if opt "C"%char then Some (o <| arg_min_cached_size := _argtoint optarg 0 |>)
  else if opt "P"%char then Some (o <| arg_min_cached_perc := _argtoint optarg 0 |>)
  else if opt "L"%char then Some (o <| arg_vertical := _argtoint optarg 1 |>)
  else if opt "?"%char then Some o
  else None.

Fixpoint fin_options (opts : list (ascii * option string)) (o : fin_opts) : option fin_opts :=
  match opts with
  | [] => Some o
  | x :: opts => match fin_option x o with Some o => fin_options opts o | None => None end
  end.

Definition b2z (b : bool) : Z := if b then 1 else 0.
Definition verbose_text (o : fin_opts) : string :=
  "Running with arguments: " +:+ nl +:+
  "    pages:            " +:+ dec (b2z (arg_pages o)) +:+ nl +:+
  "    summarize:        " +:+ dec (b2z (arg_summarize o)) +:+ nl +:+
  "    only cached:      " +:+ dec (b2z (arg_only_cached o)) +:+ nl +:+
  "    graph:            " +:+ dec (b2z (arg_graph o)) +:+ nl +:+
  "    min size:         " +:+ dec (arg_min_size o) +:+ nl +:+
  "    min cached size:  " +:+ dec (arg_min_cached_size o) +:+ nl +:+
  "    min cached perc:  " +:+ dec (arg_min_cached_perc o) +:+ nl +:+
  "    vertical:         " +:+ dec (arg_vertical o) +:+ nl.

(** [cols] is the width of the terminal when it is known. *)
Definition region_count (cols : option Z) : Z :=
  match cols with
  | Some c => if DEFAULT_NR_REGIONS <? c then c / 2 * 2 - 10 else DEFAULT_NR_REGIONS
  | None => DEFAULT_NR_REGIONS
  end.

Definition main (Y : fin_sys) (cols : option Z) (opts : list (ascii * option string))
    (paths : list string) : res string :=
  match fin_options opts fin_opts_start with
  | None => Die "help"
  | Some o =>
      let out := if 1 <=? arg_verbose o then verbose_text o else "" in
      let nr_regions := region_count cols in
      match paths with
      | [] => Die "help"
      | _ =>
          let out := if negb (arg_graph o) then out +:+ _show_headers else out in
          '(total, out) ← foldm (fun path st =>
              let '(total, out) := st in
              '(size, text) ← fincore Y o nr_regions path;
              Done (i64 (total + size), out +:+ text)) paths (0, out);
          Done (if arg_summarize o
                then out +:+ "---" +:+ nl +:+ "total cached size: " +:+ grouped Y total +:+ nl else out)
      end
  end.

(** ** The loop over the pages *)

(** The cached pages among the first [n], in order. *)
Definition is_cached (vec : list Z) (i : Z) : bool :=
  match vec !! Z.to_nat i with Some v => negb (Z.land v 1 =? 0) | None => false end.
Definition cached_pages (vec : list Z) (n : Z) : list Z :=
  filter (fun i => is_cached vec i) (seqZ 0 n).

(** What the loop has gathered after [n] pages. *)
Definition gathered (o : fin_opts) (vec : list Z) (region_ptr nr_regions n : Z) : page_scan :=
  let C := cached_pages vec n in
  mk_scan (zlen C) (default (-1) (head C))
    (if arg_pages o then texts (fun i => dec i +:+ " ") C else "")
    ((fun r => if 0 <? region_ptr then zlen (filter (fun i => bool_decide (i / region_ptr = r)) C)
               else 0) <$> seqZ 0 nr_regions).

(** The region of every cached page exists. *)
Definition regions_fit (vec : list Z) (region_ptr nr_regions : Z) : Prop :=
  ∀ i, is_cached vec i = true → 0 < region_ptr → i / region_ptr < nr_regions.

Lemma cached_pages_S vec n :
  0 ≤ n → cached_pages vec (n + 1) = cached_pages vec n ++ (if is_cached vec n then [n] else []).
Proof.
  intros. unfold cached_pages. rewrite (seqZ_app 0 n 1) by lia. rewrite filter_app.
  f_equal. replace (0 + n) with n by lia. change (seqZ n 1) with [n].
  rewrite filter_cons, filter_nil. by destruct (is_cached vec n).
Qed.

Lemma cached_pages_range vec n i : i ∈ cached_pages vec n → 0 ≤ i < n.
Proof. unfold cached_pages. rewrite list_elem_of_filter, elem_of_seqZ. lia. Qed.

Lemma zlen_cached_pages vec n : 0 ≤ n → 0 ≤ zlen (cached_pages vec n) ≤ n.
Proof.
  intros. split; [apply zlen_nonneg|]. unfold cached_pages, zlen.
  pose proof (length_filter (fun i => is_cached vec i) (seqZ 0 n)) as Hl.
  rewrite length_seqZ in Hl. lia.
Qed.

Lemma head_app_default {A} (d : A) l k :
  default d (head (l ++ k)) = match l with [] => default d (head k) | x :: _ => x end.
Proof. by destruct l. Qed.

(** Counting page [n] in its region. *)
Lemma regions_step vec n region_ptr nr_regions :
  0 < region_ptr → 0 ≤ n → n / region_ptr < nr_regions →
  let count C := (fun r => zlen (filter (fun i => bool_decide (i / region_ptr = r)) C))
                   <$> seqZ 0 nr_regions in
  let C := cached_pages vec n in
  ∃ k, aget (count C) (n / region_ptr) = Done k ∧
       aset (count C) (n / region_ptr) (k + 1) = Done (count (C ++ [n])).
Proof.
  intros Hp Hn Hr count C. pose proof (Z.div_pos n region_ptr Hn Hp).
  set (g C r := zlen (filter (fun i => bool_decide (i / region_ptr = r)) C)).
  assert (∀ C j, (j < Z.to_nat nr_regions)%nat → count C !! j = Some (g C (Z.of_nat j))) as Hl.
  { intros C' j Hj. unfold count. rewrite list_lookup_fmap, lookup_seqZ_lt by lia. cbn. do 2 f_equal. }
  assert (∀ C, length (count C) = Z.to_nat nr_regions) as Hlen.
  { intros. unfold count. by rewrite length_fmap, length_seqZ. }
  exists (g C (n / region_ptr)). split.
  - apply aget_done. split; [done|]. rewrite Hl by lia. by rewrite Z2Nat.id.
  - rewrite aset_in by (unfold zlen; rewrite Hlen; lia). f_equal.
    apply list_eq_same_length with (Z.to_nat nr_regions); [by rewrite Hlen|by rewrite length_insert|].
    intros j x y Hj. rewrite Hl by done. unfold g. rewrite filter_app, zlen_app. cbn.
    destruct (decide (j = Z.to_nat (n / region_ptr))) as [->|Hne].
    + rewrite list_lookup_insert_eq by (rewrite Hlen; lia). rewrite Z2Nat.id by done.
      rewrite decide_True by (by apply bool_decide_spec). unfold g. intros; simplify_eq. done.
    + rewrite list_lookup_insert_ne, Hl by done.
      rewrite decide_False by (rewrite bool_decide_spec; intros E; apply Hne; by rewrite E, Nat2Z.id). rewrite zlen_nil, Z.add_0_r.
      unfold g. intros; simplify_eq. done.
Qed.

Lemma scan_page_gathers o vec region_ptr nr_regions n :
  0 ≤ n < zlen vec → zlen vec < 2 ^ 31 → regions_fit vec region_ptr nr_regions →
  scan_page o vec region_ptr n (gathered o vec region_ptr nr_regions n) =
    Done (gathered o vec region_ptr nr_regions (n + 1)).
Proof.
  intros Hn Hmax Hfit. unfold scan_page. destruct (aget_in vec n Hn) as [v Hv]. rewrite Hv.
  cbn [mbind res_bind]. apply aget_done in Hv as [_ Hv].
  unfold gathered. rewrite cached_pages_S by lia. 
  assert (is_cached vec n = negb (Z.land v 1 =? 0)) as Hc by (unfold is_cached; by rewrite Hv).
  destruct (Z.land v 1 =? 0); cbn [negb] in Hc; rewrite Hc; [by rewrite app_nil_r|].
  cbn [cached min_cached_page printed regions]. set (C := cached_pages vec n).
  assert ((if (default (-1) (head C) =? -1) || (n <? u64 (default (-1) (head C)))
           then n else default (-1) (head C)) = default (-1) (head (C ++ [n]))) as ->.
  { rewrite head_app_default. destruct C as [|x C'] eqn:EC; [done|]. cbn.
    assert (0 ≤ x < n) by (apply (cached_pages_range vec); fold C; rewrite EC; left).
    rewrite u64_small by lia. by replace ((x =? -1) || (n <? x)) with false by lia. }
  assert ((if arg_pages o then (if arg_pages o then texts (fun i => dec i +:+ " ") C else "") +:+ dec n +:+ " "
           else if arg_pages o then texts (fun i => dec i +:+ " ") C else "") =
          if arg_pages o then texts (fun i => dec i +:+ " ") (C ++ [n]) else "") as ->.
  { destruct (arg_pages o); [|done]. rewrite texts_app. cbn. by rewrite string_app_nil_r. }
  rewrite zlen_app. change (zlen [n]) with 1.
  destruct (Z.ltb_spec 0 region_ptr) as [Hp|]; [|done].
  pose proof (Hfit n Hc Hp) as Hr. pose proof (Z.div_pos n region_ptr ltac:(lia) Hp).
  assert (n / region_ptr ≤ n) by (apply Z.div_le_upper_bound; nia).
  rewrite i32_small by lia.
  destruct (regions_step vec n region_ptr nr_regions) as (k & Hk & Hs); [lia..|].
  fold C in Hk, Hs. rewrite Hk. cbn [mbind res_bind]. by rewrite Hs.
Qed.

Lemma scan_gathers o vec region_ptr nr_regions n :
  0 ≤ n ≤ zlen vec → zlen vec < 2 ^ 31 → regions_fit vec region_ptr nr_regions →
  foldm (scan_page o vec region_ptr) (seqZ 0 n) (mk_scan 0 (-1) "" (replicate (Z.to_nat nr_regions) 0)) =
    Done (gathered o vec region_ptr nr_regions n).
Proof.
  intros [Hn Hle] Hmax Hfit. revert Hle. pattern n. apply natlike_ind; [|clear n Hn|done].
  - intros _. unfold gathered. change (cached_pages vec 0) with (@nil Z).
    replace (if arg_pages o then texts (fun i => dec i +:+ " ") [] else "") with ""
      by (by destruct (arg_pages o)).
    rewrite (const_fmap _ _ 0) by (intros; by destruct (0 <? region_ptr)). by rewrite length_seqZ.
  - intros n Hn IH Hle. rewrite <- Z.add_1_r in *. rewrite (seqZ_app 0 n 1) by lia.
    rewrite foldm_app, IH by lia. replace (0 + n) with n by lia. cbn [mbind res_bind].
    change (seqZ n 1) with [n]. cbn [foldm].
    rewrite scan_page_gathers by (done || lia). done.
Qed.

(** Reading one page past the vector. *)
Lemma scan_overrun o vec region_ptr nr_regions :
  zlen vec < 2 ^ 31 → regions_fit vec region_ptr nr_regions →
  scan_pages o vec region_ptr nr_regions (zlen vec) = Wild.
Proof.
  intros Hmax Hfit. pose proof (zlen_nonneg vec). unfold scan_pages.
  rewrite (seqZ_app 0 (zlen vec) 1) by lia. rewrite foldm_app, scan_gathers by (done || lia).
  cbn [mbind res_bind]. replace (0 + zlen vec) with (zlen vec) by lia.
  change (seqZ (zlen vec) 1) with [zlen vec]. cbn [foldm]. unfold scan_page.
  rewrite (aget_out vec) by lia. done.
Qed.


(** A file of 321 and a half pages of 4096 bytes whose pages 0, 7 and 300 are
    resident. *)
Definition a_vec : list Z :=
  (fun i => if bool_decide (i ∈ [0; 7; 300]) then 1 else 0) <$> seqZ 0 322.
Definition a_fin_sys : fin_sys :=
  mk_fin_sys true (fun _ => true) (fun _ => Some 1316864) (fun _ => true) (fun _ => true)
    (fun _ => Some a_vec) 4096 false.
