(* ===== verification/CBytes.v ===== *)
(** * Objects as bytes

    Integers stored in memory, the lowest byte first, reading and writing them
    at offsets of an object, and objects cut into fields. *)

From S2P Require Import Prelude CLib.

(** [n] bytes of [v], the lowest first; and back. *)
Fixpoint le (n : nat) (v : Z) : list Z :=
  match n with O => [] | S n => v mod 256 :: le n (v / 256) end.
Definition of_le (bs : list Z) : Z := foldr (fun b acc => b + 256 * acc) 0 bs.

(** [n] bytes of an object from an offset on. *)
Definition bytes_at (buf : list Z) (off n : Z) : res (list Z) :=
  if (0 <=? off) && (0 <=? n) && (off + n <=? zlen buf) then Done (slice buf off n) else Wild.
Definition get (n : Z) (buf : list Z) (off : Z) : res Z :=
  bs ← bytes_at buf off n; Done (of_le bs).

(** The characters of a string, with its NUL. *)
Definition c_bytes (s : string) : list Z := (zchar <$> String.list_ascii_of_string s) ++ [0].

(** ** Facts *)

Lemma zlen_le n v : zlen (le n v) = Z.of_nat n.
Proof. revert v. induction n as [|n IH]; intros v; [done|]. cbn [le]. rewrite zlen_cons, IH. lia. Qed.

Lemma of_le_le n : ∀ v, 0 ≤ v < 256 ^ Z.of_nat n → of_le (le n v) = v.
Proof.
  induction n as [|n IH]; intros v Hv; [cbn in *; lia|].
  rewrite Nat2Z.inj_succ, Z.pow_succ_r in Hv by lia.
  cbn [le of_le foldr]. fold (of_le (le n (v / 256))). rewrite IH.
  - pose proof (Z.div_mod v 256 ltac:(lia)). lia.
  - split; [apply Z.div_pos; lia|apply Z.div_lt_upper_bound; lia].
Qed.

Lemma bytes_at_skip pre buf off k n :
  zlen pre = off → 0 ≤ k → bytes_at (pre ++ buf) (off + k) n = bytes_at buf k n.
Proof.
  intros <- Hk. unfold bytes_at. rewrite zlen_app. pose proof (zlen_nonneg pre).
  replace ((0 <=? zlen pre + k) && (0 <=? n) && (zlen pre + k + n <=? zlen pre + zlen buf))
    with ((0 <=? k) && (0 <=? n) && (k + n <=? zlen buf)) by lia.
  case_match; [|done]. f_equal. unfold slice, zlen.
  rewrite drop_app_ge by lia. do 2 f_equal. lia.
Qed.

Lemma bytes_at_mid pre bs post off n :
  zlen pre = off → zlen bs = n → bytes_at (pre ++ bs ++ post) off n = Done bs.
Proof.
  intros Hp Hb. pose proof (zlen_nonneg pre). pose proof (zlen_nonneg bs). pose proof (zlen_nonneg post).
  unfold bytes_at. replace ((0 <=? off) && (0 <=? n) && (off + n <=? zlen (pre ++ bs ++ post))) with true
    by (rewrite !zlen_app; lia).
  by rewrite slice_mid.
Qed.

Lemma get_mid pre k v post off n :
  zlen pre = off → n = Z.of_nat k → 0 ≤ v < 256 ^ n → get n (pre ++ le k v ++ post) off = Done v.
Proof.
  intros Hp -> Hv. unfold get. rewrite bytes_at_mid by (done || apply zlen_le).
  cbn [mbind res_bind]. by rewrite of_le_le.
Qed.

Lemma split_at {A} (l : list A) i : 0 ≤ i ≤ zlen l → ∃ a b, l = a ++ b ∧ zlen a = i.
Proof.
  intros Hi. exists (take (Z.to_nat i) l), (drop (Z.to_nat i) l). rewrite take_drop.
  unfold zlen in *. rewrite length_take. split; [done|lia].
Qed.

(** A buffer as a sequence of fields: writing one, and slicing one out. *)
Lemma awrite_field {A} (fields : list (list A)) k old ws off :
  fields !! k = Some old → zlen ws = zlen old → zlen (concat (take k fields)) = off →
  awrite (concat fields) off ws = Done (concat (<[k := ws]> fields)).
Proof.
  intros Hk Hw Hoff. rewrite insert_take_drop by (by apply lookup_lt_Some in Hk).
  rewrite <- (take_drop_middle fields k old Hk) at 1. rewrite !concat_app. cbn [concat].
  by apply awrite_mid.
Qed.

Lemma slice_field {A} (fields : list (list A)) k f off n :
  fields !! k = Some f → zlen (concat (take k fields)) = off → zlen f = n →
  slice (concat fields) off n = f.
Proof.
  intros Hk Hoff Hn. rewrite <- (take_drop_middle fields k f Hk) at 1. rewrite concat_app.
  cbn [concat]. by apply slice_mid.
Qed.

Lemma zlen_slice {A} (l : list A) off n : 0 ≤ off → 0 ≤ n → off + n ≤ zlen l → zlen (slice l off n) = n.
Proof. intros. unfold slice, zlen in *. rewrite length_take, length_drop. lia. Qed.

Lemma zlen_c_bytes s : zlen (c_bytes s) = strlen s + 1.
Proof.
  unfold c_bytes. rewrite zlen_app, <- zlen_list_of. unfold zlen. by rewrite length_fmap.
Qed.

(** Memory cut into fields of given sizes. *)
Lemma split_sizes {A} (sizes : list Z) : ∀ l : list A,
  Forall (fun n => 0 ≤ n) sizes → sum_of id sizes ≤ zlen l →
  ∃ fields rest, l = concat (fields ++ [rest]) ∧ zlen <$> fields = sizes.
Proof.
  induction sizes as [|n sizes IH]; intros l Hs Hl.
  - exists [], l. cbn. by rewrite app_nil_r.
  - apply Forall_cons in Hs as [Hn Hs]. change (n + sum_of id sizes ≤ zlen l) in Hl.
    assert (0 ≤ sum_of id sizes) by (apply sum_of_nonneg; by apply Forall_forall).
    destruct (split_at l n) as (f & r & -> & Hf); [lia|]. rewrite zlen_app in Hl.
    destruct (IH r) as (fs & rest & -> & Hfs); [done|lia|].
    exists (f :: fs), rest. cbn. by rewrite Hf, Hfs.
Qed.

(** Bytes are the bytes of the number they spell. *)
Lemma le_of_le bs : Forall (fun b => 0 ≤ b < 256) bs → le (length bs) (of_le bs) = bs.
Proof.
  induction 1 as [|b bs Hb _ IH]; [done|]. cbn [le of_le length foldr]. fold (of_le bs).
  rewrite (Z.mul_comm 256), Z.mod_add, Z.div_add, Z.mod_small, Z.div_small, Z.add_0_l by lia.
  by rewrite IH.
Qed.

Lemma le_range n : ∀ v, Forall (fun b => 0 ≤ b < 256) (le n v).
Proof. induction n as [|n IH]; intros v; constructor; [apply Z.mod_pos_bound; lia|apply IH]. Qed.

Lemma length_le n v : length (le n v) = n.
Proof. pose proof (zlen_le n v). unfold zlen in *. lia. Qed.

Lemma of_le_range bs : Forall (fun b => 0 ≤ b < 256) bs → 0 ≤ of_le bs < 256 ^ zlen bs.
Proof.
  induction 1 as [|b bs Hb _ IH]; [unfold zlen; cbn; lia|].
  rewrite zlen_cons, Z.pow_add_r, Z.pow_1_r by (pose proof (zlen_nonneg bs); lia).
  cbn [of_le foldr]. fold (of_le bs). lia.
Qed.

(** Writing at the start of a field leaves the rest of the field. *)
Lemma awrite_start {A} (fields : list (list A)) k old ws off :
  fields !! k = Some old → zlen ws ≤ zlen old → zlen (concat (take k fields)) = off →
  awrite (concat fields) off ws = Done (concat (<[k := ws ++ drop (length ws) old]> fields)).
Proof.
  intros Hk Hw Hoff. rewrite insert_take_drop by (by apply lookup_lt_Some in Hk).
  rewrite <- (take_drop_middle fields k old Hk) at 1. rewrite !concat_app. cbn [concat].
  rewrite <- (take_drop (length ws) old) at 1. rewrite <- !app_assoc.
  apply awrite_mid; [done|]. unfold zlen in *. rewrite length_take. lia.
Qed.
