(* ===== verification/Calls.v ===== *)
(** * Programs that call the system

    A program whose effects are calls to a library or to the operating system:
    a tree with one node per call, branching on the answer.  A component
    declares its calls and the type of each answer as an [api]; what the other
    side promises about the answers is a [world], an argument of [wp], the
    condition under which a program runs without misusing an object, returns,
    and returns a result that satisfies a postcondition. *)

From S2P Require Import Prelude.

Record api := Api { call : Type; ans : call → Type }.

Inductive prog (E : api) (A : Type) : Type :=
| Ret (a : A)
| Crash                                     (* undefined behaviour *)
| Again                                     (* still looping when the fuel ended *)
| Do (c : call E) (k : ans E c → prog E A).
Arguments Ret {E A} a.
Arguments Crash {E A}.
Arguments Again {E A}.
Arguments Do {E A} c k.

Fixpoint pbind {E A B} (f : A → prog E B) (p : prog E A) : prog E B :=
  match p with
  | Ret a => f a
  | Crash => Crash
  | Again => Again
  | Do c k => Do c (fun a => pbind f (k a))
  end.
#[export] Instance prog_ret E : MRet (prog E) := @Ret E.
#[export] Instance prog_mbind E : MBind (prog E) := @pbind E.

(** One call, with its answer as the result. *)
Definition ask {E} (c : call E) : prog E (ans E c) := Do c Ret.

(** An array access, or any other operation that may leave its object. *)
Definition of_res {E A} (m : res A) : prog E A :=
  match m with Done a => Ret a | _ => Crash end.

(** What the callee is told and promises: which calls are proper in a state,
    which answers may come, and the state after an answer. *)
Record world (E : api) := World {
  state :> Type;
  requires : call E → state → Prop;
  answers : ∀ c : call E, state → ans E c → Prop;
  after : ∀ c : call E, ans E c → state → state;
}.
Arguments requires {E} w c s.
Arguments answers {E} w c s a.
Arguments after {E} w c a s.

(** Every call is proper, nothing crashes or runs out of fuel whatever the
    answers, and the result and the final state satisfy [Q]. *)
Fixpoint wp {E} (W : world E) {A} (p : prog E A) (s : W) (Q : A → W → Prop) : Prop :=
  match p with
  | Ret a => Q a s
  | Crash | Again => False
  | Do c k => requires W c s ∧ ∀ a, answers W c s a → wp W (k a) (after W c a s) Q
  end.

(** One run: the calls the program made, each with its answer, and the
    result. *)
Inductive runs {E A} : prog E A → list {c : call E & ans E c} → prog E A → Prop :=
| runs_here p : runs p [] p
| runs_call c k a t q : runs (k a) t q → runs (Do c k) (existT c a :: t) q.

(** The answers of a run obey the world. *)
Fixpoint obeys {E} (W : world E) (s : W) (t : list {c : call E & ans E c}) : Prop :=
  match t with
  | [] => True
  | existT c a :: t => answers W c s a ∧ obeys W (after W c a s) t
  end.
Fixpoint last_state {E} (W : world E) (s : W) (t : list {c : call E & ans E c}) : W :=
  match t with [] => s | existT c a :: t => last_state W (after W c a s) t end.

(** The results a program can return satisfy [P]. *)
Fixpoint leaves {E A} (P : A → Prop) (p : prog E A) : Prop :=
  match p with
  | Ret a => P a
  | Crash | Again => True
  | Do c k => ∀ a, leaves P (k a)
  end.

Lemma leaves_bind {E A B} (P : B → Prop) (p : prog E A) (k : A → prog E B) :
  (∀ a, leaves P (k a)) → leaves P (p ≫= k).
Proof. intros Hk. induction p as [a| | |c f IH]; cbn; auto. Qed.

Ltac leaf :=
  repeat first
    [ progress cbn beta iota zeta
    | progress intros
    | lazymatch goal with
      | |- leaves _ (mbind _ _) => apply leaves_bind
      | |- leaves _ (match ?x with _ => _ end) => destruct x
      end ].

Section wp.
Context {E : api} (W : world E).

Lemma wp_bind {A B} (p : prog E A) (f : A → prog E B) s Q :
  wp W p s (fun a s => wp W (f a) s Q) → wp W (p ≫= f) s Q.
Proof.
  revert s. induction p as [a| | |c k IH]; intros s; cbn; auto.
  intros [Hr Hk]. split; [done|]. intros a Ha. apply IH, Hk, Ha.
Qed.

Lemma wp_mono {A} (p : prog E A) s (Q R : A → W → Prop) :
  wp W p s Q → (∀ a s, Q a s → R a s) → wp W p s R.
Proof.
  intros Hp HQ. revert s Hp. induction p as [a| | |c k IH]; intros s; cbn; auto.
  intros [Hr Hk]. split; [done|]. intros a Ha. apply IH, Hk, Ha.
Qed.

Lemma wp_seq {A B} (p : prog E A) (f : A → prog E B) s (P : A → W → Prop) Q :
  wp W p s P → (∀ a s, P a s → wp W (f a) s Q) → wp W (p ≫= f) s Q.
Proof. intros Hp Hf. apply wp_bind. eapply wp_mono; eauto. Qed.

Lemma wp_leaves {A} (p : prog E A) s (P : A → Prop) Q :
  wp W p s Q → leaves P p → wp W p s (fun a s => P a ∧ Q a s).
Proof. revert s. induction p as [a| | |c k IH]; intros s; cbn; auto. intros [Hr Hk] Hl. split; auto. Qed.

(** [wp] speaks of every run: along one that obeys the world every call is
    proper, and a run that cannot go on has returned a good result. *)
Lemma wp_runs {A} (p q : prog E A) t s Q :
  wp W p s Q → runs p t q → obeys W s t → wp W q (last_state W s t) Q.
Proof.
  intros Hp Hr. revert s Hp. induction Hr as [|c k a t q Hr IH]; intros s Hp Ho; [done|].
  destruct Hp as [_ Hk], Ho as [Ha Ho]. apply IH; [by apply Hk|done].
Qed.
End wp.

(** The same with a callee that is a relation between states. *)
Fixpoint wpr {E : api} {S : Type} (proper : call E → S → Prop) (post : ∀ c : call E, S → ans E c → S → Prop)
    {A} (p : prog E A) (s : S) (Q : A → S → Prop) : Prop :=
  match p with
  | Ret a => Q a s
  | Crash | Again => False
  | Do c k => proper c s ∧ ∀ a s', post c s a s' → wpr proper post (k a) s' Q
  end.

Lemma wpr_bind {E : api} {S A B} (proper : call E → S → Prop) post (p : prog E A) (f : A → prog E B) s Q :
  wpr proper post p s (fun a s => wpr proper post (f a) s Q) → wpr proper post (p ≫= f) s Q.
Proof.
  revert s. induction p as [a| | |c k IH]; intros s; cbn; auto.
  intros [Hr Hk]. split; [done|]. intros a s' Ha. by apply IH, Hk.
Qed.

Lemma wpr_mono {E : api} {S A} (proper : call E → S → Prop) post (p : prog E A) s (Q R : A → S → Prop) :
  wpr proper post p s Q → (∀ a s, Q a s → R a s) → wpr proper post p s R.
Proof.
  intros Hp HQ. revert s Hp. induction p as [a| | |c k IH]; intros s; cbn; auto.
  intros [Hr Hk]. split; [done|]. intros a s' Ha. eapply IH, Hk, Ha.
Qed.

(** Symbolic execution: [wp_step] enters the next bind or call. *)
Ltac wp_step :=
  lazymatch goal with
  | |- wp _ (mbind _ _) _ _ => apply wp_bind
  | |- wp _ (ask _) _ _ => cbn [wp ask]; split; [|intros ? ?]
  | |- wp _ (Ret _) _ _ => cbn [wp]
  end.
