(* ===== verification/Rdma.v ===== *)
(** * rdma/rdma_ex.c: the program

    The RDMA example: a client and a server connect by TCP, exchange what
    their queue pairs need, and then use send, RDMA read and RDMA write.  The
    sockets, the C library's allocator, the clock and libibverbs are called
    through the api [rdma]; everything the source itself does is defined here,
    with the calls in the order the source makes them.  The buffer that the
    adapter also writes ([res.buf]) is memory of the other side of the api:
    [Memset], [Strcpy] and [Load] access it. *)

From S2P Require Import Prelude CLib CBytes Calls.

(** ** Constants and data *)

Definition MAX_POLL_CQ_TIMEOUT : Z := 2000.
Definition SEND_MSG : string := "***  SEND operation        ***".
Definition RDMA_MSG_R : string := "***  RDMA Read operation   ***".
Definition RDMA_MSG_W : string := "***  RDMA Write operation  ***".
Definition MSG_SIZE : Z := strlen SEND_MSG + 1.

(** bswap_64 and its 32 and 16 bit relatives: the bytes in reverse order. *)
Definition bswap (n : nat) (x : Z) : Z := of_le (rev (le n x)).
Definition htonll (x : Z) : Z := bswap 8 x.
Definition ntohll (x : Z) : Z := bswap 8 x.
Definition htonl (x : Z) : Z := bswap 4 x.
Definition ntohl (x : Z) : Z := bswap 4 x.
Definition htons (x : Z) : Z := bswap 2 x.
Definition ntohs (x : Z) : Z := bswap 2 x.

Record config_t := Config {
  dev_name : option (Z * string);           (* pointer and text *)
  server_name : option string;
  tcp_port : Z;                             (* u32 *)
  ib_port : Z;                              (* int *)
  gid_idx : Z;                              (* int *)
}.
#[export] Instance eta_config : Eta config_t :=
  fun c => Config (dev_name c) (server_name c) (tcp_port c) (ib_port c) (gid_idx c).

Record cm_con_data_t := ConData {
  addr : Z;                                 (* u64 *)
  rkey : Z;                                 (* u32 *)
  qp_num : Z;                               (* u32 *)
  lid : Z;                                  (* u16 *)
  gid : list Z;                             (* 16 bytes *)
}.

(** The packed structure in memory, and memory read as the structure. *)
Definition con_data_size : Z := 34.
Definition con_bytes (c : cm_con_data_t) : list Z :=
  le 8 (addr c) ++ le 4 (rkey c) ++ le 4 (qp_num c) ++ le 2 (lid c) ++ gid c.
Definition con_of_bytes (bs : list Z) : cm_con_data_t :=
  ConData (of_le (slice bs 0 8)) (of_le (slice bs 8 4)) (of_le (slice bs 12 4))
    (of_le (slice bs 16 2)) (slice bs 18 16).

Record addrinfo := Addrinfo { ai_family : Z; ai_socktype : Z; ai_protocol : Z; ai_addr : Z }.

(** The fields of libibverbs' objects that the source reads. *)
Record ibv_mr := Mr { mr_ptr : Z; mr_lkey : Z; mr_rkey : Z }.
Record ibv_qp := Qp { qp_ptr : Z; qp_qp_num : Z }.
Record ibv_wc := Wc { status : Z; vendor_err : Z }.
Definition IBV_WC_SUCCESS : Z := 0.

Inductive ibv_wr_opcode :=
| IBV_WR_RDMA_WRITE | IBV_WR_RDMA_WRITE_WITH_IMM | IBV_WR_SEND | IBV_WR_SEND_WITH_IMM
| IBV_WR_RDMA_READ | IBV_WR_ATOMIC_CMP_AND_SWP | IBV_WR_ATOMIC_FETCH_AND_ADD.
#[export] Instance ibv_wr_opcode_eq : EqDecision ibv_wr_opcode.
Proof. solve_decision. Defined.

Record ibv_sge := Sge { sge_addr : Z; sge_length : Z; sge_lkey : Z }.
Record ibv_send_wr := SendWr {
  wr_id : Z;
  sg_list : list ibv_sge;
  opcode : ibv_wr_opcode;
  signaled : bool;                          (* IBV_SEND_SIGNALED *)
  rdma_target : option (Z * Z);             (* wr.rdma: remote_addr, rkey *)
}.
Record ibv_recv_wr := RecvWr { rr_wr_id : Z; rr_sg_list : list ibv_sge }.

(** ibv_qp_init_attr, for a reliable connection. *)
Record ibv_qp_init_attr := QpInit {
  send_cq : Z; recv_cq : Z; sq_sig_all : bool;
  max_send_wr : Z; max_recv_wr : Z; max_send_sge : Z; max_recv_sge : Z;
}.

Inductive ibv_qp_state := IBV_QPS_RESET | IBV_QPS_INIT | IBV_QPS_RTR | IBV_QPS_RTS.
#[export] Instance ibv_qp_state_eq : EqDecision ibv_qp_state.
Proof. solve_decision. Defined.

Inductive ibv_qp_mask :=
| IBV_QP_STATE | IBV_QP_ACCESS_FLAGS | IBV_QP_PKEY_INDEX | IBV_QP_PORT | IBV_QP_AV
| IBV_QP_PATH_MTU | IBV_QP_TIMEOUT | IBV_QP_RETRY_CNT | IBV_QP_RNR_RETRY | IBV_QP_RQ_PSN
| IBV_QP_MAX_QP_RD_ATOMIC | IBV_QP_MIN_RNR_TIMER | IBV_QP_SQ_PSN
| IBV_QP_MAX_DEST_RD_ATOMIC | IBV_QP_DEST_QPN.

Definition IBV_ACCESS_LOCAL_WRITE : Z := 1.
Definition IBV_ACCESS_REMOTE_WRITE : Z := 2.
Definition IBV_ACCESS_REMOTE_READ : Z := 4.

(** grh: dgid, flow_label, hop_limit, sgid_index, traffic_class. *)
Record ibv_global_route := Grh {
  dgid : list Z; flow_label : Z; hop_limit : Z; sgid_index : Z; traffic_class : Z;
}.
Record ibv_ah_attr := Ah {
  is_global : Z; dlid : Z; sl : Z; src_path_bits : Z; ah_port_num : Z;
  grh : option ibv_global_route;            (* None: the zeroes of memset *)
}.
Record ibv_qp_attr := QpAttr {
  qp_state : ibv_qp_state;
  port_num : Z; pkey_index : Z; qp_access_flags : Z;
  path_mtu : Z; dest_qp_num : Z; rq_psn : Z; max_dest_rd_atomic : Z; min_rnr_timer : Z;
  ah_attr : ibv_ah_attr;
  timeout : Z; retry_cnt : Z; rnr_retry : Z; sq_psn : Z; max_rd_atomic : Z;
}.
#[export] Instance eta_qp_attr : Eta ibv_qp_attr :=
  fun a => QpAttr (qp_state a) (port_num a) (pkey_index a) (qp_access_flags a) (path_mtu a)
    (dest_qp_num a) (rq_psn a) (max_dest_rd_atomic a) (min_rnr_timer a) (ah_attr a)
    (timeout a) (retry_cnt a) (rnr_retry a) (sq_psn a) (max_rd_atomic a).
(** memset(&attr, 0, sizeof(attr)) *)
Definition zero_attr : ibv_qp_attr :=
  QpAttr IBV_QPS_RESET 0 0 0 0 0 0 0 0 (Ah 0 0 0 0 0 None) 0 0 0 0 0.
Definition IBV_MTU_256 : Z := 1.

(** struct resources; a null pointer is [None].  The device attributes are
    never filled in and are left out. *)
Record resources := Resources {
  port_lid : Z;                             (* port_attr.lid *)
  remote_props : cm_con_data_t;
  ib_ctx : option Z;
  pd : option Z;
  cq : option Z;
  qp : option ibv_qp;
  mr : option ibv_mr;
  buf : option Z;
  sock : Z;
}.
#[export] Instance eta_resources : Eta resources :=
  fun r => Resources (port_lid r) (remote_props r) (ib_ctx r) (pd r) (cq r) (qp r) (mr r)
    (buf r) (sock r).

(** ** The calls *)

Inductive rdma_call :=
| Stdout (s : string) | Stderr (s : string) | Strerror | Gai_strerror (code : Z)
| Strdup (s : string) | Malloc (n : Z) | Free (p : Z)
| Memset (p n : Z) | Strcpy (p : Z) (s : string) | Load (p : Z)
| Gettimeofday
| Getaddrinfo (host : option string) (service : string) | Freeaddrinfo (p : Z)
| Socket (ai : addrinfo) | Connect (fd : Z) (ai : addrinfo) | Bind (fd : Z) (ai : addrinfo)
| Listen (fd n : Z) | Accept (fd : Z) | Close (fd : Z)
| Write (fd : Z) (bs : list Z) | Read (fd n : Z)
| Get_device_list | Free_device_list (p : Z) | Open_device (p : Z) (i : nat)
| Query_port (ctx port : Z) | Query_gid (ctx port idx : Z)
| Alloc_pd (ctx : Z) | Create_cq (ctx n : Z) | Reg_mr (pd p n flags : Z)
| Create_qp (pd : Z) (a : ibv_qp_init_attr)
| Modify_qp (qp : Z) (a : ibv_qp_attr) (mask : list ibv_qp_mask)
| Post_send (qp : Z) (wr : ibv_send_wr) | Post_recv (qp : Z) (wr : ibv_recv_wr)
| Poll_cq (cq n : Z)
| Destroy_qp (qp : Z) | Dereg_mr (mr : Z) | Destroy_cq (cq : Z) | Dealloc_pd (pd : Z)
| Close_device (ctx : Z).

(** The type of each answer: an int as [Z], a pointer as an option.
    [Getaddrinfo] answers its code and the list with its address, [Read] the
    count and the bytes, [Get_device_list] the list's address and the names of
    the devices, [Query_port] its code and the port's LID. *)
Definition rdma_ans (c : rdma_call) : Type :=
  match c with
  | Stdout _ | Stderr _ | Free _ | Memset _ _ | Strcpy _ _ | Freeaddrinfo _
  | Free_device_list _ => unit
  | Strerror | Gai_strerror _ | Load _ => string
  | Strdup _ | Malloc _ | Open_device _ _ | Alloc_pd _ | Create_cq _ _ => option Z
  | Gettimeofday => Z * Z
  | Getaddrinfo _ _ => Z * option (Z * list addrinfo)
  | Get_device_list => option (Z * list string)
  | Read _ _ | Query_gid _ _ _ => Z * list Z
  | Query_port _ _ => Z * Z
  | Reg_mr _ _ _ _ => option ibv_mr
  | Create_qp _ _ => option ibv_qp
  | Poll_cq _ _ => Z * ibv_wc
  | _ => Z
  end.
Definition rdma : api := Api rdma_call rdma_ans.
Abbreviation io := (prog rdma).

Definition out (s : string) : io unit := ask (E := rdma) (Stdout s).
Definition err (s : string) : io unit := ask (E := rdma) (Stderr s).
Abbreviation request c := (ask (E := rdma) c).

(** printf's "%s" of a pointer that may be null. *)
Definition str (o : option string) : string := default "(null)" o.

(** A pointer that is followed. *)
Definition deref {A} (o : option A) : io A := match o with Some a => Ret a | None => Crash end.

(** ** Sockets *)

(** The loop over the resolved addresses; it ends at sock_connect_exit with
    [sockfd] and [listenfd]. *)
Fixpoint connect_loop (servername : option string) (its : list addrinfo)
    (sockfd listenfd : Z) : io (Z * Z) :=
  match its with
  | [] => Ret (sockfd, listenfd)
  | it :: its =>
      sockfd ← request (Socket it);
      if 0 <=? sockfd then
        match servername with
        | Some _ =>
            tmp ← request (Connect sockfd it);
            if negb (tmp =? 0) then
              _ ← out ("failed connect " +:+ nl);
              _ ← request (Close sockfd);
              connect_loop servername its (-1) listenfd
            else connect_loop servername its sockfd listenfd
        | None =>
            let listenfd := sockfd in
            b ← request (Bind listenfd it);
            if negb (b =? 0) then Ret (-1, listenfd)
            else
              _ ← request (Listen listenfd 1);
              sockfd ← request (Accept listenfd);
              connect_loop servername its sockfd listenfd
        end
      else connect_loop servername its sockfd listenfd
  end.

Definition sock_connect_exit (servername : option string) (port sockfd listenfd : Z)
    (resolved_addr : option (Z * list addrinfo)) : io Z :=
  _ ← (if negb (listenfd =? 0) then _ ← request (Close listenfd); Ret tt else Ret tt);
  _ ← match resolved_addr with Some (p, _) => request (Freeaddrinfo p) | None => Ret tt end;
  _ ← (if sockfd <? 0 then
         match servername with
         | Some s => err ("Couldn't connect to " +:+ s +:+ ":" +:+ dec port +:+ nl)
         | None =>
             e ← request Strerror;
             _ ← err ("server accept: " +:+ e +:+ nl);
             err ("accept() failed" +:+ nl)
         end
       else Ret tt);
  Ret sockfd.

(** sprintf writes into [service[6]]. *)
Definition sock_connect (servername : option string) (port : Z) : io Z :=
  if 6 <? strlen (dec port) + 1 then Crash
  else
    '(sockfd, resolved_addr) ← request (Getaddrinfo servername (dec port));
    if sockfd <? 0 then
      e ← request (Gai_strerror sockfd);
      _ ← err (e +:+ " for " +:+ str servername +:+ ":" +:+ dec port +:+ nl);
      sock_connect_exit servername port sockfd 0 resolved_addr
    else
      '(sockfd, listenfd) ←
        connect_loop servername (default [] (snd <$> resolved_addr)) sockfd 0;
      sock_connect_exit servername port sockfd listenfd resolved_addr.

(** The reading half of sock_sync_data; [remote_data] is what the buffer
    holds.  Every read stores at its start. *)
Fixpoint sync_read (n : nat) (sock xfer_size : Z) (remote_data : list Z)
    (rc total_read_bytes : Z) : io (Z * list Z) :=
  match n with
  | O => Again
  | S n =>
      if (rc =? 0) && (total_read_bytes <? xfer_size) then
        '(read_bytes, data) ← request (Read sock xfer_size);
        if 0 <? read_bytes then
          sync_read n sock xfer_size (data ++ drop (length data) remote_data)
            rc (total_read_bytes + read_bytes)
        else sync_read n sock xfer_size remote_data read_bytes total_read_bytes
      else Ret (rc, remote_data)
  end.

Definition sock_sync_data (n : nat) (sock xfer_size : Z) (local_data remote_data : list Z)
    : io (Z * list Z) :=
  rc ← request (Write sock local_data);
  rc ← (if rc <? xfer_size then
          _ ← err ("Failed writing data during sock_sync_data" +:+ nl); Ret rc
        else Ret 0);
  sync_read n sock xfer_size remote_data rc 0.

(** ** Completions and work requests *)

Definition msec (t : Z * Z) : Z := u64 (t.1 * 1000 + t.2 / 1000).

Fixpoint poll_loop (n : nat) (cq start_time_msec : Z) : io (Z * ibv_wc) :=
  match n with
  | O => Again
  | S n =>
      '(poll_result, wc) ← request (Poll_cq cq 1);
      cur_time ← request Gettimeofday;
      let cur_time_msec := msec cur_time in
      if (poll_result =? 0) && (u64 (cur_time_msec - start_time_msec) <? MAX_POLL_CQ_TIMEOUT)
      then poll_loop n cq start_time_msec
      else Ret (poll_result, wc)
  end.

Definition poll_completion (n : nat) (res : resources) : io Z :=
  cur_time ← request Gettimeofday;
  cq ← deref (cq res);
  '(poll_result, wc) ← poll_loop n cq (msec cur_time);
  if poll_result <? 0 then
    e ← request Strerror;
    _ ← err ("poll CQ failed retval = " +:+ dec poll_result +:+ ", errno: " +:+ e +:+ nl);
    Ret 1
  else if poll_result =? 0 then
    e ← request Strerror;
    _ ← err ("completion wasn't found in the CQ after timeout. errno: " +:+ e +:+ nl);
    Ret 1
  else
    _ ← out ("completion was found in CQ with status 0x" +:+ hex (status wc) +:+ nl);
    if negb (status wc =? IBV_WC_SUCCESS) then
      _ ← err ("got bad completion with status: 0x" +:+ hex (status wc)
                 +:+ ", vendor syndrome: 0x" +:+ hex (vendor_err wc) +:+ nl);
      Ret 1
    else Ret 0.

Definition post_send (res : resources) (op : ibv_wr_opcode) : io Z :=
  m ← deref (mr res);
  let sge := Sge (default 0 (buf res)) MSG_SIZE (mr_lkey m) in
  let target :=
    if decide (op = IBV_WR_SEND) then None
    else Some (addr (remote_props res), rkey (remote_props res)) in
  q ← deref (qp res);
  rc ← request (Post_send (qp_ptr q) (SendWr 0 [sge] op true target));
  _ ← (if negb (rc =? 0) then err ("failed to post SR" +:+ nl)
       else match op with
            | IBV_WR_SEND => out ("Send Request was posted" +:+ nl)
            | IBV_WR_RDMA_READ => out ("RDMA Read Request was posted" +:+ nl)
            | IBV_WR_RDMA_WRITE => out ("RDMA Write Request was posted" +:+ nl)
            | _ => out ("Unknown Request was posted" +:+ nl)
            end);
  Ret rc.

Definition post_receive (res : resources) : io Z :=
  m ← deref (mr res);
  let sge := Sge (default 0 (buf res)) MSG_SIZE (mr_lkey m) in
  q ← deref (qp res);
  rc ← request (Post_recv (qp_ptr q) (RecvWr 0 [sge]));
  _ ← (if negb (rc =? 0) then err ("failed to post RR" +:+ nl)
       else out ("Receive Request was posted" +:+ nl));
  Ret rc.

(** ** Creating the resources *)

Definition resources_init : resources :=
  Resources 0 (ConData 0 0 0 0 (replicate 16 0)) None None None None None None (-1).

(** The variables resources_create and its cleanup share: the global [config],
    [*res] and [dev_list]. *)
Record locals := Locals { cfg : config_t; res : resources; dev_list : option (Z * list string) }.
#[export] Instance eta_locals : Eta locals := fun l => Locals (cfg l) (res l) (dev_list l).

(** A stretch of resources_create: it ends with [rc]; one that is not 0 means
    the stretch jumped to resources_create_exit. *)
Definition stage := locals → io (Z * locals).
Definition also (a b : stage) : stage := fun l =>
  '(rc, l) ← a l; if rc =? 0 then b l else Ret (rc, l).
Infix ";;>" := also (at level 61, left associativity).
Definition goto_exit (rc : Z) (msg : string) (l : locals) : io (Z * locals) :=
  _ ← err (msg +:+ nl); Ret (rc, l).
Definition going (l : locals) : io (Z * locals) := Ret (0, l).

Definition create_sock : stage := fun l =>
  let port := i32 (tcp_port (cfg l)) in
  match server_name (cfg l) with
  | Some s =>
      fd ← sock_connect (Some s) port;
      let l := l <| res := (res l) <| sock := fd |> |> in
      if fd <? 0 then
        goto_exit (-1) ("[Client only] failed to establish TCP connection to server " +:+ s
                          +:+ ", port " +:+ dec port) l
      else going l
  | None =>
      _ ← out ("[Server only] waiting on port " +:+ dec port +:+ " for TCP connection" +:+ nl);
      fd ← sock_connect None port;
      let l := l <| res := (res l) <| sock := fd |> |> in
      if fd <? 0 then
        goto_exit (-1) ("[Server only] failed to establish TCP connection with client on port "
                          +:+ dec port) l
      else going l
  end.

(** The loop over the devices: the index of the one called config.dev_name,
    which is first set to the name of the first device if it is null. *)
Fixpoint find_device (c : config_t) (names : list string) (i : nat) : io (config_t * option nat) :=
  match names with
  | [] => Ret (c, None)
  | name :: names =>
      c ← match dev_name c with
          | Some _ => Ret c
          | None =>
              p ← request (Strdup name);
              let c := c <| dev_name := (., name) <$> p |> in
              _ ← out ("device not specified, using first one found: "
                         +:+ str (snd <$> dev_name c) +:+ nl);
              Ret c
          end;
      '(_, wanted) ← deref (dev_name c);
      if strcmp name wanted =? 0 then Ret (c, Some i) else find_device c names (S i)
  end.

Definition create_device : stage := fun l =>
  _ ← out ("TCP connection was established" +:+ nl);
  _ ← out ("searching for IB devices in host" +:+ nl);
  dl ← request Get_device_list;
  let l := l <| dev_list := dl |> in
  match dl with
  | None => goto_exit 1 "failed to get IB devices list" l
  | Some (p, names) =>
      if zlen names =? 0 then goto_exit 1 ("found " +:+ dec (zlen names) +:+ " device(s)") l
      else
        _ ← out ("found " +:+ dec (zlen names) +:+ " device(s)" +:+ nl);
        '(c, ib_dev) ← find_device (cfg l) names 0;
        let l := l <| cfg := c |> in
        match ib_dev with
        | None => goto_exit 1 ("IB device " +:+ str (snd <$> dev_name c) +:+ " wasn't found") l
        | Some i =>
            ctx ← request (Open_device p i);
            let l := l <| res := (res l) <| ib_ctx := ctx |> |> in
            match ctx with
            | None => goto_exit 1 ("failed to open device " +:+ str (snd <$> dev_name c)) l
            | Some _ =>
                _ ← request (Free_device_list p);
                going (l <| dev_list := None |>)
            end
        end
  end.

Definition create_pd_cq : stage := fun l =>
  ctx ← deref (ib_ctx (res l));
  '(rc, plid) ← request (Query_port ctx (u8 (ib_port (cfg l))));
  if negb (rc =? 0) then
    goto_exit 1 ("ibv_query_port on port " +:+ dec (u32 (ib_port (cfg l))) +:+ " failed") l
  else
    let l := l <| res := (res l) <| port_lid := plid |> |> in
    d ← request (Alloc_pd ctx);
    let l := l <| res := (res l) <| pd := d |> |> in
    match d with
    | None => goto_exit 1 "ibv_alloc_pd failed" l
    | Some _ =>
        q ← request (Create_cq ctx 1);
        let l := l <| res := (res l) <| cq := q |> |> in
        match q with
        | None => goto_exit 1 ("failed to create CQ with " +:+ dec 1 +:+ " entries") l
        | Some _ => going l
        end
    end.

Definition mr_flags : Z :=
  Z.lor (Z.lor IBV_ACCESS_LOCAL_WRITE IBV_ACCESS_REMOTE_READ) IBV_ACCESS_REMOTE_WRITE.

Definition create_buf_mr : stage := fun l =>
  b ← request (Malloc MSG_SIZE);
  let l := l <| res := (res l) <| buf := b |> |> in
  match b with
  | None => goto_exit 1 ("failed to malloc " +:+ dec MSG_SIZE +:+ " bytes to memory buffer") l
  | Some p =>
      _ ← request (Memset p MSG_SIZE);
      _ ← match server_name (cfg l) with
          | None =>
              _ ← request (Strcpy p SEND_MSG);
              s ← request (Load p);
              out ("[Server only] going to send the message: '" +:+ s +:+ "'" +:+ nl)
          | Some _ => request (Memset p MSG_SIZE)
          end;
      d ← deref (pd (res l));
      m ← request (Reg_mr d p MSG_SIZE mr_flags);
      let l := l <| res := (res l) <| mr := m |> |> in
      match m with
      | None => goto_exit 1 ("ibv_reg_mr failed with mr_flags=0x" +:+ hex mr_flags) l
      | Some m =>
          _ ← out ("MR was registered with addr=0x" +:+ hex p +:+ ", lkey=0x" +:+ hex (mr_lkey m)
                     +:+ ", rkey=0x" +:+ hex (mr_rkey m) +:+ ", flags=0x" +:+ hex mr_flags +:+ nl);
          going l
      end
  end.

Definition create_qp : stage := fun l =>
  d ← deref (pd (res l));
  let c := default 0 (cq (res l)) in
  q ← request (Create_qp d (QpInit c c true 1 1 1 1));
  let l := l <| res := (res l) <| qp := q |> |> in
  match q with
  | None => goto_exit 1 "failed to create QP" l
  | Some q =>
      _ ← out ("QP was created, QP number=0x" +:+ hex (qp_qp_num q) +:+ nl);
      going l
  end.

(** [if (p) { release(p); p = NULL; }], whatever the release answers. *)
Definition drop_it {A B} (o : option A) (release : A → io B) : io unit :=
  match o with Some a => _ ← release a; Ret tt | None => Ret tt end.

Definition resources_create_exit (rc : Z) (l : locals) : io (Z * locals) :=
  if rc =? 0 then Ret (rc, l)
  else
    let r := res l in
    _ ← drop_it (qp r) (fun q => request (Destroy_qp (qp_ptr q)));
    _ ← drop_it (mr r) (fun m => request (Dereg_mr (mr_ptr m)));
    _ ← drop_it (buf r) (fun p => request (Free p));
    _ ← drop_it (cq r) (fun q => request (Destroy_cq q));
    _ ← drop_it (pd r) (fun d => request (Dealloc_pd d));
    _ ← drop_it (ib_ctx r) (fun c => request (Close_device c));
    _ ← drop_it (dev_list l) (fun d => request (Free_device_list d.1));
    _ ← (if 0 <=? sock r then
           c ← request (Close (sock r));
           if negb (c =? 0) then err ("failed to close socket" +:+ nl) else Ret tt
         else Ret tt);
    Ret (rc, Locals (cfg l)
               (Resources (port_lid r) (remote_props r) None None None None None None
                  (if 0 <=? sock r then -1 else sock r)) None).

Definition resources_create (c : config_t) (r : resources) : io (Z * locals) :=
  '(rc, l) ← (create_sock ;;> create_device ;;> create_pd_cq ;;> create_buf_mr ;;> create_qp)
               (Locals c r None);
  resources_create_exit rc l.

(** ** Connecting the queue pairs *)

Definition modify_qp_to_init (c : config_t) (q : ibv_qp) : io Z :=
  let attr :=
    zero_attr <| qp_state := IBV_QPS_INIT |> <| port_num := u8 (ib_port c) |>
      <| pkey_index := 0 |>
      <| qp_access_flags := Z.lor IBV_ACCESS_REMOTE_READ IBV_ACCESS_REMOTE_WRITE |> in
  rc ← request (Modify_qp (qp_ptr q) attr
                  [IBV_QP_STATE; IBV_QP_PKEY_INDEX; IBV_QP_PORT; IBV_QP_ACCESS_FLAGS]);
  _ ← (if negb (rc =? 0) then
         e ← request Strerror;
         err ("failed to modify QP state to INIT (" +:+ e +:+ ")" +:+ nl)
       else Ret tt);
  Ret rc.

Definition rtr_attr (c : config_t) (remote_qpn dl : Z) (dg : list Z) : ibv_qp_attr :=
  zero_attr <| qp_state := IBV_QPS_RTR |> <| path_mtu := IBV_MTU_256 |>
    <| dest_qp_num := remote_qpn |> <| rq_psn := 0 |> <| max_dest_rd_atomic := 1 |>
    <| min_rnr_timer := 18 |>
    <| ah_attr :=
         if 0 <=? gid_idx c then Ah 1 dl 0 0 1 (Some (Grh dg 0 1 (u8 (gid_idx c)) 0))
         else Ah 0 dl 0 0 (u8 (ib_port c)) None |>.

Definition modify_qp_to_rtr (c : config_t) (q : ibv_qp) (remote_qpn dl : Z) (dg : list Z) : io Z :=
  rc ← request (Modify_qp (qp_ptr q) (rtr_attr c remote_qpn dl dg)
                  [IBV_QP_STATE; IBV_QP_AV; IBV_QP_PATH_MTU; IBV_QP_DEST_QPN; IBV_QP_RQ_PSN;
                   IBV_QP_MAX_DEST_RD_ATOMIC; IBV_QP_MIN_RNR_TIMER]);
  _ ← (if negb (rc =? 0) then
         e ← request Strerror;
         err ("failed to modify QP state to RTR (" +:+ e +:+ ")" +:+ nl)
       else Ret tt);
  Ret rc.

Definition modify_qp_to_rts (q : ibv_qp) : io Z :=
  let attr :=
    zero_attr <| qp_state := IBV_QPS_RTS |> <| timeout := 18 |> <| retry_cnt := 6 |>
      <| rnr_retry := 0 |> <| sq_psn := 0 |> <| max_rd_atomic := 1 |> in
  rc ← request (Modify_qp (qp_ptr q) attr
                  [IBV_QP_STATE; IBV_QP_TIMEOUT; IBV_QP_RETRY_CNT; IBV_QP_RNR_RETRY;
                   IBV_QP_SQ_PSN; IBV_QP_MAX_QP_RD_ATOMIC]);
  _ ← (if negb (rc =? 0) then
         e ← request Strerror;
         err ("failed to modify QP state to RTS (" +:+ e +:+ ")" +:+ nl)
       else Ret tt);
  Ret rc.

(** What a side tells its peer, in network byte order; and what it makes of
    the peer's message. *)
Definition local_con_data (b rk qpn l : Z) (my_gid : list Z) : cm_con_data_t :=
  ConData (htonll b) (htonl rk) (htonl qpn) (htons l) my_gid.
Definition remote_con_data (tmp : cm_con_data_t) : cm_con_data_t :=
  ConData (ntohll (addr tmp)) (ntohl (rkey tmp)) (ntohl (qp_num tmp)) (ntohs (lid tmp)) (gid tmp).

Definition gid_text (g : list Z) : string :=
  String.concat ":" ((fun b => padl "0" 2 (hex b)) <$> g).

Definition print_remote (c : config_t) (r : cm_con_data_t) : io unit :=
  _ ← out ("Remote address = 0x" +:+ hex (addr r) +:+ nl);
  _ ← out ("Remote rkey = 0x" +:+ hex (rkey r) +:+ nl);
  _ ← out ("Remote QP number = 0x" +:+ hex (qp_num r) +:+ nl);
  _ ← out ("Remote LID = 0x" +:+ hex (lid r) +:+ nl);
  if 0 <=? gid_idx c then out ("Remote GID = " +:+ gid_text (gid r) +:+ nl) else Ret tt.

(** The second half of connect_qp: the queue pair through its states, and the
    synchronisation; the result is [rc]. *)
Definition bring_up (n : nat) (c : config_t) (r : resources) : io Z :=
  let remote := remote_props r in
  q ← deref (qp r);
  rc ← modify_qp_to_init c q;
  if negb (rc =? 0) then _ ← err ("change QP state to INIT failed" +:+ nl); Ret rc
  else
  rc ← match server_name c with Some _ => post_receive r | None => Ret 0 end;
  if negb (rc =? 0) then _ ← err ("failed to post RR" +:+ nl); Ret rc
  else
  rc ← modify_qp_to_rtr c q (qp_num remote) (lid remote) (gid remote);
  if negb (rc =? 0) then
    e ← request Strerror;
    _ ← err ("failed to modify QP state to RTR (" +:+ e +:+ ")" +:+ nl); Ret rc
  else
  rc ← modify_qp_to_rts q;
  if negb (rc =? 0) then
    e ← request Strerror;
    _ ← err ("failed to modify QP state to RTS (" +:+ e +:+ ")" +:+ nl); Ret rc
  else
  _ ← out ("QP state was change to RTS" +:+ nl);
  '(s, _) ← sock_sync_data n (sock r) 1 [zchar "Q"] [0];
  if negb (s =? 0) then _ ← err ("sync error after QPs were moved to RTS" +:+ nl); Ret rc
  else Ret 0.

(** [stack] is what the uninitialised [tmp_con_data] holds. *)
Definition connect_qp (n : nat) (stack : list Z) (c : config_t) (r : resources)
    : io (Z * resources) :=
  '(rc, my_gid) ←
    (if 0 <=? gid_idx c then
       ctx ← deref (ib_ctx r);
       request (Query_gid ctx (u8 (ib_port c)) (gid_idx c))
     else Ret (0, replicate 16 0));
  if negb (rc =? 0) then
    _ ← err ("could not get gid for port " +:+ dec (ib_port c) +:+ ", index "
               +:+ dec (gid_idx c) +:+ nl);
    Ret (rc, r)
  else
  m ← deref (mr r);
  q ← deref (qp r);
  let local := local_con_data (default 0 (buf r)) (mr_rkey m) (qp_qp_num q) (port_lid r) my_gid in
  _ ← out (nl +:+ "Local LID" +:+ tab +:+ "= 0x" +:+ hex (port_lid r) +:+ nl);
  '(rc, tmp) ← sock_sync_data n (sock r) con_data_size (con_bytes local) stack;
  if rc <? 0 then
    _ ← err ("failed to exchange connection data between sides" +:+ nl); Ret (1, r)
  else
  let r := r <| remote_props := remote_con_data (con_of_bytes tmp) |> in
  _ ← print_remote c (remote_props r);
  rc ← bring_up n c r;
  Ret (rc, r).

(** ** Destroying the resources *)

(** [if (p) if (release(p)) { complain; rc = 1; }] *)
Definition release {A} (o : option A) (f : A → io Z) (msg : string) (rc : Z) : io Z :=
  match o with
  | Some a => e ← f a; if negb (e =? 0) then _ ← err (msg +:+ nl); Ret 1 else Ret rc
  | None => Ret rc
  end.

Definition resources_destroy (r : resources) : io Z :=
  rc ← release (qp r) (fun q => request (Destroy_qp (qp_ptr q))) "failed to destroy QP" 0;
  rc ← release (mr r) (fun m => request (Dereg_mr (mr_ptr m))) "failed to deregister MR" rc;
  _ ← drop_it (buf r) (fun p => request (Free p));
  rc ← release (cq r) (fun q => request (Destroy_cq q)) "failed to destroy CQ" rc;
  rc ← release (pd r) (fun d => request (Dealloc_pd d)) "failed to deallocate PD" rc;
  rc ← release (ib_ctx r) (fun c => request (Close_device c)) "failed to close device context" rc;
  release (if 0 <=? sock r then Some (sock r) else None) (fun fd => request (Close fd))
    "failed to close socket" rc.

(** ** main *)

Definition print_config (c : config_t) : io unit :=
  let line := " ------------------------------------------------" +:+ nl in
  _ ← out line;
  _ ← out (" Device name" +:+ tab +:+ ": " +:+ String "034" (str (snd <$> dev_name c)) +:+ String "034" nl);
  _ ← out (" IB port" +:+ tab +:+ ": " +:+ dec (u32 (ib_port c)) +:+ nl);
  _ ← match server_name c with
      | Some s => out ("[client only] IP" +:+ tab +:+ ": " +:+ s +:+ nl)
      | None => Ret tt
      end;
  _ ← out (" TCP port" +:+ tab +:+ ": " +:+ dec (tcp_port c) +:+ nl);
  _ ← (if 0 <=? gid_idx c then out (" GID index" +:+ tab +:+ ": " +:+ dec (gid_idx c) +:+ nl)
       else Ret tt);
  out (line +:+ nl).

Definition usage (argv0 : string) : io unit :=
  _ ← out ("Usage:" +:+ nl);
  _ ← out (" " +:+ argv0 +:+ " start a server and wait for connection" +:+ nl);
  _ ← out (" " +:+ argv0 +:+ " <host> connect to server at <host>" +:+ nl);
  _ ← out nl;
  _ ← out ("Options:" +:+ nl);
  _ ← out (" -p, --port <port> listen on/connect to port <port> (default 18515)" +:+ nl);
  _ ← out (" -d, --ib-dev <dev> use IB device <dev> (default first device found)" +:+ nl);
  _ ← out ("  -i, --ib-port <port>   use port <port> of IB device (default 1)" +:+ nl);
  out ("  -g, --gid_idx <gid index>   gid index to be used in GRH (default not used)" +:+ nl).

Definition config_default : config_t := Config None None 19875 1 (-1).

(** getopt_long hands out the options as letters with their arguments (the
    long names port, ib-dev, ib-port and gid-idx stand for p, d, i and g; any
    other letter is '?'); [None]: main printed the usage and returns 1. *)
Fixpoint options (argv0 : string) (c : config_t) (opts : list (ascii * string))
    : io (option config_t) :=
  match opts with
  | [] => Ret (Some c)
  | (o, optarg) :: opts =>
      let value := fst (strtoul 0 optarg) in
      if Ascii.eqb o "p" then options argv0 (c <| tcp_port := u32 value |>) opts
      else if Ascii.eqb o "d" then
        p ← request (Strdup optarg);
        options argv0 (c <| dev_name := (., optarg) <$> p |>) opts
      else if Ascii.eqb o "i" then
        if i32 value <? 0 then _ ← usage argv0; Ret None
        else options argv0 (c <| ib_port := i32 value |>) opts
      else if Ascii.eqb o "g" then
        if i32 value <? 0 then _ ← usage argv0; Ret None
        else options argv0 (c <| gid_idx := i32 value |>) opts
      else _ ← usage argv0; Ret None
  end.

(** main's middle part, from the connected queue pairs on: the value [rc] has
    at main_exit. *)
Definition transfer_read_write (n : nat) (r : resources) : io Z :=
  e ← post_send r IBV_WR_RDMA_READ;
  if negb (e =? 0) then _ ← err ("failed to post SR 2" +:+ nl); Ret 1
  else
  e ← poll_completion n r;
  if negb (e =? 0) then _ ← err ("poll completion failed 2" +:+ nl); Ret 1
  else
  p ← deref (buf r);
  s ← request (Load p);
  _ ← out ("[Client only] Contents of server's buffer: '" +:+ s +:+ "'" +:+ nl);
  _ ← request (Strcpy p RDMA_MSG_W);
  s ← request (Load p);
  _ ← out ("[Client only] Now replacing it with: '" +:+ s +:+ "'" +:+ nl);
  e ← post_send r IBV_WR_RDMA_WRITE;
  if negb (e =? 0) then _ ← err ("failed to post SR 3" +:+ nl); Ret 1
  else
  e ← poll_completion n r;
  if negb (e =? 0) then _ ← err ("poll completion failed 3" +:+ nl); Ret 1
  else Ret 0.

Definition transfer (n : nat) (c : config_t) (r : resources) : io Z :=
  e ← match server_name c with None => post_send r IBV_WR_SEND | Some _ => Ret 0 end;
  if negb (e =? 0) then _ ← err ("failed to post sr" +:+ nl); Ret 1
  else
  e ← poll_completion n r;
  if negb (e =? 0) then _ ← err ("poll completion failed" +:+ nl); Ret 1
  else
  p ← deref (buf r);
  _ ← match server_name c with
      | Some _ =>
          s ← request (Load p);
          out ("[Client only] Message is: '" +:+ s +:+ "'" +:+ nl)
      | None => request (Strcpy p RDMA_MSG_R)
      end;
  '(e, _) ← sock_sync_data n (sock r) 1 [zchar "R"] [0];
  if negb (e =? 0) then _ ← err ("sync error before RDMA ops" +:+ nl); Ret 1
  else
  e ← match server_name c with Some _ => transfer_read_write n r | None => Ret 0 end;
  if negb (e =? 0) then Ret 1
  else
  '(e, _) ← sock_sync_data n (sock r) 1 [zchar "W"] [0];
  if negb (e =? 0) then _ ← err ("sync error after RDMA ops" +:+ nl); Ret 1
  else
  _ ← match server_name c with
      | None =>
          s ← request (Load p);
          out ("[Server only] Contents of server buffer: '" +:+ s +:+ "'" +:+ nl)
      | Some _ => Ret tt
      end;
  Ret 0.

Definition main_exit (rc : Z) (c : config_t) (r : resources) : io Z :=
  d ← resources_destroy r;
  rc ← (if negb (d =? 0) then _ ← err ("failed to destroy resources" +:+ nl); Ret 1 else Ret rc);
  _ ← drop_it (dev_name c) (fun d => request (Free d.1));
  _ ← out (nl +:+ "test result is " +:+ dec rc +:+ nl);
  Ret rc.

(** main once the options are read: [operands] is argv from optind on. *)
Definition run (n : nat) (stack : list Z) (c : config_t) : io Z :=
  _ ← print_config c;
  '(e, l) ← resources_create c resources_init;
  let c := cfg l in
  if negb (e =? 0) then
    _ ← err ("failed to create resources" +:+ nl);
    main_exit 1 c (res l)
  else
  '(e, r) ← connect_qp n stack c (res l);
  if negb (e =? 0) then
    _ ← err ("failed to connect QPs" +:+ nl);
    main_exit 1 c r
  else
  rc ← transfer n c r;
  main_exit rc c r.

Definition main (n : nat) (stack : list Z) (argv0 : string) (opts : list (ascii * string))
    (operands : list string) : io Z :=
  o ← options argv0 config_default opts;
  match o with
  | None => Ret 1
  | Some c =>
      match operands with
      | [] => run n stack c
      | [host] => run n stack (c <| server_name := Some host |>)
      | _ => _ ← usage argv0; Ret 1
      end
  end.

(** ** The exchanged data *)

Lemma bswap_range n x : 0 ≤ bswap n x < 256 ^ Z.of_nat n.
Proof.
  unfold bswap. rewrite <- (zlen_le n x). replace (zlen (le n x)) with (zlen (rev (le n x)))
    by (unfold zlen; by rewrite length_rev).
  apply of_le_range, Forall_rev, le_range.
Qed.

Lemma bswap_bswap n x : 0 ≤ x < 256 ^ Z.of_nat n → bswap n (bswap n x) = x.
Proof.
  intros Hx. unfold bswap. rewrite <- (length_le n x) at 1. rewrite <- length_rev.
  rewrite le_of_le by apply Forall_rev, le_range. rewrite rev_involutive. by apply of_le_le.
Qed.

(** What one side puts on the wire in connect_qp (buffer address, key, queue
    pair number and LID in network byte order, the gid as it is) is what the
    other side reads back, and the message is as long as both sides say. *)
Theorem con_data_roundtrip b rk q l g :
  0 ≤ b < 2 ^ 64 → 0 ≤ rk < 2 ^ 32 → 0 ≤ q < 2 ^ 32 → 0 ≤ l < 2 ^ 16 → zlen g = 16 →
  remote_con_data (con_of_bytes (con_bytes (local_con_data b rk q l g))) = ConData b rk q l g
  ∧ zlen (con_bytes (local_con_data b rk q l g)) = con_data_size.
Proof.
  intros Hb Hr Hq Hl Hg. unfold local_con_data, con_of_bytes, con_bytes, remote_con_data. cbn [addr rkey qp_num lid gid].
  pose proof (bswap_range 8 b). pose proof (bswap_range 4 rk). pose proof (bswap_range 4 q). pose proof (bswap_range 2 l).
  set (f := [le 8 (htonll b); le 4 (htonl rk); le 4 (htonl q); le 2 (htons l); g]).
  replace (le 8 (htonll b) ++ le 4 (htonl rk) ++ le 4 (htonl q) ++ le 2 (htons l) ++ g) with (concat f)
    by (cbn; by rewrite app_nil_r).
  rewrite (slice_field f 0 (le 8 (htonll b))), (slice_field f 1 (le 4 (htonl rk))),
    (slice_field f 2 (le 4 (htonl q))), (slice_field f 3 (le 2 (htons l))), (slice_field f 4 g)
    by (try reflexivity; done).
  unfold htonll, htonl, htons, ntohll, ntohl, ntohs. rewrite !of_le_le by done.
  rewrite !bswap_bswap by done. split; [done|]. unfold f. cbn [concat]. by rewrite !zlen_app, !zlen_le, Hg.
Qed.

Lemma con_data_roundtrip_witness :
  remote_con_data (con_of_bytes (con_bytes (local_con_data 140737353670656 258 17 3 (replicate 16 254))))
    = ConData 140737353670656 258 17 3 (replicate 16 254)
  ∧ zlen (con_bytes (local_con_data 140737353670656 258 17 3 (replicate 16 254))) = con_data_size.
Proof. apply con_data_roundtrip; (lia || reflexivity). Defined.
