(* ===== verification/RdmaSafe.v ===== *)
(** * rdma/rdma_ex.c: what it holds and what it gives back

    The world of the RDMA program as its manual pages describe it: objects are
    acquired and released by calls, a release is refused while something still
    depends on the object, and the clock moves on.  The theorem at the end:
    against every such world the program only uses live objects, stays inside
    its buffer, comes to an end and gives back everything it acquired. *)

From S2P Require Import Prelude CLib CBytes Calls Rdma.

(** ** The world *)

Inductive kind := KFd | KAddrs | KDevs | KCtx | KPd | KCq | KMem | KMr | KQp.
#[export] Instance kind_eq : EqDecision kind.
Proof. solve_decision. Defined.

Definition key : Type := kind * Z.

(** [size]: bytes of memory or of a registered region, entries of a device
    list; [parents]: what the object was made from; [lkey] of a region. *)
Record obj := Obj { size : Z; parents : list key; obj_lkey : Z }.
Definition entry : Type := key * obj.

(** The objects the program holds, and the clock in microseconds. *)
Record ledger := Ledger { held : list entry; now : Z }.

Definition keys (h : list entry) : list key := h.*1.
Definition holds (s : ledger) (k : key) : Prop := k ∈ keys (held s).
Definition fresh (s : ledger) (k : key) : Prop := k ∉ keys (held s).
Definition busy (s : ledger) (k : key) : Prop := ∃ e, e ∈ held s ∧ k ∈ parents e.2.

Definition add (e : entry) (s : ledger) : ledger := Ledger (e :: held s) (now s).
Definition del (k : key) (s : ledger) : ledger :=
  Ledger (filter (fun e => e.1 ≠ k) (held s)) (now s).
Definition add_opt {A} (f : A → entry) (o : option A) (s : ledger) : ledger :=
  match o with Some a => add (f a) s | None => s end.
Definition fd_entry (fd : Z) : entry := ((KFd, fd), Obj 0 [] 0).
Definition add_fd (fd : Z) (s : ledger) : ledger :=
  if 0 <=? fd then add (fd_entry fd) s else s.
Definition del_if (a : Z) (k : key) (s : ledger) : ledger := if a =? 0 then del k s else s.

(** A scatter/gather entry names memory inside a registered region. *)
Definition sge_ok (s : ledger) (g : ibv_sge) : Prop :=
  ∃ m o, ((KMr, m), o) ∈ held s ∧ obj_lkey o = sge_lkey g ∧ (KMem, sge_addr g) ∈ parents o
    ∧ 0 ≤ sge_length g ≤ size o.
Definition room (s : ledger) (p n : Z) : Prop :=
  ∃ o, ((KMem, p), o) ∈ held s ∧ 0 ≤ n ≤ size o.

Definition proper (c : rdma_call) (s : ledger) : Prop :=
  match c with
  | Free p => holds s (KMem, p) ∧ ¬ busy s (KMem, p)
  | Memset p n => room s p n
  | Strcpy p t => room s p (strlen t + 1)
  | Load p => holds s (KMem, p)
  | Freeaddrinfo p => holds s (KAddrs, p)
  | Connect fd _ | Bind fd _ | Listen fd _ | Accept fd | Close fd | Write fd _ | Read fd _ =>
      holds s (KFd, fd)
  | Free_device_list p => holds s (KDevs, p)
  | Open_device p i => ∃ o, ((KDevs, p), o) ∈ held s ∧ Z.of_nat i < size o
  | Query_port x _ | Query_gid x _ _ | Alloc_pd x | Create_cq x _ | Close_device x =>
      holds s (KCtx, x)
  | Reg_mr d p n _ => holds s (KPd, d) ∧ room s p n
  | Create_qp d a => holds s (KPd, d) ∧ holds s (KCq, send_cq a) ∧ holds s (KCq, recv_cq a)
  | Modify_qp q _ _ | Destroy_qp q => holds s (KQp, q)
  | Post_send q wr => holds s (KQp, q) ∧ Forall (sge_ok s) (sg_list wr)
  | Post_recv q wr => holds s (KQp, q) ∧ Forall (sge_ok s) (rr_sg_list wr)
  | Poll_cq q _ | Destroy_cq q => holds s (KCq, q)
  | Dereg_mr m => holds s (KMr, m)
  | Dealloc_pd d => holds s (KPd, d)
  | _ => True
  end.

(** A pointer answer: null, or an object not held yet. *)
Definition new {A} (s : ledger) (f : A → key) (o : option A) : Prop :=
  match o with Some a => fresh s (f a) | None => True end.
Definition usec (t : Z * Z) : Z := t.1 * 1000000 + t.2.

(** Which answers may come.  Where the code relies on more than the manual
    promises it is said here: [strdup] finds memory, a host resolves to one
    address, the peer does not close the connection before the last
    synchronisation (a read does not answer 0), and the clock advances by at
    least a microsecond between two readings. *)
Definition possible (c : rdma_call) (s : ledger) : rdma_ans c → Prop :=
  match c with
  | Strdup t => fun a => ∃ p, a = Some p ∧ fresh s (KMem, p)
  | Malloc n => new s (KMem,.)
  | Gettimeofday => fun t =>
      now s < usec t ∧ 0 ≤ t.1 < 2 ^ 53 ∧ 0 ≤ t.2 < 1000000
  | Getaddrinfo _ _ => fun '(rc, r) =>
      (rc < 0 ∧ r = None) ∨ (rc = 0 ∧ ∃ p ai, r = Some (p, [ai]) ∧ fresh s (KAddrs, p))
  | Socket _ | Accept _ => fun fd => 0 ≤ fd → fresh s (KFd, fd)
  | Read _ n => fun '(r, data) => r < 0 ∨ (0 < r ≤ n ∧ zlen data = r)
  | Get_device_list => new s (fun l => (KDevs, l.1))
  | Open_device _ _ => new s (KCtx,.)
  | Alloc_pd _ => new s (KPd,.)
  | Create_cq _ _ => new s (KCq,.)
  | Reg_mr _ _ _ _ => new s (fun m => (KMr, mr_ptr m))
  | Create_qp _ _ => new s (fun q => (KQp, qp_ptr q))
  | Destroy_qp q => fun a => a = 0 ∨ busy s (KQp, q)
  | Dereg_mr m => fun a => a = 0 ∨ busy s (KMr, m)
  | Destroy_cq q => fun a => a = 0 ∨ busy s (KCq, q)
  | Dealloc_pd d => fun a => a = 0 ∨ busy s (KPd, d)
  | Close_device x => fun a => a = 0 ∨ busy s (KCtx, x)
  | _ => fun _ => True
  end.

(** close() gives up the descriptor whatever it answers; the other releases
    take effect when they answer 0. *)
Definition next (c : rdma_call) : rdma_ans c → ledger → ledger :=
  match c with
  | Strdup t => add_opt (fun p => ((KMem, p), Obj (strlen t + 1) [] 0))
  | Malloc n => add_opt (fun p => ((KMem, p), Obj n [] 0))
  | Free p => fun _ => del (KMem, p)
  | Gettimeofday => fun t s => Ledger (held s) (usec t)
  | Getaddrinfo _ _ => fun a => add_opt (fun r => ((KAddrs, r.1), Obj 0 [] 0)) a.2
  | Freeaddrinfo p => fun _ => del (KAddrs, p)
  | Socket _ | Accept _ => add_fd
  | Close fd => fun _ => del (KFd, fd)
  | Get_device_list => add_opt (fun l => ((KDevs, l.1), Obj (zlen l.2) [] 0))
  | Free_device_list p => fun _ => del (KDevs, p)
  | Open_device _ _ => add_opt (fun x => ((KCtx, x), Obj 0 [] 0))
  | Alloc_pd x => add_opt (fun d => ((KPd, d), Obj 0 [(KCtx, x)] 0))
  | Create_cq x _ => add_opt (fun q => ((KCq, q), Obj 0 [(KCtx, x)] 0))
  | Reg_mr d p n _ => add_opt (fun m => ((KMr, mr_ptr m), Obj n [(KPd, d); (KMem, p)] (mr_lkey m)))
  | Create_qp d a =>
      add_opt (fun q => ((KQp, qp_ptr q), Obj 0 [(KPd, d); (KCq, send_cq a); (KCq, recv_cq a)] 0))
  | Destroy_qp q => fun a => del_if a (KQp, q)
  | Dereg_mr m => fun a => del_if a (KMr, m)
  | Destroy_cq q => fun a => del_if a (KCq, q)
  | Dealloc_pd d => fun a => del_if a (KPd, d)
  | Close_device x => fun a => del_if a (KCtx, x)
  | _ => fun _ s => s
  end.

Definition host : world rdma := World rdma ledger proper possible next.

(** ** What the variables of the program stand for *)

Definition part {A} (f : A → entry) (o : option A) : list entry :=
  match o with Some a => [f a] | None => [] end.

Definition qp_entry (r : resources) (q : ibv_qp) : entry :=
  ((KQp, qp_ptr q), Obj 0 [(KPd, default 0 (pd r)); (KCq, default 0 (cq r)); (KCq, default 0 (cq r))] 0).
Definition mr_entry (r : resources) (m : ibv_mr) : entry :=
  ((KMr, mr_ptr m),
   Obj MSG_SIZE [(KPd, default 0 (pd r)); (KMem, default 0 (buf r))] (mr_lkey m)).
Definition mem_entry (n p : Z) : entry := ((KMem, p), Obj n [] 0).
Definition cq_entry (r : resources) (q : Z) : entry :=
  ((KCq, q), Obj 0 [(KCtx, default 0 (ib_ctx r))] 0).
Definition pd_entry (r : resources) (d : Z) : entry :=
  ((KPd, d), Obj 0 [(KCtx, default 0 (ib_ctx r))] 0).
Definition ctx_entry (x : Z) : entry := ((KCtx, x), Obj 0 [] 0).
Definition devs_entry (l : Z * list string) : entry := ((KDevs, l.1), Obj (zlen l.2) [] 0).
Definition name_entry (d : Z * string) : entry := mem_entry (strlen d.2 + 1) d.1.

(** Before and after everything: the three standard descriptors and the name
    of the device. *)
Definition base (c : config_t) : list entry :=
  part name_entry (dev_name c) ++ [fd_entry 0; fd_entry 1; fd_entry 2].

Definition sock_part (r : resources) : list entry :=
  if 0 <=? sock r then [fd_entry (sock r)] else [].

Definition all (l : locals) : list entry :=
  let r := res l in
  part (qp_entry r) (qp r) ++ part (mr_entry r) (mr r) ++ part (mem_entry MSG_SIZE) (buf r)
  ++ part (cq_entry r) (cq r) ++ part (pd_entry r) (pd r) ++ part ctx_entry (ib_ctx r)
  ++ part devs_entry (dev_list l) ++ sock_part r ++ base (cfg l).

(** The ledger is exactly the given objects. *)
Definition own (s : ledger) (X : list entry) : Prop := NoDup (keys (held s)) ∧ held s ≡ₚ X.

(** Nothing in [X] is made from an object of kind [k]. *)
Definition no_child (k : kind) (X : list entry) : Prop :=
  Forall (fun e => Forall (fun p => p.1 ≠ k) (parents e.2)) X.

Lemma own_perm s X Y : own s X → X ≡ₚ Y → own s Y.
Proof. intros [? H] E. split; [done|]. by rewrite H. Qed.

Lemma own_in s X e : own s X → e ∈ X → e ∈ held s.
Proof. intros [_ H]. by rewrite H. Qed.

Lemma own_holds s X k o : own s X → (k, o) ∈ X → holds s k.
Proof. intros H ?. apply list_elem_of_fmap. exists (k, o). split; [done|by eapply own_in]. Qed.

Lemma own_add s X e : own s X → fresh s e.1 → own (add e s) (e :: X).
Proof. intros [Hn Hp] Hf. split; cbn; [by constructor|by rewrite Hp]. Qed.

Lemma filter_all {A} (P : A → Prop) `{!∀ x, Decision (P x)} (l : list A) :
  Forall P l → filter P l = l.
Proof. induction 1 as [|x l Hx _ IH]; [done|]. by rewrite filter_cons_True, IH. Qed.

Lemma own_del s X k o : own s ((k, o) :: X) → own (del k s) X.
Proof.
  intros [Hn Hp]. split.
  - cbn. unfold keys in *. clear Hp. induction (held s) as [|e h IH]; [constructor|].
    cbn in Hn. apply NoDup_cons in Hn as [Hx Hn]. rewrite filter_cons. case_decide; [|by apply IH].
    cbn. constructor; [|by apply IH]. contradict Hx.
    apply list_elem_of_fmap in Hx as (y & -> & Hy). apply list_elem_of_filter in Hy as [_ Hy].
    by apply list_elem_of_fmap_2.
  - cbn. rewrite Hp, filter_cons. cbn. rewrite decide_False by (intros []; done).
    assert (k ∉ keys X) as Hk.
    { unfold keys in Hn. rewrite Hp in Hn. cbn in Hn. by apply NoDup_cons in Hn as [? _]. }
    rewrite filter_all; [done|]. apply Forall_forall. intros e He <-. apply Hk.
    by apply list_elem_of_fmap_2.
Qed.

Lemma own_idle s k o X : own s ((k, o) :: X) → k ∉ parents o → no_child k.1 X → ¬ busy s k.
Proof.
  intros [_ Hp] Ho HX (e & He & Hk). rewrite Hp in He. apply elem_of_cons in He as [->|He]; [done|].
  unfold no_child in HX. rewrite Forall_forall in HX. specialize (HX e He).
  rewrite Forall_forall in HX. by apply (HX k).
Qed.

Lemma own_now s X t : own s X → own (Ledger (held s) t) X.
Proof. done. Qed.

(** Releases: the object goes, and a release that answers a code answers 0. *)
Ltac release_tac :=
  let Ho := fresh in let Hk := fresh in
  intros Ho Hk; cbn; split; [by eapply own_holds; [done|left]|];
  intros a Ha; pose proof (own_idle _ _ _ _ Ho ltac:(cbn; set_solver) Hk);
  destruct Ha as [->|?]; [|done]; cbn; split; [done|by eapply own_del].

Section releases.
Context (s : ledger) (X : list entry).

Lemma destroy_qp_wp r q :
  own s (qp_entry r q :: X) → no_child KQp X →
  wp host (request (Destroy_qp (qp_ptr q))) s (fun a s => a = 0 ∧ own s X).
Proof. release_tac. Qed.
Lemma dereg_mr_wp r m :
  own s (mr_entry r m :: X) → no_child KMr X →
  wp host (request (Dereg_mr (mr_ptr m))) s (fun a s => a = 0 ∧ own s X).
Proof. release_tac. Qed.
Lemma destroy_cq_wp r q :
  own s (cq_entry r q :: X) → no_child KCq X →
  wp host (request (Destroy_cq q)) s (fun a s => a = 0 ∧ own s X).
Proof. release_tac. Qed.
Lemma dealloc_pd_wp r d :
  own s (pd_entry r d :: X) → no_child KPd X →
  wp host (request (Dealloc_pd d)) s (fun a s => a = 0 ∧ own s X).
Proof. release_tac. Qed.
Lemma close_device_wp x :
  own s (ctx_entry x :: X) → no_child KCtx X →
  wp host (request (Close_device x)) s (fun a s => a = 0 ∧ own s X).
Proof. release_tac. Qed.
Lemma free_wp n p :
  own s (mem_entry n p :: X) → no_child KMem X →
  wp host (request (Free p)) s (fun _ s => own s X).
Proof.
  intros Ho Hk. cbn. split; [split|]; [by eapply own_holds; [|left]| |].
  - eapply own_idle; [done|cbn; set_solver|done].
  - intros _ _. by eapply own_del.
Qed.
Lemma close_wp fd :
  own s (fd_entry fd :: X) → wp host (request (Close fd)) s (fun _ s => own s X).
Proof.
  intros Ho. cbn. split; [by eapply own_holds; [|left]|]. intros _ _. by eapply own_del.
Qed.
Lemma free_device_list_wp d :
  own s (devs_entry d :: X) → wp host (request (Free_device_list d.1)) s (fun _ s => own s X).
Proof.
  intros Ho. cbn. split; [by eapply own_holds; [|left]|]. intros _ _. by eapply own_del.
Qed.
Lemma freeaddrinfo_wp p o :
  own s (((KAddrs, p), o) :: X) → wp host (request (Freeaddrinfo p)) s (fun _ s => own s X).
Proof.
  intros Ho. cbn. split; [by eapply own_holds; [|left]|]. intros _ _. by eapply own_del.
Qed.
End releases.

(** ** Calls that leave the ledger alone *)

Lemma ask_wp c s (Q : rdma_ans c → ledger → Prop) :
  proper c s → (∀ a : rdma_ans c, possible c s a → Q a (next c a s)) → wp host (request c) s Q.
Proof. by split. Qed.

Lemma out_wp t s Q : Q tt s → wp host (out t) s Q.
Proof. intros H. cbn. split; [done|]. by intros [] _. Qed.
Lemma err_wp t s Q : Q tt s → wp host (err t) s Q.
Proof. intros H. cbn. split; [done|]. by intros [] _. Qed.
Lemma strerror_wp s Q : (∀ e, Q e s) → wp host (request Strerror) s Q.
Proof. intros H. cbn. split; [done|]. intros e _. apply H. Qed.

(** [wps] runs the program to its next interesting call. *)
Ltac wps :=
  repeat first
    [ progress cbn beta iota zeta delta [negb fst snd]
    | lazymatch goal with
      | |- wp _ (mbind _ (drop_it _ _)) _ _ => fail
      | |- wp _ (mbind _ (release _ _ _ _)) _ _ => fail
      | |- wp _ (mbind _ _) _ _ => apply wp_bind
      | |- wp _ (out _) _ _ => apply out_wp
      | |- wp _ (err _) _ _ => apply err_wp
      | |- wp _ (request Strerror) _ _ => apply strerror_wp; intros ?
      | |- wp _ (Ret _) _ _ => cbn [wp]
      | |- wp _ (goto_exit _ _ _) _ _ => unfold goto_exit
      | |- wp _ (going _) _ _ => unfold going
      end ].

(** The optional object goes, and the program goes on without it. *)
Lemma drop_then {A B C} (o : option A) (e : A → entry) (f : A → io B) (k : unit → io C) s X Q :
  own s (part e o ++ X) →
  (∀ a s, own s (e a :: X) → wp host (f a) s (fun _ s => own s X)) →
  (∀ s, own s X → wp host (k tt) s Q) →
  wp host (drop_it o f ≫= k) s Q.
Proof.
  intros Ho Hf Hk. destruct o as [a|]; cbn [drop_it]; wps; [|by apply Hk].
  eapply wp_mono; [by apply Hf|]. intros ? s' Hs. wps. by apply Hk.
Qed.

Lemma release_wp {A} (o : option A) (e : A → entry) (f : A → io Z) msg rc s X :
  own s (part e o ++ X) →
  (∀ a s, own s (e a :: X) → wp host (f a) s (fun a s => a = 0 ∧ own s X)) →
  wp host (release o f msg rc) s (fun rc' s => rc' = rc ∧ own s X).
Proof.
  intros Ho Hf. destruct o as [a|]; cbn [release]; wps; [|done].
  eapply wp_mono; [by apply Hf|]. by intros ? ? [-> ?].
Qed.

Lemma release_then {A C} (o : option A) (e : A → entry) (f : A → io Z) msg rc (k : Z → io C) s X Q :
  own s (part e o ++ X) →
  (∀ a s, own s (e a :: X) → wp host (f a) s (fun a s => a = 0 ∧ own s X)) →
  (∀ s, own s X → wp host (k rc) s Q) →
  wp host (release o f msg rc ≫= k) s Q.
Proof.
  intros Ho Hf Hk. eapply wp_seq; [by eapply release_wp|]. intros ? s' [-> Hs]. by apply Hk.
Qed.

Lemma no_child_app k X Y : no_child k X → no_child k Y → no_child k (X ++ Y).
Proof. apply Forall_app_2. Qed.

Lemma no_child_part {A} k (e : A → entry) o :
  (∀ a, Forall (fun p => p.1 ≠ k) (parents (e a).2)) → no_child k (part e o).
Proof. intros H. destruct o; repeat constructor; apply H. Qed.

Ltac kinds :=
  repeat apply no_child_app; repeat apply no_child_part; try (intros ?; cbn);
  unfold no_child, sock_part, base; repeat case_match;
  repeat first [apply Forall_cons_2 | apply Forall_nil_2 | progress cbn]; discriminate.

(** ** Cleaning up *)

Lemma release_drop p s X :
  wp host p s (fun a s => a = 0 ∧ own s X) → wp host p s (fun _ s => own s X).
Proof. intros H. eapply wp_mono; [exact H|]. by intros ? ? []. Qed.

(** The next optional object of the ledger goes; the first goal is its
    release. *)
Ltac drop_next Ho :=
  cbn beta iota zeta;
  first [eapply drop_then | eapply release_then];
  [exact Ho
  |let H := fresh in intros ? ? H
  |clear Ho; let s := fresh "s" in intros s Ho].

Lemma resources_create_exit_wp rc l s :
  own s (all l) →
  wp host (resources_create_exit rc l) s (fun '(rc', l') s =>
    rc' = rc ∧ (rc = 0 → l' = l ∧ own s (all l'))
    ∧ (rc ≠ 0 → cfg l' = cfg l ∧ dev_list l' = None ∧ own s (all l') ∧ all l' = base (cfg l))).
Proof.
  intros Ho. unfold resources_create_exit. destruct (Z.eqb_spec rc 0) as [->|Hrc]; [by wps|].
  unfold all in Ho.
  drop_next Ho; [by eapply release_drop, destroy_qp_wp; [|kinds]|].
  drop_next Ho; [by eapply release_drop, dereg_mr_wp; [|kinds]|].
  drop_next Ho; [by eapply free_wp; [|kinds]|].
  drop_next Ho; [by eapply release_drop, destroy_cq_wp; [|kinds]|].
  drop_next Ho; [by eapply release_drop, dealloc_pd_wp; [|kinds]|].
  drop_next Ho; [by eapply release_drop, close_device_wp; [|kinds]|].
  drop_next Ho; [by eapply free_device_list_wp|].
  wps.
  apply wp_mono with (Q := fun _ s => own s (base (cfg l))).
  - unfold sock_part in Ho. destruct (0 <=? sock (res l)); wps; [|done].
    eapply wp_mono; [by eapply close_wp|]. intros e s' He. cbv beta. destruct (e =? 0); by wps.
  - intros [] s' Hs. wps. split; [done|]. split; [done|]. intros _. cbn.
    assert (sock_part (Resources (port_lid (res l)) (remote_props (res l)) None None None None None None
                  (if 0 <=? sock (res l) then -1 else sock (res l))) = []) as E.
    { unfold sock_part. cbn. by destruct (0 <=? sock (res l)) eqn:E; [|rewrite E]. }
    unfold all. cbn. by rewrite E.
Qed.

Lemma resources_destroy_wp c r s :
  own s (all (Locals c r None)) →
  wp host (resources_destroy r) s (fun rc s => (rc = 0 ∨ rc = 1) ∧ own s (base c)).
Proof.
  intros Ho. unfold resources_destroy. unfold all in Ho. cbn [cfg res dev_list] in Ho.
  drop_next Ho; [by eapply destroy_qp_wp; [|kinds]|].
  drop_next Ho; [by eapply dereg_mr_wp; [|kinds]|].
  drop_next Ho; [by eapply free_wp; [|kinds]|].
  drop_next Ho; [by eapply destroy_cq_wp; [|kinds]|].
  drop_next Ho; [by eapply dealloc_pd_wp; [|kinds]|].
  drop_next Ho; [by eapply close_device_wp; [|kinds]|].
  unfold sock_part in Ho. cbn [app part] in Ho. destruct (0 <=? sock r); cbn [release]; wps; [|by auto].
  apply ask_wp; [by eapply own_holds; [|left]|]. intros a _.
  assert (own (next (Close (sock r)) a s5) (base c)) by (by eapply own_del).
  cbn beta. destruct (negb (a =? 0)); wps; auto.
Qed.

Lemma main_exit_wp rc c r s :
  own s (all (Locals c r None)) →
  wp host (main_exit rc c r) s (fun rc' s =>
    (rc' = rc ∨ rc' = 1) ∧ own s [fd_entry 0; fd_entry 1; fd_entry 2]).
Proof.
  intros Ho. unfold main_exit. eapply wp_seq; [by eapply resources_destroy_wp|].
  intros d s' [Hd Hb]. wps. unfold base in Hb.
  destruct Hd as [-> | ->]; cbn [Z.eqb negb]; wps;
    (drop_next Hb; [by eapply free_wp; [|kinds]|]); wps; auto.
Qed.

(** ** Sockets *)

(** The socket that a connection attempt leaves. *)
Definition fd_part (fd : Z) : list entry := if 0 <=? fd then [fd_entry fd] else [].

Definition addrs_entry (r : Z * list addrinfo) : entry := ((KAddrs, r.1), Obj 0 [] 0).

Lemma sock_connect_exit_wp name port fd lfd r s X :
  own s ((if negb (lfd =? 0) then [fd_entry lfd] else []) ++ part addrs_entry r ++ X) →
  wp host (sock_connect_exit name port fd lfd r) s (fun fd' s => fd' = fd ∧ own s X).
Proof.
  intros Ho. unfold sock_connect_exit. wps.
  apply wp_mono with (Q := fun _ s => own s (part addrs_entry r ++ X)).
  { destruct (negb (lfd =? 0)); wps; [|done]. eapply wp_mono; [by eapply close_wp|]. done. }
  clear s Ho. intros [] s Ho. wps. apply wp_mono with (Q := fun _ s => own s X).
  { destruct r as [[p l]|]; [|done]. cbn in Ho. eapply freeaddrinfo_wp. exact Ho. }
  clear s Ho. intros [] s Ho. wps. destruct (fd <? 0); [|by wps]. destruct name; by wps.
Qed.

Lemma own_add_fd s X fd : own s X → (0 ≤ fd → fresh s (KFd, fd)) → own (add_fd fd s) (fd_part fd ++ X).
Proof.
  intros Ho Hf. unfold add_fd, fd_part. destruct (Z.leb_spec 0 fd); [|done]. apply own_add; auto.
Qed.

Lemma own_fresh_ne s X k k' o : own s X → (k, o) ∈ X → fresh s k' → k' ≠ k.
Proof. intros Ho Hk Hf ->. apply Hf. by eapply own_holds. Qed.

(** One address: the attempt leaves a connected socket, or nothing. *)
Lemma connect_loop_wp name ai p s X :
  own s (addrs_entry p :: X) → fd_entry 0 ∈ X →
  wp host (connect_loop name [ai] 0 0) s (fun '(fd, lfd) s =>
    own s ((if negb (lfd =? 0) then [fd_entry lfd] else []) ++ addrs_entry p :: fd_part fd ++ X)).
Proof.
  intros Ho H0. cbn [connect_loop]. wps. apply ask_wp; [done|]. intros fd Hfd.
  eapply own_add_fd in Hfd as Ho'; [|exact Ho]. change (own (next (Socket ai) fd s) (fd_part fd ++ addrs_entry p :: X)) in Ho'.
  set (s' := next (Socket ai) fd s) in *. clearbody s'. unfold fd_part in Ho'.
  destruct (Z.leb_spec 0 fd) as [Hge|Hlt]; wps.
  2:{ unfold fd_part. by replace (0 <=? fd) with false by lia. }
  assert (fd ≠ 0) as Hnz.
  { intros ->. eapply own_fresh_ne; [exact Ho|by right|by apply Hfd|done]. }
  destruct name as [h|]; wps.
  - apply ask_wp; [by eapply own_holds; [|left]|]. intros tmp _. cbn beta.
    change (next (Connect fd ai) tmp s') with s'. destruct (negb (tmp =? 0)); wps.
    + eapply wp_mono; [by eapply close_wp|]. intros ? ? Hs. wps. exact Hs.
    + unfold fd_part. replace (0 <=? fd) with true by lia. cbn. eapply own_perm; [exact Ho'|]. solve_Permutation.
  - apply ask_wp; [by eapply own_holds; [|left]|]. intros b _. cbn beta.
    change (next (Bind fd ai) b s') with s'. destruct (negb (b =? 0)); wps.
    + replace (fd =? 0) with false by lia. exact Ho'.
    + apply ask_wp; [by eapply own_holds; [|left]|]. intros ? _. cbn beta. wps.
      apply ask_wp; [by eapply own_holds; [|left]|]. intros fd' Hfd'. wps.
      replace (fd =? 0) with false by lia. cbn [negb app].
      eapply own_perm; [by apply own_add_fd|]. unfold fd_part. case_match; solve_Permutation.
Qed.

Lemma sock_connect_wp name port s X :
  own s X → fd_entry 0 ∈ X → strlen (dec port) ≤ 5 →
  wp host (sock_connect name port) s (fun fd s => own s (fd_part fd ++ X)).
Proof.
  intros Ho H0 Hport. unfold sock_connect. replace (6 <? strlen (dec port) + 1) with false by lia.
  wps. apply ask_wp; [done|]. intros [rc r] Hr. wps.
  destruct Hr as [[Hrc ->]|[-> (p & ai & -> & Hp)]].
  - replace (rc <? 0) with true by lia. wps. apply ask_wp; [done|]. intros e _. wps.
    eapply wp_mono; [apply (sock_connect_exit_wp _ _ _ _ None); exact Ho|]. intros ? ? [-> Hs].
    unfold fd_part. by replace (0 <=? rc) with false by lia.
  - cbn [Z.ltb Z.compare]. wps. eapply wp_mono; [eapply connect_loop_wp; [|exact H0]|].
    { apply (own_add _ _ (addrs_entry (p, [ai]))); [exact Ho|exact Hp]. }
    intros [fd lfd] s' Hs. wps. eapply wp_mono; [apply (sock_connect_exit_wp _ _ _ _ (Some (p, [ai]))); exact Hs|].
    by intros ? ? [-> ?].
Qed.

(** ** Creating *)

Definition stage_ok (P R : locals → Prop) (st : stage) : Prop :=
  ∀ l s, P l → own s (all l) →
    wp host (st l) s (fun '(rc, l') s' => own s' (all l') ∧ (rc = 0 → R l')).

Lemma also_ok P R T a b : stage_ok P R a → stage_ok R T b → stage_ok P T (a ;;> b).
Proof.
  intros Ha Hb l s HP Ho. unfold also. eapply wp_seq; [by apply Ha|].
  intros [rc l'] s' [Ho' HR]. destruct (Z.eqb_spec rc 0); [by apply Hb; auto|]. by wps.
Qed.

(** How far resources_create has come. *)
Definition at_sock (l : locals) : Prop :=
  ∃ c lid rp sk, l = Locals c (Resources lid rp None None None None None None sk) None.
Definition at_ctx (l : locals) : Prop :=
  ∃ c lid rp x sk,
    0 ≤ sk ∧ l = Locals c (Resources lid rp (Some x) None None None None None sk) None.
Definition at_cq (l : locals) : Prop :=
  ∃ c lid rp x d q sk,
    0 ≤ sk ∧ l = Locals c (Resources lid rp (Some x) (Some d) (Some q) None None None sk) None.
Definition at_mr (l : locals) : Prop :=
  ∃ c lid rp x d q m p sk,
    0 ≤ sk ∧ l = Locals c (Resources lid rp (Some x) (Some d) (Some q) None (Some m) (Some p) sk) None.
Definition at_qp (l : locals) : Prop :=
  ∃ c lid rp x d q u m p sk,
    0 ≤ sk ∧ l = Locals c (Resources lid rp (Some x) (Some d) (Some q) (Some u) (Some m) (Some p) sk) None.

(** The pointer followed next is [v]. *)
Ltac deref_is v :=
  lazymatch goal with |- context [deref ?o] => change (deref o) with (Ret (E := rdma) v) end; wps.

Lemma create_sock_ok :
  stage_ok (fun l => at_sock l ∧ sock (res l) = -1 ∧ strlen (dec (i32 (tcp_port (cfg l)))) ≤ 5)
    (fun l => at_sock l ∧ 0 ≤ sock (res l)) create_sock.
Proof.
  intros l s ((c & lid & rp & sk & ->) & Hsk & Hport) Ho. cbn in Hsk, Hport. subst sk.
  cbn in Ho.
  assert (fd_entry 0 ∈ base c) as H0 by (unfold base; apply elem_of_app; right; left).
  assert (∀ fd s, own s (fd_part fd ++ base c) →
    own s (all (Locals c (Resources lid rp None None None None None None fd) None))) as Hall by done.
  unfold create_sock. cbn [cfg res]. destruct (server_name c) as [h|]; wps.
  all: eapply wp_mono; [by apply sock_connect_wp|]; intros fd s' Hs; apply Hall in Hs; cbn beta zeta.
  all: destruct (Z.ltb_spec fd 0); wps;
    (split; [exact Hs|first [lia | intros _; split; [by eexists _, _, _, _|cbn; lia]]]).
Qed.

(** The name of the device may be filled in. *)
Lemma find_device_wp names : ∀ c i s X,
  own s (X ++ base c) →
  wp host (find_device c names i) s (fun '(c', o) s =>
    own s (X ++ base c') ∧ ∀ j, o = Some j → (j < i + length names)%nat).
Proof.
  induction names as [|name names IH]; intros c i s X Ho; cbn [find_device]; wps; [done|].
  apply wp_mono with (Q := fun c' s => own s (X ++ base c') ∧ is_Some (dev_name c')).
  - destruct (dev_name c) as [d|] eqn:Ed; wps; [by rewrite Ed|].
    apply ask_wp; [done|]. intros ? (p & -> & Hp). wps. split; [|by eexists].
    eapply own_perm; [exact (own_add s _ (name_entry (p, name)) Ho Hp)|].
    unfold base. cbn. rewrite Ed. cbn. solve_Permutation.
  - intros c' s' [Ho' [[p wanted] Hd]]. wps. rewrite Hd. cbn [deref]. wps.
    destruct (strcmp name wanted =? 0); wps.
    + split; [done|]. intros j [= <-]. cbn. lia.
    + eapply wp_mono; [by apply IH|]. intros [c'' o] s'' [Ho'' Hj]. split; [done|].
      intros j Hj'. specialize (Hj j Hj'). cbn. lia.
Qed.

Lemma create_device_ok : stage_ok (fun l => at_sock l ∧ 0 ≤ sock (res l)) at_ctx create_device.
Proof.
  intros l s [(c & lid & rp & sk & ->) Hsk] Ho. cbn in Ho, Hsk.
  unfold create_device. wps. apply ask_wp; [done|]. intros dl Hdl. wps.
  destruct dl as [[p names]|]; wps; [|by split; [exact Ho|]].
  pose proof (own_add _ _ (devs_entry (p, names)) Ho Hdl) as Ho1.
  set (s1 := add (devs_entry (p, names)) s) in *.
  change (next Get_device_list (Some (p, names)) s) with s1.
  destruct (zlen names =? 0); wps; [by split; [exact Ho1|]|].
  eapply wp_mono. { apply find_device_wp with (X := devs_entry (p, names) :: sock_part (Resources lid rp None None None None None None sk)). exact Ho1. }
  clear Ho Ho1. intros [c' o] s2 [Ho Hj]. wps.
  destruct o as [i|]; wps; [|by split; [exact Ho|]].
  apply ask_wp.
  { eexists. split; [by eapply own_in; [exact Ho|left]|]. specialize (Hj i eq_refl). unfold zlen. cbn. lia. }
  intros x Hx. wps. destruct x as [x|]; wps; [|by split; [exact Ho|]].
  pose proof (own_add _ _ (ctx_entry x) Ho Hx) as Ho3.
  eapply (own_perm _ _ (devs_entry (p, names) :: ctx_entry x :: _)) in Ho3; [|apply Permutation_swap].
  eapply wp_mono; [exact (free_device_list_wp _ _ (p, names) Ho3)|].
  intros [] s4 Ho4. wps. split; [exact Ho4|]. by eexists _, _, _, _, _.
Qed.

Lemma create_pd_cq_ok : stage_ok at_ctx at_cq create_pd_cq.
Proof.
  intros l s (c & lid & rp & x & sk & Hsk & ->) Ho. cbn in Ho.
  unfold create_pd_cq. cbn [res cfg ib_ctx deref]. wps.
  apply ask_wp; [by eapply own_holds; [exact Ho|left]|]. intros [rc plid] _. wps.
  destruct (negb (rc =? 0)); wps; [by split; [exact Ho|]|].
  apply ask_wp; [by eapply own_holds; [exact Ho|left]|]. intros d Hd. wps.
  destruct d as [d|]; wps; [|by split; [exact Ho|]].
  pose proof (own_add s _ ((KPd, d), Obj 0 [(KCtx, x)] 0) Ho Hd) as Ho1.
  apply ask_wp; [by eapply own_holds; [exact Ho1|right; left]|]. intros q Hq. wps.
  destruct q as [q|]; wps; [|by split; [exact Ho1|]].
  pose proof (own_add _ _ ((KCq, q), Obj 0 [(KCtx, x)] 0) Ho1 Hq) as Ho2.
  split; [exact Ho2|]. by eexists _, _, _, _, _, _, _.
Qed.

Lemma MSG_SIZE_pos : 0 ≤ MSG_SIZE.
Proof. by vm_compute. Qed.

(** Every message fits the buffer. *)
Lemma messages_fit :
  strlen SEND_MSG + 1 ≤ MSG_SIZE ∧ strlen RDMA_MSG_R + 1 ≤ MSG_SIZE ∧ strlen RDMA_MSG_W + 1 ≤ MSG_SIZE.
Proof. by vm_compute. Qed.

Lemma own_room s X p n m :
  own s X → mem_entry n p ∈ X → 0 ≤ m ≤ n → room s p m.
Proof. intros Ho Hp Hm. eexists. split; [by eapply own_in|done]. Qed.

Lemma create_buf_mr_ok : stage_ok at_cq at_mr create_buf_mr.
Proof.
  intros l s (c & lid & rp & x & d & q & sk & Hsk & ->) Ho. cbn in Ho. pose proof MSG_SIZE_pos.
  destruct messages_fit as (Hfit & _). pose proof (strlen_nonneg SEND_MSG).
  unfold create_buf_mr. cbn [res cfg pd deref]. wps.
  apply ask_wp; [done|]. intros p Hp. wps.
  destruct p as [p|]; wps; [|by split; [exact Ho|]].
  pose proof (own_add s _ (mem_entry MSG_SIZE p) Ho Hp) as Ho1.
  set (s1 := add _ s) in Ho1. change (next (Malloc MSG_SIZE) (Some p) s) with s1. clearbody s1.
  apply ask_wp; [eapply own_room; [exact Ho1|left|lia]|]. intros [] _.
  change (next (Memset p MSG_SIZE) tt s1) with s1. wps.
  apply wp_mono with (Q := fun _ s' => s' = s1).
  { case_match; wps.
    - apply ask_wp; [eapply own_room; [exact Ho1|left|lia]|]. by intros [] _.
    - apply ask_wp; [eapply own_room; [exact Ho1|left|lia]|]. intros [] _. wps.
      apply ask_wp; [by eapply own_holds; [exact Ho1|left]|]. intros t _. by wps. }
  intros [] s2 E. cbn beta in E. subst s2. wps. deref_is d.
  apply ask_wp.
  { split; [by eapply own_holds; [exact Ho1|right; right; left]|eapply own_room; [exact Ho1|left|lia]]. }
  intros m Hm. wps. destruct m as [m|]; wps; [|by split; [exact Ho1|]].
  pose proof (own_add s1 _ ((KMr, mr_ptr m), Obj MSG_SIZE [(KPd, d); (KMem, p)] (mr_lkey m)) Ho1 Hm) as Ho2.
  split; [exact Ho2|]. eexists _, _, _, _, _, _, _, _, _. by split; [exact Hsk|].
Qed.

Lemma create_qp_ok : stage_ok at_mr at_qp create_qp.
Proof.
  intros l s (c & lid & rp & x & d & q & m & p & sk & Hsk & ->) Ho. cbn in Ho.
  unfold create_qp. cbn [res cfg pd cq deref default]. wps.
  assert (holds s (KCq, q)) by (eapply own_holds; [exact Ho|by do 2 right; left]).
  apply ask_wp; [split; [by eapply own_holds; [exact Ho|do 3 right; left]|done]|].
  intros u Hu. wps. destruct u as [u|]; wps; [|by split; [exact Ho|]].
  pose proof (own_add s _ ((KQp, qp_ptr u), Obj 0 [(KPd, d); (KCq, q); (KCq, q)] 0) Ho Hu) as Ho2.
  split; [exact Ho2|]. by eexists _, _, _, _, _, _, _, _, _, _.
Qed.

Lemma create_ok :
  stage_ok (fun l => at_sock l ∧ sock (res l) = -1 ∧ strlen (dec (i32 (tcp_port (cfg l)))) ≤ 5)
    at_qp (create_sock ;;> create_device ;;> create_pd_cq ;;> create_buf_mr ;;> create_qp).
Proof.
  eauto using also_ok, create_sock_ok, create_device_ok, create_pd_cq_ok, create_buf_mr_ok, create_qp_ok.
Qed.

Lemma resources_create_wp c s :
  own s (base c) → strlen (dec (i32 (tcp_port c))) ≤ 5 →
  wp host (resources_create c resources_init) s (fun '(rc, l) s =>
    own s (all l) ∧ dev_list l = None ∧ (rc = 0 → at_qp l)).
Proof.
  intros Ho Hport. unfold resources_create. eapply wp_seq.
  - apply create_ok; [|exact Ho]. split; [by eexists _, _, _, _|done].
  - intros [rc l] s' [Ho' Hq]. eapply wp_mono; [by apply resources_create_exit_wp|].
    intros [rc' l'] s'' (-> & H0 & H1). destruct (decide (rc = 0)) as [->|Hrc].
    + destruct (H0 eq_refl) as [-> ?]. specialize (Hq eq_refl).
      destruct Hq as (? & ? & ? & ? & ? & ? & ? & ? & ? & ? & ? & ->). split; [done|].
      split; [done|]. intros _. by eexists _, _, _, _, _, _, _, _, _, _.
    + destruct (H1 Hrc) as (? & ? & ? & ?). done.
Qed.

(** ** Using *)

(** The program keeps what it holds. *)
Definition keeps {A} (X : list entry) (p : io A) : Prop :=
  ∀ s, own s X → wp host p s (fun _ s => own s X).

Lemma keeps_wp {A} X (p : io A) s : keeps X p → own s X → wp host p s (fun _ s => own s X).
Proof. auto. Qed.
Lemma keeps_bind {A B} X (p : io A) (k : A → io B) :
  keeps X p → (∀ a, keeps X (k a)) → keeps X (p ≫= k).
Proof. intros Hp Hk s Ho. eapply wp_seq; [by apply Hp|]. intros a s' Hs. by apply Hk. Qed.
Lemma keeps_ret {A} X (a : A) : keeps X (Ret a).
Proof. by intros s Ho. Qed.
Lemma keeps_out X t : keeps X (out t).
Proof. intros s Ho. by apply out_wp. Qed.
Lemma keeps_err X t : keeps X (err t).
Proof. intros s Ho. by apply err_wp. Qed.
Lemma keeps_ask X c :
  (∀ s, own s X → proper c s) → (∀ a s, next c a s = s ∨ ∃ t, next c a s = Ledger (held s) t) →
  keeps X (request c).
Proof.
  intros Hp Hn s Ho. apply ask_wp; [auto|]. intros a _. destruct (Hn a s) as [->|[t ->]]; [done|].
  by apply own_now.
Qed.
Lemma keeps_if {A} X (b : bool) (p q : io A) : keeps X p → keeps X q → keeps X (if b then p else q).
Proof. by destruct b. Qed.
Lemma keeps_strerror X : keeps X (request Strerror).
Proof. apply keeps_ask; [done|]. by left. Qed.
Create HintDb keeps.
#[export] Hint Resolve keeps_ret keeps_out keeps_err keeps_strerror : keeps.

Lemma keeps_deref {A B} X (o : option A) (k : A → io B) :
  is_Some o → (∀ a, o = Some a → keeps X (k a)) → keeps X (deref o ≫= k).
Proof. intros [a ->] Hk s Ho. cbn [deref]. wps. by apply Hk. Qed.

(** Program by program, with the hints for the calls. *)
Ltac keep :=
  repeat first
    [ progress cbn beta iota zeta
    | progress intros
    | solve [auto with keeps]
    | apply keeps_deref; [assumption|]
    | lazymatch goal with
      | |- keeps _ (mbind _ _) => apply keeps_bind
      | |- keeps _ (match ?x with _ => _ end) => destruct x
      end ].

Section use.
Context (l : locals).
Context (Hl : at_qp l).
Context (n : nat).
Context (Hn : 2001001 ≤ Z.of_nat n).
Local Abbreviation X := (all l).
Local Abbreviation r := (res l).

Lemma sock_held s : own s X → holds s (KFd, sock r).
Proof.
  intros Ho. destruct Hl as (c & ld & rp & x & d & q & u & m & p & sk & Hsk & ->).
  eapply own_holds; [exact Ho|]. unfold all, sock_part. cbn [res sock cfg].
  replace (0 <=? sk) with true by lia. do 6 right. left.
Qed.

Lemma keeps_sync_read m xfer : ∀ rd rc tot,
  Z.max 0 (xfer - tot) + 1 < Z.of_nat m → keeps X (sync_read m (sock r) xfer rd rc tot).
Proof.
  induction m as [|m IH]; intros rd rc tot Hm; [lia|]. cbn [sync_read].
  destruct (rc =? 0); cbn [andb]; [|apply keeps_ret].
  destruct (Z.ltb_spec tot xfer); [|apply keeps_ret].
  intros s Ho. wps. apply ask_wp; [by apply sock_held|]. intros [rb data] Hr. wps.
  destruct Hr as [Hneg|[Hr _]].
  - replace (0 <? rb) with false by lia. destruct m as [|m]; [lia|]. cbn [sync_read].
    replace (rb =? 0) with false by lia. by wps.
  - replace (0 <? rb) with true by lia. apply IH; [lia|done].
Qed.

Lemma keeps_sock_sync_data xfer ld rd : 0 ≤ xfer ≤ 34 → keeps X (sock_sync_data n (sock r) xfer ld rd).
Proof.
  intros Hx. apply keeps_bind.
  { apply keeps_ask; [apply sock_held|by left]. }
  intros rc. apply keeps_bind; [keep|]. intros rc'. apply keeps_sync_read. lia.
Qed.

Lemma msec_usec t : 0 ≤ t.1 < 2 ^ 53 → 0 ≤ t.2 < 1000000 → msec t = usec t / 1000.
Proof.
  intros H1 H2. unfold msec, usec. pose proof (Z.div_le_upper_bound t.2 1000 1000 ltac:(lia) ltac:(lia)).
  assert (0 ≤ t.2 / 1000) by (apply Z.div_pos; lia). rewrite u64_small by lia.
  replace (t.1 * 1000000 + t.2) with (t.2 + t.1 * 1000 * 1000) by lia.
  rewrite Z.div_add by lia. lia.
Qed.

(** Two seconds of polling are at most 2,001,000 rounds. *)
Lemma poll_loop_wp m start : ∀ s,
  own s X → 0 ≤ start ≤ now s → now s - start < 2001000 → 2001000 - (now s - start) ≤ Z.of_nat m →
  wp host (poll_loop m (default 0 (cq r)) (start / 1000)) s (fun _ s => own s X).
Proof.
  induction m as [|m IH]; intros s Ho Hs Hd Hm; [lia|]. cbn [poll_loop]. wps.
  apply ask_wp.
  { destruct Hl as (? & ? & ? & ? & ? & ? & ? & ? & ? & ? & ? & E). rewrite E in Ho |- *.
    eapply own_holds; [exact Ho|]. do 3 right. left. }
  intros [pr wc] _. wps. apply ask_wp; [done|]. intros t (Hnow & H1 & H2). wps.
  change (next (Poll_cq _ 1) _ s) with s in *.
  case_match eqn:E; [|by wps]. apply andb_prop in E as [_ E].
  rewrite msec_usec in E by done.
  assert (start / 1000 ≤ usec t / 1000 < 2 ^ 63).
  { unfold usec in *. split; [apply Z.div_le_mono; lia|apply Z.div_lt_upper_bound; lia]. }
  assert (0 ≤ start / 1000) by (apply Z.div_pos; lia).
  rewrite u64_small in E by lia. unfold MAX_POLL_CQ_TIMEOUT in E.
  pose proof (Z.mul_div_le start 1000 ltac:(lia)).
  pose proof (Z.mul_succ_div_gt (usec t) 1000 ltac:(lia)).
  apply IH; [done|cbn; lia..].
Qed.

Lemma keeps_poll_completion : keeps X (poll_completion n r).
Proof.
  intros s Ho. unfold poll_completion. wps. apply ask_wp; [done|]. intros t (Hnow & H1 & H2). wps.
  apply wp_mono with (Q := fun q s' => q = default 0 (cq r) ∧ own s' X ∧ now s' = usec t).
  { destruct Hl as (? & ? & ? & ? & ? & ? & ? & ? & ? & ? & ? & E). by rewrite E in Ho |- *. }
  intros ? s' (-> & Ho' & Ht). wps. rewrite msec_usec by done. unfold usec in Ht.
  eapply wp_mono; [apply poll_loop_wp; [done|unfold usec; lia..]|].
  intros [pr wc] s'' Hs. wps.
  destruct (pr <? 0); [by wps|]. destruct (pr =? 0); [by wps|]. wps. case_match; by wps.
Qed.

(** The program's own scatter/gather entry. *)
Lemma sge_held s m : own s X → mr r = Some m → sge_ok s (Sge (default 0 (buf r)) MSG_SIZE (mr_lkey m)).
Proof.
  intros Ho Hm. destruct Hl as (c & ld & rp & x & d & q & u & m' & p & sk & ? & E). rewrite E in Ho, Hm |- *.
  cbn in Hm |- *. simplify_eq. eexists _, _. split; [by eapply own_in; [exact Ho|right; left]|].
  split_and!; [done|right; left|done..].
Qed.

Lemma pointers : is_Some (ib_ctx r) ∧ is_Some (qp r) ∧ is_Some (mr r) ∧ is_Some (buf r).
Proof. destruct Hl as (? & ? & ? & ? & ? & ? & ? & ? & ? & ? & ? & E). rewrite E. cbn. eauto. Qed.

Lemma qp_held s u : own s X → qp r = Some u → holds s (KQp, qp_ptr u).
Proof.
  intros Ho Hu. destruct Hl as (? & ? & ? & ? & ? & ? & ? & ? & ? & ? & ? & E). rewrite E in Ho, Hu.
  cbn in Hu. simplify_eq. eapply own_holds; [exact Ho|left].
Qed.

Lemma ctx_held s x : own s X → ib_ctx r = Some x → holds s (KCtx, x).
Proof.
  intros Ho Hx. destruct Hl as (? & ? & ? & ? & ? & ? & ? & ? & ? & ? & ? & E). rewrite E in Ho, Hx.
  cbn in Hx. simplify_eq. eapply own_holds; [exact Ho|do 5 right; left].
Qed.

Lemma buf_room s p m : own s X → buf r = Some p → 0 ≤ m ≤ MSG_SIZE → room s p m.
Proof.
  intros Ho Hp Hm. destruct Hl as (? & ? & ? & ? & ? & ? & ? & ? & ? & ? & ? & E). rewrite E in Ho, Hp.
  cbn in Hp. simplify_eq. eapply own_room; [exact Ho|do 2 right; left|done].
Qed.

Lemma keeps_post_wr q wr :
  qp r = Some q → (∀ s, own s X → Forall (sge_ok s) (sg_list wr)) →
  keeps X (request (Post_send (qp_ptr q) wr)).
Proof. intros Hq Hw. apply keeps_ask; [|by left]. intros s Ho. split; [by apply qp_held|auto]. Qed.
Lemma keeps_post_rr q wr :
  qp r = Some q → (∀ s, own s X → Forall (sge_ok s) (rr_sg_list wr)) →
  keeps X (request (Post_recv (qp_ptr q) wr)).
Proof. intros Hq Hw. apply keeps_ask; [|by left]. intros s Ho. split; [by apply qp_held|auto]. Qed.

Lemma keeps_modify q a mask :
  qp r = Some q → keeps X (request (Modify_qp (qp_ptr q) a mask)).
Proof. intros Hq. apply keeps_ask; [|by left]. intros s Ho. by apply qp_held. Qed.

Lemma keeps_load p : buf r = Some p → keeps X (request (Load p)).
Proof.
  intros Hp. apply keeps_ask; [|by left]. intros s Ho.
  destruct (buf_room s p 0 Ho Hp) as (o & Hin & _); [pose proof MSG_SIZE_pos; lia|].
  apply list_elem_of_fmap. by exists ((KMem, p), o).
Qed.

Lemma keeps_strcpy p t : buf r = Some p → strlen t + 1 ≤ MSG_SIZE → keeps X (request (Strcpy p t)).
Proof.
  intros Hp Ht. apply keeps_ask; [|by left]. intros s Ho. pose proof (strlen_nonneg t).
  apply buf_room; [done..|lia].
Qed.

Lemma keeps_query_gid x port idx : ib_ctx r = Some x → keeps X (request (Query_gid x port idx)).
Proof. intros Hx. apply keeps_ask; [|by left]. intros s Ho. by apply ctx_held. Qed.
Hint Resolve keeps_poll_completion : keeps.
Hint Extern 1 (keeps _ (ask _)) =>
  (first [apply keeps_modify | apply keeps_load | apply keeps_strcpy | apply keeps_query_gid]; assumption)
  : keeps.
Hint Extern 1 (keeps _ (ask (Post_send _ _))) =>
  (apply keeps_post_wr; [done|intros ? ?; cbn; apply Forall_singleton; by apply sge_held]) : keeps.
Hint Extern 1 (keeps _ (ask (Post_recv _ _))) =>
  (apply keeps_post_rr; [done|intros ? ?; cbn; apply Forall_singleton; by apply sge_held]) : keeps.
Hint Extern 1 (keeps _ (sock_sync_data _ _ _ _ _)) => (apply keeps_sock_sync_data; unfold con_data_size; lia) : keeps.

Lemma keeps_post_send op : keeps X (post_send r op).
Proof. destruct pointers as (? & ? & ? & ?). unfold post_send. keep. Qed.
Lemma keeps_post_receive : keeps X (post_receive r).
Proof. destruct pointers as (? & ? & ? & ?). unfold post_receive. keep. Qed.
Hint Resolve keeps_post_send keeps_post_receive : keeps.

Lemma keeps_bring_up c : keeps X (bring_up n c r).
Proof.
  destruct pointers as (? & ? & ? & ?).
  unfold bring_up, modify_qp_to_init, modify_qp_to_rtr, modify_qp_to_rts. keep.
Qed.

Lemma keeps_transfer c : keeps X (transfer n c r).
Proof.
  destruct pointers as (? & ? & ? & ?). destruct messages_fit as (? & ? & ?).
  unfold transfer, transfer_read_write. keep.
Qed.
End use.

Lemma connect_qp_wp n stack l s :
  at_qp l → 2001001 ≤ Z.of_nat n → own s (all l) →
  wp host (connect_qp n stack (cfg l) (res l)) s (fun '(_, r) s =>
    own s (all (Locals (cfg l) r None)) ∧ at_qp (Locals (cfg l) r None)).
Proof.
  intros Hl Hn Ho. destruct (pointers l Hl) as ([x Hx] & [q Hq] & [m Hm] & ?).
  assert (Locals (cfg l) (res l) None = l) as El.
  { by destruct Hl as (? & ? & ? & ? & ? & ? & ? & ? & ? & ? & ? & ->). }
  assert (∀ rp, at_qp (Locals (cfg l) ((res l) <| remote_props := rp |>) None)) as Hl'.
  { intros rp. destruct Hl as (? & ? & ? & ? & ? & ? & ? & ? & ? & ? & Hsk & ->).
    eexists _, _, _, _, _, _, _, _, _, _. split; [exact Hsk|done]. }
  assert (∀ rp, all (Locals (cfg l) ((res l) <| remote_props := rp |>) None) = all l) as Ea.
  { intros rp. by rewrite <- El. }
  unfold connect_qp. eapply wp_seq.
  { apply (keeps_wp (all l)); [|done]. apply keeps_if; [|keep].
    apply keeps_deref; [by eauto|]. intros. by apply keeps_query_gid. }
  intros [rc g] s1 Ho1. cbn beta iota. case_match; wps; [by rewrite El|].
  rewrite Hm, Hq. cbn [deref]. wps. eapply wp_mono.
  { apply (keeps_wp (all l)); [|done]. apply keeps_sock_sync_data; [done..|]. unfold con_data_size. lia. }
  intros [rc1 tmp] s2 Ho2. wps. destruct (rc1 <? 0); wps; [by rewrite El|].
  eapply wp_mono.
  { apply (keeps_wp (all l)); [|done]. unfold print_remote. keep. }
  intros [] s3 Ho3. wps. eapply wp_mono.
  { apply (keeps_bring_up _ (Hl' _)); [done|]. rewrite Ea. exact Ho3. }
  intros rc2 s4 Ho4. wps. auto.
Qed.

Lemma transfer_result n c r : leaves (fun rc => rc = 0 ∨ rc = 1) (transfer n c r).
Proof. unfold transfer. leaf; cbn; auto. Qed.



(** ** Outside those promises *)

(** A port of six digits overruns [service]. *)
Lemma long_port_overruns name port : 5 < strlen (dec port) → sock_connect name port = Crash.
Proof. intros H. unfold sock_connect. by replace (6 <? strlen (dec port) + 1) with true by lia. Qed.

(** A peer that closes the connection leaves sock_sync_data reading 0 bytes for
    ever. *)
Lemma closed_peer_spins n fd size rd :
  0 < size →
  runs (sync_read n fd size rd 0 0) (replicate n (existT (P := ans rdma) (Read fd size : call rdma) (0, []))) Again.
Proof.
  intros Hs. induction n as [|n IH]; [constructor|]. cbn [sync_read Z.eqb andb].
  replace (0 <? size) with true by lia. cbn. by constructor.
Qed.

(** A short write is reported as a positive count, which connect_qp's test for
    a negative result lets pass, with the receive buffer as it was. *)
Lemma short_write_passes n fd size ld rd k :
  0 < k < size →
  runs (sock_sync_data (S n) fd size ld rd)
    [existT (P := ans rdma) (Write fd ld : call rdma) k;
     existT (P := ans rdma) (Stderr ("Failed writing data during sock_sync_data" +:+ nl) : call rdma) tt]
    (Ret (k, rd)).
Proof.
  intros Hk. cbn. constructor. replace (k <? size) with true by lia. cbn. constructor.
  replace (k =? 0) with false by lia. constructor.
Qed.

(** A name with two addresses: both sockets connect, only the second is
    returned, and the first is never closed. *)
Lemma second_address_leaks :
  let a := Addrinfo 2 1 6 10 in
  let b := Addrinfo 2 1 6 11 in
  runs (sock_connect (Some "host") 19875)
    [existT (P := ans rdma) (Getaddrinfo (Some "host") "19875" : call rdma) (0, Some (5, [a; b]));
     existT (P := ans rdma) (Socket a : call rdma) 3; existT (P := ans rdma) (Connect 3 a : call rdma) 0;
     existT (P := ans rdma) (Socket b : call rdma) 4; existT (P := ans rdma) (Connect 4 b : call rdma) 0;
     existT (P := ans rdma) (Freeaddrinfo 5 : call rdma) tt]
    (Ret 4).
Proof.
  intros a b. change (sock_connect (Some "host") 19875) with
    (Do (E := rdma) (Getaddrinfo (Some "host") "19875") (fun x => pbind (fun '(sockfd, resolved_addr) =>
      if sockfd <? 0 then
        e ← request (Gai_strerror sockfd);
        _ ← err (e +:+ " for " +:+ str (Some "host") +:+ ":" +:+ dec 19875 +:+ nl);
        sock_connect_exit (Some "host") 19875 sockfd 0 resolved_addr
      else
        '(sockfd, listenfd) ← connect_loop (Some "host") (default [] (snd <$> resolved_addr)) sockfd 0;
        sock_connect_exit (Some "host") 19875 sockfd listenfd resolved_addr) (Ret x))).
  repeat (constructor; cbn).
Qed.
