(* ===== verification/RdmaNet.v ===== *)
(** * rdma/rdma_ex.c: the client and the server together

    Two copies of the program, one started with the server's name and one
    without, joined by a TCP connection and by their queue pairs.  [net] is
    what the manuals of libibverbs and of TCP say about such a pair of hosts;
    an adapter is an instance of [Verbs], which refines it.  The programs are
    first shown to play fixed parts (lists of events on the shared objects);
    all interleavings of the two parts and of the adapters' own steps are
    explored; and a simulation carries the result back to the programs: every
    run comes to an end with both programs returning 0 and with the messages
    where they should be. *)

From S2P Require Import Prelude CLib CBytes Calls Rdma.

Inductive side := Client | Server.
#[export] Instance side_eq : EqDecision side.
Proof. solve_decision. Defined.
Definition peer (sd : side) : side := match sd with Client => Server | Server => Client end.

(** ** All runs end well

    Whatever steps are taken, a state with [P] is reached, and until then a
    step can be taken. *)
Inductive ends {S} (step : S → S → Prop) (P : S → Prop) (s : S) : Prop :=
| ends_here : P s → ends step P s
| ends_later : (∃ s', step s s') → (∀ s', step s s' → ends step P s') → ends step P s.

(** ** The parts *)

Inductive msg := MCon | MChar (c : ascii).
#[export] Instance msg_eq : EqDecision msg.
Proof. solve_decision. Defined.

(** What a side does to the objects it shares with its peer or adapter. *)
Inductive event :=
| EMemset | EStrcpy (s : string) | ELoad (s : string)
| EWrite (m : msg) | ERead (m : msg)
| EReg | EModify (st : ibv_qp_state) | EPostRecv | EPostSend (op : ibv_wr_opcode) | EPoll.

Definition connect_part : list event :=
  [EModify IBV_QPS_RTR; EModify IBV_QPS_RTS; EWrite (MChar "Q"); ERead (MChar "Q")].

Definition part_of (sd : side) : list event :=
  match sd with
  | Client =>
      [EMemset; EMemset; EReg; EWrite MCon; ERead MCon; EModify IBV_QPS_INIT; EPostRecv]
      ++ connect_part
      ++ [EPoll; ELoad SEND_MSG; EWrite (MChar "R"); ERead (MChar "R");
          EPostSend IBV_WR_RDMA_READ; EPoll; ELoad RDMA_MSG_R; EStrcpy RDMA_MSG_W;
          ELoad RDMA_MSG_W; EPostSend IBV_WR_RDMA_WRITE; EPoll;
          EWrite (MChar "W"); ERead (MChar "W")]
  | Server =>
      [EMemset; EStrcpy SEND_MSG; ELoad SEND_MSG; EReg; EWrite MCon; ERead MCon;
       EModify IBV_QPS_INIT]
      ++ connect_part
      ++ [EPostSend IBV_WR_SEND; EPoll; EStrcpy RDMA_MSG_R; EWrite (MChar "R");
          ERead (MChar "R"); EWrite (MChar "W"); ERead (MChar "W"); ELoad RDMA_MSG_W]
  end.

(** ** The parts against an abstract network *)

(** One side's buffer, queue pair, receive and completion queues, the send
    request in flight (and whether its data has moved), and what the program
    has read from the buffer. *)
Record ahalf := AHalf {
  a_mem : string; a_reg : bool; a_st : ibv_qp_state; a_rq : nat; a_cq : nat;
  a_sq : option (ibv_wr_opcode * bool); a_seen : list string;
}.
#[export] Instance ahalf_eq : EqDecision ahalf.
Proof. solve_decision. Defined.
#[export] Instance eta_ahalf : Eta ahalf :=
  fun h => AHalf (a_mem h) (a_reg h) (a_st h) (a_rq h) (a_cq h) (a_sq h) (a_seen h).

(** The two sides and the messages sent by each. *)
Record anet := ANet { a_c : ahalf; a_s : ahalf; a_from_c : list msg; a_from_s : list msg }.
#[export] Instance anet_eq : EqDecision anet.
Proof. solve_decision. Defined.

Definition a_half (sd : side) (n : anet) : ahalf := match sd with Client => a_c n | Server => a_s n end.
Definition a_put (sd : side) (h : ahalf) (n : anet) : anet :=
  match sd with
  | Client => ANet h (a_s n) (a_from_c n) (a_from_s n)
  | Server => ANet (a_c n) h (a_from_c n) (a_from_s n)
  end.
Definition a_from (sd : side) (n : anet) : list msg :=
  match sd with Client => a_from_c n | Server => a_from_s n end.
Definition a_sent (sd : side) (q : list msg) (n : anet) : anet :=
  match sd with
  | Client => ANet (a_c n) (a_s n) q (a_from_s n)
  | Server => ANet (a_c n) (a_s n) (a_from_c n) q
  end.

(** A move happens, has to wait, or must never be tried. *)
Inductive move (A : Type) := Go (a : A) | Wait | Bad.
Arguments Go {A} a.
Arguments Wait {A}.
Arguments Bad {A}.

Definition alegal (a b : ibv_qp_state) : bool :=
  match a, b with
  | IBV_QPS_RESET, IBV_QPS_INIT | IBV_QPS_INIT, IBV_QPS_RTR | IBV_QPS_RTR, IBV_QPS_RTS => true
  | _, _ => false
  end.
Definition can_receive (st : ibv_qp_state) : bool :=
  match st with IBV_QPS_RTR | IBV_QPS_RTS => true | _ => false end.

Definition amove (sd : side) (e : event) (n : anet) : move anet :=
  let h := a_half sd n in
  let go h := Go (a_put sd h n) in
  match e with
  | EMemset => go (h <| a_mem := "" |>)
  | EStrcpy s => go (h <| a_mem := s |>)
  | ELoad s => if decide (a_mem h = s) then go (h <| a_seen := a_seen h ++ [s] |>) else Bad
  | EWrite m => Go (a_sent sd (a_from sd n ++ [m]) n)
  | ERead m =>
      match a_from (peer sd) n with
      | [] => Wait
      | m' :: q => if decide (m = m') then Go (a_sent (peer sd) q n) else Bad
      end
  | EReg => go (h <| a_reg := true |>)
  | EModify st => if alegal (a_st h) st then go (h <| a_st := st |>) else Bad
  | EPostRecv =>
      if decide (a_st h ≠ IBV_QPS_RESET) then
        match a_rq h with O => go (h <| a_rq := 1%nat |>) | S _ => Bad end
      else Bad
  | EPostSend op =>
      if decide (a_st h = IBV_QPS_RTS) then
        match a_sq h with None => go (h <| a_sq := Some (op, false) |>) | Some _ => Bad end
      else Bad
  | EPoll => match a_cq h with O => Wait | S k => go (h <| a_cq := k |>) end
  end.

(** The adapter moves the data of [sd]'s request, and later completes it. *)
Definition atransfer (sd : side) (n : anet) : move anet :=
  let h := a_half sd n in
  let g := a_half (peer sd) n in
  match a_sq h with
  | Some (op, false) =>
      let h' := h <| a_sq := Some (op, true) |> in
      if can_receive (a_st g) && a_reg g then
        match op with
        | IBV_WR_SEND =>
            match a_rq g, a_cq g with
            | S k, O =>
                Go (a_put sd h' (a_put (peer sd)
                  (g <| a_mem := a_mem h |> <| a_rq := k |> <| a_cq := 1%nat |>) n))
            | _, _ => Bad
            end
        | IBV_WR_RDMA_READ => Go (a_put sd (h' <| a_mem := a_mem g |>) n)
        | IBV_WR_RDMA_WRITE => Go (a_put sd h' (a_put (peer sd) (g <| a_mem := a_mem h |>) n))
        | _ => Bad
        end
      else Bad
  | _ => Wait
  end.
Definition acomplete (sd : side) (n : anet) : move anet :=
  let h := a_half sd n in
  match a_sq h with
  | Some (op, true) =>
      match a_cq h with
      | O => Go (a_put sd (h <| a_sq := None |> <| a_cq := 1%nat |>) n)
      | S _ => Bad
      end
  | _ => Wait
  end.

Definition half0 : ahalf := AHalf "" false IBV_QPS_RESET 0 0 None [].
Definition anet0 : anet := ANet half0 half0 [] [].

(** A state: how far the parts are, and the network. *)
Definition astate : Type := nat * nat * anet.
Definition left_of (sd : side) (k : nat) : list event := drop k (part_of sd).

Definition next_event (sd : side) (k : nat) (n : anet) : move anet :=
  match left_of sd k with [] => Wait | e :: _ => amove sd e n end.

Definition amoves (s : astate) : list (move astate) :=
  let '(kc, ks, n) := s in
  let with_net (m : move anet) (f : anet → astate) :=
    match m with Go n => Go (f n) | Wait => Wait | Bad => Bad end in
  [with_net (next_event Client kc n) (fun n => (S kc, ks, n));
   with_net (next_event Server ks n) (fun n => (kc, S ks, n));
   with_net (atransfer Client n) (fun n => (kc, ks, n));
   with_net (atransfer Server n) (fun n => (kc, ks, n));
   with_net (acomplete Client n) (fun n => (kc, ks, n));
   with_net (acomplete Server n) (fun n => (kc, ks, n))].
Definition gone (m : move astate) : list astate := match m with Go s => [s] | _ => [] end.
Definition asuccs (s : astate) : list astate := amoves s ≫= gone.
Definition asafe (s : astate) : bool :=
  forallb (fun m => match m with Bad => false | _ => true end) (amoves s).

(** Both have played their parts, and have seen what they should. *)
Definition agood (s : astate) : bool :=
  let '(kc, ks, n) := s in
  (kc =? length (part_of Client))%nat && (ks =? length (part_of Server))%nat
  && bool_decide (a_seen (a_c n) = [SEND_MSG; RDMA_MSG_R; RDMA_MSG_W])
  && bool_decide (a_seen (a_s n) = [SEND_MSG; RDMA_MSG_W])
  && bool_decide (a_sq (a_c n) = None) && bool_decide (a_sq (a_s n) = None).

(** Breadth first, all states that are a number of moves away at once. *)
Fixpoint explore (fuel : nat) (frontier : list astate) : bool :=
  match fuel with
  | O => false
  | S fuel =>
      let rest := filter (fun s => agood s = false) frontier in
      match rest with
      | [] => true
      | _ =>
          forallb (fun s => asafe s && negb (bool_decide (asuccs s = []))) rest
          && explore fuel (remove_dups (rest ≫= asuccs))
      end
  end.

Definition astart : astate := (0%nat, 0%nat, anet0).

Lemma explored : explore 60 [astart] = true.
Proof. vm_compute. reflexivity. Qed.

(** The states from which all interleavings are harmless and lead to a good
    one. *)
Inductive aends (s : astate) : Prop :=
| aends_here : agood s = true → aends s
| aends_later : asafe s = true → asuccs s ≠ [] → (∀ s', s' ∈ asuccs s → aends s') → aends s.

Lemma explore_sound fuel : ∀ frontier, explore fuel frontier = true → ∀ s, s ∈ frontier → aends s.
Proof.
  induction fuel as [|fuel IH]; intros frontier H s Hs; [done|]. cbn [explore] in H.
  destruct (agood s) eqn:Hg; [by apply aends_here|].
  assert (s ∈ filter (fun s => agood s = false) frontier) as Hin by (by apply list_elem_of_filter).
  destruct (filter _ frontier) as [|r rest]; [by apply not_elem_of_nil in Hin|].
  apply andb_prop in H as [Hall H]. rewrite forallb_forall in Hall.
  specialize (Hall s ltac:(by apply list_elem_of_In)). apply andb_prop in Hall as [Hsafe Hne].
  apply aends_later; [done| |].
  - intros E. rewrite E in Hne. done.
  - intros s' Hs'. apply (IH _ H). apply elem_of_remove_dups, list_elem_of_bind. eauto.
Qed.

Lemma astart_ends : aends astart.
Proof. apply (explore_sound 60 [astart]); [apply explored|by left]. Qed.

(** ** The two hosts *)

(** What a host's calls answer: descriptors, handles, keys and the rest. *)
Record party := Party {
  p_fd : Z; p_listen : Z; p_devs : Z; p_names : list string;
  p_ctx : Z; p_lid : Z; p_gid : list Z; p_pd : Z; p_cq : Z; p_buf : Z;
  p_mr : ibv_mr; p_qp : ibv_qp;
}.

Record half := Half {
  n_mem : string; n_reg : option Z; n_st : ibv_qp_state; n_access : Z;
  n_route : option ibv_ah_attr; n_dest : Z;
  n_rq : nat; n_cq : list ibv_wc; n_sq : option (ibv_send_wr * bool); n_seen : list string;
}.
#[export] Instance eta_half : Eta half :=
  fun h => Half (n_mem h) (n_reg h) (n_st h) (n_access h) (n_route h) (n_dest h)
    (n_rq h) (n_cq h) (n_sq h) (n_seen h).
Record net := Net { n_c : half; n_s : half; n_from_c : list Z; n_from_s : list Z }.

Definition half_of (sd : side) (n : net) : half := match sd with Client => n_c n | Server => n_s n end.
Definition put (sd : side) (h : half) (n : net) : net :=
  match sd with
  | Client => Net h (n_s n) (n_from_c n) (n_from_s n)
  | Server => Net (n_c n) h (n_from_c n) (n_from_s n)
  end.
Definition from (sd : side) (n : net) : list Z :=
  match sd with Client => n_from_c n | Server => n_from_s n end.
Definition sent (sd : side) (q : list Z) (n : net) : net :=
  match sd with
  | Client => Net (n_c n) (n_s n) q (n_from_s n)
  | Server => Net (n_c n) (n_s n) (n_from_c n) q
  end.

(** The attributes ibv_modify_qp's manual requires for each transition of a
    reliable connection. *)
Definition needed (st : ibv_qp_state) : list ibv_qp_mask :=
  match st with
  | IBV_QPS_RESET => []
  | IBV_QPS_INIT => [IBV_QP_STATE; IBV_QP_PKEY_INDEX; IBV_QP_PORT; IBV_QP_ACCESS_FLAGS]
  | IBV_QPS_RTR =>
      [IBV_QP_STATE; IBV_QP_AV; IBV_QP_PATH_MTU; IBV_QP_DEST_QPN; IBV_QP_RQ_PSN;
       IBV_QP_MAX_DEST_RD_ATOMIC; IBV_QP_MIN_RNR_TIMER]
  | IBV_QPS_RTS =>
      [IBV_QP_STATE; IBV_QP_SQ_PSN; IBV_QP_TIMEOUT; IBV_QP_RETRY_CNT; IBV_QP_RNR_RETRY;
       IBV_QP_MAX_QP_RD_ATOMIC]
  end.

(** Calls on objects the peer or the adapter also acts on. *)
Definition shared (c : rdma_call) : bool :=
  match c with
  | Memset _ _ | Strcpy _ _ | Load _ | Write _ _ | Read _ _ | Reg_mr _ _ _ _
  | Modify_qp _ _ _ | Post_send _ _ | Post_recv _ _ | Poll_cq _ _ => true
  | _ => false
  end.

Section net.
Context (P : side → party).

(** The other calls succeed, with the host's values. *)
Definition local (sd : side) (c : rdma_call) : rdma_ans c → Prop :=
  let p := P sd in
  match c with
  | Strdup _ => fun a => is_Some a
  | Malloc _ => fun a => a = Some (p_buf p)
  | Getaddrinfo _ _ => fun a => ∃ r ai, a = (0, Some (r, [ai]))
  | Socket _ => fun a => a = match sd with Client => p_fd p | Server => p_listen p end
  | Accept _ => fun a => a = p_fd p
  | Connect _ _ | Bind _ _ | Listen _ _ | Close _ => fun a => a = 0
  | Get_device_list => fun a => a = Some (p_devs p, p_names p)
  | Open_device _ _ => fun a => a = Some (p_ctx p)
  | Query_port _ _ => fun a => a = (0, p_lid p)
  | Query_gid _ _ _ => fun a => a = (0, p_gid p)
  | Alloc_pd _ => fun a => a = Some (p_pd p)
  | Create_cq _ _ => fun a => a = Some (p_cq p)
  | Create_qp _ _ => fun a => a = Some (p_qp p)
  | Destroy_qp _ | Dereg_mr _ | Destroy_cq _ | Dealloc_pd _ | Close_device _ => fun a => a = 0
  | _ => fun _ => True
  end.

(** A call that checks its arguments: it takes effect and answers 0, or it
    answers an error. *)
Definition checked (ok : Prop) (n' n : net) (rc : Z) (m : net) : Prop :=
  (ok ∧ rc = 0 ∧ m = n') ∨ (¬ ok ∧ rc ≠ 0 ∧ m = n).

Definition own_sge (p : party) (l : list ibv_sge) : Prop :=
  l = [Sge (p_buf p) MSG_SIZE (mr_lkey (p_mr p))].

Definition modified (h : half) (a : ibv_qp_attr) : half :=
  let h := h <| n_st := qp_state a |> in
  match qp_state a with
  | IBV_QPS_INIT => h <| n_access := qp_access_flags a |>
  | IBV_QPS_RTR => h <| n_route := Some (ah_attr a) |> <| n_dest := dest_qp_num a |>
  | _ => h
  end.

(** A call of side [sd].  A read waits for data and takes what is there, up to
    its size; polling waits for a completion: the rounds that find none are
    left out, so the completion is taken to come within the two seconds. *)
Definition net_call (sd : side) (c : rdma_call) (n : net) : rdma_ans c → net → Prop :=
  let h := half_of sd n in
  let p := P sd in
  match c with
  | Memset q _ => fun _ n' => q = p_buf p ∧ n' = put sd (h <| n_mem := "" |>) n
  | Strcpy q s => fun _ n' => q = p_buf p ∧ n' = put sd (h <| n_mem := s |>) n
  | Load q => fun s n' =>
      q = p_buf p ∧ s = n_mem h ∧ n' = put sd (h <| n_seen := n_seen h ++ [s] |>) n
  | Write fd bs => fun k n' => fd = p_fd p ∧ k = zlen bs ∧ n' = sent sd (from sd n ++ bs) n
  | Read fd k => fun a n' =>
      let q := from (peer sd) n in
      fd = p_fd p ∧ q ≠ [] ∧ a = (Z.min k (zlen q), take (Z.to_nat k) q)
      ∧ n' = sent (peer sd) (drop (Z.to_nat k) q) n
  | Reg_mr d q k flags => fun a n' =>
      a = Some (p_mr p) ∧ n' = put sd (h <| n_reg := Some flags |>) n
  | Modify_qp q a mask =>
      checked (q = qp_ptr (p_qp p) ∧ alegal (n_st h) (qp_state a) = true ∧ needed (qp_state a) ⊆ mask)
        (put sd (modified h a) n) n
  | Post_recv q wr =>
      checked (q = qp_ptr (p_qp p) ∧ n_st h ≠ IBV_QPS_RESET ∧ n_rq h = 0%nat ∧ own_sge p (rr_sg_list wr))
        (put sd (h <| n_rq := 1%nat |>) n) n
  | Post_send q wr =>
      checked (q = qp_ptr (p_qp p) ∧ n_st h = IBV_QPS_RTS ∧ n_sq h = None ∧ own_sge p (sg_list wr))
        (put sd (h <| n_sq := Some (wr, false) |>) n) n
  | Poll_cq q _ => fun a n' =>
      q = p_cq p ∧ ∃ wc rest, n_cq h = wc :: rest ∧ a = (1, wc) ∧ n' = put sd (h <| n_cq := rest |>) n
  | c => fun a n' => local sd c a ∧ n' = n
  end.

(** [h]'s queue pair leads to side [sd]. *)
Definition routes (h : half) (sd : side) : Prop :=
  n_dest h = qp_qp_num (p_qp (P sd))
  ∧ match n_route h with
    | Some a =>
        if is_global a =? 0 then dlid a = p_lid (P sd)
        else ∃ g, grh a = Some g ∧ dgid g = p_gid (P sd)
    | None => False
    end.

(** Remote access is allowed by the region and by the queue pair. *)
Definition allows (h : half) (flag : Z) : Prop :=
  Z.land (n_access h) flag ≠ 0 ∧ match n_reg h with Some f => Z.land f flag ≠ 0 | None => False end.

(** The request of [sd] can be carried out: both queue pairs are connected to
    each other, a message finds a receive request and room in the completion
    queue of one entry, and remote memory is the peer's region. *)
Definition ready (sd : side) (n : net) (wr : ibv_send_wr) : Prop :=
  let g := half_of (peer sd) n in
  let target := Some (p_buf (P (peer sd)), mr_rkey (p_mr (P (peer sd)))) in
  can_receive (n_st g) = true ∧ routes (half_of sd n) (peer sd) ∧ routes g sd ∧
  match opcode wr with
  | IBV_WR_SEND => n_rq g ≠ 0%nat ∧ n_cq g = []
  | IBV_WR_RDMA_READ => rdma_target wr = target ∧ allows g IBV_ACCESS_REMOTE_READ
  | IBV_WR_RDMA_WRITE => rdma_target wr = target ∧ allows g IBV_ACCESS_REMOTE_WRITE
  | _ => False
  end.

Definition moved (sd : side) (n : net) (wr : ibv_send_wr) (v : Z) : net :=
  let h := half_of sd n in
  let g := half_of (peer sd) n in
  let h' := h <| n_sq := Some (wr, true) |> in
  match opcode wr with
  | IBV_WR_SEND =>
      put sd h' (put (peer sd)
        (g <| n_mem := n_mem h |> <| n_rq := pred (n_rq g) |> <| n_cq := [Wc IBV_WC_SUCCESS v] |>) n)
  | IBV_WR_RDMA_READ => put sd (h' <| n_mem := n_mem g |>) n
  | _ => put sd h' (put (peer sd) (g <| n_mem := n_mem h |>) n)
  end.

(** The adapter's own steps for [sd]'s request: the data moves, or the request
    fails; a request whose data has moved completes (with an error if the
    completion queue is full). *)
Inductive net_own (sd : side) (n : net) : net → Prop :=
| own_move wr v :
    n_sq (half_of sd n) = Some (wr, false) → ready sd n wr → net_own sd n (moved sd n wr v)
| own_fail wr st v :
    n_sq (half_of sd n) = Some (wr, false) → ¬ ready sd n wr → st ≠ IBV_WC_SUCCESS →
    net_own sd n (put sd ((half_of sd n) <| n_sq := None |> <| n_cq := [Wc st v] |>) n)
| own_complete wr st v :
    n_sq (half_of sd n) = Some (wr, true) →
    (st = IBV_WC_SUCCESS ↔ n_cq (half_of sd n) = []) →
    net_own sd n (put sd ((half_of sd n) <| n_sq := None |>
      <| n_cq := n_cq (half_of sd n) ++ [Wc st v] |>) n).
End net.

(** ** The programs play their parts *)

Section session.
Context (P : side → party).
Context (cfgs : side → config_t).

Definition my_gid (sd : side) : list Z :=
  if 0 <=? gid_idx (cfgs sd) then p_gid (P sd) else replicate 16 0.
Definition con_of (sd : side) : cm_con_data_t :=
  ConData (p_buf (P sd)) (mr_rkey (p_mr (P sd))) (qp_qp_num (p_qp (P sd))) (p_lid (P sd)) (my_gid sd).

(** A message of [sd] as bytes. *)
Definition bytes (sd : side) (m : msg) : list Z :=
  match m with
  | MCon =>
      con_bytes (local_con_data (p_buf (P sd)) (mr_rkey (p_mr (P sd))) (qp_qp_num (p_qp (P sd)))
                   (p_lid (P sd)) (my_gid sd))
  | MChar c => [zchar c]
  end.

Definition target_of (sd : side) (op : ibv_wr_opcode) : option (Z * Z) :=
  if decide (op = IBV_WR_SEND) then None
  else Some (p_buf (P (peer sd)), mr_rkey (p_mr (P (peer sd)))).

(** The call [c] of [sd] is the event [e]. *)
Definition label (sd : side) (e : event) (c : rdma_call) : Prop :=
  let p := P sd in
  match e, c with
  | EMemset, Memset q _ => q = p_buf p
  | EStrcpy s, Strcpy q t => q = p_buf p ∧ t = s
  | ELoad _, Load q => q = p_buf p
  | EWrite m, Write fd bs => fd = p_fd p ∧ bs = bytes sd m
  | ERead m, Read fd k => fd = p_fd p ∧ k = zlen (bytes (peer sd) m)
  | EReg, Reg_mr _ _ _ f => f = mr_flags
  | EModify st, Modify_qp q a mask =>
      q = qp_ptr (p_qp p) ∧ qp_state a = st ∧ needed st ⊆ mask
      ∧ (st = IBV_QPS_INIT → qp_access_flags a = Z.lor IBV_ACCESS_REMOTE_READ IBV_ACCESS_REMOTE_WRITE)
      ∧ (st = IBV_QPS_RTR →
         let o := con_of (peer sd) in a = rtr_attr (cfgs sd) (qp_num o) (lid o) (gid o))
  | EPostRecv, Post_recv q wr => q = qp_ptr (p_qp p) ∧ own_sge p (rr_sg_list wr)
  | EPostSend op, Post_send q wr =>
      q = qp_ptr (p_qp p) ∧ own_sge p (sg_list wr) ∧ opcode wr = op ∧ rdma_target wr = target_of sd op
  | EPoll, Poll_cq q _ => q = p_cq p
  | _, _ => False
  end.

(** The answer when all is well. *)
Definition reply (sd : side) (e : event) (c : rdma_call) : rdma_ans c → Prop :=
  match c with
  | Load _ => fun s => e = ELoad s
  | Write _ bs => fun k => k = zlen bs
  | Read _ k => fun a =>
      match e with ERead m => a = (zlen (bytes (peer sd) m), bytes (peer sd) m) | _ => False end
  | Reg_mr _ _ _ _ => fun a => a = Some (p_mr (P sd))
  | Modify_qp _ _ _ | Post_send _ _ | Post_recv _ _ => fun rc => rc = 0
  | Poll_cq _ _ => fun a => a.1 = 1 ∧ status a.2 = IBV_WC_SUCCESS
  | _ => fun _ => True
  end.

(** Answered that way, [p] performs events of [es] in order, and returns a
    result that satisfies [Q] with the events that are left. *)
Fixpoint plays (sd : side) {A} (p : io A) (es : list event) (Q : A → list event → Prop) : Prop :=
  match p with
  | Ret a => Q a es
  | Crash | Again => False
  | Do c k =>
      if shared c then
        match es with
        | [] => False
        | e :: es => label sd e c ∧ ∀ a, reply sd e c a → plays sd (k a) es Q
        end
      else ∀ a, local P sd c a → plays sd (k a) es Q
  end.

Lemma plays_bind sd {A B} (p : io A) (f : A → io B) : ∀ es Q,
  plays sd p es (fun a es => plays sd (f a) es Q) → plays sd (p ≫= f) es Q.
Proof.
  induction p as [a| | |c k IH]; intros es Q; cbn [plays mbind prog_mbind pbind]; auto.
  destruct (shared c).
  - destruct es as [|e es]; [done|]. intros [Hl Hk]. split; [done|]. intros a Ha. by apply IH, Hk.
  - intros Hk a Ha. by apply IH, Hk.
Qed.

Lemma plays_mono sd {A} (p : io A) : ∀ es (Q R : A → list event → Prop),
  plays sd p es Q → (∀ a es, Q a es → R a es) → plays sd p es R.
Proof.
  induction p as [a| | |c k IH]; intros es Q R; cbn [plays]; auto. destruct (shared c).
  - destruct es as [|e es]; [done|]. intros [Hl Hk] HQ. split; [done|]. intros a Ha. eapply IH; eauto.
  - intros Hk HQ a Ha. eapply IH; eauto.
Qed.

Lemma plays_out sd t es (Q : unit → list event → Prop) : Q tt es → plays sd (out t) es Q.
Proof. intros H. cbn. by intros [] _. Qed.
Lemma plays_err sd t es (Q : unit → list event → Prop) : Q tt es → plays sd (err t) es Q.
Proof. intros H. cbn. by intros [] _. Qed.
Lemma plays_local sd c es (Q : rdma_ans c → list event → Prop) :
  shared c = false → (∀ a, local P sd c a → Q a es) → plays sd (request c) es Q.
Proof. intros Hc H. cbn [ask plays]. by rewrite Hc. Qed.
Lemma plays_event sd c e es (Q : rdma_ans c → list event → Prop) :
  shared c = true → label sd e c → (∀ a, reply sd e c a → Q a es) → plays sd (request c) (e :: es) Q.
Proof. intros Hc Hl H. cbn [ask plays]. by rewrite Hc. Qed.
End session.

(** Run a program to its next call that matters. *)
Ltac play :=
  repeat first
    [ progress cbn beta iota zeta delta [negb andb Z.eqb Z.ltb Z.compare]
    | lazymatch goal with
      | |- plays _ _ _ (mbind _ _) _ _ => apply plays_bind
      | |- plays _ _ _ (out _) _ _ => apply plays_out
      | |- plays _ _ _ (err _) _ _ => apply plays_err
      | |- plays _ _ _ (Ret _) _ _ => cbn [plays]
      end ].
Ltac at_local :=
  lazymatch goal with
  | |- @plays ?P ?g ?sd ?A (@ask _ ?c) ?es ?Q => refine (plays_local P g sd c es Q eq_refl _)
  end.
Ltac at_event :=
  lazymatch goal with
  | |- @plays ?P ?g ?sd ?A (@ask _ ?c) (?e :: ?es) ?Q => refine (plays_event P g sd c e es Q eq_refl _ _)
  end.
(** The pointer followed next is [v]. *)
Ltac follows v :=
  lazymatch goal with |- context [deref ?o] => change (deref o) with (Ret (E := rdma) v) end; play.
Ltac now_eq := let a := fresh "a" in let Ha := fresh in intros a Ha; cbn in Ha; subst a.

(** The options and the hosts fit: one side is told the other's name, both or
    neither use a gid, the wanted device exists, and values have their C
    types. *)
Record fits (P : side → party) (cfgs : side → config_t) : Prop := Fits {
  fit_client : is_Some (server_name (cfgs Client));
  fit_server : server_name (cfgs Server) = None;
  fit_gid : 0 ≤ gid_idx (cfgs Client) ↔ 0 ≤ gid_idx (cfgs Server);
  fit_port sd : 0 ≤ tcp_port (cfgs sd) ≤ 99999;
  fit_dev sd :
    match dev_name (cfgs sd) with
    | None => p_names (P sd) ≠ []
    | Some (_, w) => w ∈ p_names (P sd)
    end;
  fit_fd sd : 0 ≤ p_fd (P sd) ∧ 0 ≤ p_listen (P sd);
  fit_buf sd : 0 ≤ p_buf (P sd) < 2 ^ 64;
  fit_rkey sd : 0 ≤ mr_rkey (p_mr (P sd)) < 2 ^ 32;
  fit_qpn sd : 0 ≤ qp_qp_num (p_qp (P sd)) < 2 ^ 32;
  fit_lid sd : 0 ≤ p_lid (P sd) < 2 ^ 16;
  fit_gids sd : zlen (p_gid (P sd)) = 16;
}.

Section playing.
Context (P : side → party) (cfgs : side → config_t) (F : fits P cfgs).
Context (n : nat) (Hn : (2 ≤ n)%nat) (stack : list Z) (Hstack : zlen stack = con_data_size).
Local Abbreviation plays := (plays P cfgs).

Lemma zlen_my_gid sd : zlen (my_gid P cfgs sd) = 16.
Proof. unfold my_gid. case_match; [apply F|done]. Qed.

Lemma con_roundtrip sd :
  remote_con_data (con_of_bytes (bytes P cfgs sd MCon)) = con_of P cfgs sd
  ∧ zlen (bytes P cfgs sd MCon) = con_data_size.
Proof. apply con_data_roundtrip; [apply F..|apply zlen_my_gid]. Qed.

(** The resources of a side once they are created. *)
Definition full (sd : side) (rp : cm_con_data_t) : resources :=
  let p := P sd in
  Resources (p_lid p) rp (Some (p_ctx p)) (Some (p_pd p)) (Some (p_cq p)) (Some (p_qp p))
    (Some (p_mr p)) (Some (p_buf p)) (p_fd p).

Lemma plays_sock_connect sd es Q :
  Q (p_fd (P sd)) es →
  plays sd (sock_connect (server_name (cfgs sd)) (i32 (tcp_port (cfgs sd)))) es Q.
Proof.
  intros HQ. pose proof (fit_port _ _ F sd). destruct (fit_fd _ _ F sd) as [Hfd Hlf].
  unfold sock_connect. rewrite i32_small by lia.
  pose proof (strlen_dec_le 4 (tcp_port (cfgs sd)) ltac:(cbn; lia)).
  replace (6 <? strlen (dec (tcp_port (cfgs sd))) + 1) with false by lia.
  play. at_local. intros ? (r & ai & ->). play. cbn [Z.ltb Z.compare default snd fmap option_fmap option_map id connect_loop].
  play. at_local. intros fd Hs. play. destruct sd; cbn in Hs; subst fd.
  - replace (0 <=? p_fd (P Client)) with true by lia.
    destruct (fit_client _ _ F) as [h ->]. play. at_local. now_eq. play.
    unfold sock_connect_exit. play. at_local. intros ? _. play.
    replace (p_fd (P Client) <? 0) with false by lia. by play.
  - replace (0 <=? p_listen (P Server)) with true by lia. rewrite (fit_server _ _ F). play.
    at_local. now_eq. play.
    at_local. now_eq. play. at_local. now_eq. play.
    unfold sock_connect_exit. play.
    apply (plays_mono _ _ _ _ _ (fun _ es' => es' = es)).
    { case_match; play; [|done]. at_local. intros ? _. by play. }
    intros [] ? ->. play. at_local. intros ? _. play.
    replace (p_fd (P Server) <? 0) with false by lia. by play.
Qed.

Lemma plays_find_device sd names c i es Q :
  match dev_name c with None => names ≠ [] | Some (_, w) => w ∈ names end →
  (∀ d j, Q (c <| dev_name := d |>, Some j) es) →
  plays sd (find_device c names i) es Q.
Proof.
  revert c i. induction names as [|name names IH]; intros c i Hd HQ.
  { destruct (dev_name c) as [[p w]|]; [by apply not_elem_of_nil in Hd|done]. }
  cbn [find_device]. play. destruct (dev_name c) as [[p w]|] eqn:Ed; play.
  - rewrite Ed. cbn [deref]. play. destruct (Z.eqb_spec (strcmp name w) 0) as [|Hne]; play.
    + specialize (HQ (dev_name c) i). by destruct c.
    + apply IH; [|done]. rewrite Ed. apply elem_of_cons in Hd as [->|]; [|done]. unfold strcmp in Hne. by rewrite strcmp_refl in Hne.
  - at_local. intros ? [q ->]. play. cbn. unfold strcmp. rewrite strcmp_refl. apply HQ.
Qed.

Definition create_part (sd : side) : list event :=
  match sd with
  | Client => [EMemset; EMemset; EReg]
  | Server => [EMemset; EStrcpy SEND_MSG; ELoad SEND_MSG; EReg]
  end.

(** The options as the program leaves them. *)
Definition cfg_with (sd : side) (d : option (Z * string)) : config_t := (cfgs sd) <| dev_name := d |>.

Local Abbreviation rp0 := (remote_props resources_init).

Lemma plays_create_sock sd es Q :
  Q (0, Locals (cfgs sd) (Resources 0 rp0 None None None None None None (p_fd (P sd))) None) es →
  plays sd (create_sock (Locals (cfgs sd) resources_init None)) es Q.
Proof.
  intros HQ. destruct (fit_fd _ _ F sd) as [Hfd _]. unfold create_sock. cbn [cfg res].
  pose proof (plays_sock_connect sd) as Hs. destruct (server_name (cfgs sd)) as [h|]; play; apply Hs; play;
    replace (p_fd (P sd) <? 0) with false by lia; unfold going; play; exact HQ.
Qed.

Lemma plays_create_device sd es Q :
  (∀ d, Q (0, Locals (cfg_with sd d)
                (Resources 0 rp0 (Some (p_ctx (P sd))) None None None None None (p_fd (P sd))) None) es) →
  plays sd (create_device
    (Locals (cfgs sd) (Resources 0 rp0 None None None None None None (p_fd (P sd))) None)) es Q.
Proof.
  intros HQ. unfold create_device. play. at_local. now_eq. play.
  pose proof (fit_dev _ _ F sd) as Hd.
  replace (zlen (p_names (P sd)) =? 0) with false.
  2:{ symmetry. apply Z.eqb_neq. intros E. destruct (p_names (P sd)); [|unfold zlen in E; cbn in E; lia].
      destruct (dev_name (cfgs sd)) as [[? ?]|]; [by apply not_elem_of_nil in Hd|done]. }
  play. apply plays_find_device; [exact Hd|]. intros d j. play. at_local. now_eq. play.
  at_local. intros ? _. unfold going. play. apply HQ.
Qed.

Lemma plays_create_pd_cq sd d es Q :
  Q (0, Locals (cfg_with sd d)
          (Resources (p_lid (P sd)) rp0 (Some (p_ctx (P sd))) (Some (p_pd (P sd))) (Some (p_cq (P sd)))
             None None None (p_fd (P sd))) None) es →
  plays sd (create_pd_cq (Locals (cfg_with sd d)
    (Resources 0 rp0 (Some (p_ctx (P sd))) None None None None None (p_fd (P sd))) None)) es Q.
Proof.
  intros HQ. unfold create_pd_cq. cbn [res ib_ctx deref cfg]. play. at_local. now_eq. play.
  at_local. now_eq. play. at_local. now_eq. unfold going. play. exact HQ.
Qed.

Lemma plays_create_buf_mr sd d es Q :
  Q (0, Locals (cfg_with sd d)
          (Resources (p_lid (P sd)) rp0 (Some (p_ctx (P sd))) (Some (p_pd (P sd))) (Some (p_cq (P sd)))
             None (Some (p_mr (P sd))) (Some (p_buf (P sd))) (p_fd (P sd))) None) es →
  plays sd (create_buf_mr (Locals (cfg_with sd d)
    (Resources (p_lid (P sd)) rp0 (Some (p_ctx (P sd))) (Some (p_pd (P sd))) (Some (p_cq (P sd)))
       None None None (p_fd (P sd))) None)) (create_part sd ++ es) Q.
Proof.
  intros HQ. unfold create_buf_mr. play. at_local. now_eq. play.
  assert (∀ es, plays sd (request (Memset (p_buf (P sd)) MSG_SIZE)) (EMemset :: es) (fun _ es' => es' = es)) as Hm.
  { intros es'. at_event; [done|]. done. }
  destruct sd; cbn [create_part app]; (eapply plays_mono; [apply Hm|]; intros [] ? E; cbn beta in E; subst; play).
  - change (server_name _) with (server_name (cfgs Client)). destruct (fit_client _ _ F) as [h ->]. play.
    eapply plays_mono; [apply Hm|]. intros [] ? E. cbn beta in E. subst. play. cbn [res pd deref]. play.
    follows (p_pd (P Client)).
    at_event; [done|]. now_eq. unfold going. play. exact HQ.
  - change (server_name _) with (server_name (cfgs Server)). rewrite (fit_server _ _ F). play.
    at_event; [done|]. intros [] _. play. at_event; [done|]. intros t [= <-]. play.
    follows (p_pd (P Server)).
    at_event; [done|]. now_eq. unfold going. play. exact HQ.
Qed.

Lemma plays_create sd es Q :
  (∀ d, Q (0, Locals (cfg_with sd d) (full sd rp0) None) es) →
  plays sd (resources_create (cfgs sd) resources_init) (create_part sd ++ es) Q.
Proof.
  intros HQ. unfold resources_create. play. unfold also. play.
  apply plays_create_sock. play.
  apply plays_create_device. intros d. play.
  apply plays_create_pd_cq. play.
  apply plays_create_buf_mr. play.
  unfold create_qp. cbn [res cfg pd cq deref default]. play. at_local. now_eq. unfold going. play.
  play. apply HQ.
Qed.
Lemma zlen_bytes sd m : 0 < zlen (bytes P cfgs sd m) ∧ zlen (bytes P cfgs (peer sd) m) = zlen (bytes P cfgs sd m).
Proof.
  destruct m; [|done]. destruct (con_roundtrip sd) as [_ ->]. by destruct (con_roundtrip (peer sd)) as [_ ->].
Qed.

Lemma plays_sync sd m size rd es Q :
  size = zlen (bytes P cfgs sd m) → zlen rd = size → Q (0, bytes P cfgs (peer sd) m) es →
  plays sd (sock_sync_data n (p_fd (P sd)) size (bytes P cfgs sd m) rd) (EWrite m :: ERead m :: es) Q.
Proof.
  intros -> Hrd HQ. destruct (zlen_bytes sd m) as [Hpos Hlen].
  unfold sock_sync_data. play. at_event; [done|]. now_eq. play. rewrite Z.ltb_irrefl. play.
  destruct n as [|[|k]]; [lia..|]. cbn [sync_read Z.eqb andb].
  replace (0 <? zlen (bytes P cfgs sd m)) with true by lia. play. at_event; [done|]. now_eq. play.
  rewrite Hlen. replace (0 <? zlen (bytes P cfgs sd m)) with true by lia.
  rewrite Z.add_0_l, Z.ltb_irrefl. cbn [Z.eqb andb]. play.
  rewrite drop_ge, app_nil_r by (unfold zlen in *; lia). exact HQ.
Qed.

Lemma plays_poll sd rp es Q :
  Q 0 es → plays sd (poll_completion n (full sd rp)) (EPoll :: es) Q.
Proof.
  intros HQ. unfold poll_completion. play. at_local. intros t _. cbn [full cq deref]. play.
  destruct n as [|k]; [lia|]. cbn [poll_loop]. play.
  at_event; [done|]. intros [pr wc] [Hpr Hst]. cbn in Hpr, Hst. subst pr. play.
  at_local. intros t' _. cbn [Z.eqb andb]. play. rewrite Hst. by play.
Qed.

Lemma plays_post_send sd op es Q :
  (op = IBV_WR_SEND ∨ op = IBV_WR_RDMA_READ ∨ op = IBV_WR_RDMA_WRITE) →
  Q 0 es → plays sd (post_send (full sd (con_of P cfgs (peer sd))) op) (EPostSend op :: es) Q.
Proof.
  intros Hop HQ. unfold post_send. cbn [full mr qp buf deref default]. play. at_event; [done|]. now_eq. play.
  cbn [Z.eqb negb]. destruct Hop as [->|[->| ->]]; by play.
Qed.

Lemma plays_post_receive sd rp es Q :
  Q 0 es → plays sd (post_receive (full sd rp)) (EPostRecv :: es) Q.
Proof.
  intros HQ. unfold post_receive. cbn [full mr qp buf deref default]. play. at_event; [done|]. now_eq.
  cbn [Z.eqb negb]. by play.
Qed.

Definition greet_part (sd : side) : list event :=
  [EWrite MCon; ERead MCon; EModify IBV_QPS_INIT]
  ++ (match sd with Client => [EPostRecv] | Server => [] end) ++ connect_part.

Lemma plays_bring_up sd d es Q :
  Q 0 es →
  plays sd (bring_up n (cfg_with sd d) (full sd (con_of P cfgs (peer sd))))
    (EModify IBV_QPS_INIT :: (match sd with Client => [EPostRecv] | Server => [] end) ++ connect_part ++ es) Q.
Proof.
  intros HQ. unfold bring_up. cbn [full qp deref remote_props]. play.
  unfold modify_qp_to_init. play. at_event; [done|]. now_eq. play. cbn [Z.eqb negb].
  play. apply (plays_mono _ _ _ _ _ (fun rc es' => rc = 0 ∧ es' = connect_part ++ es)).
  { change (server_name (cfg_with sd d)) with (server_name (cfgs sd)). destruct sd.
    - destruct (fit_client _ _ F) as [h ->]. by apply plays_post_receive.
    - rewrite (fit_server _ _ F). by play. }
  intros rc es' [-> ->]. cbn [Z.eqb negb connect_part app]. play.
  unfold modify_qp_to_rtr. play. at_event; [done|]. now_eq. play.
  unfold modify_qp_to_rts. play. at_event; [|].
  { split; [done|]. split; [done|]. split; [|done]. cbn. set_solver. }
  now_eq. play.
  apply (plays_sync sd (MChar "Q")); [done..|]. by play.
Qed.

Lemma plays_connect_qp sd d es Q :
  Q (0, full sd (con_of P cfgs (peer sd))) es →
  plays sd (connect_qp n stack (cfg_with sd d) (full sd rp0)) (greet_part sd ++ es) Q.
Proof.
  intros HQ. unfold connect_qp, greet_part. play.
  apply (plays_mono _ _ _ _ _ (fun a es' => a = (0, my_gid P cfgs sd) ∧ es' = [EWrite MCon; ERead MCon; EModify IBV_QPS_INIT]
    ++ (match sd with Client => [EPostRecv] | Server => [] end) ++ connect_part ++ es)).
  { unfold my_gid. change (gid_idx (cfg_with sd d)) with (gid_idx (cfgs sd)). rewrite <- !app_assoc. case_match; play.
    - cbn [full ib_ctx deref]. play. at_local. now_eq. done.
    - done. }
  intros ? ? [-> ->]. cbn [Z.eqb negb app]. play. cbn [full mr qp buf deref default port_lid sock]. play.
  destruct (con_roundtrip (peer sd)) as [Hrt Hlen]. pose proof (zlen_bytes sd MCon) as [_ Hl].
  refine (plays_sync sd MCon con_data_size stack _ _ _ _ _); [congruence|done|]. play.
  rewrite Hrt. unfold print_remote. play.
  apply (plays_mono _ _ _ _ _ (fun _ es' => es' = EModify IBV_QPS_INIT :: (match sd with Client => [EPostRecv] | Server => [] end) ++ connect_part ++ es)).
  { case_match; by play. }
  intros [] ? E. cbn beta in E. subst. play.
  change ({| port_lid := _ |} <| remote_props := _ |>) with (full sd (con_of P cfgs (peer sd))).
  apply plays_bring_up. play. exact HQ.
Qed.
Definition transfer_part (sd : side) : list event :=
  match sd with
  | Client =>
      [EPoll; ELoad SEND_MSG; EWrite (MChar "R"); ERead (MChar "R");
       EPostSend IBV_WR_RDMA_READ; EPoll; ELoad RDMA_MSG_R; EStrcpy RDMA_MSG_W;
       ELoad RDMA_MSG_W; EPostSend IBV_WR_RDMA_WRITE; EPoll; EWrite (MChar "W"); ERead (MChar "W")]
  | Server =>
      [EPostSend IBV_WR_SEND; EPoll; EStrcpy RDMA_MSG_R; EWrite (MChar "R");
       ERead (MChar "R"); EWrite (MChar "W"); ERead (MChar "W"); ELoad RDMA_MSG_W]
  end.

Lemma plays_transfer sd d Q :
  Q 0 [] →
  plays sd (transfer n (cfg_with sd d) (full sd (con_of P cfgs (peer sd)))) (transfer_part sd) Q.
Proof.
  intros HQ. unfold transfer. change (server_name (cfg_with sd d)) with (server_name (cfgs sd)).
  destruct sd; cbn [transfer_part].
  - destruct (fit_client _ _ F) as [h ->]. play. apply plays_poll. play. follows (p_buf (P Client)).
    at_event; [done|]. intros t [= <-]. play.
    apply (plays_sync Client (MChar "R")); [done..|]. play.
    unfold transfer_read_write. play. apply plays_post_send; [auto|]. play.
    apply plays_poll. play.
    follows (p_buf (P Client)). at_event; [done|]. intros t [= <-]. play.
    at_event; [done|]. intros [] _. play. at_event; [done|]. intros t [= <-]. play.
    apply plays_post_send; [auto|]. play. apply plays_poll. play.
    play. apply (plays_sync Client (MChar "W")); [done..|]. cbn [Z.eqb negb]. by play.
  - rewrite (fit_server _ _ F). play. apply plays_post_send; [auto|]. play.
    apply plays_poll. play. follows (p_buf (P Server)). at_event; [done|]. intros [] _. play.
    apply (plays_sync Server (MChar "R")); [done..|]. play.
    apply (plays_sync Server (MChar "W")); [done..|]. play.
    at_event; [done|]. intros t [= <-]. by play.
Qed.

Lemma plays_main_exit sd c rp es Q : Q 0 es → plays sd (main_exit 0 c (full sd rp)) es Q.
Proof.
  intros HQ. unfold main_exit, resources_destroy, release, drop_it. cbn [full qp mr buf cq pd ib_ctx sock].
  destruct (fit_fd _ _ F sd) as [Hfd _]. replace (0 <=? p_fd (P sd)) with true by lia.
  play. at_local. now_eq. play. at_local. now_eq. play.
  at_local. intros [] _. play. do 4 (at_local; now_eq; cbn [Z.eqb negb]; play).
  play. destruct (dev_name c); play; [|done]. at_local. intros [] _. by play.
Qed.

Lemma plays_run sd Q : Q 0 [] → plays sd (run n stack (cfgs sd)) (part_of sd) Q.
Proof.
  intros HQ. unfold run. play.
  apply (plays_mono _ _ _ _ _ (fun _ es => es = part_of sd)).
  { unfold print_config. play. destruct (server_name (cfgs sd)); play; case_match; by play. }
  intros [] ? E. cbn beta in E. subst. play.
  replace (part_of sd) with (create_part sd ++ greet_part sd ++ transfer_part sd) by (by destruct sd).
  apply plays_create. intros d. cbn [Z.eqb negb cfg res]. play.
  apply plays_connect_qp. play. apply plays_transfer. play. by apply plays_main_exit.
Qed.
End playing.

(** ** The network of the programs and the network of the parts *)

Section sim.
Context (P : side → party) (cfgs : side → config_t) (F : fits P cfgs).
Local Abbreviation bytes := (bytes P cfgs).

Definition sq_rep (sd : side) (st : ibv_qp_state) (x : option (ibv_send_wr * bool))
    (y : option (ibv_wr_opcode * bool)) : Prop :=
  match x, y with
  | None, None => True
  | Some (wr, b), Some (op, b') =>
      b = b' ∧ opcode wr = op ∧ rdma_target wr = target_of P sd op ∧ st = IBV_QPS_RTS
  | _, _ => False
  end.

Definition rw_flags : Z := Z.lor IBV_ACCESS_REMOTE_READ IBV_ACCESS_REMOTE_WRITE.
Definition route_to (sd : side) : ibv_ah_attr :=
  let o := con_of P cfgs (peer sd) in ah_attr (rtr_attr (cfgs sd) (qp_num o) (lid o) (gid o)).

Record half_rep (sd : side) (h : half) (a : ahalf) : Prop := HalfRep {
  r_mem : n_mem h = a_mem a;
  r_reg : a_reg a = true → n_reg h = Some mr_flags;
  r_st : n_st h = a_st a;
  r_access : a_st a ≠ IBV_QPS_RESET → n_access h = rw_flags;
  r_route : can_receive (a_st a) = true →
    n_route h = Some (route_to sd) ∧ n_dest h = qp_qp_num (p_qp (P (peer sd)));
  r_rq : n_rq h = a_rq a;
  r_cq : length (n_cq h) = a_cq a;
  r_ok : Forall (fun wc => status wc = IBV_WC_SUCCESS) (n_cq h);
  r_sq : sq_rep sd (a_st a) (n_sq h) (a_sq a);
  r_seen : n_seen h = a_seen a;
}.

Record rep (n : net) (a : anet) : Prop := Rep {
  r_half sd : half_rep sd (half_of sd n) (a_half sd a);
  r_from sd : from sd n = concat (bytes sd <$> a_from sd a);
}.

Lemma rep_put n a sd h b : rep n a → half_rep sd h b → rep (put sd h n) (a_put sd b a).
Proof.
  intros [Hh Hf] H. split; intros sd'.
  - by destruct sd, sd'.
  - specialize (Hf sd'). by destruct sd, sd'.
Qed.

Lemma rep_sent n a sd q b : rep n a → q = concat (bytes sd <$> b) → rep (sent sd q n) (a_sent sd b a).
Proof.
  intros [Hh Hf] ->. split; intros sd'.
  - specialize (Hh sd'). by destruct sd, sd'.
  - specialize (Hf sd'). by destruct sd, sd'.
Qed.

Lemma rep_start sd : half_rep sd (Half "" None IBV_QPS_RESET 0 None 0 0 [] None []) half0.
Proof. by split. Qed.

Lemma half_routes sd h a :
  half_rep sd h a → can_receive (a_st a) = true → routes P h (peer sd).
Proof.
  intros H Hc. destruct (r_route _ _ _ H Hc) as [Hr Hd]. split; [done|]. rewrite Hr.
  unfold route_to, rtr_attr. cbn [ah_attr set_field].
  assert (0 ≤ gid_idx (cfgs sd) ↔ 0 ≤ gid_idx (cfgs (peer sd))) as Hg.
  { pose proof (fit_gid _ _ F). destruct sd; cbn; tauto. }
  cbn. destruct (Z.leb_spec 0 (gid_idx (cfgs sd))); cbn; [|done].
  eexists. split; [done|]. cbn. unfold my_gid. by replace (0 <=? gid_idx (cfgs (peer sd))) with true by lia.
Qed.
(** A checked call whose check holds. *)
Lemma checked_ok (ok : Prop) n' n : ok → ∃ rc m, checked ok n' n rc m.
Proof. intros H. exists 0, n'. by left. Qed.
Lemma checked_inv (ok : Prop) n' n rc m : ok → checked ok n' n rc m → rc = 0 ∧ m = n'.
Proof. intros H [[_ ?]|[? _]]; [done|tauto]. Qed.

Definition simulated (sd : side) (e : event) (c : rdma_call) (n : net) (a : anet) : Prop :=
  match amove sd e a with
  | Go a' =>
      (∃ x n', net_call P sd c n x n')
      ∧ ∀ x n', net_call P sd c n x n' → reply P cfgs sd e c x ∧ rep n' a'
  | Wait => ∀ x n', ¬ net_call P sd c n x n'
  | Bad => True
  end.

Ltac kept H := (constructor; cbn; try solve [done | apply H]).

Lemma sim_mem sd e c n a :
  rep n a → label P cfgs sd e c → match e with EMemset | EStrcpy _ | ELoad _ | EReg => True | _ => False end →
  simulated sd e c n a.
Proof.
  intros HR Hl He. pose proof (r_half _ _ HR sd) as H. unfold simulated.
  destruct e; try done; destruct c; try done; cbn in Hl |- *.
  - split; [by eexists tt, _|]. intros x n' [_ ->]. split; [done|]. apply rep_put; [done|]. by kept H.
  - destruct Hl as [-> ->]. split; [by eexists tt, _|]. intros x n' [_ ->]. split; [done|].
    apply rep_put; [done|]. by kept H.
  - case_decide as Hm; [|done]. split; [by eexists _, _|]. intros x n' (_ & -> & ->).
    rewrite (r_mem _ _ _ H), Hm. split; [done|]. apply rep_put; [done|]. kept H.
    by rewrite (r_seen _ _ _ H).
  - split; [by eexists _, _|]. intros x n' [-> ->]. split; [done|]. apply rep_put; [done|]. kept H. by subst.
Qed.

Lemma concat_snoc sd q m : concat (bytes sd <$> q ++ [m]) = concat (bytes sd <$> q) ++ bytes sd m.
Proof. rewrite fmap_app, concat_app. cbn. by rewrite app_nil_r. Qed.

Lemma sim_sock sd e c n a :
  rep n a → label P cfgs sd e c → match e with EWrite _ | ERead _ => True | _ => False end →
  simulated sd e c n a.
Proof.
  intros HR Hl He. unfold simulated. destruct e as [| | |m|m| | | | |]; try done; destruct c; try done; cbn in Hl |- *.
  - destruct Hl as [-> ->]. split; [by eexists _, _|]. intros x n' (_ & -> & ->). split; [done|].
    apply rep_sent; [done|]. by rewrite concat_snoc, (r_from _ _ HR sd).
  - destruct Hl as [-> ->]. pose proof (r_from _ _ HR (peer sd)) as Hq.
    destruct (zlen_bytes P cfgs F (peer sd) m) as [Hpos _].
    destruct (a_from (peer sd) a) as [|m' q] eqn:Ea; cbn in Hq.
    { intros x n' (_ & Hne & _). by rewrite Hq in Hne. }
    case_decide as E; [|done]. subst m'.
    assert (Z.to_nat (zlen (bytes (peer sd) m)) = length (bytes (peer sd) m)) as Hk by (unfold zlen; lia).
    assert (from (peer sd) n ≠ []) as Hne.
    { rewrite Hq. destruct (bytes (peer sd) m); [unfold zlen in Hpos; cbn in Hpos; lia|done]. }
    split; [by eexists _, _|]. intros x n' (_ & _ & -> & ->). rewrite Hq, Hk, take_app_length, drop_app_length.
    split; [|by apply rep_sent].
    f_equal. rewrite zlen_app. pose proof (zlen_nonneg (concat (bytes (peer sd) <$> q))). lia.
Qed.
Lemma sim_verbs sd e c n a :
  rep n a → label P cfgs sd e c →
  match e with EModify _ | EPostRecv | EPostSend _ | EPoll => True | _ => False end →
  simulated sd e c n a.
Proof.
  intros HR Hl He. pose proof (r_half _ _ HR sd) as H. unfold simulated.
  destruct e as [| | | | | |st| |op|]; try done; destruct c; try done; cbn in Hl |- *.
  - rename a0 into at0. destruct Hl as (-> & Hst & Hm & Hi & Hr). destruct (alegal _ _) eqn:El; [|done].
    assert (alegal (n_st (half_of sd n)) (qp_state at0) = true ∧ needed (qp_state at0) ⊆ mask0) as [? ?]
      by (by rewrite (r_st _ _ _ H), Hst).
    split; [by apply checked_ok|]. intros x n' [-> ->]%checked_inv; [|done]. split; [done|].
    apply rep_put; [done|]. unfold modified.
    assert (a_sq (a_half sd a) = None ∧ n_sq (half_of sd n) = None) as [Ha Hq].
    { pose proof (r_sq _ _ _ H) as Hsq. unfold sq_rep in Hsq. repeat case_match; try done.
      destruct Hsq as (_ & _ & _ & Hs). by rewrite Hs in El. }
    rewrite Hst. destruct st; cbn; [by destruct (a_st (a_half sd a))|..].
    + kept H; [intros _; by apply Hi|by rewrite Ha, Hq].
    + specialize (Hr eq_refl). subst at0. kept H; [|by rewrite Ha, Hq]. intros _. apply (r_access _ _ _ H). intros E. by rewrite E in El.
    + kept H; [| |by rewrite Ha, Hq]; intros _.
      * apply (r_access _ _ _ H). intros E. by rewrite E in El.
      * apply (r_route _ _ _ H). by destruct (a_st (a_half sd a)).
  - destruct Hl as [-> Hsge]. case_decide as Hst; [|done].
    destruct (a_rq (a_half sd a)) as [|k] eqn:Erq; [|done].
    assert (n_st (half_of sd n) ≠ IBV_QPS_RESET ∧ n_rq (half_of sd n) = 0%nat) as [? ?]
      by (by rewrite (r_st _ _ _ H), (r_rq _ _ _ H)).
    split; [by apply checked_ok|]. intros x n' [-> ->]%checked_inv; [|done]. split; [done|].
    apply rep_put; [done|]. by kept H.
  - destruct Hl as (-> & Hsge & Hop & Ht). case_decide as Hst; [|done].
    destruct (a_sq (a_half sd a)) as [|] eqn:Esq; [done|].
    assert (n_st (half_of sd n) = IBV_QPS_RTS ∧ n_sq (half_of sd n) = None) as [? ?].
    { rewrite (r_st _ _ _ H). pose proof (r_sq _ _ _ H) as Hsq. rewrite Esq in Hsq. by destruct (n_sq _) as [[]|]. }
    split; [by apply checked_ok|]. intros x n' [-> ->]%checked_inv; [|done]. split; [done|].
    apply rep_put; [done|]. by kept H.
  - subst. pose proof (r_cq _ _ _ H) as Hc. pose proof (r_ok _ _ _ H) as Hok.
    destruct (n_cq (half_of sd n)) as [|wc rest] eqn:Ec; cbn in Hc; rewrite <- Hc.
    { intros x n' (_ & ? & ? & E & _). congruence. }
    apply Forall_cons in Hok as [? ?]. split; [by eexists _, _; split; [|eexists _, _]|].
    intros x n' (_ & ? & ? & E & -> & ->). simplify_eq. split; [done|].
    apply rep_put; [done|]. by kept H.
Qed.

Lemma call_sim sd e c n a : rep n a → label P cfgs sd e c → simulated sd e c n a.
Proof.
  intros HR Hl. destruct e; first [by apply sim_mem|by apply sim_sock|by apply sim_verbs].
Qed.
Lemma allows_rw sd h a flag :
  half_rep sd h a → can_receive (a_st a) = true → a_reg a = true →
  flag = IBV_ACCESS_REMOTE_READ ∨ flag = IBV_ACCESS_REMOTE_WRITE → allows h flag.
Proof.
  intros H Hc Hr Hf. split; rewrite ?(r_access _ _ _ H), ?(r_reg _ _ _ H) by (done || by intros E; rewrite E in Hc).
  all: by destruct Hf as [->| ->].
Qed.

(** The data of a request moves the same way in both networks. *)
Lemma transfer_sim sd n a a' wr :
  rep n a → n_sq (half_of sd n) = Some (wr, false) → atransfer sd a = Go a' →
  ready P sd n wr ∧ ∀ v, rep (moved sd n wr v) a'.
Proof.
  intros HR Hsq Ha. pose proof (r_half _ _ HR sd) as H. pose proof (r_half _ _ HR (peer sd)) as G.
  pose proof (r_sq _ _ _ H) as Hs. rewrite Hsq in Hs. unfold atransfer in Ha.
  destruct (a_sq (a_half sd a)) as [[op b]|]; [|done]. destruct Hs as (<- & Hop & Ht & Hst).
  destruct (can_receive _ && _) eqn:Hc; [|done]. apply andb_prop in Hc as [Hc Hreg].
  assert (routes P (half_of sd n) (peer sd) ∧ routes P (half_of (peer sd) n) sd) as [R1 R2].
  { split; [eapply half_routes; [done|by rewrite Hst]|]. replace sd with (peer (peer sd)) at 2 by (by destruct sd).
    by eapply half_routes. }
  assert (can_receive (n_st (half_of (peer sd) n)) = true) as Hcan by (by rewrite (r_st _ _ _ G)).
  unfold ready, moved. rewrite Hop. destruct op; try done.
  - simplify_eq. split.
    + split_and!; [done..| |by eapply allows_rw; [|..|right]]. by rewrite Ht.
    + intros v. apply rep_put; [apply rep_put; [done|]|]; [kept G; by rewrite (r_mem _ _ _ H)|kept H].
  - destruct (a_rq _) as [|k] eqn:Erq; [done|]. destruct (a_cq _) eqn:Ecq; [|done]. simplify_eq. split.
    + split_and!; [done..| |].
      * by rewrite (r_rq _ _ _ G), Erq.
      * pose proof (r_cq _ _ _ G) as Hq. rewrite Ecq in Hq. by apply nil_length_inv in Hq.
    + intros v. apply rep_put; [apply rep_put; [done|]|kept H].
      kept G; [by rewrite (r_mem _ _ _ H)|by rewrite (r_rq _ _ _ G), Erq|by repeat constructor].
  - simplify_eq. split.
    + split_and!; [done..| |by eapply allows_rw; [|..|left]]. by rewrite Ht.
    + intros v. apply rep_put; [done|]. kept H. by rewrite (r_mem _ _ _ G).
Qed.

Lemma complete_sim sd n a a' wr st v :
  rep n a → n_sq (half_of sd n) = Some (wr, true) → acomplete sd a = Go a' →
  n_cq (half_of sd n) = [] ∧
  (st = IBV_WC_SUCCESS →
   rep (put sd ((half_of sd n) <| n_sq := None |> <| n_cq := n_cq (half_of sd n) ++ [Wc st v] |>) n) a').
Proof.
  intros HR Hsq Ha. pose proof (r_half _ _ HR sd) as H.
  pose proof (r_sq _ _ _ H) as Hs. rewrite Hsq in Hs. unfold acomplete in Ha.
  destruct (a_sq (a_half sd a)) as [[op b]|]; [|done]. destruct Hs as (<- & Hop & Ht & Hst).
  destruct (a_cq _) eqn:Ecq; [|done]. simplify_eq.
  assert (n_cq (half_of sd n) = []) as Hq.
  { pose proof (r_cq _ _ _ H) as Hq. rewrite Ecq in Hq. by apply nil_length_inv in Hq. }
  split; [done|]. intros ->. apply rep_put; [done|]. rewrite Hq. kept H. by repeat constructor.
Qed.

Definition own_moves (sd : side) (a a' : anet) : Prop := atransfer sd a = Go a' ∨ acomplete sd a = Go a'.

Lemma own_sim sd n a :
  rep n a → atransfer sd a ≠ Bad → acomplete sd a ≠ Bad →
  (∀ n', net_own P sd n n' → ∃ a', own_moves sd a a' ∧ rep n' a')
  ∧ ∀ a', own_moves sd a a' → ∃ n', net_own P sd n n'.
Proof.
  intros HR Ht Hc. pose proof (r_half _ _ HR sd) as H. pose proof (r_sq _ _ _ H) as Hs. split.
  - intros n' Hn. destruct Hn as [wr v Hq Hr|wr st v Hq Hr _|wr st v Hq Hst]; rewrite Hq in Hs.
    1,2: destruct (atransfer sd a) as [a'| |] eqn:Ea; [|exfalso|done].
    2,4: unfold atransfer in Ea; destruct (a_sq _) as [[op b]|]; [|done]; destruct Hs as (<- & _); by repeat case_match.
    + destruct (transfer_sim sd n a a' wr HR Hq Ea) as [_ Hrep]. exists a'. split; [by left|done].
    + by destruct (transfer_sim sd n a a' wr HR Hq Ea).
    + destruct (acomplete sd a) as [a'| |] eqn:Ea; [|exfalso|done].
      * destruct (complete_sim sd n a a' wr st v HR Hq Ea) as [He Hrep]. exists a'. split; [by right|].
        apply Hrep. by apply Hst.
      * unfold acomplete in Ea. destruct (a_sq _) as [[op b]|]; [|done]. destruct Hs as (<- & _). by repeat case_match.
  - intros a' [Ea|Ea].
    + destruct (n_sq (half_of sd n)) as [[wr b]|] eqn:Hq.
      2:{ unfold atransfer in Ea. by destruct (a_sq _) as [[? ?]|]. }
      assert (b = false) as ->.
      { unfold atransfer in Ea. destruct (a_sq _) as [[op b']|]; [|done]. destruct Hs as (-> & _). by destruct b'. }
      destruct (transfer_sim sd n a a' wr HR Hq Ea) as [Hr _]. exists (moved sd n wr 0). by apply own_move.
    + destruct (n_sq (half_of sd n)) as [[wr b]|] eqn:Hq.
      2:{ unfold acomplete in Ea. by destruct (a_sq _) as [[? ?]|]. }
      assert (b = true) as ->.
      { unfold acomplete in Ea. destruct (a_sq _) as [[op b']|]; [|done]. destruct Hs as (-> & _). by destruct b'. }
      destruct (complete_sim sd n a a' wr 0 0 HR Hq Ea) as [He _]. eexists. by apply (own_complete P sd n wr 0 0).
Qed.
End sim.

(** ** Two programs and two adapters *)

(** What the pair of hosts promises: its calls and its own steps are those of
    [net], and whatever [net] can do next it can do. *)
Class Verbs (P : side → party) := {
  fab : Type;
  fcall : side → ∀ c : rdma_call, fab → rdma_ans c → fab → Prop;
  fown : side → fab → fab → Prop;
  models : fab → net → Prop;
  fcall_sound sd c f a f' n :
    models f n → fcall sd c f a f' → ∃ n', net_call P sd c n a n' ∧ models f' n';
  fcall_live sd c f n a n' :
    models f n → net_call P sd c n a n' → ∃ b f', fcall sd c f b f';
  fown_sound sd f f' n : models f n → fown sd f f' → ∃ n', net_own P sd n n' ∧ models f' n';
  fown_live sd f n n' : models f n → net_own P sd n n' → ∃ f', fown sd f f';
}.

(** The network is one. *)
Definition net_verbs (P : side → party) : Verbs P.
Proof.
  refine {| fab := net; fcall := net_call P; fown := net_own P; models := eq |}; naive_solver.
Defined.

(** Both hosts before the programs start. *)
Definition net0 : net :=
  let h := Half "" None IBV_QPS_RESET 0 None 0 0 [] None [] in Net h h [] [].

(** The moves from a state of the parts. *)
Lemma asuccs_in kc ks a s' :
  s' ∈ asuccs (kc, ks, a) ↔
    (∃ a', next_event Client kc a = Go a' ∧ s' = (S kc, ks, a'))
    ∨ (∃ a', next_event Server ks a = Go a' ∧ s' = (kc, S ks, a'))
    ∨ ∃ sd a', own_moves sd a a' ∧ s' = (kc, ks, a').
Proof.
  unfold asuccs, amoves, own_moves. rewrite list_elem_of_bind. split.
  - intros (m & Hm & Hin). unfold gone in Hm. destruct m as [x| |]; [|by apply not_elem_of_nil in Hm..].
    apply list_elem_of_singleton in Hm as ->. rewrite !elem_of_cons in Hin.
    destruct Hin as [E|[E|[E|[E|[E|[E|E]]]]]]; [..|by apply not_elem_of_nil in E];
      case_match; simplify_eq; eauto 10.
  - intros [(a' & E & ->)|[(a' & E & ->)|(sd & a' & [E|E] & ->)]]; try destruct sd;
      eexists (Go _); (split; [by apply list_elem_of_singleton|]); rewrite E;
      rewrite !elem_of_cons; eauto 10.
Qed.

Lemma asafe_in kc ks a :
  asafe (kc, ks, a) = true →
  next_event Client kc a ≠ Bad ∧ next_event Server ks a ≠ Bad
  ∧ ∀ sd, atransfer sd a ≠ Bad ∧ acomplete sd a ≠ Bad.
Proof.
  unfold asafe, amoves. cbn [forallb]. intros H. rewrite !andb_true_iff in H.
  destruct H as (H1 & H2 & H3 & H4 & H5 & H6 & _).
  split_and!; [by intros E; rewrite E in H1|by intros E; rewrite E in H2|].
  intros []; split; intros E; [by rewrite E in H3|by rewrite E in H5|by rewrite E in H4|by rewrite E in H6].
Qed.

Lemma left_end sd : left_of sd (length (part_of sd)) = [].
Proof. apply drop_all. Qed.

Lemma agood_quiet kc ks a :
  agood (kc, ks, a) = true →
  asafe (kc, ks, a) = true ∧ asuccs (kc, ks, a) = [] ∧ left_of Client kc = [] ∧ left_of Server ks = []
  ∧ a_seen (a_c a) = [SEND_MSG; RDMA_MSG_R; RDMA_MSG_W] ∧ a_seen (a_s a) = [SEND_MSG; RDMA_MSG_W].
Proof.
  unfold agood. rewrite !andb_true_iff, !bool_decide_eq_true, !Nat.eqb_eq.
  intros (((((-> & ->) & Hc) & Hs) & Qc) & Qs).
  assert (∀ sd, atransfer sd a = Wait ∧ acomplete sd a = Wait) as Hw.
  { intros []; unfold atransfer, acomplete; cbn; by rewrite ?Qc, ?Qs. }
  unfold asafe, asuccs, amoves, next_event. rewrite !left_end.
  destruct (Hw Client) as [-> ->], (Hw Server) as [-> ->]. done.
Qed.

Section system.
Context {P : side → party} `{V : !Verbs P} (cfgs : side → config_t) (F : fits P cfgs).

Definition sys : Type := io Z * io Z * fab.

Inductive sys_step : sys → sys → Prop :=
| step_client c k ps f a f' : fcall Client c f a f' → sys_step (Do (E := rdma) c k, ps, f) (k a, ps, f')
| step_server pc c k f a f' : fcall Server c f a f' → sys_step (pc, Do (E := rdma) c k, f) (pc, k a, f')
| step_own sd pc ps f f' : fown sd f f' → sys_step (pc, ps, f) (pc, ps, f').

(** Both programs have returned 0; the client has found the server's messages
    in its buffer, and the server the client's. *)
Definition exchanged (s : sys) : Prop :=
  let '(pc, ps, f) := s in
  pc = Ret 0 ∧ ps = Ret 0 ∧
  ∃ n, models f n ∧ n_seen (n_c n) = [SEND_MSG; RDMA_MSG_R; RDMA_MSG_W]
       ∧ n_seen (n_s n) = [SEND_MSG; RDMA_MSG_W].

Local Abbreviation plays_out_part sd p k :=
  (plays P cfgs sd p (left_of sd k) (fun rc es => rc = 0 ∧ es = [])).

Lemma local_answer sd c : ∃ a, local P sd c a.
Proof.
  destruct c; cbn;
    first [by exists tt | by exists ""%string | by exists 0 | by exists (0, 0) | by exists (0, @nil Z)
          | by exists (Some 0) | by exists (0, Wc 0 0) | by exists (Some (p_mr (P sd)))
          | by exists (0, Some (0, [Addrinfo 0 0 0 0])); eexists _, _ | by eexists].
Qed.

Lemma left_next sd k e es : left_of sd k = e :: es → es = left_of sd (S k) ∧ next_event sd k = amove sd e.
Proof.
  unfold left_of, next_event. intros H. split.
  - rewrite <- (Nat.add_1_r k), <- drop_drop, H. done.
  - unfold left_of. by rewrite H.
Qed.
Lemma net_call_local sd c n x n' :
  shared c = false → net_call P sd c n x n' ↔ local P sd c x ∧ n' = n.
Proof. by destruct c. Qed.

(** A call that is no event changes nothing the parts see. *)
Lemma silent_step sd c (k : rdma_ans c → io Z) f n es Q :
  shared c = false → plays P cfgs sd (Do (E := rdma) c k) es Q → models f n →
  (∃ x f', fcall sd c f x f')
  ∧ ∀ x f', fcall sd c f x f' → models f' n ∧ plays P cfgs sd (k x) es Q.
Proof.
  intros Hc Hp Hm. cbn [plays] in Hp. rewrite Hc in Hp. split.
  - destruct (local_answer sd c) as [x Hx]. eapply fcall_live; [done|]. by apply net_call_local.
  - intros x f' Hf. destruct (fcall_sound _ _ _ _ _ _ Hm Hf) as (n' & Hn & Hm').
    apply net_call_local in Hn as [Hx ->]; [|done]. split; [done|]. by apply Hp.
Qed.

(** A call that is one moves the parts along. *)
Lemma event_step sd c (k : rdma_ans c → io Z) f n a i Q :
  shared c = true → plays P cfgs sd (Do (E := rdma) c k) (left_of sd i) Q → models f n → rep P cfgs n a →
  match next_event sd i a with
  | Go a' =>
      (∃ x f', fcall sd c f x f')
      ∧ ∀ x f', fcall sd c f x f' →
          ∃ n', models f' n' ∧ rep P cfgs n' a' ∧ plays P cfgs sd (k x) (left_of sd (S i)) Q
  | Wait => ∀ x f', ¬ fcall sd c f x f'
  | Bad => True
  end.
Proof.
  intros Hc Hp Hm HR. cbn [plays] in Hp. rewrite Hc in Hp.
  destruct (left_of sd i) as [|e es] eqn:El; [done|]. destruct Hp as [Hl Hk].
  destruct (left_next _ _ _ _ El) as [-> ->]. pose proof (call_sim P cfgs F sd e c n a HR Hl) as Hs.
  unfold simulated in Hs. destruct (amove sd e a) as [a'| |]; [|intros x f' Hf|done].
  - destruct Hs as [(x & n' & Hn) Hs]. split; [by eapply fcall_live|]. intros y f' Hf.
    destruct (fcall_sound _ _ _ _ _ _ Hm Hf) as (n2 & Hn2 & Hm2). destruct (Hs _ _ Hn2) as [Hr HR2].
    exists n2. split_and!; auto.
  - destruct (fcall_sound _ _ _ _ _ _ Hm Hf) as (n2 & Hn2 & _). by eapply Hs.
Qed.

(** The two programs are where the parts are. *)
Definition related (s : astate) (x : sys) : Prop :=
  let '(kc, ks, a) := s in
  let '(pc, ps, f) := x in
  (∃ n, models f n ∧ rep P cfgs n a) ∧ plays_out_part Client pc kc ∧ plays_out_part Server ps ks.
(** A program at an event, done, or at a call that is no event. *)
Lemma plays_cases sd (p : io Z) i :
  plays_out_part sd p i →
  (p = Ret 0 ∧ left_of sd i = [])
  ∨ ∃ c k, p = Do (E := rdma) c k ∧ (shared c = true → left_of sd i ≠ []).
Proof.
  intros Hp. destruct p as [rc| | |c k]; cbn [plays] in Hp; [|done..|].
  - left. by destruct Hp as [-> ?].
  - right. exists c, k. split; [done|]. intros Hc. rewrite Hc in Hp. by destruct (left_of sd i).
Qed.

Lemma side_step_exists sd c (k : rdma_ans c → io Z) i f n a :
  plays_out_part sd (Do (E := rdma) c k) i → models f n → rep P cfgs n a →
  shared c = false ∨ (∃ a', next_event sd i a = Go a') →
  ∃ x f', fcall sd c f x f'.
Proof.
  intros Hp Hm HR Hgo. destruct (shared c) eqn:Hc.
  - destruct Hgo as [|[a' Hg]]; [done|]. pose proof (event_step sd c k f n a i _ Hc Hp Hm HR) as H.
    rewrite Hg in H. apply H.
  - by destruct (silent_step sd c k f n _ _ Hc Hp Hm).
Qed.

(** Done, or not stuck. *)
Lemma can_step kc ks a x :
  asafe (kc, ks, a) = true → agood (kc, ks, a) = true ∨ asuccs (kc, ks, a) ≠ [] →
  related (kc, ks, a) x → exchanged x ∨ ∃ x', sys_step x x'.
Proof.
  destruct x as [[pc ps] f]. intros Hsafe Hor ((n & Hm & HR) & Hpc & Hps).
  apply asafe_in in Hsafe as (_ & _ & Hown).
  destruct (plays_cases _ _ _ Hpc) as [[-> Lc]|(c1 & k1 & -> & Lc)];
  destruct (plays_cases _ _ _ Hps) as [[-> Ls]|(c2 & k2 & -> & Ls)].
  all: try (destruct (shared c1) eqn:E1; [|right;
    destruct (side_step_exists Client c1 k1 kc f n a) as (v & f' & Hf); [auto..|];
    eexists; by eapply step_client]).
  all: try (destruct (shared c2) eqn:E2; [|right;
    destruct (side_step_exists Server c2 k2 ks f n a) as (v & f' & Hf); [auto..|];
    eexists; by eapply step_server]).
  all: destruct Hor as [Hg|Hne].
  all: try (destruct (agood_quiet _ _ _ Hg) as (_ & _ & Gc & Gs & Sc & Ss)).
  1: { left. split; [done|]. split; [done|]. exists n. split; [done|].
       pose proof (r_seen _ _ _ _ _ (r_half _ _ _ _ HR Client)) as Tc.
       pose proof (r_seen _ _ _ _ _ (r_half _ _ _ _ HR Server)) as Ts. cbn in Tc, Ts. by rewrite Tc, Ts. }
  all: try (exfalso; naive_solver).
  all: right; destruct (asuccs (kc, ks, a)) as [|s' ss] eqn:Es; [done|].
  all: assert (s' ∈ asuccs (kc, ks, a)) as Hin by (rewrite Es; left).
  all: apply asuccs_in in Hin as [(a' & Hg & _)|[(a' & Hg & _)|(sd & a' & Hg & _)]].
  all: try (destruct (proj2 (own_sim P cfgs F sd n a HR (proj1 (Hown sd)) (proj2 (Hown sd))) a' Hg) as [n' Hn'];
    destruct (fown_live sd f n n' Hm Hn') as [f' Hf]; eexists; by eapply step_own).
  all: try (unfold next_event in Hg; rewrite ?Lc, ?Ls in Hg; done).
  all: first [destruct (side_step_exists Client c1 k1 kc f n a) as (v & f' & Hf); [by eauto..|];
      eexists; by eapply step_client
    | destruct (side_step_exists Server c2 k2 ks f n a) as (v & f' & Hf); [by eauto..|];
      eexists; by eapply step_server].
Qed.
(** A step either moves the parts, or is a call that is no event. *)
Lemma after_step kc ks a pc ps f x' :
  asafe (kc, ks, a) = true → related (kc, ks, a) (pc, ps, f) → sys_step (pc, ps, f) x' →
  (∃ s', s' ∈ asuccs (kc, ks, a) ∧ related s' x')
  ∨ related (kc, ks, a) x'
    ∧ ((∃ c k v f', pc = Do (E := rdma) c k ∧ x' = (k v, ps, f'))
       ∨ (∃ c k v f', ps = Do (E := rdma) c k ∧ x' = (pc, k v, f'))).
Proof.
  intros Hsafe ((n & Hm & HR) & Hpc & Hps) Hstep. apply asafe_in in Hsafe as (Bc & Bs & Hown).
  inversion Hstep as [c k ps' f1 v f' Hf|pc' c k f1 v f' Hf|sd pc' ps' f1 f' Hf]; subst.
  - destruct (shared c) eqn:Hc.
    + left. pose proof (event_step Client c k f n a kc _ Hc Hpc Hm HR) as He.
      destruct (next_event Client kc a) as [a'| |] eqn:Eg; [|by destruct (He _ _ Hf)|done].
      destruct (proj2 He _ _ Hf) as (n' & Hm' & HR' & Hp'). exists (S kc, ks, a').
      split; [apply asuccs_in; eauto|]. split; [eauto|done].
    + right. destruct (silent_step Client c k f n _ _ Hc Hpc Hm) as [_ Hs].
      destruct (Hs _ _ Hf) as [Hm' Hp']. split; [split; [eauto|done]|]. left. by eexists _, _, _, _.
  - destruct (shared c) eqn:Hc.
    + left. pose proof (event_step Server c k f n a ks _ Hc Hps Hm HR) as He.
      destruct (next_event Server ks a) as [a'| |] eqn:Eg; [|by destruct (He _ _ Hf)|done].
      destruct (proj2 He _ _ Hf) as (n' & Hm' & HR' & Hp'). exists (kc, S ks, a').
      split; [apply asuccs_in; eauto 10|]. split; [eauto|done].
    + right. destruct (silent_step Server c k f n _ _ Hc Hps Hm) as [_ Hs].
      destruct (Hs _ _ Hf) as [Hm' Hp']. split; [split; [eauto|done]|]. right. by eexists _, _, _, _.
  - left. destruct (Hown sd) as [B1 B2]. destruct (fown_sound _ _ _ _ Hm Hf) as (n' & Hn & Hm').
    destruct (proj1 (own_sim P cfgs F sd n a HR B1 B2) n' Hn) as (a' & Ha & HR').
    exists (kc, ks, a'). split; [apply asuccs_in; eauto 10|]. split; [eauto|done].
Qed.

(** What is left of a program after an answer is smaller. *)
Definition after_call (p q : io Z) : Prop :=
  match q with Do c k => ∃ v, p = k v | _ => False end.
Lemma after_call_wf p : Acc after_call p.
Proof.
  induction p as [rc| | |c k IH]; constructor; intros q Hq; cbn in Hq; [destruct Hq..|].
  destruct Hq as [v ->]. apply IH.
Qed.

Lemma runs_end s : aends s → ∀ x, related s x → ends sys_step exchanged x.
Proof.
  intros Hs. induction Hs as [s Hg|s Hsafe Hne _ IH]; destruct s as [[kc ks] a].
  2: assert (agood (kc, ks, a) = true ∨ asuccs (kc, ks, a) ≠ []) as Hor by (right; exact Hne).
  1: destruct (agood_quiet _ _ _ Hg) as (Hsafe & Hnil & _);
     assert (agood (kc, ks, a) = true ∨ asuccs (kc, ks, a) ≠ []) as Hor by (left; exact Hg);
     assert (∀ s', s' ∈ asuccs (kc, ks, a) → ∀ x, related s' x → ends sys_step exchanged x) as IH
       by (rewrite Hnil; intros ? []%not_elem_of_nil).
  all: intros [[pc ps] f]; revert ps f; induction (after_call_wf pc) as [pc _ IHc]; intros ps.
  all: induction (after_call_wf ps) as [ps _ IHs]; intros f Hr.
  all: destruct (can_step _ _ _ _ Hsafe Hor Hr) as [|Hex]; [by apply ends_here|apply ends_later; [done|]].
  all: intros x' Hx; destruct (after_step _ _ _ _ _ _ _ Hsafe Hr Hx)
    as [(s' & Hin & Hr')|(Hr' & [(c & k & v & f' & -> & ->)|(c & k & v & f' & -> & ->)])];
    [exact (IH s' Hin _ Hr')|apply IHc; [by exists v|exact Hr']|apply IHs; [by exists v|exact Hr']].
Qed.

End system.

(** Two hosts with one adapter each, and the options of the two usage lines. *)
Definition party0 (sd : side) : party :=
  let k := match sd with Client => 1 | Server => 2 end in
  Party 4 3 100 ["rxe0"] 200 k (replicate 16 k) 300 400 (k * 4096) (Mr 500 7 (k * 256)) (Qp 600 (16 + k)).
Definition cfgs0 (sd : side) : config_t :=
  match sd with
  | Client => config_default <| gid_idx := 0 |> <| server_name := Some "127.0.0.1" |>
  | Server => config_default <| gid_idx := 0 |>
  end.

Lemma fits0 : fits party0 cfgs0.
Proof. split; intros; try destruct sd; cbn; (lia || done || by eexists). Qed.

