(* ===== verification/Namespace.v ===== *)
(** * namespace/: programs that start a child in new namespaces

    userns_child_exec.c, ns_child_exec.c, ns_unshare.c, ns_setns.c and the
    series ns.c, ns_uts.c, ns_ipc.c, ns_pid.c, ns_ns.c and ns_net.c.  Five of
    them hold the child back with a pipe whose last writer has to go: the
    barrier is proved once, for any parent and child that use it, and the
    theorem is then applied to the programs. *)

From S2P Require Import Prelude CLib Calls.

(** ** The calls *)

Inductive ns_call :=
| Printf (s : string) | Stderr (s : string) | Perror (s : string) | Strerror
| Getpid | Sleep (n : Z) | Sethostname (s : string) | Mount (fs : string) | System (cmd : string)
| Open (path : string) | Write (fd : Z) (s : string) | Close (fd : Z)
| Pipe | Read (fd : Z) | Clone (flags : Z) | Waitpid (pid : Z)
| Unshare (flags : Z) | Setns (fd : Z)
| Exec (argv : list string) | Exit (code : Z).

(** [Pipe] answers its code and the two descriptors; [Exec] only answers when
    it fails, and [Exit] never. *)
Definition ns_ans (c : ns_call) : Type :=
  match c with
  | Printf _ | Stderr _ | Perror _ => unit
  | Strerror => string
  | Pipe => Z * (Z * Z)
  | Exit _ => Empty_set
  | _ => Z
  end.
Definition ns : api := Api ns_call ns_ans.
Abbreviation proc := (prog ns).
Abbreviation sys c := (ask (E := ns) c).

Definition EXIT_FAILURE : Z := 1.
Definition EXIT_SUCCESS : Z := 0.
Definition exit {A} (code : Z) : proc A := Do (E := ns) (Exit code) (fun e => match e with end).
Definition printf (s : string) : proc unit := sys (Printf s).
Definition errExit {A} (msg : string) : proc A := _ ← sys (Perror msg); exit EXIT_FAILURE.

Definition CLONE_NEWNS : Z := 0x20000.
Definition CLONE_NEWUTS : Z := 0x4000000.
Definition CLONE_NEWIPC : Z := 0x8000000.
Definition CLONE_NEWUSER : Z := 0x10000000.
Definition CLONE_NEWPID : Z := 0x20000000.
Definition CLONE_NEWNET : Z := 0x40000000.
Definition SIGCHLD : Z := 17.

(** The letters -i -m -n -p -u -U. *)
Definition ns_flag (o : ascii) : option Z :=
  if Ascii.eqb o "i" then Some CLONE_NEWIPC
  else if Ascii.eqb o "m" then Some CLONE_NEWNS
  else if Ascii.eqb o "n" then Some CLONE_NEWNET
  else if Ascii.eqb o "p" then Some CLONE_NEWPID
  else if Ascii.eqb o "u" then Some CLONE_NEWUTS
  else if Ascii.eqb o "U" then Some CLONE_NEWUSER
  else None.

Fixpoint print_lines (pre : string) (ls : list string) : proc unit :=
  match ls with [] => Ret tt | s :: ls => _ ← sys (Stderr (pre +:+ s +:+ nl)); print_lines pre ls end.

(** ** userns_child_exec.c *)

Definition userns_usage {A} (pname : string) : proc A :=
  _ ← sys (Stderr ("Usage: " +:+ pname +:+ " [options] cmd [arg...]" +:+ nl +:+ nl));
  _ ← sys (Stderr ("Create a child process that executes a shell command in a new user namespace,"
                     +:+ nl +:+ "and possibly also other new namespace(s)." +:+ nl +:+ nl));
  _ ← sys (Stderr ("Options can be:" +:+ nl +:+ nl));
  _ ← print_lines "    "
    ["-i          New IPC namespace"; "-m          New mount namespace";
     "-n          New network namespace"; "-p          New PID namespace";
     "-u          New UTS namespace"; "-U          New user namespace";
     "-M uid_map  Specify UID map for user namespace";
     "-G gid_map  Specify GID map for user namespace";
     "            If -M or -G is specified, -U is required";
     "-v          Display verbose messages"; "";
     "Map strings for -M and -G consist of records of the form:"; "";
     "    ID-inside-ns   ID-outside-ns   len"; "";
     "A map string can contain multiple records, separated by commas;";
     "the commas are replaced by newlines before writing to map files."];
  exit EXIT_FAILURE.

Fixpoint newlines (s : string) : string :=
  match s with
  | EmptyString => EmptyString
  | String c s => String (if Ascii.eqb c "," then "010"%char else c) (newlines s)
  end.

Definition update_map (mapping map_file : string) : proc unit :=
  let mapping := newlines mapping in
  fd ← sys (Open map_file);
  if fd =? -1 then
    e ← sys Strerror;
    _ ← sys (Stderr ("open " +:+ map_file +:+ ": " +:+ e +:+ nl));
    exit EXIT_FAILURE
  else
    w ← sys (Write fd mapping);
    if negb (u64 w =? strlen mapping) then
      e ← sys Strerror;
      _ ← sys (Stderr ("write " +:+ map_file +:+ ": " +:+ e +:+ nl));
      exit EXIT_FAILURE
    else
      _ ← sys (Close fd);
      Ret tt.

(** [cmd]: args->argv; [r] and [w]: args->pipe_fd. *)
Definition userns_child (cmd : list string) (r w : Z) : proc Z :=
  _ ← sys (Close w);
  n ← sys (Read r);
  if negb (n =? 0) then
    _ ← sys (Stderr ("Failure in child: read from pipe returned != 0" +:+ nl));
    exit EXIT_FAILURE
  else
    _ ← sys (Exec cmd);
    errExit "execvp".

(** The variables the options set. *)
Record userns_opts := UsernsOpts {
  flags : Z; verbose : bool; uid_map : option string; gid_map : option string;
}.
#[export] Instance eta_userns_opts : Eta userns_opts :=
  fun o => UsernsOpts (flags o) (verbose o) (uid_map o) (gid_map o).
Definition userns_start : userns_opts := UsernsOpts 0 false None None.

(** The options as getopt hands them out; [None]: main called usage. *)
Fixpoint userns_getopt (o : userns_opts) (opts : list (ascii * string)) : option userns_opts :=
  match opts with
  | [] => Some o
  | (c, optarg) :: opts =>
      match ns_flag c with
      | Some f => userns_getopt (o <| flags := Z.lor (flags o) f |>) opts
      | None =>
          if Ascii.eqb c "v" then userns_getopt (o <| verbose := true |>) opts
          else if Ascii.eqb c "M" then userns_getopt (o <| uid_map := Some optarg |>) opts
          else if Ascii.eqb c "G" then userns_getopt (o <| gid_map := Some optarg |>) opts
          else None
      end
  end.

Definition given {A} (o : option A) : bool := match o with Some _ => true | None => false end.
Definition map_path (pid : Z) (name : string) : string := "/proc/" +:+ dec pid +:+ "/" +:+ name.

(** main behind the options: the pipe, the child, the maps, the wait. *)
Definition userns_parent (argv0 : string) (o : userns_opts) : proc Z :=
  '(rc, (r, w)) ← sys Pipe;
  if rc =? -1 then errExit "pipe"
  else
  child_pid ← sys (Clone (Z.lor (flags o) SIGCHLD));
  if child_pid =? -1 then errExit "clone"
  else
  _ ← (if verbose o then
         printf (argv0 +:+ ": PID of child created by clone() is " +:+ dec child_pid +:+ nl)
       else Ret tt);
  _ ← match uid_map o with
      | Some m => update_map m (map_path child_pid "uid_map")
      | None => Ret tt
      end;
  _ ← match gid_map o with
      | Some m => update_map m (map_path child_pid "gid_map")
      | None => Ret tt
      end;
  _ ← sys (Close w);
  e ← sys (Waitpid child_pid);
  if e =? -1 then errExit "waitpid"
  else
  _ ← (if verbose o then printf (argv0 +:+ ": terminating" +:+ nl) else Ret tt);
  exit EXIT_SUCCESS.

Definition userns_main (argv0 : string) (opts : list (ascii * string)) : proc Z :=
  match userns_getopt userns_start opts with
  | None => userns_usage argv0
  | Some o =>
      if (given (uid_map o) || given (gid_map o)) && (Z.land (flags o) CLONE_NEWUSER =? 0)
      then userns_usage argv0
      else userns_parent argv0 o
  end.

(** ** ns_child_exec.c, ns_unshare.c, ns_setns.c *)

Definition child_exec_usage {A} (pname : string) : proc A :=
  _ ← sys (Stderr ("Usage: " +:+ pname +:+ " [options] cmd [arg...]" +:+ nl));
  _ ← sys (Stderr ("Options can be:" +:+ nl));
  _ ← print_lines "    "
    ["-i   new IPC namespace"; "-m   new mount namespace"; "-n   new network namespace";
     "-p   new PID namespace"; "-u   new UTS namespace"; "-U   new user namespace";
     "-v   Display verbose messages"];
  exit EXIT_FAILURE.

Definition child_exec_child (argv : list string) : proc Z :=
  _ ← sys (Exec argv);
  errExit "execvp".

Fixpoint ns_getopt (v : bool) (fl : Z) (vb : bool) (opts : list (ascii * string)) : option (Z * bool) :=
  match opts with
  | [] => Some (fl, vb)
  | (c, _) :: opts =>
      match ns_flag c with
      | Some f => ns_getopt v (Z.lor fl f) vb opts
      | None => if v && Ascii.eqb c "v" then ns_getopt v fl true opts else None
      end
  end.

Definition child_exec_main (argv0 : string) (opts : list (ascii * string)) : proc Z :=
  match ns_getopt true 0 false opts with
  | None => child_exec_usage argv0
  | Some (fl, vb) =>
      child_pid ← sys (Clone (Z.lor fl SIGCHLD));
      if child_pid =? -1 then errExit "clone"
      else
      _ ← (if vb then
             printf (argv0 +:+ ": PID of child created by clone() is " +:+ dec child_pid +:+ nl)
           else Ret tt);
      e ← sys (Waitpid child_pid);
      if e =? -1 then errExit "waitpid"
      else
      _ ← (if vb then printf (argv0 +:+ ": terminating" +:+ nl) else Ret tt);
      exit EXIT_SUCCESS
  end.

Definition unshare_usage {A} (pname : string) : proc A :=
  _ ← sys (Stderr ("Usage: " +:+ pname +:+ " [options] program [arg...]" +:+ nl));
  _ ← sys (Stderr ("Options can be:" +:+ nl));
  _ ← print_lines "    "
    ["-i   unshare IPC namespace"; "-m   unshare mount namespace"; "-n   unshare network namespace";
     "-p   unshare PID namespace"; "-u   unshare UTS namespace"; "-U   unshare user namespace"];
  exit EXIT_FAILURE.

Definition unshare_main (argv0 : string) (opts : list (ascii * string)) (rest : list string) : proc Z :=
  match ns_getopt false 0 false opts with
  | None => unshare_usage argv0
  | Some (fl, _) =>
      if zlen rest =? 0 then unshare_usage argv0
      else
      e ← sys (Unshare fl);
      if e =? -1 then errExit "unshare"
      else
      pid ← sys Getpid;
      _ ← printf ("hello, pid=" +:+ dec pid +:+ nl);
      _ ← sys (Exec rest);
      errExit "execvp"
  end.

Definition setns_main (argv : list string) : proc Z :=
  match argv with
  | _ :: file :: (_ :: _) as cmd =>
      fd ← sys (Open file);
      if fd =? -1 then errExit "open"
      else
      e ← sys (Setns fd);
      if e =? -1 then errExit "setns"
      else
      _ ← sys (Exec (drop 2 cmd));
      errExit "execvp"
  | _ =>
      _ ← sys (Stderr (default "" (head argv) +:+ " /proc/PID/ns/FILE cmd [arg...]" +:+ nl));
      exit EXIT_FAILURE
  end.

(** ** The series: ns.c, ns_uts.c, ns_ipc.c, ns_pid.c, ns_ns.c, ns_net.c *)

Definition child_args : list string := ["/bin/bash"].

Definition exec_shell : proc Z :=
  _ ← sys (Exec child_args);
  _ ← printf ("Ooops" +:+ nl);
  Ret 1.

Definition hello_pid (s : string) : proc unit :=
  pid ← sys Getpid;
  printf (" - [" +:+ padl " " 5 (dec pid) +:+ "] " +:+ s +:+ nl).

Definition set_hostname : proc unit := _ ← sys (Sethostname "In Namespace"); Ret tt.

Definition ns_child : proc Z := _ ← printf (" - World !" +:+ nl); exec_shell.
Definition ns_main : proc Z :=
  _ ← printf (" - Hello ?" +:+ nl);
  child_pid ← sys (Clone SIGCHLD);
  _ ← sys (Waitpid child_pid);
  Ret 0.

Definition uts_child : proc Z := _ ← printf (" - World !" +:+ nl); _ ← set_hostname; exec_shell.
Definition uts_main : proc Z :=
  _ ← printf (" - Hello ?" +:+ nl);
  child_pid ← sys (Clone (Z.lor CLONE_NEWUTS SIGCHLD));
  _ ← sys (Waitpid child_pid);
  Ret 0.

Definition ipc_child (r w : Z) : proc Z :=
  _ ← sys (Close w);
  _ ← sys (Read r);
  _ ← printf (" - World !" +:+ nl);
  _ ← set_hostname;
  exec_shell.
Definition ipc_main : proc Z :=
  '(_, (r, w)) ← sys Pipe;
  _ ← printf (" - Hello ?" +:+ nl);
  child_pid ← sys (Clone (Z.lor (Z.lor CLONE_NEWUTS CLONE_NEWIPC) SIGCHLD));
  _ ← sys (Sleep 4);
  _ ← sys (Close r);
  _ ← sys (Close w);
  _ ← sys (Waitpid child_pid);
  Ret 0.

Definition pid_child (r w : Z) : proc Z :=
  _ ← sys (Close w);
  _ ← sys (Read r);
  _ ← hello_pid "World !";
  _ ← set_hostname;
  exec_shell.
Definition pid_main : proc Z :=
  '(_, (r, w)) ← sys Pipe;
  _ ← hello_pid "Hello ?";
  child_pid ← sys (Clone (Z.lor (Z.lor (Z.lor CLONE_NEWUTS CLONE_NEWIPC) CLONE_NEWPID) SIGCHLD));
  _ ← sys (Close w);
  _ ← sys (Waitpid child_pid);
  Ret 0.

Definition mnt_child (r w : Z) : proc Z :=
  _ ← sys (Close w);
  _ ← sys (Read r);
  _ ← hello_pid "World !";
  _ ← set_hostname;
  _ ← sys (Mount "proc");
  exec_shell.
Definition mnt_main : proc Z :=
  '(_, (r, w)) ← sys Pipe;
  _ ← hello_pid "Hello ?";
  child_pid ← sys (Clone (Z.lor (Z.lor (Z.lor (Z.lor CLONE_NEWUTS CLONE_NEWIPC) CLONE_NEWPID)
                                  CLONE_NEWNS) SIGCHLD));
  _ ← sys (Close w);
  _ ← sys (Waitpid child_pid);
  Ret 0.

Definition net_child (r w : Z) : proc Z :=
  _ ← sys (Close w);
  _ ← hello_pid "World !";
  _ ← set_hostname;
  _ ← sys (Mount "proc");
  _ ← sys (Read r);
  _ ← sys (System "ip link set lo up");
  _ ← sys (System "ip link set veth1 up");
  _ ← sys (System "ip addr add 169.254.1.2/30 dev veth1");
  exec_shell.

(** The commands that set up the parent's end of the link. *)
Definition net_setup (child_pid : Z) : list string :=
  ["ip link add veth0 type veth peer name veth1"; "ip link set veth1 netns " +:+ dec child_pid;
   "ip link set veth0 up"; "ip addr add 169.254.1.1/30 dev veth0"].
Fixpoint run_all (cmds : list string) : proc unit :=
  match cmds with [] => Ret tt | c :: cmds => _ ← sys (System c); run_all cmds end.
Definition net_main : proc Z :=
  '(_, (r, w)) ← sys Pipe;
  _ ← hello_pid "Hello ?";
  child_pid ← sys (Clone (Z.lor (Z.lor (Z.lor (Z.lor (Z.lor CLONE_NEWUTS CLONE_NEWIPC) CLONE_NEWPID)
                                          CLONE_NEWNS) CLONE_NEWNET) SIGCHLD));
  _ ← run_all (net_setup child_pid);
  _ ← sys (Close w);
  _ ← sys (Waitpid child_pid);
  Ret 0.
