(* ===== verification/NsBarrier.v ===== *)
(** * namespace/: the pipe as a barrier

    The two processes of the programs in namespace/ under the kernel: the
    parent, the child it clones, and the pipe.  A read from the pipe returns 0
    when no process has its write end open any more.  [barrier] holds for any
    parent that closes its end once its set-up is done and for any child that
    reads before it goes on; the programs are instances. *)

From S2P Require Import Prelude CLib Calls Namespace.

(** What a process does to the world. *)
Inductive effect :=
| Wrote (path s : string) | Ran (cmd : string) | Slept (n : Z) | Named | Mounted
| Execed (argv : list string).

(** The parent: the pipe's descriptors, its own write end, its open files, what
    it has done, the child's pid, and its exit code. *)
Record pst := Pst {
  made : option (Z * Z); par_w : bool; files : list (Z * string); p_log : list effect;
  kid : option Z; gone : option Z;
}.
#[export] Instance eta_pst : Eta pst :=
  fun p => Pst (made p) (par_w p) (files p) (p_log p) (kid p) (gone p).
Definition pst0 : pst := Pst None false [] [] None None.

(** The child: its write end, whether it has read the end of the pipe, and what
    it has done. *)
Record cst := Cst { chi_w : bool; eof : bool; c_log : list effect }.
#[export] Instance eta_cst : Eta cst := fun c => Cst (chi_w c) (eof c) (c_log c).
Definition cst0 : cst := Cst false false [].

Definition own_fd (p : pst) (fd : Z) : bool :=
  existsb (fun f => fd =? f.1) (files p)
  || match made p with Some (r, w) => (fd =? r) || (fd =? w) | None => false end.

Definition effect_of (c : ns_call) : list effect :=
  match c with
  | System cmd => [Ran cmd]
  | Sleep n => [Slept n]
  | Sethostname _ => [Named]
  | Mount _ => [Mounted]
  | _ => []
  end.

(** [faults]: pipe() may fail and a read may be interrupted. *)
Section kernel.
Context (faults : bool).

(** A call of the parent, other than exit and waitpid. *)
Definition par_call (c : ns_call) (p : pst) : ns_ans c → pst → Prop :=
  match c with
  | Pipe => fun a p' =>
      (∃ r w, a = (0, (r, w)) ∧ r ≠ w ∧ own_fd p r = false ∧ own_fd p w = false
              ∧ p' = p <| made := Some (r, w) |> <| par_w := true |>)
      ∨ (faults = true ∧ a.1 = -1 ∧ p' = p)
  | Open path => fun a p' =>
      (a = -1 ∧ p' = p)
      ∨ (0 ≤ a ∧ own_fd p a = false ∧ p' = p <| files := (a, path) :: files p |>)
  | Write fd s => fun a p' =>
      (a = strlen s ∧ ∃ path, (fd, path) ∈ files p ∧ p' = p <| p_log := p_log p ++ [Wrote path s] |>)
      ∨ (-1 ≤ a < strlen s ∧ p' = p)
  | Close fd => fun _ p' =>
      p' = match made p with
           | Some (_, w) => if fd =? w then p <| par_w := false |>
                            else p <| files := filter (fun f => f.1 ≠ fd) (files p) |>
           | None => p <| files := filter (fun f => f.1 ≠ fd) (files p) |>
           end
  | Clone _ => fun a p' => (a = -1 ∧ p' = p) ∨ (0 < a ∧ p' = p <| kid := Some a |>)
  | Exec _ => fun a p' => a = -1 ∧ p' = p
  | c => fun _ p' => p' = p <| p_log := p_log p ++ effect_of c |>
  end.

(** A call of the child, other than exit; [open]: the parent's end is open. *)
Definition chi_call (r w : Z) (open : bool) (c : ns_call) (s : cst) : ns_ans c → cst → Prop :=
  match c with
  | Read fd => fun a s' =>
      (fd = r ∧ a = 0 ∧ open = false ∧ chi_w s = false ∧ s' = s <| eof := true |>)
      ∨ ((faults = true ∨ fd ≠ r) ∧ a ≠ 0 ∧ s' = s)
  | Close fd => fun _ s' => s' = if fd =? w then s <| chi_w := false |> else s
  | Exec _ => fun a s' => a = -1 ∧ s' = s
  | c => fun _ s' => s' = s <| c_log := c_log s ++ effect_of c |>
  end.

(** Parent, child and their states; [None]: not started, or gone. *)
Record duo := Duo { par : option (proc Z); chi : option (proc Z); ps : pst; cs : cst }.

Definition quits (code : Z) (p : pst) : pst := p <| gone := Some code |> <| par_w := false |>.

Inductive step (childp : Z → Z → proc Z) : duo → duo → Prop :=
| par_step c k a p p' q s :
    (∀ code, c ≠ Exit code) → (∀ pid, c ≠ Waitpid pid) → par_call c p a p' → kid p' = kid p →
    step childp (Duo (Some (Do (E := ns) c k)) q p s) (Duo (Some (k a)) q p' s)
| par_clone fl k pid p q s r w :
    0 < pid → kid p = None → made p = Some (r, w) →
    step childp (Duo (Some (Do (E := ns) (Clone fl) k)) q p s)
      (Duo (Some (k pid)) (Some (childp r w)) (p <| kid := Some pid |>) (Cst (par_w p) false []))
| par_wait pid k a p s :
    step childp (Duo (Some (Do (E := ns) (Waitpid pid) k)) None p s) (Duo (Some (k a)) None p s)
| par_exit code k p q s :
    step childp (Duo (Some (Do (E := ns) (Exit code) k)) q p s) (Duo None q (quits code p) s)
| par_return code p q s :
    step childp (Duo (Some (Ret code)) q p s) (Duo None q (quits code p) s)
| chi_step c k a r w p q s s' :
    (∀ code, c ≠ Exit code) → made p = Some (r, w) → chi_call r w (par_w p) c s a s' →
    step childp (Duo q (Some (Do (E := ns) c k)) p s) (Duo q (Some (k a)) p s')
| chi_exec argv k p q s :
    step childp (Duo q (Some (Do (E := ns) (Exec argv) k)) p s)
      (Duo q None p (s <| c_log := c_log s ++ [Execed argv] |>))
| chi_exit code k p q s :
    step childp (Duo q (Some (Do (E := ns) (Exit code) k)) p s) (Duo q None p s)
| chi_return code p q s : step childp (Duo q (Some (Ret code)) p s) (Duo q None p s).

Definition reach (main : proc Z) (childp : Z → Z → proc Z) : duo → Prop :=
  rtc (step childp) (Duo (Some main) None pst0 cst0).
End kernel.

(** ** What the barrier asks of the two programs *)

Section barrier.
Context (faults : bool).
(** What the parent has to do before it lets the child go, by the child's pid;
    which codes excuse it; and what the child does only afterwards. *)
Context (expected : Z → list effect) (excused : Z → bool) (guarded : effect → bool).

Definition setup (p : pst) : Prop := ∃ pid, kid p = Some pid ∧ expected pid `prefix_of` p_log p.
Definition released (p : pst) : Prop :=
  setup p ∨ ∃ code, gone p = Some code ∧ excused code = true.

(** The parent on its own: it clones once and with its end open, closes its end
    and waits when the set-up is done, and leaves before that only with an
    excuse. *)
Definition par_proper (c : ns_call) (p : pst) : Prop :=
  match c with
  | Pipe => made p = None ∧ kid p = None
  | Clone _ => kid p = None ∧ par_w p = true
  | Close fd => match made p with Some (_, w) => fd = w → kid p = None ∨ setup p | None => True end
  | Waitpid _ => par_w p = false
  | Exit code => kid p = None ∨ setup p ∨ excused code = true
  | _ => True
  end.
Definition par_done (_ : Z) (p : pst) : Prop := kid p = None ∨ setup p.
Abbreviation par_ok p s := (wpr (E := ns) par_proper (par_call faults) p s par_done).

(** The child on its own: it reads with its write end closed, and does guarded
    things only when it has read the end of the pipe. *)
Definition chi_proper (r w : Z) (c : ns_call) (s : cst) : Prop :=
  match c with
  | Read fd => fd = r ∧ chi_w s = false
  | Exec argv => guarded (Execed argv) = true → eof s = true
  | Clone _ | Pipe => False
  | c => Forall (fun e => guarded e = true → eof s = true) (effect_of c)
  end.
Definition chi_post (r w : Z) (c : ns_call) (s : cst) (a : ns_ans c) (s' : cst) : Prop :=
  ∃ open, chi_call faults r w open c s a s'.
Abbreviation chi_ok r w p s := (wpr (E := ns) (chi_proper r w) (chi_post r w) p s (fun _ _ => True)).

(** ** The barrier *)

Context (childp : Z → Z → proc Z).
Hypothesis child_waits : ∀ r w s, r ≠ w → eof s = false → chi_ok r w (childp r w) s.

Record inv (d : duo) : Prop := Inv {
  inv_par : match par d with
            | Some p => par_ok p (ps d) ∧ gone (ps d) = None
            | None => is_Some (gone (ps d)) ∧ par_w (ps d) = false
            end;
  inv_open : par_w (ps d) = false → kid (ps d) = None ∨ released (ps d);
  inv_kid : kid (ps d) ≠ None → made (ps d) ≠ None;
  inv_pipe : ∀ r w, made (ps d) = Some (r, w) → r ≠ w;
  inv_chi : ∀ q, chi d = Some q →
    kid (ps d) ≠ None ∧ ∃ r w, made (ps d) = Some (r, w) ∧ chi_ok r w q (cs d);
  inv_eof : eof (cs d) = true → par_w (ps d) = false ∧ kid (ps d) ≠ None;
  inv_log : ∀ e, e ∈ c_log (cs d) → guarded e = true → eof (cs d) = true;
}.

(** What a call of the parent leaves alone. *)
Lemma par_call_frame c p a p' :
  par_call faults c p a p' →
  p_log p `prefix_of` p_log p' ∧ gone p' = gone p
  ∧ (made p' = made p ∨ ∃ fl, c = Pipe ∧ fl = made p')
  ∧ (par_w p' = par_w p ∨ c = Pipe ∨ (par_w p' = false ∧ ∃ r w, made p = Some (r, w) ∧ c = Close w)).
Proof.
  assert (p_log p `prefix_of` p_log p) as Hp by done.
  destruct c; cbn; try (intros ->; cbn; split_and!; [by eexists|auto..]; fail).
  - intros [(-> & ->)|(_ & _ & ->)]; cbn; auto.
  - intros [(_ & path & _ & ->)|(_ & ->)]; cbn; [split_and!; [by eexists|auto..]|auto].
  - destruct (made p) as [[r w]|] eqn:Em; intros ->; cbn; [|auto].
    destruct (Z.eqb_spec fd w) as [->|]; cbn; rewrite ?Em; split_and!; auto. right; right. eauto.
  - intros [(r & w & _ & _ & _ & _ & ->)|(_ & _ & ->)]; cbn; split_and!; eauto.
  - intros [(_ & ->)|(_ & ->)]; cbn; auto.
  - intros (_ & ->). auto.
Qed.

Lemma setup_frame p p' :
  setup p → kid p' = kid p → p_log p `prefix_of` p_log p' → setup p'.
Proof. intros (pid & Hk & He) Hk' Hl. exists pid. split; [congruence|]. by etrans. Qed.

Lemma chi_call_frame r w open c s a s' :
  chi_call faults r w open c s a s' → chi_proper r w c s →
  (eof s' = eof s ∨ (eof s' = true ∧ open = false))
  ∧ ∀ e, e ∈ c_log s' → e ∈ c_log s ∨ (guarded e = true → eof s = true).
Proof.
  destruct c; cbn; try (intros -> Hp; cbn; split; [auto|];
    intros e [?|He]%elem_of_app; [auto|right; rewrite Forall_forall in Hp; by apply Hp]; fail).
  - intros -> _. case_match; cbn; auto.
  - done.
  - intros [(-> & -> & -> & _ & ->)|(_ & _ & ->)] _; cbn; auto.
  - done.
  - intros [_ ->] _. auto.
Qed.

Lemma inv_init main : par_ok main pst0 → inv (Duo (Some main) None pst0 cst0).
Proof. intros H. split; cbn; try done; auto. by intros e He%not_elem_of_nil. Qed.

Lemma inv_step d d' : inv d → step faults childp d d' → inv d'.
Proof.
  intros [Hp Ho Hk Hr Hc He Hl] Hs.
  destruct Hs as [c k a p p' q s Hnx Hnw Hcall Hkid|fl k pid p q s r w Hpid Hnk Hm|pid k a p s
    |code k p q s|code p q s|c k a r w p q s s' Hnx Hm Hcall|argv k p q s|code k p q s|code p q s];
    cbn in *.
  - destruct Hp as [[Hpr Hpk] Hg]. destruct (par_call_frame _ _ _ _ Hcall) as (Hlog & Hg' & Hm & Hw).
    assert (kid p ≠ None → c ≠ Pipe) as Hnp.
    { intros Hne ->. cbn in Hpr. tauto. }
    split; cbn.
    + split; [by apply Hpk|congruence].
    + intros Hw'. rewrite Hkid. destruct (kid p) as [pid|] eqn:Ek; [right|by left].
      destruct Hw as [Hw|[->|(_ & r & w & Em & ->)]]; [|by destruct (Hnp ltac:(done))|].
      * destruct Ho as [?|[Hset|(code & Hcode & _)]]; [congruence|done| |congruence].
        left. eapply setup_frame; [done|congruence|done].
      * cbn in Hpr. rewrite Em in Hpr. destruct (Hpr eq_refl) as [?|Hset]; [congruence|].
        left. eapply setup_frame; [done|congruence|done].
    + rewrite Hkid. intros Hne. destruct Hm as [->|(? & -> & _)]; [auto|by destruct (Hnp Hne)].
    + intros r w Em. destruct Hm as [Hm|(? & -> & _)]; [apply Hr; congruence|].
      cbn in Hcall. destruct Hcall as [(r' & w' & _ & Hrw & _ & _ & ->)|(_ & _ & ->)]; cbn in Em; [congruence|auto].
    + intros x Hx. rewrite Hkid. destruct (Hc x Hx) as (Hne & r & w & Em & Hok). split; [done|].
      exists r, w. split; [|done]. destruct Hm as [->|(? & -> & _)]; [done|by destruct (Hnp Hne)].
    + intros Heof. destruct (He Heof) as [Hw0 Hne]. rewrite Hkid. split; [|done].
      destruct Hw as [->|[->|[Hw _]]]; [done|by destruct (Hnp Hne)|done].
    + done.
  - destruct Hp as [[[Hpk Hpw] Hpn] Hg]. split; cbn; try done.
    + split; [|done]. apply (Hpn pid). cbn. by right.
    + intros Hw. congruence.
    + congruence.
    + intros x [= <-]. split; [done|]. exists r, w. split; [done|]. apply child_waits; [by apply Hr|done].
    + by intros e Hx%not_elem_of_nil.
  - destruct Hp as [[Hpr Hpk] Hg]. split; cbn; try done. split; [|done]. apply Hpk.
    destruct p; cbn. by rewrite app_nil_r.
  - destruct Hp as [[Hpr _] Hg]. split; cbn; try done.
    + intros _. destruct Hpr as [?|[?|?]]; [by left|by right; left|right; right; eauto].
    + intros Heof. by destruct (He Heof).
  - destruct Hp as [Hq Hg]. split; cbn; try done.
    + intros _. destruct Hq as [?|?]; [by left|right; by left].
    + intros Heof. by destruct (He Heof).
  - destruct (Hc _ eq_refl) as (Hne & r' & w' & Em & [Hpr Hpk]). assert (r' = r ∧ w' = w) as [-> ->] by (split; congruence).
    destruct (chi_call_frame _ _ _ _ _ _ _ Hcall Hpr) as (Heof & Hlog). split; cbn; try done.
    + intros x [= <-]. split; [done|]. exists r, w. split; [done|]. apply Hpk. by exists (par_w p).
    + intros Ht. destruct Heof as [E|[_ Hw]]; [apply He; congruence|done].
    + intros e Hin Hgd. destruct (Hlog e Hin) as [Hin'|Hx]; destruct Heof as [->|[-> _]]; auto.
      by apply (Hl e).
  - destruct (Hc _ eq_refl) as (Hne & r & w & Em & [Hpr _]). split; cbn; try done.
    intros e [Hin|Hin]%elem_of_app Hgd; [by apply (Hl e)|]. apply list_elem_of_singleton in Hin as ->. auto.
  - split; cbn; done.
  - split; cbn; done.
Qed.

Lemma reach_inv main d : par_ok main pst0 → reach faults main childp d → inv d.
Proof.
  intros Hmain. apply (rtc_ind_r inv); [by apply inv_init|]. intros x y _ Hs Hx. by eapply inv_step.
Qed.

(** Nothing guarded happens in the child before the parent's set-up, or its
    excused exit. *)
Lemma barrier main d :
  par_ok main pst0 → reach faults main childp d →
  ∀ e, e ∈ c_log (cs d) → guarded e = true → released (ps d).
Proof.
  intros Hmain Hr e He Hg. pose proof (reach_inv _ _ Hmain Hr) as Hd.
  destruct (inv_eof _ Hd) as [Hw Hk]; [by eapply inv_log|]. by destruct (inv_open _ Hd Hw).
Qed.
(** Nobody waits for ever: while a process is left, some process can go on. *)
Lemma fresh_fd (p : pst) (n : Z) : ∃ x, n < x ∧ own_fd p x = false.
Proof.
  assert (∃ m, ∀ f, f ∈ files p → f.1 ≤ m) as [m Hm].
  { induction (files p) as [|f l [m IH]]; [by exists 0; intros f ?%not_elem_of_nil|].
    exists (Z.max f.1 m). intros g [->|Hg]%elem_of_cons; [lia|]. specialize (IH g Hg). lia. }
  exists (Z.max m (Z.max n (match made p with Some (r, w) => Z.max r w | None => 0 end)) + 1).
  split; [lia|]. unfold own_fd. apply orb_false_intro.
  - apply not_true_is_false. intros (f & Hf & E)%existsb_exists. apply Z.eqb_eq in E.
    specialize (Hm f ltac:(by apply list_elem_of_In)). lia.
  - destruct (made p) as [[r w]|]; [|done]. apply orb_false_intro; apply Z.eqb_neq; lia.
Qed.

Lemma par_can_call c p :
  (∀ code, c ≠ Exit code) → ∃ a p', par_call faults c p a p' ∧ kid p' = kid p.
Proof.
  intros Hx. destruct c; cbn; try (by eexists tt, _); try (by eexists 0, _); try (by eexists ""%string, _);
    try (eexists (-1), _; split; [by auto|done]); [| | |by destruct (Hx code)].
  - eexists (-1), p. split; [right; split; [pose proof (strlen_nonneg s); lia|done]|done].
  - eexists 0, _. split; [done|]. by repeat case_match.
  - destruct (fresh_fd p 0) as (r & Hr & Fr), (fresh_fd p r) as (w & Hw & Fw).
    eexists (0, (r, w)), _. split; [left; exists r, w; split_and!; [done|lia|done..]|done].
Qed.

Lemma chi_can_step d q :
  inv d → chi d = Some q → par_w (ps d) = false → ∃ d', step faults childp d d'.
Proof.
  intros Hd Hq Hw. destruct (inv_chi _ Hd q Hq) as (_ & r & w & Hm & Hok).
  destruct d as [p q' s t]. cbn in *. subst q'.
  destruct q as [v| | |c k]; [by eexists; apply chi_return|done..|]. destruct Hok as [Hpr _].
  assert (∀ a t', (∀ code, c ≠ Exit code) → chi_call faults r w (par_w s) c t a t' →
    ∃ d', step faults childp (Duo p (Some (Do (E := ns) c k)) s t) d') as Hgo.
  { intros a t' Hx Hc. eexists. by eapply chi_step. }
  destruct c; cbn in Hpr; try done; try (by eapply (Hgo tt)); try (by eapply (Hgo 0)); try (by eapply (Hgo ""%string)).
  - destruct Hpr as [-> Hcw]. eapply (Hgo 0); [done|]. left. by split_and!.
  - eexists. by apply chi_exec.
  - eexists. by apply chi_exit.
Qed.

Lemma par_can_step d p :
  inv d → par d = Some p → chi d = None ∨ par_w (ps d) = true → ∃ d', step faults childp d d'.
Proof.
  intros Hd Hp Hor. pose proof (inv_par _ Hd) as H. rewrite Hp in H. destruct H as [H _].
  destruct d as [p' q s t]. cbn in *. subst p'.
  destruct p as [v| | |c k]; [by eexists; apply par_return|done..|]. destruct H as [Hpr _].
  assert ((∃ code, c = Exit code) ∨ (∃ pid, c = Waitpid pid)
    ∨ ((∀ code, c ≠ Exit code) ∧ ∀ pid, c ≠ Waitpid pid)) as Hc by (destruct c; eauto; right; right; done).
  destruct Hc as [[code ->]|[[pid ->]|[Hx Hw]]].
  - eexists. by apply par_exit.
  - cbn in Hpr. destruct Hor as [->|?]; [|congruence]. eexists. by apply (par_wait _ _ _ _ 0).
  - destruct (par_can_call c s Hx) as (a & s' & Hc & Hk). eexists. by eapply par_step.
Qed.

Lemma barrier_goes_on main d :
  par_ok main pst0 → reach faults main childp d →
  (∃ d', step faults childp d d') ∨ (par d = None ∧ chi d = None).
Proof.
  intros Hmain Hr. pose proof (reach_inv _ _ Hmain Hr) as Hd. pose proof (inv_par _ Hd) as Hp.
  destruct (par d) as [p|] eqn:Ep, (chi d) as [q|] eqn:Eq; [| | |by right].
  - left. destruct (par_w (ps d)) eqn:Ew; [eapply par_can_step; eauto|by eapply chi_can_step].
  - left. eapply par_can_step; eauto.
  - left. destruct Hp as [_ Hw]. by eapply chi_can_step.
Qed.
End barrier.

(** ** userns_child_exec *)

Section use.
Context (faults : bool) (expected : Z → list effect) (excused : Z → bool) (guarded : effect → bool).
Local Abbreviation par_wp := (wpr (E := ns) (par_proper expected excused) (par_call faults)).

Lemma par_bind {A B} (p : proc A) (f : A → proc B) s Q :
  par_wp p s (fun a s => par_wp (f a) s Q) → par_wp (p ≫= f) s Q.
Proof. apply wpr_bind. Qed.
Lemma par_ask c s (Q : ns_ans c → pst → Prop) :
  par_proper expected excused c s → (∀ a s', par_call faults c s a s' → Q a s') → par_wp (sys c) s Q.
Proof. by split. Qed.
Lemma par_leave {A} code s (Q : A → pst → Prop) :
  kid s = None ∨ setup expected s ∨ excused code = true → par_wp (exit code) s Q.
Proof. intros H. split; [done|]. intros []. Qed.

(** What the parent's position says of its state: the pipe is made and open. *)
Definition holding (s : pst) (log : list effect) (pid : option Z) : Prop :=
  (∃ r w, made s = Some (r, w)) ∧ par_w s = true ∧ p_log s = log ∧ kid s = pid.

Lemma quiet_call c s (Q : ns_ans c → pst → Prop) :
  effect_of c = [] → par_proper expected excused c s →
  match c with Pipe | Open _ | Write _ _ | Close _ | Clone _ | Exec _ | Exit _ => False | _ => True end →
  (∀ a, Q a s) → par_wp (sys c) s Q.
Proof.
  intros He Hp Hc HQ. apply par_ask; [done|]. intros a s' Hs.
  assert (s' = s) as ->; [|done].
  destruct c; try done; cbn in He, Hs; subst; destruct s; cbn; by rewrite app_nil_r.
Qed.

Lemma quiet_then {B} c s (f : ns_ans c → proc B) Q :
  effect_of c = [] → par_proper expected excused c s →
  match c with Pipe | Open _ | Write _ _ | Close _ | Clone _ | Exec _ | Exit _ => False | _ => True end →
  (∀ a, par_wp (f a) s Q) → par_wp (sys c ≫= f) s Q.
Proof. intros. apply par_bind. by apply quiet_call. Qed.

Lemma fail_ok {A} (msg : string → string) s (Q : A → pst → Prop) :
  excused EXIT_FAILURE = true →
  par_wp (e ← sys Strerror; _ ← sys (Stderr (msg e)); exit EXIT_FAILURE) s Q.
Proof.
  intros Hx. apply quiet_then; [done..|]. intros e. apply quiet_then; [done..|]. intros _.
  apply par_leave. auto.
Qed.

Lemma strlen_newlines m : strlen (newlines m) = strlen m.
Proof. induction m as [|c m IH]; [done|]. cbn [newlines]. by rewrite !strlen_cons, IH. Qed.

(** The map is written, or the program exits with a failure. *)
Lemma update_map_ok m file s log pid Q :
  excused EXIT_FAILURE = true → strlen m < 2 ^ 63 → holding s log pid →
  (∀ s', holding s' (log ++ [Wrote file (newlines m)]) pid → made s' = made s → Q tt s') →
  par_wp (update_map m file) s Q.
Proof.
  intros Hx Hlen ((r & w & Hm) & Hw & Hlog & Hk) HQ. unfold update_map. apply par_bind, par_ask; [done|].
  intros fd s1 [[-> ->]|(Hfd & Hfresh & ->)].
  { by apply (fail_ok (fun e => "open " +:+ file +:+ ": " +:+ e +:+ nl)). }
  replace (fd =? -1) with false by lia. apply par_bind, par_ask; [done|]. pose proof (strlen_nonneg m).
  intros n s1 Hn. cbn [par_call] in Hn. rewrite strlen_newlines in Hn |- *.
  assert (fd ≠ w ∧ ∀ path, (fd, path) ∉ files s) as [Hne Hnf].
  { unfold own_fd in Hfresh. rewrite Hm in Hfresh. apply orb_false_iff in Hfresh as [H1 H2].
    apply orb_false_iff in H2 as [_ H2]. split; [lia|]. intros path Hin.
    assert (existsb (fun f : Z * string => fd =? f.1) (files s) = true) as H3; [|congruence].
    apply existsb_exists. exists (fd, path). split; [by apply list_elem_of_In|apply Z.eqb_refl]. }
  destruct Hn as [(-> & path & Hin & ->)|[Hn ->]].
  - rewrite u64_small, Z.eqb_refl by lia. cbn [negb]. apply par_bind, par_ask.
    { cbn. rewrite Hm. by intros ->. }
    intros rc s2. cbn. rewrite Hm. replace (fd =? w) with false by lia. intros ->. apply HQ; [|done].
    cbn in Hin. apply elem_of_cons in Hin as [[= <-]|Hin]; [|by destruct (Hnf path)].
    split; [by eexists _, _|]. cbn. by rewrite Hlog.
  - replace (u64 n =? strlen m) with false.
    { by apply (fail_ok (fun e => "write " +:+ file +:+ ": " +:+ e +:+ nl)). }
    symmetry. apply Z.eqb_neq. destruct (decide (n = -1)) as [->|]; [change (u64 (-1)) with 18446744073709551615; lia|].
    rewrite u64_small by lia. lia.
Qed.
End use.

(** What -M and -G ask for. *)
Definition user_maps (o : userns_opts) (pid : Z) : list effect :=
  match uid_map o with Some m => [Wrote (map_path pid "uid_map") (newlines m)] | None => [] end
  ++ match gid_map o with Some m => [Wrote (map_path pid "gid_map") (newlines m)] | None => [] end.
Definition is_exec (e : effect) : bool := match e with Execed _ => true | _ => false end.
Definition failure (code : Z) : bool := code =? EXIT_FAILURE.
Definition short (m : option string) : Prop := match m with Some m => strlen m < 2 ^ 63 | None => True end.

Lemma userns_usage_ok faults expected argv0 s :
  kid s = None →
  wpr (E := ns) (par_proper expected failure) (par_call faults) (userns_usage argv0) s (par_done expected).
Proof.
  intros Hk. unfold userns_usage. do 3 (apply quiet_then; [done..|]; intros _). cbn [print_lines].
  apply par_bind. repeat (apply quiet_then; [done..|]; intros _). apply par_leave. auto.
Qed.

Section userns.
Context (faults : bool) (argv0 : string) (o : userns_opts).
Context (Hu : short (uid_map o)) (Hg : short (gid_map o)).
Local Abbreviation par_wp := (wpr (E := ns) (par_proper (user_maps o) failure) (par_call faults)).

Lemma err_exit_ok {A} msg s (Q : A → pst → Prop) : par_wp (errExit msg) s Q.
Proof. unfold errExit. apply quiet_then; [done..|]. intros _. apply par_leave. auto. Qed.

Lemma say_then {B} (b : bool) t s (f : unit → proc B) Q :
  par_wp (f tt) s Q → par_wp ((if b then printf t else Ret tt) ≫= f) s Q.
Proof. intros H. destruct b; [|done]. apply quiet_then; [done..|]. by intros []. Qed.

(** An optional map: written before the program goes on. *)
Lemma map_then {B} (m : option string) file s log pid (f : unit → proc B) Q :
  short m → holding s log pid →
  (∀ s', holding s' (log ++ match m with Some m => [Wrote file (newlines m)] | None => [] end) pid →
     made s' = made s → par_wp (f tt) s' Q) →
  par_wp (match m with Some m => update_map m file | None => Ret tt end ≫= f) s Q.
Proof.
  intros Hs Hh Hf. apply par_bind. destruct m as [m|]; [by eapply update_map_ok|].
  cbn. apply Hf; [by rewrite app_nil_r|done].
Qed.

Lemma userns_parent_ok : par_wp (userns_parent argv0 o) pst0 (par_done (user_maps o)).
Proof.
  unfold userns_parent. apply par_bind, par_ask; [done|].
  intros [rc [r w]] s Hs. cbn in Hs. destruct Hs as [(r' & w' & [= -> -> ->] & Hrw & _ & _ & ->)|(_ & Hrc & ->)].
  2:{ cbn in Hrc. subst rc. apply err_exit_ok. }
  cbn [Z.eqb]. apply par_bind, par_ask; [done|]. intros pid s [[-> ->]|[Hpid ->]]; [apply err_exit_ok|].
  replace (pid =? -1) with false by lia. apply say_then.
  apply (map_then _ _ _ [] (Some pid)); [done|by split; [by eexists _, _|]|]. intros s1 H1 M1.
  eapply map_then; [done|exact H1|]. intros s2 H2 M2.
  destruct H2 as (_ & Hw2 & Hl2 & Hk2).
  assert (setup (user_maps o) s2) as Hset.
  { exists pid. split; [done|]. by rewrite Hl2. }
  apply par_bind, par_ask. { cbn. rewrite M2, M1. cbn. auto. }
  intros rc s3. cbn. rewrite M2, M1. cbn. rewrite Z.eqb_refl. intros ->.
  assert (setup (user_maps o) (s2 <| par_w := false |>)) as Hset' by done.
  apply (quiet_then _ _ _ (Waitpid pid)); [done..|]. intros e. destruct (e =? -1); [apply err_exit_ok|].
  apply say_then, par_leave. auto.
Qed.

Lemma userns_main_ok opts :
  userns_getopt userns_start opts = Some o →
  par_wp (userns_main argv0 opts) pst0 (par_done (user_maps o)).
Proof.
  intros E. unfold userns_main. rewrite E. case_match; [by apply userns_usage_ok|apply userns_parent_ok].
Qed.
End userns.

Lemma chi_bind faults guarded r w {A B} (p : proc A) (f : A → proc B) s Q :
  wpr (E := ns) (chi_proper guarded r w) (chi_post faults r w) p s
    (fun a s => wpr (E := ns) (chi_proper guarded r w) (chi_post faults r w) (f a) s Q) →
  wpr (E := ns) (chi_proper guarded r w) (chi_post faults r w) (p ≫= f) s Q.
Proof. apply wpr_bind. Qed.
Lemma chi_ask faults guarded r w c s (Q : ns_ans c → cst → Prop) :
  chi_proper guarded r w c s → (∀ a s' open, chi_call faults r w open c s a s' → Q a s') →
  wpr (E := ns) (chi_proper guarded r w) (chi_post faults r w) (sys c) s Q.
Proof. intros Hp HQ. split; [done|]. intros a s' [open Hc]. by eapply HQ. Qed.

Ltac chi_go := apply chi_bind, chi_ask; [first [done | by constructor]|].

Lemma userns_child_ok faults cmd r w s :
  r ≠ w → eof s = false →
  wpr (E := ns) (chi_proper is_exec r w) (chi_post faults r w) (userns_child cmd r w) s (fun _ _ => True).
Proof.
  intros Hrw He. unfold userns_child. chi_go. intros x s1 op Hc.
  cbn in Hc. rewrite Z.eqb_refl in Hc. subst s1. chi_go. intros n s2 op2 [(_ & -> & _ & _ & ->)|(_ & Hn & ->)].
  - cbn [Z.eqb negb]. chi_go. intros rc s3 op3 _. unfold errExit.
    chi_go. intros ? s4 op4 _. split; [by constructor|intros []].
  - replace (n =? 0) with false by lia. chi_go. intros ? s3 op3 _. split; [by constructor|intros []].
Qed.

(** C28: userns_child_exec's pipe does what its comments say: in no interleaving
    has the child executed the command before the maps given with -M and -G were
    written, with their commas turned into newlines, unless the parent gave up
    with a failure; and neither process ever waits for the other for good. *)
Theorem userns_maps_before_exec faults argv0 opts o cmd d argv :
  userns_getopt userns_start opts = Some o → short (uid_map o) → short (gid_map o) →
  reach faults (userns_main argv0 opts) (userns_child cmd) d →
  (Execed argv ∈ c_log (cs d) →
   gone (ps d) = Some EXIT_FAILURE
   ∨ ∃ pid, kid (ps d) = Some pid ∧ user_maps o pid `prefix_of` p_log (ps d))
  ∧ ((∃ d', step faults (userns_child cmd) d d') ∨ (par d = None ∧ chi d = None)).
Proof.
  intros Ho Hu Hg Hr. pose proof (userns_main_ok faults argv0 o Hu Hg opts Ho) as Hmain.
  split.
  - intros He. destruct (barrier faults (user_maps o) failure is_exec (userns_child cmd)
      (userns_child_ok faults cmd) _ _ Hmain Hr _ He eq_refl) as [(pid & Hk & Hl)|(code & Hc & Hx)].
    + right. eauto.
    + left. rewrite Hc. unfold failure in Hx. by apply Z.eqb_eq in Hx as ->.
  - exact (barrier_goes_on faults (user_maps o) failure is_exec (userns_child cmd)
      (userns_child_ok faults cmd) _ _ Hmain Hr).
Qed.

(** ** ns_ipc, ns_pid, ns_ns and ns_net *)

Inductive sample_prog := Ipc | Pid | Mnt | Net.
Definition sample_main (x : sample_prog) : proc Z :=
  match x with Ipc => ipc_main | Pid => pid_main | Mnt => mnt_main | Net => net_main end.
Definition sample_child (x : sample_prog) : Z → Z → proc Z :=
  match x with Ipc => ipc_child | Pid => pid_child | Mnt => mnt_child | Net => net_child end.
(** What the parent does while the child is held back. *)
Definition sample_setup (x : sample_prog) (pid : Z) : list effect :=
  match x with Ipc => [Slept 4] | Net => Ran <$> net_setup pid | _ => [] end.
(** What the child does behind the barrier: in ns_net the host name and the
    mount come before it. *)
Definition sample_guarded (x : sample_prog) (e : effect) : bool :=
  match x, e with Net, Named | Net, Mounted => false | _, _ => true end.

Lemma run_all_ok faults expected excused cmds : ∀ s Q,
  Q tt (s <| p_log := p_log s ++ (Ran <$> cmds) |>) →
  wpr (E := ns) (par_proper expected excused) (par_call faults) (run_all cmds) s Q.
Proof.
  induction cmds as [|c cmds IH]; intros s Q HQ; cbn [run_all].
  - cbn in *. rewrite app_nil_r in HQ. by destruct s.
  - apply par_bind, par_ask; [done|]. intros rc s' Hs. cbn in Hs. subst s'. apply IH. cbn.
    by rewrite <- app_assoc.
Qed.

Lemma hello_then faults expected excused {B} t s (f : unit → proc B) Q :
  wpr (E := ns) (par_proper expected excused) (par_call faults) (f tt) s Q →
  wpr (E := ns) (par_proper expected excused) (par_call faults) (hello_pid t ≫= f) s Q.
Proof.
  intros H. apply par_bind. unfold hello_pid. apply quiet_then; [done..|]. intros pid.
  apply quiet_call; [done..|]. by intros [].
Qed.

(** From the pipe on: the end is closed after the set-up, then comes the wait. *)
Lemma close_wait_ok expected (r w pid : Z) s :
  made s = Some (r, w) → kid s = None ∨ setup expected s →
  wpr (E := ns) (par_proper expected (fun _ => false)) (par_call false)
    (_ ← sys (Close w); _ ← sys (Waitpid pid); Ret 0) s (par_done expected).
Proof.
  intros Hm Hs. apply par_bind, par_ask; [cbn; by rewrite Hm|]. intros rc s1 Hc. cbn in Hc.
  rewrite Hm, Z.eqb_refl in Hc. subst s1. apply (quiet_then _ _ _ (Waitpid pid)); [done..|]. intros _. done.
Qed.

Lemma sample_main_ok x :
  wpr (E := ns) (par_proper (sample_setup x) (fun _ => false)) (par_call false) (sample_main x) pst0
    (par_done (sample_setup x)).
Proof.
  destruct x; cbn [sample_main]; unfold ipc_main, pid_main, mnt_main, net_main.
  all: apply par_bind, par_ask; [done|]; intros [rc [r w]] s Hs; cbn in Hs;
    destruct Hs as [(r' & w' & [= -> -> ->] & Hrw & _ & _ & ->)|(? & _)]; [|done].
  1: apply (quiet_then _ _ _ (Printf _)); [done..|]; intros _. 2-4: apply hello_then.
  all: apply par_bind, par_ask; [done|]; intros pid s Hs.
  all: assert (made s = Some (r', w') ∧ p_log s = [] ∧ (kid s = None ∨ kid s = Some pid)) as (Hm & Hl & Hk)
    by (destruct Hs as [[_ ->]|[_ ->]]; cbn; auto).
  - apply par_bind, par_ask; [done|]. intros rc s1 H1. cbn in H1. subst s1.
    apply par_bind, par_ask. { cbn. rewrite Hm. intros ->. done. }
    intros rc1 s2 H2. cbn in H2. rewrite Hm in H2. replace (r' =? w') with false in H2 by lia. subst s2.
    apply (close_wait_ok _ r' w'); [done|]. destruct Hk as [->|Hk]; [by left|right].
    exists pid. split; [done|]. cbn. by rewrite Hl.
  - apply (close_wait_ok _ r' w'); [done|]. destruct Hk as [->|Hk]; [by left|right].
    exists pid. split; [done|]. cbn. apply prefix_nil.
  - apply (close_wait_ok _ r' w'); [done|]. destruct Hk as [->|Hk]; [by left|right].
    exists pid. split; [done|]. cbn. apply prefix_nil.
  - apply par_bind, run_all_ok. apply (close_wait_ok _ r' w'); [done|]. destruct Hk as [Hk|Hk]; [by left|right].
    exists pid. split; [done|]. cbn. by rewrite Hl.
Qed.

(** A call of the child that is none of the pipe's. *)
Lemma chi_plain faults guarded r w c s (Q : ns_ans c → cst → Prop) :
  match c with Read _ | Clone _ | Pipe | Close _ | Exit _ => False | _ => True end →
  chi_proper guarded r w c s → (∀ a s', eof s' = eof s → chi_w s' = chi_w s → Q a s') →
  wpr (E := ns) (chi_proper guarded r w) (chi_post faults r w) (sys c) s Q.
Proof.
  intros Hc Hp HQ. apply chi_ask; [done|]. intros a s' op Hs.
  destruct c; try done; cbn in Hs; try (subst; by apply HQ). destruct Hs as [_ ->]. by apply HQ.
Qed.

Ltac chi_go' := first [chi_go | apply chi_ask; [by split; congruence|]].
Ltac chi_plains :=
  repeat first
    [ apply chi_bind
    | apply chi_plain; [done|solve [by constructor | constructor; [by intros; congruence|by constructor] | by intros; congruence]
                       |intros ? ? ? ?] ].

Lemma sample_child_ok x r w s :
  r ≠ w → eof s = false →
  wpr (E := ns) (chi_proper (sample_guarded x) r w) (chi_post false r w) (sample_child x r w) s (fun _ _ => True).
Proof.
  intros Hrw He.
  destruct x; cbn [sample_child]; unfold ipc_child, pid_child, mnt_child, net_child, hello_pid, set_hostname, exec_shell, printf.
  all: chi_go; intros ? s1 op Hc; cbn in Hc; rewrite Z.eqb_refl in Hc.
  all: assert (chi_w s1 = false ∧ eof s1 = false) as [Hw Hn] by (by subst); clear Hc.
  4: chi_plains.
  all: chi_go'; intros n s2 op2 Hc; cbn in Hc;
    destruct Hc as [(_ & -> & _ & _ & Hs)|([?|?] & _)]; [|done..].
  all: assert (eof s2 = true) by (by subst); clear Hs; chi_plains; done.
Qed.


(** ** Runs *)

(** One step of a run: the call of the parent or of the child, and its answer. *)
Tactic Notation "par_does" uconstr(a) "by" tactic3(tac) :=
  lazymatch goal with |- rtc _ (Duo (Some ?p) _ _ _) _ =>
    let q := eval hnf in p in
    lazymatch q with Do ?c ?k =>
      eapply rtc_l; [refine (par_step _ _ c k a _ _ _ _ _ _ _ _); [discriminate|discriminate|solve [tac]|reflexivity]|]
    end
  end.
Ltac chi_does a :=
  lazymatch goal with |- rtc _ (Duo _ (Some ?p) _ _) _ =>
    let q := eval hnf in p in
    lazymatch q with Do ?c ?k =>
      eapply rtc_l; [refine (chi_step _ _ c k a 3 4 _ _ _ _ _ _ _); [discriminate|reflexivity|]|]
    end
  end.

Definition opts0 : list (ascii * string) := [("U"%char, ""); ("M"%char, "0 1000 1,1 100000 9")].

(** The maps are written and the command runs. *)
Lemma userns_succeeds :
  ∃ d, reach false (userns_main "userns" opts0) (userns_child ["sh"]) d
       ∧ Execed ["sh"] ∈ c_log (cs d) ∧ gone (ps d) = None.
Proof.
  eexists. split.
  - unfold reach.
    par_does (0, (3, 4)) by (left; exists 3, 4; split_and!; [done|lia|done..]).
    eapply rtc_l; [apply (par_clone _ _ _ _ 77 _ _ _ 3 4); [lia|done|done]|].
    par_does 5 by (right; split_and!; [lia|done..]).
    par_does 19 by (left; split; [reflexivity|]; eexists; split; [left|reflexivity]).
    par_does 0 by reflexivity. par_does 0 by reflexivity.
    chi_does 0; [reflexivity|]. chi_does 0; [by left|].
    eapply rtc_l; [apply chi_exec|]. apply rtc_refl.
  - split; [|done]. cbn. left.
Qed.

Lemma userns_maps_before_exec_witness :
  ∃ d, Execed ["sh"] ∈ c_log (cs d) ∧ gone (ps d) = None
    ∧ (gone (ps d) = Some EXIT_FAILURE
       ∨ ∃ pid, kid (ps d) = Some pid
           ∧ user_maps (UsernsOpts CLONE_NEWUSER false (Some "0 1000 1,1 100000 9") None) pid
             `prefix_of` p_log (ps d)).
Proof.
  destruct userns_succeeds as (d & Hr & He & Hg). exists d. split; [exact He|]. split; [exact Hg|].
  refine (proj1 (userns_maps_before_exec false "userns" opts0 _ ["sh"] d ["sh"] _ _ _ Hr) He);
    (reflexivity || exact I).
Defined.

(** When a map cannot be written the parent exits, which closes the pipe: the
    child takes that for its signal and runs the command without the maps. *)
Lemma failed_map_still_execs :
  ∃ d, reach false (userns_main "userns" opts0) (userns_child ["sh"]) d
       ∧ Execed ["sh"] ∈ c_log (cs d) ∧ gone (ps d) = Some EXIT_FAILURE ∧ p_log (ps d) = [].
Proof.
  eexists. split.
  - unfold reach.
    par_does (0, (3, 4)) by (left; exists 3, 4; split_and!; [done|lia|done..]).
    eapply rtc_l; [apply (par_clone _ _ _ _ 77 _ _ _ 3 4); [lia|done|done]|].
    par_does (-1) by (left; split; reflexivity).
    par_does "EACCES"%string by reflexivity. par_does tt by reflexivity.
    eapply rtc_l; [apply par_exit|].
    chi_does 0; [reflexivity|]. chi_does 0; [by left|].
    eapply rtc_l; [apply chi_exec|]. apply rtc_refl.
  - split; [|done]. cbn. left.
Qed.

(** ns_net's child, released, brings its end of the link up. *)
Lemma net_succeeds :
  ∃ d, reach false (sample_main Net) (sample_child Net) d ∧ Ran "ip link set lo up" ∈ c_log (cs d).
Proof.
  eexists. split.
  - unfold reach.
    par_does (0, (3, 4)) by (left; exists 3, 4; split_and!; [done|lia|done..]).
    par_does 76 by reflexivity. par_does tt by reflexivity.
    eapply rtc_l; [apply (par_clone _ _ _ _ 77 _ _ _ 3 4); [lia|done|done]|].
    chi_does 0; [reflexivity|]. chi_does 1; [reflexivity|]. chi_does tt; [reflexivity|].
    do 4 par_does 0 by reflexivity. par_does 0 by reflexivity.
    chi_does 0; [reflexivity|]. chi_does 0; [reflexivity|]. chi_does 0; [by left|].
    chi_does 0; [reflexivity|]. apply rtc_refl.
  - cbn. do 2 right. left.
Qed.

