(* ===== verification/Smemcap.v ===== *)
(** * mem/smem-1.4/smemcap.c: an archive of /proc

    smemcap writes a tar archive of the memory figures of all processes to its
    standard output: a header block per file, the data in blocks of 512 bytes.
    The files, their attributes and the directory are an argument ([proc_sys]);
    the result of the program is the list of blocks it writes.  The theorem:
    a tar reader ([untar], with the checks POSIX asks for) gets back exactly the
    files. *)

From S2P Require Import Prelude CLib CBytes.

(** ** Octal *)

(** The last [n] octal digits of [z], and how many it has. *)
Fixpoint oct_last (n : nat) (z : Z) : list Z :=
  match n with O => [] | S n => oct_last n (z / 8) ++ [48 + z mod 8] end.
Fixpoint oct_len (fuel : nat) (z : Z) : nat :=
  match fuel with
  | O => 1
  | S fuel => if z <? 8 then 1 else S (oct_len fuel (z / 8))
  end.
(** printf's "%0<w>o" of an int: at least [w] digits of the unsigned value. *)
Definition octal (w : nat) (z : Z) : list Z :=
  let z := u32 z in oct_last (w `max` oct_len 11 z) z.

(** ** The header *)

(** sprintf(header + off, ...): the text and its NUL. *)
Definition sprintf (header : list Z) (off : Z) (text : list Z) : res (list Z) :=
  awrite header off (text ++ [0]).

(** A byte read as a signed char. *)
Definition schar (b : Z) : Z := swrap 8 b.

Definition text (s : string) : list Z := zchar <$> String.list_ascii_of_string s.

(** The 512 bytes that writeheader hands to write. *)
Definition writeheader (path : string) (mode uid gid size mtime type : Z) : res (list Z) :=
  let header := replicate 512 0 in
  header ← sprintf header 0 (text path);
  header ← sprintf header 100 (octal 7 (Z.land mode 511));
  header ← sprintf header 108 (octal 7 uid);
  header ← sprintf header 116 (octal 7 gid);
  header ← sprintf header 124 (octal 11 size);
  header ← sprintf header 136 (octal 7 mtime);
  header ← sprintf header 148 (text ("        " +:+ dec type));
  let sum := sum_of schar header in
  sprintf header 148 (octal 6 sum).

(** ** Files *)

Record stat := Stat { st_mode : Z; st_uid : Z; st_gid : Z; st_mtime : Z }.

(** The system: the attributes of an open file, the answers of successive reads
    from it (a count and bytes), the attributes of a directory, and the entries
    of /proc. *)
Record proc_sys := ProcSys {
  fstat_of : string → stat;
  read_of : string → nat → Z * list Z;
  stat_of : string → stat;
  proc_dir : list string;
}.

Section smemcap.
Context (Y : proc_sys).

(** The loop that buffers the file: a calloc'ed block per read.  [None]: the
    fuel ended. *)
Fixpoint read_blocks (fuel : nat) (path : string) (k : nat) (size : Z)
    : res (option (list (list Z) * Z)) :=
  match fuel with
  | O => Done None
  | S fuel =>
      let '(r, bs) := read_of Y path k in
      data ← awrite (replicate 512 0) 0 bs;
      let size := if 0 <? r then i32 (size + r) else size in
      if r =? 512 then
        o ← read_blocks fuel path (S k) size;
        Done (option_map (fun '(blocks, size) => (data :: blocks, size)) o)
      else Done (Some ([data], size))
  end.

(** The loop that writes the blocks, freeing them on the way. *)
Fixpoint dump_blocks (blocks : list (list Z)) (size : Z) : res (list (list Z)) :=
  if 0 <? size then
    match blocks with
    | [] => Wild
    | cur :: blocks =>
        rest ← dump_blocks blocks (size - 512);
        Done (cur :: rest)
    end
  else Done [].

(** The blocks a file adds to the archive. *)
Definition archivefile (fuel : nat) (path : string) : res (option (list (list Z))) :=
  let s := fstat_of Y path in
  o ← read_blocks fuel path 0 0;
  match o with
  | None => Done None
  | Some (blocks, size) =>
      h ← writeheader path (st_mode s) (st_uid s) (st_gid s) size (st_mtime s) 0;
      data ← dump_blocks blocks size;
      Done (Some (h :: data))
  end.

(** sprintf writes into [path[256]]. *)
Definition archivejoin (fuel : nat) (sub name : string) : res (option (list (list Z))) :=
  let path := sub +:+ "/" +:+ name in
  if 256 <? strlen path + 1 then Wild else archivefile fuel path.

(** One after the other, while the fuel lasts. *)
Definition append (a b : res (option (list (list Z)))) : res (option (list (list Z))) :=
  x ← a;
  match x with
  | None => Done None
  | Some x => y ← b; Done (option_map (app x) y)
  end.

Definition is_pid (name : string) : bool :=
  match name with
  | String c _ => (48 <=? zchar c) && (zchar c <=? 57)
  | EmptyString => false
  end.

Definition archive_pid (fuel : nat) (name : string) : res (option (list (list Z))) :=
  let s := stat_of Y name in
  h ← writeheader name 365 (st_uid s) (st_gid s) 0 (st_mtime s) 5;
  append (Done (Some [h]))
    (append (archivejoin fuel name "smaps")
      (append (archivejoin fuel name "cmdline") (archivejoin fuel name "stat"))).

Fixpoint archive_dir (fuel : nat) (names : list string) : res (option (list (list Z))) :=
  match names with
  | [] => Done (Some [])
  | name :: names =>
      if is_pid name then append (archive_pid fuel name) (archive_dir fuel names)
      else archive_dir fuel names
  end.

Definition main (fuel : nat) : res (option (list (list Z))) :=
  append (archivefile fuel "meminfo")
    (append (archivefile fuel "version") (archive_dir fuel (proc_dir Y))).
End smemcap.

(** ** A reader *)

Record entry := Entry {
  name : list Z; mode : Z; uid : Z; gid : Z; size : Z; mtime : Z; typeflag : Z;
}.

(** Up to the first NUL or blank. *)
Fixpoint until_end (bs : list Z) : list Z :=
  match bs with
  | [] => []
  | b :: bs => if (b =? 0) || (b =? 32) then [] else b :: until_end bs
  end.
Fixpoint of_octal (acc : Z) (bs : list Z) : option Z :=
  match bs with
  | [] => Some acc
  | b :: bs => if (48 <=? b) && (b <=? 55) then of_octal (8 * acc + (b - 48)) bs else None
  end.
Definition number (block : list Z) (off len : Z) : option Z :=
  of_octal 0 (until_end (slice block off len)).
Definition c_text (bs : list Z) : list Z :=
  (fix go bs := match bs with [] => [] | b :: bs => if b =? 0 then [] else b :: go bs end) bs.

(** The checksum of a block: the sum of its bytes, with blanks for the checksum
    itself. *)
Definition checksum (block : list Z) : Z :=
  sum_of id (take 148 block) + 8 * 32 + sum_of id (drop 156 block).

Definition read_header (block : list Z) : option entry :=
  m ← number block 100 8;
  u ← number block 108 8;
  g ← number block 116 8;
  sz ← number block 124 12;
  t ← number block 136 12;
  c ← number block 148 8;
  if c =? checksum block then
    Some (Entry (c_text (slice block 0 100)) m u g sz t (nth 156 block 0))
  else None.

(** The entries of an archive with their data. *)
Fixpoint untar (fuel : nat) (blocks : list (list Z)) : option (list (entry * list Z)) :=
  match fuel with
  | O => None
  | S fuel =>
      match blocks with
      | [] => Some []
      | h :: blocks =>
          e ← read_header h;
          let k := Z.to_nat ((size e + 511) / 512) in
          let data := take (Z.to_nat (size e)) (concat (take k blocks)) in
          if decide (k ≤ length blocks)%nat then
            rest ← untar fuel (drop k blocks);
            Some ((e, data) :: rest)
          else None
      end
  end.

(** ** Numbers *)

Lemma oct_last_len n z : length (oct_last n z) = n.
Proof. revert z. induction n as [|n IH]; intros z; [done|]. cbn. rewrite length_app, IH. cbn. lia. Qed.

Lemma oct_last_digits n z : Forall (fun b => 48 ≤ b ≤ 55) (oct_last n z).
Proof.
  revert z. induction n as [|n IH]; intros z; [constructor|]. cbn. apply Forall_app. split; [apply IH|].
  apply Forall_singleton. pose proof (Z.mod_pos_bound z 8 ltac:(lia)). lia.
Qed.

Lemma of_octal_app acc a b :
  of_octal acc (a ++ b) = (x ← of_octal acc a; of_octal x b).
Proof. revert acc. induction a as [|d a IH]; intros acc; [done|]. cbn. case_match; [apply IH|done]. Qed.

Lemma of_octal_last n : ∀ z, 0 ≤ z < 8 ^ Z.of_nat n → of_octal 0 (oct_last n z) = Some z.
Proof.
  induction n as [|n IH]; intros z Hz; [cbn in *; f_equal; lia|].
  rewrite Nat2Z.inj_succ, Z.pow_succ_r in Hz by lia.
  cbn [oct_last]. rewrite of_octal_app, IH.
  - cbn. pose proof (Z.mod_pos_bound z 8 ltac:(lia)).
    replace ((48 <=? 48 + z mod 8) && (48 + z mod 8 <=? 55)) with true by lia.
    f_equal. pose proof (Z.div_mod z 8 ltac:(lia)). lia.
  - split; [apply Z.div_pos; lia|apply Z.div_lt_upper_bound; lia].
Qed.

Lemma oct_len_spec fuel : ∀ z (k : nat),
  0 ≤ z < 8 ^ Z.of_nat k → (1 ≤ k ≤ S fuel)%nat → (oct_len fuel z ≤ k)%nat ∧ z < 8 ^ Z.of_nat (oct_len fuel z).
Proof.
  induction fuel as [|fuel IH]; intros z k Hz Hk.
  - assert (k = 1%nat) as -> by lia. cbn in *. lia.
  - cbn [oct_len]. destruct (Z.ltb_spec z 8); [split; [lia|done]|].
    destruct k as [|[|k]]; [lia|cbn in Hz; lia|].
    assert (0 ≤ z / 8 < 8 ^ Z.of_nat (S k)) as Hd.
    { rewrite (Nat2Z.inj_succ (S k)), Z.pow_succ_r in Hz by lia.
      split; [apply Z.div_pos; lia|apply Z.div_lt_upper_bound; lia]. }
    destruct (IH (z / 8) (S k) Hd) as [H1 H2]; [lia|]. split; [lia|].
    rewrite Nat2Z.inj_succ, Z.pow_succ_r by lia. pose proof (Z.div_mod z 8 ltac:(lia)).
    pose proof (Z.mod_pos_bound z 8 ltac:(lia)). lia.
Qed.

(** What "%0<w>o" prints in a field of more than [k] characters. *)
Lemma octal_field w k z :
  (1 ≤ w ≤ k)%nat → (k ≤ 11)%nat → 0 ≤ z < 8 ^ Z.of_nat k → z < 2 ^ 32 →
  ∃ ds, octal w z = ds ∧ (length ds ≤ k)%nat ∧ Forall (fun b => 48 ≤ b ≤ 55) ds ∧ of_octal 0 ds = Some z.
Proof.
  intros Hw Hk Hz Hz'. unfold octal. rewrite u32_small by lia.
  destruct (oct_len_spec 11 z k Hz) as [H1 H2]; [lia|].
  eexists. split; [done|]. rewrite oct_last_len. split; [lia|]. split; [apply oct_last_digits|].
  apply of_octal_last. split; [lia|]. eapply Z.lt_le_trans; [done|]. apply Z.pow_le_mono_r; lia.
Qed.

Lemma until_end_digits ds pad :
  Forall (fun b => 48 ≤ b ≤ 55) ds → until_end (ds ++ 0 :: pad) = ds.
Proof.
  induction 1 as [|b ds Hb _ IH]; [done|]. cbn. by replace ((b =? 0) || (b =? 32)) with false by lia; rewrite IH.
Qed.

Lemma c_text_text s pad :
  Forall (fun b => 0 < b) s → c_text (s ++ 0 :: pad) = s.
Proof.
  unfold c_text. induction 1 as [|b ds Hb _ IH]; [done|]. cbn. replace (b =? 0) with false by lia. by f_equal.
Qed.

(** ** The header read back *)

(** A field of [n] bytes that starts with [ws] and a NUL. *)
Definition field (n : nat) (ws : list Z) : list Z := ws ++ 0 :: replicate (n - S (length ws)) 0.

Lemma field_len n ws : (length ws < n)%nat → zlen (field n ws) = Z.of_nat n.
Proof. intros H. unfold field, zlen. rewrite length_app. cbn. rewrite length_replicate. lia. Qed.

(** sprintf into a field that is still empty. *)
Lemma sprintf_field fields k n off ws :
  fields !! k = Some (replicate n 0) → (length ws < n)%nat → zlen (concat (take k fields)) = off →
  sprintf (concat fields) off ws = Done (concat (<[k := field n ws]> fields)).
Proof.
  intros Hk Hn Hoff. unfold sprintf. erewrite awrite_start; [|exact Hk| |exact Hoff].
  - do 3 f_equal. rewrite drop_replicate, length_app. cbn. unfold field. rewrite <- app_assoc. cbn.
    do 3 f_equal. lia.
  - unfold zlen. rewrite length_app, length_replicate. cbn. lia.
Qed.

Definition low (bs : list Z) : Prop := Forall (fun b => 0 ≤ b ≤ 127) bs.

Lemma sum_low bs : low bs → sum_of schar bs = sum_of id bs ∧ 0 ≤ sum_of id bs ≤ 127 * zlen bs.
Proof.
  induction 1 as [|b bs Hb _ [IH1 IH2]]; [done|]. rewrite zlen_cons.
  change (sum_of schar (b :: bs)) with (schar b + sum_of schar bs).
  change (sum_of id (b :: bs)) with (b + sum_of id bs).
  rewrite IH1. unfold schar. rewrite swrap_small by (cbn; lia). lia.
Qed.

Lemma low_field n ws : low ws → low (field n ws).
Proof. intros H. apply Forall_app. split; [done|]. constructor; [lia|]. apply Forall_replicate. lia. Qed.

Lemma low_digits ds : Forall (fun b => 48 ≤ b ≤ 55) ds → low ds.
Proof. intros H. eapply Forall_impl; [done|]. cbn. lia. Qed.

(** The layout writeheader leaves. *)
Definition layout (p m u g s t c : list Z) (ty : Z) : list (list Z) :=
  [field 100 p; field 8 m; field 8 u; field 8 g; field 12 s; field 12 t; c ++ [0; 32; ty; 0]; replicate 354 0].

(** The next sprintf, into field [k] of [n] bytes. *)
Ltac print_field k n L :=
  erewrite (sprintf_field _ k n);
    [|reflexivity|exact L|cbn [take concat]; rewrite ?zlen_app, ?field_len by done; reflexivity];
  cbn [mbind res_bind insert list_insert].

Lemma writeheader_layout path mode0 uid0 gid0 size0 mtime0 ty :
  let m := octal 7 (Z.land mode0 511) in
  let u := octal 7 uid0 in let g := octal 7 gid0 in
  let s := octal 11 size0 in let t := octal 7 mtime0 in
  (length (text path) < 100)%nat → (length m < 8)%nat → (length u < 8)%nat → (length g < 8)%nat →
  (length s < 12)%nat → (length t < 12)%nat → low (text path) → low m → low u → low g → low s → low t →
  ty = 0 ∨ ty = 5 →
  ∃ c, length c = 6%nat ∧ Forall (fun b => 48 ≤ b ≤ 55) c
    ∧ writeheader path mode0 uid0 gid0 size0 mtime0 ty = Done (concat (layout (text path) m u g s t c (48 + ty)))
    ∧ of_octal 0 c = Some (sum_of id (concat [field 100 (text path); field 8 m; field 8 u; field 8 g; field 12 s; field 12 t])
                            + 256 + (48 + ty)).
Proof.
  intros m u g s t Lp Lm Lu Lg Ls Lt Bp Bm Bu Bg Bs Bt Hty.
  unfold writeheader. fold m u g s t.
  change (replicate 512 0) with (concat [replicate 100 0; replicate 8 0; replicate 8 0; replicate 8 0;
    replicate 12 0; replicate 12 0; replicate 10 0; replicate 354 0]).
  print_field 0%nat 100%nat Lp. print_field 1%nat 8%nat Lm. print_field 2%nat 8%nat Lu.
  print_field 3%nat 8%nat Lg. print_field 4%nat 12%nat Ls. print_field 5%nat 12%nat Lt.
  replace (text ("        " +:+ dec ty)) with (replicate 8 32 ++ [48 + ty]) by (by destruct Hty as [->| ->]).
  set (blanks := replicate 8 32 ++ [48 + ty]).
  assert (length blanks < 10)%nat as Lc by (cbn; lia).
  print_field 6%nat 10%nat Lc.
  set (A := concat [field 100 (text path); field 8 m; field 8 u; field 8 g; field 12 s; field 12 t]).
  assert (zlen A = 148) as HA by (unfold A; cbn [concat]; rewrite !zlen_app, !field_len by done; done).
  assert (low A) as BA.
  { unfold A. cbn [concat]. do 6 (apply Forall_app_2; [by apply low_field|]). constructor. }
  set (H := concat _) in |- *.
  assert (H = A ++ (replicate 8 32 ++ [48 + ty; 0]) ++ replicate 354 0) as EH.
  { unfold H, A. cbn [concat]. by rewrite <- !app_assoc. }
  assert (low H) as BH.
  { rewrite EH. apply Forall_app. split; [done|]. apply Forall_app. split; [|apply Forall_replicate; lia].
    apply Forall_app. split; [apply Forall_replicate; lia|]. repeat constructor; lia. }
  destruct (sum_low H BH) as [Hsum Hb].
  assert (sum_of id H = sum_of id A + 256 + (48 + ty)) as Es.
  { rewrite EH, !sum_of_app. change (sum_of id (replicate 8 32)) with 256.
    change (sum_of id (replicate 354 0)) with 0. change (sum_of id [48 + ty; 0]) with (48 + ty + (0 + 0)). lia. }
  assert (zlen H = 512) as ZH by (rewrite EH, zlen_app, HA; done).
  assert (octal 6 (sum_of id H) = oct_last 6 (sum_of id H)) as Eo.
  { unfold octal. rewrite u32_small by lia.
    destruct (oct_len_spec 11 (sum_of id H) 6) as [Hlen _]; [change (8 ^ Z.of_nat 6) with 262144; lia|lia|]. by rewrite Nat.max_l. }
  exists (oct_last 6 (sum_of id H)). split; [apply oct_last_len|]. split; [apply oct_last_digits|].
  split; [|rewrite of_octal_last by (change (8 ^ Z.of_nat 6) with 262144; lia); by rewrite Es].
  rewrite Hsum, Eo. unfold sprintf, H. erewrite (awrite_start _ 6);
    [|reflexivity|unfold zlen; rewrite length_app, oct_last_len; cbn; lia
     |cbn [take concat]; rewrite ?zlen_app, ?field_len by done; reflexivity].
  cbn [insert list_insert]. rewrite length_app, oct_last_len. by rewrite <- app_assoc.
Qed.

Lemma number_field fields k n ds z off len :
  fields !! k = Some (field n ds) → len = Z.of_nat n → (length ds < n)%nat → zlen (concat (take k fields)) = off →
  Forall (fun b => 48 ≤ b ≤ 55) ds → of_octal 0 ds = Some z → number (concat fields) off len = Some z.
Proof.
  intros Hk -> Hn Hoff Hd Hz. unfold number. rewrite (slice_field fields k (field n ds)); [|done..|by apply field_len].
  unfold field. by rewrite until_end_digits.
Qed.

(** A path of plain ASCII characters that fits its field. *)
Definition plain (path : string) : Prop :=
  Forall (fun b => 0 < b ≤ 127) (text path) ∧ (length (text path) < 100)%nat.

Lemma header_readable path mode0 uid0 gid0 size0 mtime0 ty :
  plain path → 0 ≤ uid0 < 2 ^ 21 → 0 ≤ gid0 < 2 ^ 21 → 0 ≤ size0 < 2 ^ 31 → 0 ≤ mtime0 < 2 ^ 31 →
  ty = 0 ∨ ty = 5 →
  ∃ h, writeheader path mode0 uid0 gid0 size0 mtime0 ty = Done h
    ∧ read_header h = Some (Entry (text path) (Z.land mode0 511) uid0 gid0 size0 mtime0 (48 + ty)).
Proof.
  intros [Bp Lp] Hu Hg Hs Ht Hty.
  assert (0 ≤ Z.land mode0 511 < 2 ^ 9) as Hm.
  { change 511 with (Z.ones 9). rewrite Z.land_ones by lia. apply Z.mod_pos_bound. lia. }
  destruct (octal_field 7 7 (Z.land mode0 511)) as (m & Em & Lm & Dm & Om); [lia|lia|cbn; lia|lia|].
  destruct (octal_field 7 7 uid0) as (u & Eu & Lu & Du & Ou); [lia|lia|cbn; lia|lia|].
  destruct (octal_field 7 7 gid0) as (g & Eg & Lg & Dg & Og); [lia|lia|cbn; lia|lia|].
  destruct (octal_field 11 11 size0) as (s & Es & Ls & Ds & Os); [lia|lia|cbn; lia|lia|].
  destruct (octal_field 7 11 mtime0) as (t & Et & Lt & Dt & Ot); [lia|lia|cbn; lia|lia|].
  destruct (writeheader_layout path mode0 uid0 gid0 size0 mtime0 ty) as (c & Lc & Dc & Eh & Oc).
  all: rewrite ?Em, ?Eu, ?Eg, ?Es, ?Et; try lia; try (by apply low_digits); try done.
  { eapply Forall_impl; [exact Bp|]. cbn. lia. }
  rewrite Em, Eu, Eg, Es, Et in *. eexists. split; [exact Eh|].
  set (F := layout (text path) m u g s t c (48 + ty)).
  assert (zlen (concat (take 6 F)) = 148) as H6.
  { cbn [take F layout concat]. rewrite !zlen_app, !field_len by lia. done. }
  unfold read_header.
  rewrite (number_field F 1 8 m (Z.land mode0 511) 100), (number_field F 2 8 u uid0 108),
    (number_field F 3 8 g gid0 116), (number_field F 4 12 s size0 124), (number_field F 5 12 t mtime0 136)
    by (done || lia || (cbn [take F layout concat]; rewrite ?zlen_app, ?field_len by lia; reflexivity)).
  cbn [mbind option_bind]. rewrite (slice_field F 0 (field 100 (text path)));
    [|done|done|by apply field_len]. unfold field at 1. rewrite c_text_text by (eapply Forall_impl; [exact Bp|cbn; lia]).
  set (A := concat (take 6 F)) in *.
  assert (concat F = A ++ (c ++ [0; 32]) ++ [48 + ty; 0] ++ replicate 354 0) as EF.
  { unfold A, F. cbn [take layout concat]. by rewrite <- !app_assoc. }
  assert (zlen (c ++ [0; 32]) = 8) as H8 by (unfold zlen; rewrite length_app, Lc; done).
  change (of_octal 0 c = Some (sum_of id A + 256 + (48 + ty))) in Oc. rewrite EF. clearbody A. clear EF.
  assert (length (A ++ c ++ [0; 32]) = 156%nat) as L156 by (rewrite length_app; unfold zlen in *; lia).
  unfold number. rewrite slice_mid by done. rewrite (until_end_digits c [32]) by done. rewrite Oc. cbn [mbind option_bind].
  replace (checksum _) with (sum_of id A + 256 + (48 + ty)).
  2:{ unfold checksum. rewrite take_app_length' by (unfold zlen in *; lia). rewrite app_assoc, drop_app_length' by lia.
      rewrite sum_of_app. change (sum_of id [48 + ty; 0]) with (48 + ty + (0 + 0)).
      change (sum_of id (replicate 354 0)) with 0. lia. }
  rewrite Z.eqb_refl. do 2 f_equal. rewrite app_assoc, app_nth2, L156 by lia. done.
Qed.

(** ** The data *)

(** Blocks of 512 bytes. *)
Lemma length_concat_512 (bs : list (list Z)) :
  Forall (fun b => length b = 512%nat) bs → length (concat bs) = (512 * length bs)%nat.
Proof. induction 1 as [|b bs Hb _ IH]; [done|]. cbn [concat length]. rewrite length_app, IH, Hb. lia. Qed.

Lemma strlen_text s : strlen s = Z.of_nat (length (text s)).
Proof. unfold text. rewrite length_fmap. induction s as [|c s IH]; [done|]. cbn in *. rewrite strlen_cons. lia. Qed.

Section files.
Context (Y : proc_sys) (contents : string → list Z) (fuel : nat).

(** Reads from [path] deliver [contents path] in full blocks, then the rest. *)
Definition delivers (path : string) : Prop :=
  ∀ k, read_of Y path k
       = (Z.min 512 (Z.max 0 (zlen (contents path) - 512 * Z.of_nat k)),
          slice (contents path) (512 * Z.of_nat k) 512).

Lemma awrite_block bs : zlen bs ≤ 512 → awrite (replicate 512 0) 0 bs = Done (bs ++ drop (length bs) (replicate 512 0)).
Proof.
  intros H. pose proof (zlen_nonneg bs). rewrite awrite_in by (change (zlen (replicate 512 0)) with 512; lia).
  f_equal. cbn [Z.to_nat take app]. replace (Z.to_nat (0 + zlen bs)) with (length bs) by (unfold zlen; lia). done.
Qed.

Lemma read_blocks_ok path n : ∀ k,
  let c := contents path in
  delivers path → 512 * Z.of_nat k ≤ zlen c < 2 ^ 31 → (zlen c - 512 * Z.of_nat k) / 512 < Z.of_nat n →
  ∃ blocks, read_blocks Y n path k (512 * Z.of_nat k) = Done (Some (blocks, zlen c))
    ∧ (∃ pad, concat blocks = drop (512 * k) c ++ pad) ∧ Forall (fun b => length b = 512%nat) blocks
    ∧ zlen c - 512 * Z.of_nat k ≤ 512 * zlen blocks.
Proof.
  induction n as [|n IH]; intros k c Hd Hk Hn.
  { assert (0 ≤ (zlen c - 512 * Z.of_nat k) / 512) by (apply Z.div_pos; lia). lia. }
  cbn [read_blocks]. rewrite Hd. fold c. set (bs := slice c (512 * Z.of_nat k) 512).
  assert (zlen bs = Z.min 512 (zlen c - 512 * Z.of_nat k)) as Hb.
  { unfold bs, slice, zlen in *. rewrite length_take, length_drop. lia. }
  assert (drop (512 * k) c = bs ++ drop (512 * S k) c) as Hs.
  { unfold bs, slice. replace (Z.to_nat (512 * Z.of_nat k)) with (512 * k)%nat by lia.
    replace (512 * S k)%nat with (512 * k + Z.to_nat 512)%nat by lia. rewrite <- drop_drop.
    by rewrite take_drop. }
  rewrite awrite_block by lia. cbn [mbind res_bind].
  replace (Z.max 0 (zlen c - 512 * Z.of_nat k)) with (zlen c - 512 * Z.of_nat k) by lia.
  destruct (Z.le_gt_cases 512 (zlen c - 512 * Z.of_nat k)) as [Hge|Hlt].
  - rewrite Z.min_l in Hb |- * by lia. cbn [Z.ltb Z.compare Z.eqb Pos.eqb]. rewrite i32_small by lia.
    replace (512 * Z.of_nat k + 512) with (512 * Z.of_nat (S k)) by lia.
    destruct (IH (S k)) as (blocks & -> & (pad & Hc) & Hf & Hl); [done|fold c; lia| |].
    { rewrite Nat2Z.inj_succ in *. replace (zlen (contents path) - 512 * Z.succ (Z.of_nat k)) with (zlen c - 512 * Z.of_nat k + (-1) * 512) by (unfold c; lia).
      rewrite Z.div_add by lia. lia. }
    eexists. split; [done|]. rewrite drop_ge, app_nil_r by (rewrite length_replicate; unfold zlen in Hb; lia).
    split; [|split].
    + exists pad. cbn [concat]. by rewrite Hc, Hs, app_assoc.
    + constructor; [unfold zlen in Hb; lia|done].
    + rewrite zlen_cons. unfold c. lia.
  - rewrite Z.min_r in Hb |- * by lia. replace (zlen c - 512 * Z.of_nat k =? 512) with false by lia.
    eexists. split; [do 3 f_equal; destruct (Z.ltb_spec 0 (zlen c - 512 * Z.of_nat k)); rewrite ?i32_small; lia|].
    split; [|split].
    + exists (drop (length bs) (replicate 512 0)). cbn [concat]. rewrite app_nil_r, Hs. rewrite (drop_ge c) by (unfold zlen in *; lia).
      by rewrite app_nil_r.
    + constructor; [|done]. rewrite length_app, length_drop, length_replicate. unfold zlen in *. lia.
    + rewrite zlen_cons. change (zlen (@nil (list Z))) with 0. lia.
Qed.

Lemma dump_blocks_ok blocks : ∀ sz,
  sz ≤ 512 * zlen blocks → dump_blocks blocks sz = Done (take (Z.to_nat ((sz + 511) / 512)) blocks).
Proof.
  induction blocks as [|b blocks IH]; intros sz Hs; cbn [dump_blocks].
  - change (zlen (@nil (list Z))) with 0 in Hs. replace (0 <? sz) with false by lia. by rewrite take_nil.
  - rewrite zlen_cons in Hs. destruct (Z.ltb_spec 0 sz).
    + rewrite IH by lia. cbn [mbind res_bind]. replace (sz + 511) with (sz - 512 + 511 + 1 * 512) by lia.
      rewrite Z.div_add by lia. assert (0 ≤ (sz - 512 + 511) / 512 + 1).
      { assert (-1 ≤ (sz - 512 + 511) / 512); [|lia]. apply Z.div_le_lower_bound; lia. }
      destruct (Z.eq_dec ((sz - 512 + 511) / 512) (-1)) as [E|]; [|].
      * exfalso. assert (0 ≤ (sz - 512 + 511) / 512) by (apply Z.div_pos; lia). lia.
      * replace (Z.to_nat ((sz - 512 + 511) / 512 + 1)) with (S (Z.to_nat ((sz - 512 + 511) / 512))) by lia. done.
    + replace (Z.to_nat ((sz + 511) / 512)) with 0%nat; [done|].
      assert ((sz + 511) / 512 < 1) by (apply Z.div_lt_upper_bound; lia). lia.
Qed.
(** ** The archive *)

(** What the archive holds of a file, and of the directory of a process. *)
Definition file (path : string) : entry * list Z :=
  let s := fstat_of Y path in
  (Entry (text path) (Z.land (st_mode s) 511) (st_uid s) (st_gid s) (zlen (contents path)) (st_mtime s) 48,
   contents path).
Definition directory (name : string) : entry * list Z :=
  let s := stat_of Y name in
  (Entry (text name) 365 (st_uid s) (st_gid s) 0 (st_mtime s) 53, []).
Definition pid_paths (name : string) : list string :=
  [name +:+ "/" +:+ "smaps"; name +:+ "/" +:+ "cmdline"; name +:+ "/" +:+ "stat"].
Definition pids : list string := List.filter is_pid (proc_dir Y).
Definition listing : list (entry * list Z) :=
  [file "meminfo"; file "version"]
    ++ concat ((fun name => directory name :: (file <$> pid_paths name)) <$> pids).

(** Attributes that fit the fields, and a file smemcap can archive. *)
Definition fits (s : stat) : Prop :=
  0 ≤ st_uid s < 2 ^ 21 ∧ 0 ≤ st_gid s < 2 ^ 21 ∧ 0 ≤ st_mtime s < 2 ^ 31.
Definition archivable (path : string) : Prop :=
  plain path ∧ fits (fstat_of Y path) ∧ delivers path
  ∧ zlen (contents path) < 2 ^ 31 ∧ zlen (contents path) / 512 < Z.of_nat fuel.

(** [r] writes the entries [es], whatever follows. *)
Definition archives (r : res (option (list (list Z)))) (es : list (entry * list Z)) : Prop :=
  ∃ bs, r = Done (Some bs)
    ∧ ∀ n rest es', untar n rest = Some es' → untar (length es + n) (bs ++ rest) = Some (es ++ es').

Lemma archives_append a b es es' : archives a es → archives b es' → archives (append a b) (es ++ es').
Proof.
  intros (x & -> & Hx) (y & -> & Hy). exists (x ++ y). split; [done|]. intros n rest es'' H.
  rewrite length_app, <- Nat.add_assoc, <- !app_assoc. by apply Hx, Hy.
Qed.

(** A header followed by the blocks its size asks for is an entry. *)
Lemma archives_entry h e blocks data :
  read_header h = Some e → length blocks = Z.to_nat ((size e + 511) / 512) →
  take (Z.to_nat (size e)) (concat blocks) = data →
  archives (Done (Some (h :: blocks))) [(e, data)].
Proof.
  intros Hh Hl Hd. exists (h :: blocks). split; [done|]. intros n rest es' H.
  cbn [length Nat.add untar app]. rewrite Hh. cbn [mbind option_bind]. rewrite <- Hl, take_app_length, drop_app_length, H.
  rewrite decide_True by (rewrite length_app; lia). cbn. by rewrite Hd.
Qed.

Lemma archivefile_ok path : archivable path → archives (archivefile Y fuel path) [file path].
Proof.
  intros (Hp & (Hu & Hg & Ht) & Hd & Hz & Hf). unfold archivefile. pose proof (zlen_nonneg (contents path)).
  destruct (read_blocks_ok path fuel 0) as (blocks & E & (pad & Hc) & Hb & Hl); [done|cbn; lia|by rewrite Z.sub_0_r|].
  change (512 * Z.of_nat 0) with 0 in *. change (512 * 0)%nat with 0%nat in Hc. rewrite Z.sub_0_r in Hl. rewrite drop_0 in Hc.
  rewrite E. cbn [mbind res_bind].
  destruct (header_readable path (st_mode (fstat_of Y path)) (st_uid (fstat_of Y path)) (st_gid (fstat_of Y path))
    (zlen (contents path)) (st_mtime (fstat_of Y path)) 0) as (h & -> & Hh); [auto with lia..|].
  cbn [mbind res_bind]. rewrite dump_blocks_ok by done. cbn [mbind res_bind].
  apply archives_entry; [done| |]; cbn [size].
  - rewrite length_take. apply Nat.min_l. enough ((zlen (contents path) + 511) / 512 < zlen blocks + 1) by (unfold zlen at 2 in H0; lia).
    apply Z.div_lt_upper_bound; lia.
  - set (k := Z.to_nat ((zlen (contents path) + 511) / 512)).
    assert (concat (take k blocks) ++ concat (drop k blocks) = contents path ++ pad) as Hsplit.
    { by rewrite <- concat_app, take_drop. }
    assert (length (contents path) ≤ length (concat (take k blocks)))%nat as Hlen.
    { rewrite (length_concat_512 (take k blocks)) by (by apply Forall_take). rewrite length_take. unfold zlen in *.
      pose proof (Z.div_mod (Z.of_nat (length (contents path)) + 511) 512 ltac:(lia)).
      pose proof (Z.mod_pos_bound (Z.of_nat (length (contents path)) + 511) 512 ltac:(lia)).
      assert (0 ≤ (Z.of_nat (length (contents path)) + 511) / 512) by (apply Z.div_pos; lia). lia. }
    apply (f_equal (take (length (contents path)))) in Hsplit. rewrite take_app_le in Hsplit by lia.
    unfold zlen. rewrite Nat2Z.id, Hsplit. apply take_app_length.
Qed.

Lemma archivejoin_ok sub nm :
  archivable (sub +:+ "/" +:+ nm) → archives (archivejoin Y fuel sub nm) [file (sub +:+ "/" +:+ nm)].
Proof.
  intros H. unfold archivejoin. destruct (proj1 H) as [_ Hl].
  replace (256 <? _) with false; [by apply archivefile_ok|]. symmetry. apply Z.ltb_ge. rewrite strlen_text. lia.
Qed.

Lemma archive_pid_ok nm :
  plain nm → fits (stat_of Y nm) → Forall archivable (pid_paths nm) →
  archives (archive_pid Y fuel nm) (directory nm :: (file <$> pid_paths nm)).
Proof.
  intros Hp (Hu & Hg & Ht) Hf. repeat (apply Forall_cons in Hf as [? Hf]). unfold archive_pid.
  destruct (header_readable nm 365 (st_uid (stat_of Y nm)) (st_gid (stat_of Y nm)) 0 (st_mtime (stat_of Y nm)) 5)
    as (h & -> & Hh); [auto with lia..|]. cbn [mbind res_bind].
  change (directory nm :: _) with ([directory nm] ++ [file (nm +:+ "/" +:+ "smaps")]
    ++ [file (nm +:+ "/" +:+ "cmdline")] ++ [file (nm +:+ "/" +:+ "stat")]).
  repeat apply archives_append; [by apply archives_entry|by apply archivejoin_ok..].
Qed.

Lemma archive_dir_ok names :
  Forall (fun nm => plain nm ∧ fits (stat_of Y nm) ∧ Forall archivable (pid_paths nm)) (List.filter is_pid names) →
  archives (archive_dir Y fuel names)
    (concat ((fun nm => directory nm :: (file <$> pid_paths nm)) <$> List.filter is_pid names)).
Proof.
  induction names as [|nm names IH]; cbn [archive_dir List.filter].
  - intros _. by exists [].
  - destruct (is_pid nm); [|exact IH]. intros [(Hp & Hs & Hf) Hr]%Forall_cons.
    apply archives_append; [by apply archive_pid_ok|by apply IH].
Qed.
End files.

(** C30: smemcap's archive reads back.  When the attributes fit the octal fields,
    the paths are plain names of less than 100 characters, and reading a file
    delivers its contents in full blocks, the program returns, touches no memory
    outside its buffers, and a tar reader that checks every header's checksum gets
    exactly meminfo, version and, for every numeric directory of /proc, the
    directory, smaps, cmdline and stat, each with its attributes and contents. *)
Theorem smemcap_roundtrip Y contents fuel :
  Forall (archivable Y contents fuel) ["meminfo"; "version"] →
  Forall (fun nm => plain nm ∧ fits (stat_of Y nm) ∧ Forall (archivable Y contents fuel) (pid_paths nm)) (pids Y) →
  ∃ out, main Y fuel = Done (Some out)
    ∧ untar (S (length (listing Y contents))) out = Some (listing Y contents).
Proof.
  intros Hf Hp. repeat (apply Forall_cons in Hf as [? Hf]).
  assert (archives (main Y fuel) (listing Y contents)) as (out & E & H2).
  { apply (archives_append _ _ [_]); [by apply archivefile_ok|].
    apply (archives_append _ _ [_]); [by apply archivefile_ok|]. by apply archive_dir_ok. }
  exists out. split; [done|]. specialize (H2 1%nat [] [] eq_refl). rewrite !app_nil_r in H2.
  by rewrite Nat.add_1_r in H2.
Qed.

(** A small /proc: a meminfo of 600 bytes, and one process. *)
Definition small_contents (path : string) : list Z :=
  if (path =? "meminfo")%string then replicate 600 65
  else if (path =? "7/cmdline")%string then replicate 512 66
  else if (path =? "7/stat")%string then [55; 10] else [].
Definition small_proc : proc_sys :=
  {| fstat_of := fun _ => Stat 33060 1000 100 1600000000;
     read_of := fun path k =>
       (Z.min 512 (Z.max 0 (zlen (small_contents path) - 512 * Z.of_nat k)),
        slice (small_contents path) (512 * Z.of_nat k) 512);
     stat_of := fun _ => Stat 16749 0 0 1600000001;
     proc_dir := ["."; "self"; "7"] |}.

Ltac small_file :=
  split; [split; apply (bool_decide_unpack _); vm_compute; exact I|split; [repeat split; cbn; lia|split; [done|split; vm_compute; done]]].

Lemma smemcap_roundtrip_witness :
  ∃ out, main small_proc 3 = Done (Some out)
    ∧ untar (S (length (listing small_proc small_contents))) out = Some (listing small_proc small_contents).
Proof.
  apply (smemcap_roundtrip small_proc small_contents 3).
  - apply Forall_cons. split; [small_file|]. apply Forall_cons. split; [small_file|constructor].
  - change (pids small_proc) with ["7"]. apply Forall_cons. split; [|constructor].
    split; [split; apply (bool_decide_unpack _); vm_compute; exact I|]. split; [repeat split; cbn; lia|].
    apply Forall_cons. split; [small_file|]. apply Forall_cons. split; [small_file|].
    apply Forall_cons. split; [small_file|constructor].
Defined.

(** ** Fields that run into each other *)

(** A group id of 2^24 or more has nine digits: the last one is overwritten by
    the first digit of the size, and the header, whose checksum is right, gives
    another group. *)
Lemma big_gid_lost :
  ∃ h, writeheader "meminfo" 292 0 (2 ^ 24) 5 0 0 = Done h
    ∧ read_header h = Some (Entry (text "meminfo") 292 0 (2 ^ 21) 5 0 48).
Proof. eexists. split; [vm_compute; reflexivity|]. vm_compute. reflexivity. Qed.

(** A path of a hundred characters joins the mode: the name has no end before
    the digits of the mode. *)
Lemma long_path_joins_mode :
  ∃ h, writeheader (rep "a" 100) 292 0 0 5 0 0 = Done h ∧ c_text h = replicate 100 97 ++ text "0000444".
Proof. eexists. split; [vm_compute; reflexivity|]. vm_compute. reflexivity. Qed.
