(* ===== verification/Pcimem.v ===== *)
(** * pci/pcimem/pcimem.c: registers of a PCI device from user space

    The program maps a resource of a device, prints a number of its registers,
    runs of equal values as a single "...", and writes the last of them.  The
    device is a record of what reading and writing at an offset of the mapping
    does ([pci_dev]), the system's answers are a record too ([pci_sys]); an
    access outside the mapping, or through the pointer before it is set, is
    [Wild]. *)

From S2P Require Import Prelude CLib.

Record pci_dev := PciDev {
  regs : Type;
  reg_get : Z → Z → regs → Z * regs;      (* width, offset in the mapping *)
  reg_put : Z → Z → Z → regs → regs;      (* width, offset, value *)
}.
Record pci_sys := PciSys {
  open_at : string → Z;
  page_size : Z;
  mmap_at : Z → Z → Z;                    (* length, offset in the file *)
  munmap_rc : Z;
}.

(** "%X": capital digits. *)
Definition upper (c : ascii) : ascii :=
  if (97 <=? zchar c) && (zchar c <=? 122) then ascii_of_nat (nat_of_ascii c - 32) else c.
Fixpoint upcase (s : string) : string :=
  match s with EmptyString => EmptyString | String c s => String (upper c) (upcase s) end.
Definition HEX (z : Z) : string := upcase (hex z).

(** The width of an access type. *)
Definition type_width_of (access_type : Z) : option Z :=
  if access_type =? zchar "b" then Some 1
  else if access_type =? zchar "h" then Some 2
  else if access_type =? zchar "w" then Some 4
  else if access_type =? zchar "d" then Some 8
  else None.

Definition usage_text (argv0 : string) : string :=
  nl +:+ "Usage:" +:+ tab +:+ argv0 +:+ " { sysfile } { offset } [ type*count [ data ] ]" +:+ nl
  +:+ tab +:+ "sys file: sysfs file for the pci resource to act on" +:+ nl
  +:+ tab +:+ "offset  : offset into pci memory region to act upon" +:+ nl
  +:+ tab +:+ "type    : access operation type : [b]yte, [h]alfword, [w]ord, [d]ouble-word" +:+ nl
  +:+ tab +:+ "*count  : number of items to read:  w*100 will dump 100 words" +:+ nl
  +:+ tab +:+ "data    : data to be written" +:+ nl +:+ nl.

(** argv[3]: the access type and the number of items. *)
Definition type_arg (arg : option string) : res (Z * Z) :=
  match arg with
  | None => Done (zchar "w", 1)
  | Some EmptyString => Wild
  | Some (String c EmptyString) => Done (tolower c, 1)
  | Some (String c (String d rest)) =>
      Done (tolower c, if Ascii.eqb d "*" then i32 (fst (strtoul 0 rest)) else 1)
  end.

Section pcimem.
Context (D : pci_dev) (Y : pci_sys).

(** The access [*((uintN_t * ) virt_addr)], at an offset of the mapping. *)
Definition reg_load (map_size w off : Z) (s : regs D) : res (Z * regs D) :=
  if (0 <=? off) && (off + w <=? map_size) then
    let '(v, s) := reg_get D w off s in Done (wrap (8 * w) v, s)
  else Wild.
Definition reg_store (map_size w off v : Z) (s : regs D) : res (regs D) :=
  if (0 <=? off) && (off + w <=? map_size) then Done (reg_put D w off (wrap (8 * w) v) s)
  else Wild.

Definition reg_row (off w v : Z) : string :=
  "0x" +:+ padl "0" 4 (HEX (u32 off)) +:+ ": 0x" +:+ padl "0" (2 * w) (HEX v) +:+ nl.

(** The variables the loop changes; [virt] is virt_addr, less the address of
    the mapping. *)
Record dump_st := DumpSt { virt : option Z; prev : Z; dupped : bool; out : string }.

(** One round of the loop over the items ([verbose] is always 0). *)
Definition dump_step (map_size w target base i : Z) (t : dump_st) (s : regs D) : res (dump_st * regs D) :=
  let off := target + i32 (i * w) - base in
  '(v, s) ← reg_load map_size w off s;
  let t' :=
    if negb (v =? prev t) || (i =? 0)
    then DumpSt (Some off) v false (out t +:+ reg_row (i64 (target + i32 (i * w))) w v)
    else DumpSt (Some off) v true (if dupped t then out t else out t +:+ "..." +:+ nl) in
  Done (t', s).

Fixpoint dump (fuel : nat) (map_size w target base items i : Z) (t : dump_st) (s : regs D)
    : res (option (dump_st * regs D)) :=
  if i <? items then
    match fuel with
    | O => Done None
    | S fuel =>
        '(t, s) ← dump_step map_size w target base i t s;
        dump fuel map_size w target base items (i + 1) t s
    end
  else Done (Some (t, s)).

Definition target_base_of (target : Z) : Z := Z.land target (Z.lnot (page_size Y - 1)).
Definition map_size_of (target w items : Z) : Z :=
  let need := i64 (i64 (target + i32 (items * w)) - target_base_of target) in
  if 4096 <? need then i32 need else 4096.

(** The lines before the registers. *)
Definition banner (filename : string) (target fd map_size map_base : Z) : string :=
  filename +:+ " opened." +:+ nl
  +:+ "Target offset is 0x" +:+ hex (u32 target) +:+ ", page size is " +:+ dec (page_size Y) +:+ nl
  +:+ "mmap(0, " +:+ dec map_size +:+ ", 0x3, 0x1, " +:+ dec fd +:+ ", 0x" +:+ hex (u32 target) +:+ ")" +:+ nl
  +:+ "PCI Memory mapped to address 0x" +:+ padl "0" 8 (hex (u64 map_base)) +:+ "." +:+ nl.

(** The write behind the loop. *)
Definition put_data (map_size w : Z) (t : dump_st) (data : string) (s : regs D) : res (string * regs D) :=
  match virt t with
  | None => Wild
  | Some off =>
      let writeval := fst (strtoul 0 data) in
      s ← reg_store map_size w off writeval s;
      '(v, s) ← reg_load map_size w off s;
      Done (out t +:+ "Written 0x" +:+ padl "0" w (HEX writeval)
              +:+ "; readback 0x" +:+ padl " " w (HEX v) +:+ nl, s)
  end.

(** main: the exit code, what was printed, and the device. *)
Definition main (fuel : nat) (argv : list string) (s : regs D) : res (option (Z * string * regs D)) :=
  match argv with
  | _ :: filename :: offset :: rest =>
      let target := i64 (fst (strtoul 0 offset)) in
      '(access_type, items) ← type_arg (rest !! 0%nat);
      match type_width_of access_type with
      | None => Die ("Illegal data type '" +:+ String (ascii_of_nat (Z.to_nat access_type)) "'." +:+ nl)
      | Some w =>
          let fd := open_at Y filename in
          if fd =? -1 then Die "open"
          else
          let base := target_base_of target in
          let map_size := map_size_of target w items in
          let map_base := mmap_at Y (u64 map_size) base in
          if map_base =? -1 then Die "mmap"
          else
          o ← dump fuel map_size w target base items 0
                (DumpSt None 0 false (banner filename target fd map_size map_base)) s;
          match o with
          | None => Done None
          | Some (t, s) =>
              '(o, s) ← match rest !! 1%nat with
                        | Some data => put_data map_size w t data s
                        | None => Done (out t, s)
                        end;
              if munmap_rc Y =? -1 then Die "munmap" else Done (Some (0, o, s))
          end
      end
  | argv0 :: _ => Die (usage_text argv0)
  | [] => Wild
  end.
End pcimem.
Arguments reg_load {_}. Arguments reg_store {_}. Arguments dump_step {_}. Arguments dump {_}.
Arguments put_data {_}.

(** ** What it prints *)

(** The registers read one after the other. *)
Fixpoint reads (D : pci_dev) (w off : Z) (n : nat) (s : regs D) : list Z * regs D :=
  match n with
  | O => ([], s)
  | S n =>
      let '(v, s) := reg_get D w off s in
      let '(vs, s) := reads D w (off + w) n s in
      (wrap (8 * w) v :: vs, s)
  end.

(** The listing: an offset and its value, or dots for a run of the value before. *)
Inductive row := Row (off v : Z) | Dots.
Definition text_of (w : Z) (r : row) : string :=
  match r with Row off v => reg_row off w v | Dots => "..." +:+ nl end.

(** [last]: the value before, unless this is the first; [dup]: dots were printed
    for it. *)
Fixpoint squeeze (w off : Z) (last : option Z) (dup : bool) (vs : list Z) : list row :=
  match vs with
  | [] => []
  | v :: vs =>
      if bool_decide (last = Some v) then
        (if dup then [] else [Dots]) ++ squeeze w (off + w) (Some v) true vs
      else Row (u32 off) v :: squeeze w (off + w) (Some v) false vs
  end.

(** A reader of the listing who knows the number of items. *)
Fixpoint expand (w off last : Z) (n : nat) (rows : list row) : list Z :=
  match n with
  | O => []
  | S n =>
      match rows with
      | Row o v :: rest =>
          if o =? u32 off then v :: expand w (off + w) v n rest else last :: expand w (off + w) last n rows
      | Dots :: rest => last :: expand w (off + w) last n rest
      | [] => last :: expand w (off + w) last n []
      end
  end.

(** ** Proofs *)

Lemma u32_differs x d : 0 < d < 2 ^ 32 → u32 (x + d) ≠ u32 x.
Proof.
  intros Hd H. assert ((x + d - x) mod 2 ^ 32 = 0) as E.
  { rewrite Zminus_mod. unfold wrap in H. by rewrite H, Z.sub_diag. }
  replace (x + d - x) with d in E by lia. rewrite Z.mod_small in E; lia.
Qed.

(** Inside a run whose dots are printed, the next row is of a later offset. *)
Lemma squeeze_dup_head w l vs : ∀ off,
  match squeeze w off (Some l) true vs with
  | [] => True
  | Row o _ :: _ => ∃ k, 0 ≤ k < zlen vs ∧ o = u32 (off + k * w)
  | Dots :: _ => False
  end.
Proof.
  induction vs as [|v vs IH]; intros off; cbn [squeeze]; [done|]. rewrite zlen_cons. pose proof (zlen_nonneg vs).
  case_bool_decide as E; [injection E as ->; cbn [app]|exists 0; split; [lia|f_equal; lia]].
  specialize (IH (off + w)). destruct (squeeze _ _ _ _ _) as [|[o x|] rows]; [done| |done].
  destruct IH as (k & Hk & ->). exists (k + 1). split; [lia|f_equal; lia].
Qed.

Lemma expand_squeeze w vs : 0 < w → ∀ off l dup,
  zlen vs * w < 2 ^ 32 → expand w off l (length vs) (squeeze w off (Some l) dup vs) = vs.
Proof.
  intros Hw. induction vs as [|v vs IH]; intros off l dup Hl; [done|]. rewrite zlen_cons in Hl.
  pose proof (zlen_nonneg vs). cbn [squeeze length].
  case_bool_decide as E; [injection E as ->|cbn [expand]; rewrite Z.eqb_refl; f_equal; apply IH; lia].
  destruct dup; cbn [app]; [|cbn [expand]; f_equal; apply IH; lia].
  pose proof (squeeze_dup_head w v vs (off + w)) as Hh. specialize (IH (off + w) v true ltac:(lia)).
  destruct (squeeze _ _ _ _ _) as [|[o x|] rows]; cbn [expand]; [by f_equal| |done].
  destruct Hh as (k & Hk & ->). replace (off + w + k * w) with (off + (k + 1) * w) in * by lia.
  rewrite (proj2 (Z.eqb_neq _ _)) by (apply u32_differs; nia). by f_equal.
Qed.

(** The first row always stands. *)
Lemma expand_listing w off l vs :
  0 < w → zlen vs * w < 2 ^ 32 → expand w off l (length vs) (squeeze w off None false vs) = vs.
Proof.
  intros Hw Hl. destruct vs as [|v vs]; [done|]. rewrite zlen_cons in Hl. pose proof (zlen_nonneg vs).
  cbn [squeeze length]. rewrite bool_decide_eq_false_2 by done. cbn [expand]. rewrite Z.eqb_refl. f_equal. apply expand_squeeze; lia.
Qed.

Lemma reads_length D w n : ∀ off s, length (fst (reads D w off n s)) = n.
Proof.
  induction n as [|n IH]; intros off s; [done|]. cbn. destruct (reg_get _ _ _ _) as [v s'].
  specialize (IH (off + w) s'). destruct (reads _ _ _ _ _). cbn in *. lia.
Qed.

Lemma reg_row_u32 off w v : reg_row (u32 off) w v = reg_row off w v.
Proof. unfold reg_row. by rewrite wrap_wrap. Qed.

Section dump_ok.
Context (D : pci_dev) (map_size w target base items : Z).
Hypothesis Hw : 0 < w.
Hypothesis Hlow : 0 ≤ target - base.
Hypothesis Hhigh : target - base + items * w ≤ map_size.
Hypothesis Hint : items * w < 2 ^ 31.
Hypothesis Hoff : -2 ^ 63 ≤ target ∧ target + items * w < 2 ^ 63.

Definition last_of (i : Z) (t : dump_st) : option Z := if i =? 0 then None else Some (prev t).

Lemma dump_ok n : ∀ fuel i t s,
  (n ≤ fuel)%nat → 0 ≤ i → items = i + Z.of_nat n → (i = 0 → dupped t = false) →
  let '(vs, s') := reads D w (target - base + i * w) n s in
  ∃ t', dump fuel map_size w target base items i t s = Done (Some (t', s'))
    ∧ out t' = out t +:+ texts (text_of w) (squeeze w (target + i * w) (last_of i t) (dupped t) vs)
    ∧ virt t' = match n with O => virt t | _ => Some (target - base + (items - 1) * w) end.
Proof.
  induction n as [|n IH]; intros fuel i t s Hf Hi Hn Hd.
  - cbn [reads]. exists t. split; [|split; [by rewrite string_app_nil_r|done]].
    destruct fuel; cbn [dump]; by replace (i <? items) with false by lia.
  - destruct fuel as [|fuel]; [lia|]. cbn [reads dump]. replace (i <? items) with true by lia.
    unfold dump_step. rewrite (i32_small (i * w)) by nia.
    replace (target + i * w - base) with (target - base + i * w) by lia.
    unfold reg_load. replace ((0 <=? target - base + i * w) && (target - base + i * w + w <=? map_size)) with true by nia.
    destruct (reg_get D w (target - base + i * w) s) as [v s1]. cbn [mbind res_bind].
    set (t1 := if negb _ || _ then _ else _).
    specialize (IH fuel (i + 1) t1 s1 ltac:(lia) ltac:(lia) ltac:(lia) ltac:(lia)).
    replace (target - base + (i + 1) * w) with (target - base + i * w + w) in IH by lia.
    destruct (reads D w (target - base + i * w + w) n s1) as [vs s2] eqn:Er.
    destruct IH as (t' & -> & Ho & Hv). exists t'. split; [done|]. split.
    + rewrite Ho. unfold last_of in *. replace (i + 1 =? 0) with false by lia.
      replace (target + (i + 1) * w) with (target + i * w + w) by lia.
      unfold t1. destruct (Z.eqb_spec (wrap (8 * w) v) (prev t)) as [E|E], (Z.eqb_spec i 0) as [Ei|Ei]; cbn [negb orb];
        cbn [squeeze prev dupped out]; rewrite ?E.
      * rewrite bool_decide_eq_false_2 by done. cbn. rewrite reg_row_u32, string_app_assoc.
        rewrite swrap_small by nia. done.
      * rewrite bool_decide_eq_true_2 by done. destruct (dupped t); cbn [app]; [done|].
        cbn. by rewrite string_app_assoc.
      * rewrite bool_decide_eq_false_2 by done. cbn. rewrite reg_row_u32, string_app_assoc, swrap_small by nia. done.
      * rewrite bool_decide_eq_false_2 by congruence. cbn. rewrite reg_row_u32, string_app_assoc, swrap_small by nia. done.
    + rewrite Hv. destruct n as [|n]; [|done]. replace (items - 1) with i by lia. unfold t1. by destruct (_ || _).
Qed.
End dump_ok.

(** The offset in the page of the target. *)
Lemma target_base_mod Y target k :
  page_size Y = 2 ^ k → 0 ≤ k → target_base_of Y target = target - target mod 2 ^ k.
Proof.
  intros Hp Hk. unfold target_base_of. rewrite Hp, <- Z.ldiff_land.
  replace (2 ^ k - 1) with (Z.ones k) by (rewrite Z.ones_equiv; lia).
  rewrite Z.ldiff_ones_r, Z.shiftl_mul_pow2, Z.shiftr_div_pow2 by lia.
  pose proof (Z.div_mod target (2 ^ k) ltac:(lia)). lia.
Qed.

Lemma type_width_pos c w : type_width_of c = Some w → 0 < w ≤ 8.
Proof. unfold type_width_of. repeat case_match; intros; simplify_eq; lia. Qed.

(** What -- if anything -- the data argument does to the register at [off]. *)
Definition write_back (D : pci_dev) (w off : Z) (data : option string) (s : regs D) : string * regs D :=
  match data with
  | None => ("", s)
  | Some data =>
      let writeval := fst (strtoul 0 data) in
      let '(v, s) := reg_get D w off (reg_put D w off (wrap (8 * w) writeval) s) in
      ("Written 0x" +:+ padl "0" w (HEX writeval)
         +:+ "; readback 0x" +:+ padl " " w (HEX (wrap (8 * w) v)) +:+ nl, s)
  end.

Lemma put_data_ok D map_size w t off data (s : regs D) :
  virt t = Some off → 0 ≤ off → off + w ≤ map_size →
  put_data map_size w t data s
  = let '(o, s) := write_back D w off (Some data) s in Done (out t +:+ o, s).
Proof.
  intros Hv H0 H1. unfold put_data, reg_store, reg_load. rewrite Hv.
  replace ((0 <=? off) && (off + w <=? map_size)) with true by lia. cbn [mbind res_bind write_back].
  by destruct (reg_get _ _ _ _).
Qed.


(** A device of bytes, little-endian, and a system that maps it. *)
Definition ram : pci_dev :=
  {| regs := list Z;
     reg_get := fun w off m => (foldr (fun b acc => b + 256 * acc) 0 (slice m off w), m);
     reg_put := fun w off v m =>
       foldr (fun j m => <[Z.to_nat (off + j) := (v / 256 ^ j) mod 256]> m) m (seqZ 0 w) |}.
Definition one_page : pci_sys := PciSys (fun _ => 3) 4096 (fun _ _ => 0x7f0000000000) 0.
Definition ram0 : list Z := [1; 0; 0; 0; 7; 0; 0; 0; 7; 0; 0; 0; 7; 0; 0; 0; 9; 0; 0; 0].


(** The listing of the witness: the run of sevens is one row and dots. *)
Lemma listing_of_ram :
  texts (text_of 4) (squeeze 4 0 None false [1; 7; 7; 7; 9])
  = "0x0000: 0x00000001" +:+ nl +:+ "0x0004: 0x00000007" +:+ nl +:+ "..." +:+ nl +:+ "0x0010: 0x00000009" +:+ nl.
Proof. reflexivity. Qed.

(** ** Outside the theorem *)

(** "w*0" with data writes through a pointer that was never set. *)
Lemma no_items_wild_write fuel :
  main ram one_page fuel ["pcimem"; "resource0"; "0"; "w*0"; "1"] ram0 = Wild.
Proof. by destruct fuel. Qed.

(** The size of "d*268435456" overflows an int to a negative number: one page is
    mapped, and the loop leaves it at the 513th item. *)
Lemma overflow_leaves_mapping :
  map_size_of one_page 0 8 268435456 = 4096
  ∧ main ram one_page 600 ["pcimem"; "resource0"; "0"; "d*268435456"] ram0 = Wild.
Proof. split; vm_compute; reflexivity. Qed.
