(* ===== verification/ShowPci.v ===== *)
(** * qemu_pci/show_pci.c: the PCI Express functions in configuration space

    The program maps the configuration space of every function of five buses
    through /dev/mem and walks its list of capabilities.  Physical memory is an
    argument: for the address of a function, the words of its page, or the
    failure of mmap.  An access outside the mapped page is [Wild]. *)

From S2P Require Import Prelude CLib.

Definition MAX_BUS : Z := 5.
Definition MAX_DEV : Z := 32.
Definition MAX_FUN : Z := 8.
Definition BASE_ADDR : Z := 0xf8000000.

(** ** Texts *)

(** A switch over a byte. *)
Fixpoint switch (cases : list (Z * string)) (dflt : string) (b : Z) : string :=
  match cases with
  | [] => dflt
  | (k, s) :: cases => if b =? k then s else switch cases dflt b
  end.

Definition typeshow (data : Z) : string :=
  hex data +:+ nl +:+ switch
    [(0x00, "PCIExpress Endpoint device" +:+ nl); (0x01, "LegacyPCI Express Endpoint device" +:+ nl);
     (0x04, "RootPort of PCI Express Root Complex" +:+ nl); (0x05, "Upstream Port of PCI Express Switch" +:+ nl);
     (0x06, "DownstreamPort of PCI Express Switch" +:+ nl); (0x07, "PCiExpress-to-PCI/PCI-x Bridge" +:+ nl);
     (0x08, "PCI/PCI-xto PCi Express Bridge" +:+ nl); (0x09, "RootComplex Integrated Endpoint Device" +:+ nl);
     (0x0a, "RootComplex Event Collector" +:+ nl)] ("reserved" +:+ nl) data +:+ nl.

Definition speedshow (speed : Z) : string :=
  hex speed +:+ nl +:+ switch [(0x00, "2.5GT/S"); (0x02, "5GT/S"); (0x04, "8GT/S")] "reserved" speed +:+ nl +:+ nl.

Definition linkspeedshow (speed : Z) : string :=
  hex speed +:+ nl +:+ switch
    [(0x01, "SupportedLink Speeds Vector filed bit 0"); (0x02, "SupportedLink Speeds Vector filed bit 1");
     (0x03, "SupportedLink Speeds Vector filed bit 2"); (0x04, "SupportedLink Speeds Vector filed bit 3");
     (0x05, "SupportedLink Speeds Vector filed bit 4"); (0x06, "SupportedLink Speeds Vector filed bit 5");
     (0x07, "SupportedLink Speeds Vector filed bit 6")] "reserved" speed +:+ nl +:+ nl.

Definition linkwidthshow (width : Z) : string :=
  hex width +:+ nl +:+ switch
    [(0x01, "x1"); (0x02, "x2"); (0x04, "x4"); (0x08, "x8"); (0x0c, "x12"); (0x10, "x16"); (0x20, "x32")]
    "reserved" width +:+ nl +:+ nl.

(** ** The walk *)

(** A page of configuration space, word by word. *)
Definition page := Z → Z.
Definition word (p : page) (n : Z) : res Z :=
  if (0 <=? n) && (n <? 1024) then Done (u32 (p n)) else Wild.

(** What is printed of the capability at [ptr]. *)
Definition pcie_report (p : page) (bus dev fn ptr : Z) : res string :=
  id ← word p 0;
  cap ← word p ptr;
  caps2 ← word p (ptr + 11);
  link ← word p (ptr + 3);
  Done ("PCIE:" +:+ "busnumber=" +:+ hex bus +:+ ",dev number=" +:+ hex dev +:+ ",function number=" +:+ hex fn +:+ nl
        +:+ "vender id:" +:+ hex (Z.land id 0xffff) +:+ tab
        +:+ "deviceid:" +:+ hex (Z.land (Z.shiftr id 8) 0xffff) +:+ nl
        +:+ "ptrsearch:" +:+ hex cap +:+ nl
        +:+ "type:" +:+ typeshow (u8 (Z.land (Z.shiftr cap 20) 0x0f))
        +:+ "speed:" +:+ speedshow (u8 (Z.land (Z.shiftr caps2 1) 0x7f))
        +:+ "linkspeed:" +:+ linkspeedshow (u8 (Z.land link 0x0f))
        +:+ "linkwidth:" +:+ linkwidthshow (u8 (Z.land (Z.shiftr link 4) 0x3f))
        +:+ "***************************").

(** The loop behind the first capability.  [None]: the fuel ended. *)
Fixpoint walk (fuel : nat) (p : page) (bus dev fn ptr : Z) : res (option string) :=
  match fuel with
  | O => Done None
  | S fuel =>
      w ← word p ptr;
      if u8 w =? 0x10 then r ← pcie_report p bus dev fn ptr; Done (Some r)
      else if u8 (Z.shiftr w 8) =? 0 then Done (Some "")
      else
        let ptr := u8 (Z.land (Z.shiftr w 8) 0xff) / 4 in
        w ← word p ptr;
        o ← walk fuel p bus dev fn ptr;
        Done (option_map (append ("next pointer:" +:+ hex w +:+ nl)) o)
  end.

(** One function whose page is mapped. *)
Definition show_fun (fuel : nat) (p : page) (bus dev fn : Z) : res (option string) :=
  id ← word p 0;
  if id =? 0xffffffff then Done (Some "")
  else
    cp ← word p 13;
    let nextpoint := u8 cp in
    let ptr := nextpoint / 4 in
    w ← word p ptr;
    o ← walk fuel p bus dev fn ptr;
    Done (option_map (append ("next point:" +:+ hex nextpoint +:+ nl +:+ "ptrdata:" +:+ hex id +:+ nl
                              +:+ "search:" +:+ hex w +:+ nl)) o).

Definition cfg_addr (bus dev fn : Z) : Z :=
  u32 (Z.lor (Z.lor (Z.lor BASE_ADDR (Z.shiftl bus 20)) (Z.shiftl dev 15)) (Z.shiftl fn 12)).

(** One text after the other, while the fuel lasts. *)
Definition cat (a b : res (option string)) : res (option string) :=
  x ← a;
  match x with None => Done None | Some x => y ← b; Done (option_map (append x) y) end.

Section scan.
Context (fuel : nat) (mem : Z → option page).

(** The innermost loop: a failed mmap leaves it. *)
Fixpoint scan_funs (bus dev : Z) (fns : list Z) : res (option string) :=
  match fns with
  | [] => Done (Some "")
  | fn :: fns =>
      match mem (cfg_addr bus dev fn) with
      | None => Done (Some "")
      | Some p => cat (show_fun fuel p bus dev fn) (scan_funs bus dev fns)
      end
  end.
Fixpoint scan_devs (bus : Z) (devs : list Z) : res (option string) :=
  match devs with
  | [] => Done (Some "")
  | dev :: devs => cat (scan_funs bus dev (seqZ 0 MAX_FUN)) (scan_devs bus devs)
  end.
Fixpoint scan_buses (buses : list Z) : res (option string) :=
  match buses with
  | [] => Done (Some "")
  | bus :: buses => cat (scan_devs bus (seqZ 0 MAX_DEV)) (scan_buses buses)
  end.

(** main: the exit code and what is printed; [fd] is the answer of open. *)
Definition main (fd : Z) : res (option (Z * string)) :=
  if fd <? 0 then Done (Some (-1, "openmemory failed!" +:+ nl))
  else
    o ← cat (Done (Some ("fd=" +:+ dec fd +:+ nl))) (scan_buses (seqZ 0 MAX_BUS));
    Done (option_map (fun o => (0, o)) o).
End scan.

(** ** The list of capabilities *)

(** Capability [a] is another one than PCI Express and names [b] as the next. *)
Definition linked (p : page) (a b : Z) : Prop :=
  u8 (u32 (p a)) ≠ 16 ∧ u8 (Z.shiftr (u32 (p a)) 8) ≠ 0 ∧ b = u8 (Z.land (Z.shiftr (u32 (p a)) 8) 0xff) / 4.
Definition is_pcie (p : page) (a : Z) : Prop := u8 (u32 (p a)) = 16.
Definition is_last (p : page) (a : Z) : Prop := u8 (u32 (p a)) ≠ 16 ∧ u8 (Z.shiftr (u32 (p a)) 8) = 0.

(** From [a] over the capabilities [l] to the last of them, [b]. *)
Inductive visits (p : page) : Z → list Z → Z → Prop :=
| visits_here a : visits p a [] a
| visits_next a b l c : linked p a b → visits p b l c → visits p a (b :: l) c.

Definition trace (p : page) (l : list Z) : string :=
  texts (fun n => "next pointer:" +:+ hex (u32 (p n)) +:+ nl) l.

(** The list closes into a circle without a PCI Express capability. *)
Definition cyclic (p : page) (a : Z) : Prop := ∃ b, rtc (linked p) a b ∧ tc (linked p) b b.

Definition slot (a : Z) : Prop := 0 ≤ a < 64.

Lemma slot_of b : slot (u8 b / 4).
Proof.
  unfold slot. pose proof (wrap_range 8 b ltac:(lia)) as Hr. change (2 ^ 8) with 256 in Hr.
  pose proof (Z.div_mod (u8 b) 4 ltac:(lia)). pose proof (Z.mod_pos_bound (u8 b) 4 ltac:(lia)). lia.
Qed.

Lemma word_in p n : 0 ≤ n < 1024 → word p n = Done (u32 (p n)).
Proof. intros H. unfold word. by replace ((0 <=? n) && (n <? 1024)) with true by lia. Qed.

Lemma linked_det p a b c : linked p a b → linked p a c → b = c.
Proof. by intros (_ & _ & ->) (_ & _ & ->). Qed.
Lemma linked_slot p a b : linked p a b → slot b.
Proof. intros (_ & _ & ->). apply slot_of. Qed.

(** Where the walk is: at a PCI Express capability, at the end, or at a link. *)
Lemma at_cases p a : is_pcie p a ∨ is_last p a ∨ ∃ b, linked p a b.
Proof.
  unfold is_pcie, is_last, linked. destruct (Z.eq_dec (u8 (u32 (p a))) 16); [by left|right].
  destruct (Z.eq_dec (u8 (Z.shiftr (u32 (p a)) 8)) 0); [by left|right]. eauto.
Qed.

Lemma visits_elem p a l b c : visits p a l b → c ∈ l → tc (linked p) a c.
Proof.
  induction 1 as [|a b l d H _ IH]; [by intros ?%elem_of_nil|]. intros [->|Hc]%elem_of_cons; [by apply tc_once|].
  eapply tc_l; [done|by apply IH].
Qed.

Lemma visits_slots p a l b : visits p a l b → Forall slot l.
Proof. induction 1 as [|a b l d H _ IH]; constructor; [by eapply linked_slot|done]. Qed.

(** A capability met twice closes a circle. *)
Lemma visits_twice p a l b : visits p a l b → ¬ NoDup (a :: l) → cyclic p a.
Proof.
  induction 1 as [a|a b l c H Hv IH]; intros Hd.
  - destruct Hd. apply NoDup_singleton.
  - destruct (decide (a ∈ b :: l)) as [Ha|Ha].
    + exists a. split; [done|]. eapply visits_elem; [by econstructor|done].
    + destruct IH as (d & H1 & H2); [intros ?; apply Hd; by constructor|]. exists d. split; [by eapply rtc_l|done].
Qed.

Lemma slots_bound l : NoDup l → Forall slot l → (length l ≤ 64)%nat.
Proof.
  intros Hd Hs. change 64%nat with (length (seqZ 0 64)). apply submseteq_length, NoDup_submseteq; [done|].
  intros x Hx. rewrite Forall_forall in Hs. specialize (Hs x Hx). apply elem_of_seqZ. unfold slot in Hs. lia.
Qed.

Lemma cyclic_next p a : cyclic p a → ∃ b, linked p a b ∧ cyclic p b.
Proof.
  intros (b & [->|(a' & H & Hr)]%rtc_inv & Hc).
  - inversion Hc as [? ? H|? c ? H Hr]; subst.
    + exists b. split; [done|]. by exists b.
    + exists c. split; [done|]. exists b. split; [by apply tc_rtc|done].
  - exists a'. split; [done|]. by exists b.
Qed.

(** The first [n] capabilities: an end among them, or a longer list. *)
Lemma visits_ends p n : ∀ a,
  (∃ l b, visits p a l b ∧ (length l < n)%nat ∧ (is_pcie p b ∨ is_last p b))
  ∨ (∃ l b, visits p a l b ∧ length l = n).
Proof.
  induction n as [|n IH]; intros a; [right; exists [], a; split; [constructor|done]|].
  destruct (at_cases p a) as [H|[H|(b & H)]]; [left; exists [], a; split; [constructor|split; [cbn; lia|auto]]..|].
  destruct (IH b) as [(l & c & Hv & Hl & Hc)|(l & c & Hv & Hl)]; [left|right]; exists (b :: l), c.
  - split; [by econstructor|]. cbn. split; [lia|done].
  - split; [by econstructor|]. cbn. lia.
Qed.

Section walks.
Context (p : page) (bus dev fn : Z).

Lemma walk_linked n a b :
  slot a → linked p a b →
  walk (S n) p bus dev fn a
  = (o ← walk n p bus dev fn b; Done (option_map (append ("next pointer:" +:+ hex (u32 (p b)) +:+ nl)) o)).
Proof.
  intros Hs H. pose proof (linked_slot p a b H) as Hb. destruct H as (H1 & H2 & ->). unfold slot in *. cbn [walk].
  rewrite word_in by lia. cbn [mbind res_bind].
  rewrite (proj2 (Z.eqb_neq _ _) H1), (proj2 (Z.eqb_neq _ _) H2). by rewrite word_in by lia.
Qed.

Lemma walk_visits a l b n r :
  visits p a l b → slot a → walk n p bus dev fn b = Done (Some r) →
  walk (length l + n) p bus dev fn a = Done (Some (trace p l +:+ r)).
Proof.
  induction 1 as [|a b l c H _ IH]; intros Hs Hw; [done|]. cbn [length Nat.add].
  rewrite (walk_linked _ a b) by done. rewrite IH by (done || by eapply linked_slot). cbn.
  unfold trace. cbn. by rewrite !string_app_assoc.
Qed.

Lemma report_done a : slot a → ∃ r, pcie_report p bus dev fn a = Done r.
Proof. unfold slot. intros H. unfold pcie_report. rewrite !word_in by lia. eauto. Qed.

Lemma walk_cyclic n : ∀ a, slot a → cyclic p a → walk n p bus dev fn a = Done None.
Proof.
  induction n as [|n IH]; intros a Hs Hc; [done|]. destruct (cyclic_next p a Hc) as (b & Hl & Hb).
  rewrite (walk_linked n a b) by done. rewrite IH; [done|by eapply linked_slot|done].
Qed.

(** The three fates of a walk. *)
Inductive fate (a : Z) : option string → Prop :=
| fate_pcie l b r : visits p a l b → is_pcie p b → pcie_report p bus dev fn b = Done r → fate a (Some (trace p l +:+ r))
| fate_last l b : visits p a l b → is_last p b → fate a (Some (trace p l))
| fate_cyclic : cyclic p a → fate a None.

(** With too little fuel the walk is still under way. *)
Lemma walk_short a l b n :
  visits p a l b → slot a → (n ≤ length l)%nat → walk n p bus dev fn a = Done None.
Proof.
  intros Hv. revert n. induction Hv as [|a b l c H _ IH]; intros n Hs Hn; destruct n as [|n]; try done; [cbn in Hn; lia|].
  rewrite (walk_linked n a b) by done. rewrite IH; [done|by eapply linked_slot|cbn in Hn; lia].
Qed.

Lemma visits_slot a l b : visits p a l b → slot a → slot b.
Proof. induction 1 as [|x y l' z H _ IH]; intros Hs; [done|]. apply IH. by eapply linked_slot. Qed.

(** A walk that ends does so within 64 capabilities, whatever fuel is left. *)
Lemma walk_end a l b r :
  visits p a l b → slot a → (length l < 64)%nat → (∀ n, walk (S n) p bus dev fn b = Done (Some r)) →
  (∀ n, (64 ≤ n)%nat → walk n p bus dev fn a = Done (Some (trace p l +:+ r)))
  ∧ ∀ n, walk n p bus dev fn a = Done None ∨ walk n p bus dev fn a = Done (Some (trace p l +:+ r)).
Proof.
  intros Hv Hs Hl Hr.
  assert (∀ n, (length l < n)%nat → walk n p bus dev fn a = Done (Some (trace p l +:+ r))) as H.
  { intros n Hn. replace n with (length l + S (n - length l - 1))%nat by lia. by apply (walk_visits a l b). }
  split; [intros n Hn; apply H; lia|]. intros n. destruct (decide (length l < n)%nat); [right; auto|left].
  apply (walk_short a l b); [done..|lia].
Qed.

Lemma walk_fate a :
  slot a → ∃ o, fate a o ∧ (∀ n, (64 ≤ n)%nat → walk n p bus dev fn a = Done o)
    ∧ ∀ n, walk n p bus dev fn a = Done None ∨ walk n p bus dev fn a = Done o.
Proof.
  intros Hs. destruct (visits_ends p 64 a) as [(l & b & Hv & Hl & Hb)|(l & b & Hv & Hl)].
  - pose proof (visits_slot a l b Hv Hs) as Hsb. destruct (report_done b Hsb) as (r & Hr). unfold slot in Hsb.
    destruct Hb as [Hb|Hb].
    + exists (Some (trace p l +:+ r)). split; [by econstructor|]. apply (walk_end a l b); [done..|]. intros n.
      cbn [walk]. rewrite word_in by lia. cbn [mbind res_bind]. by rewrite (proj2 (Z.eqb_eq _ _) Hb), Hr.
    + exists (Some (trace p l)). split; [by econstructor|]. rewrite <- (string_app_nil_r (trace p l)).
      apply (walk_end a l b); [done..|]. intros n. destruct Hb as [H1 H2].
      cbn [walk]. rewrite word_in by lia. cbn [mbind res_bind].
      by rewrite (proj2 (Z.eqb_neq _ _) H1), (proj2 (Z.eqb_eq _ _) H2).
  - assert (cyclic p a) as Hc.
    { apply (visits_twice p a l b Hv). intros Hd. pose proof (slots_bound _ Hd) as Hb. cbn [length] in Hb. rewrite Hl in Hb.
      apply visits_slots in Hv. specialize (Hb ltac:(by constructor)). lia. }
    exists None. split; [by constructor|]. split; [intros n _|intros n; left]; by apply walk_cyclic.
Qed.
End walks.

(** ** The scan *)

(** A mapped function: its numbers and its page. *)
Record func := Func { f_bus : Z; f_dev : Z; f_fn : Z; f_page : page }.
Definition first_cap (p : page) : Z := u8 (u32 (p 13)) / 4.
Definition fun_heading (p : page) : string :=
  "next point:" +:+ hex (u8 (u32 (p 13))) +:+ nl +:+ "ptrdata:" +:+ hex (u32 (p 0)) +:+ nl
  +:+ "search:" +:+ hex (u32 (p (first_cap p))) +:+ nl.

(** What is shown of a function; [None]: the walk does not end. *)
Inductive shown (f : func) : option string → Prop :=
| shown_absent : u32 (f_page f 0) = 0xffffffff → shown f (Some "")
| shown_present o : u32 (f_page f 0) ≠ 0xffffffff →
    fate (f_page f) (f_bus f) (f_dev f) (f_fn f) (first_cap (f_page f)) o →
    shown f (option_map (append (fun_heading (f_page f))) o).

(** The functions the loops reach, in their order: of every device those before
    the first whose page cannot be mapped. *)
Fixpoint mapped (mem : Z → option page) (bus dev : Z) (fns : list Z) : list func :=
  match fns with
  | [] => []
  | fn :: fns =>
      match mem (cfg_addr bus dev fn) with
      | None => []
      | Some p => Func bus dev fn p :: mapped mem bus dev fns
      end
  end.
Definition reached (mem : Z → option page) : list func :=
  concat ((fun bus => concat ((fun dev => mapped mem bus dev (seqZ 0 MAX_FUN)) <$> seqZ 0 MAX_DEV)) <$> seqZ 0 MAX_BUS).

Definition show (n : nat) (f : func) : res (option string) := show_fun n (f_page f) (f_bus f) (f_dev f) (f_fn f).
Definition cats : list (res (option string)) → res (option string) := foldr cat (Done (Some "")).

Lemma show_fun_eq n p bus dev fn :
  show_fun n p bus dev fn
  = if u32 (p 0) =? 0xffffffff then Done (Some "")
    else o ← walk n p bus dev fn (first_cap p); Done (option_map (append (fun_heading p)) o).
Proof.
  assert (slot (first_cap p)) as Hs by apply slot_of. unfold slot, first_cap in Hs.
  unfold show_fun. rewrite (word_in p 0) by lia. cbn [mbind res_bind]. case_match; [done|].
  rewrite (word_in p 13) by lia. cbn [mbind res_bind]. by rewrite word_in by lia.
Qed.

Lemma show_shown f :
  ∃ o, shown f o ∧ (∀ n, (64 ≤ n)%nat → show n f = Done o) ∧ ∀ n, show n f = Done None ∨ show n f = Done o.
Proof.
  destruct f as [bus dev fn p]. unfold show. cbn [f_page f_bus f_dev f_fn]. setoid_rewrite show_fun_eq.
  destruct (Z.eqb_spec (u32 (p 0)) 0xffffffff) as [E|E].
  - exists (Some ""). split; [by constructor|]. auto.
  - destruct (walk_fate p bus dev fn (first_cap p)) as (o & Ho & H1 & H2); [apply slot_of|].
    exists (option_map (append (fun_heading p)) o). split; [by apply (shown_present (Func bus dev fn p))|]. split.
    + intros n Hn. by rewrite H1.
    + intros n. destruct (H2 n) as [-> | ->]; auto.
Qed.

Lemma cat_nil_l m : cat (Done (Some "")) m = m.
Proof. by destruct m as [[|]| |]. Qed.
Lemma cat_assoc a b c : cat (cat a b) c = cat a (cat b c).
Proof.
  destruct a as [[x|]| |]; cbn; try done. destruct b as [[y|]| |]; cbn; try done.
  destruct c as [[z|]| |]; cbn; try done. by rewrite string_app_assoc.
Qed.
Lemma cats_app l k : cats (l ++ k) = cat (cats l) (cats k).
Proof. induction l as [|m l IH]; [symmetry; apply cat_nil_l|]. change (cats ((m :: l) ++ k)) with (cat m (cats (l ++ k))).
  change (cats (m :: l)) with (cat m (cats l)). by rewrite IH, cat_assoc. Qed.

Lemma scan_cats n mem : scan_buses n mem (seqZ 0 MAX_BUS) = cats (show n <$> reached mem).
Proof.
  assert (∀ bus dev fns, scan_funs n mem bus dev fns = cats (show n <$> mapped mem bus dev fns)) as Hf.
  { intros bus dev. induction fns as [|fn fns IH]; cbn; [done|]. destruct (mem _); cbn; [|done]. by rewrite IH. }
  assert (∀ bus devs, scan_devs n mem bus devs
    = cats (show n <$> concat ((fun dev => mapped mem bus dev (seqZ 0 MAX_FUN)) <$> devs))) as Hd.
  { intros bus. induction devs as [|dev devs IH]; [done|]. cbn [scan_devs fmap list_fmap concat].
    by rewrite fmap_app, cats_app, <- Hf, IH. }
  unfold reached. induction (seqZ 0 MAX_BUS) as [|bus buses IH]; [done|]. cbn [scan_buses fmap list_fmap concat].
  by rewrite fmap_app, cats_app, <- Hd, IH.
Qed.

(** All functions end, and the texts follow each other; or one does not. *)
Lemma cats_shown l :
  (∃ ts, Forall2 (fun f t => shown f (Some t)) l ts
     ∧ ∀ n, (64 ≤ n)%nat → cats (show n <$> l) = Done (Some (texts id ts)))
  ∨ ((∃ f, f ∈ l ∧ shown f None) ∧ ∀ n, cats (show n <$> l) = Done None).
Proof.
  induction l as [|f l IH]; [left; exists []; split; [constructor|done]|].
  assert (∀ n, cats (show n <$> f :: l) = cat (show n f) (cats (show n <$> l))) as Hc by done.
  destruct (show_shown f) as ([t|] & Hs & H1 & H2).
  - destruct IH as [(ts & Hf & Hn)|((g & Hg & Hsg) & Hn)].
    + left. exists (t :: ts). split; [by constructor|]. intros n Hle. by rewrite Hc, H1, Hn.
    + right. split; [exists g; split; [by constructor|done]|]. intros n. rewrite Hc, Hn.
      by destruct (H2 n) as [-> | ->].
  - right. split; [exists f; split; [by constructor|done]|]. intros n. rewrite Hc.
    by destruct (H2 n) as [-> | ->].
Qed.

(** The address of a function in the enhanced configuration area. *)
Lemma cfg_addr_fields bus dev fn :
  0 ≤ bus < MAX_BUS → 0 ≤ dev < MAX_DEV → 0 ≤ fn < MAX_FUN →
  cfg_addr bus dev fn = BASE_ADDR + bus * 2 ^ 20 + dev * 2 ^ 15 + fn * 2 ^ 12.
Proof.
  intros Hb Hd Hf.
  assert (Forall (fun b => Forall (fun d => Forall (fun f =>
    cfg_addr b d f = BASE_ADDR + b * 2 ^ 20 + d * 2 ^ 15 + f * 2 ^ 12)
    (seqZ 0 MAX_FUN)) (seqZ 0 MAX_DEV)) (seqZ 0 MAX_BUS)) as H
    by (apply (bool_decide_unpack _); vm_compute; exact I).
  rewrite Forall_forall in H. specialize (H bus ltac:(apply elem_of_seqZ; lia)).
  rewrite Forall_forall in H. specialize (H dev ltac:(apply elem_of_seqZ; lia)).
  rewrite Forall_forall in H. exact (H fn ltac:(apply elem_of_seqZ; lia)).
Qed.

(** C32: show_pci never leaves the pages it maps, and either lists the functions
    it reaches, in the order of their addresses, each with the capabilities met
    on the way and, exactly for those whose list of capabilities holds a PCI
    Express capability, its report; or one of the lists is a circle without such
    a capability, and the program never ends.  Sixty-four rounds per function
    decide which. *)
Theorem show_pci_lists mem fd :
  0 ≤ fd →
  (∃ ts, Forall2 (fun f t => shown f (Some t)) (reached mem) ts
     ∧ ∀ n, (64 ≤ n)%nat → main n mem fd = Done (Some (0, ("fd=" +:+ dec fd +:+ nl) +:+ texts id ts)))
  ∨ ((∃ f, f ∈ reached mem ∧ u32 (f_page f 0) ≠ 0xffffffff ∧ cyclic (f_page f) (first_cap (f_page f)))
     ∧ ∀ n, main n mem fd = Done None).
Proof.
  intros Hfd. assert (∀ n, main n mem fd
    = (o ← cat (Done (Some ("fd=" +:+ dec fd +:+ nl))) (cats (show n <$> reached mem)); Done (option_map (fun o => (0, o)) o))) as Hm.
  { intros n. unfold main. rewrite scan_cats. by replace (fd <? 0) with false by lia. }
  destruct (cats_shown (reached mem)) as [(ts & Hf & Hn)|((f & Hf & Hs) & Hn)]; [left|right].
  - exists ts. split; [done|]. intros n Hle. by rewrite Hm, (Hn n Hle).
  - split; [|intros n; by rewrite Hm, Hn]. exists f. split; [done|].
    inversion Hs as [|o Hp Hfate Ho]. destruct o; [done|]. inversion Hfate; auto.
Qed.

(** Memory with one function, whose capabilities are power management at 0x40
    and PCI Express at 0x50; with the next of the second pointing back instead,
    a circle. *)
Definition one_function (next : Z) : page := fun n =>
  if n =? 0 then 0x12348086 else if n =? 13 then 0x40 else if n =? 16 then 0x5001
  else if n =? 20 then next else if n =? 23 then 0x11 else if n =? 31 then 0x4 else 0.
Definition one_function_mem (next : Z) (addr : Z) : option page :=
  if addr =? BASE_ADDR then Some (one_function next) else None.

Lemma show_pci_lists_witness :
  ∃ ts, Forall2 (fun f t => shown f (Some t)) (reached (one_function_mem 0x20010)) ts
    ∧ ∀ n, (64 ≤ n)%nat → main n (one_function_mem 0x20010) 3 = Done (Some (0, ("fd=" +:+ dec 3 +:+ nl) +:+ texts id ts)).
Proof.
  destruct (show_pci_lists (one_function_mem 0x20010) 3) as [H|[_ H]]; [lia|exact H|].
  exfalso. specialize (H 64%nat). vm_compute in H. discriminate.
Defined.

(** A circle: the walk is under way after 64 rounds. *)
Lemma one_function_circle : main 64 (one_function_mem 0x4005) 3 = Done None.
Proof. vm_compute. reflexivity. Qed.

(** The device id printed is not that of the function: 0x1234 is shown as 0x3480. *)
Lemma device_id_shift : Z.land (Z.shiftr (one_function 0 0) 8) 0xffff = 0x3480.
Proof. reflexivity. Qed.
