(* ===== verification/GetDelays.v ===== *)
(** * getdelays: delay accounting over netlink

    [steal/getdelays.c]: requests are written into a [struct msgtemplate] on
    the stack and sent, replies are received into another one and walked
    attribute by attribute.  Both are arrays of bytes here, with the layout
    netlink documents: a header of 16 bytes (length, type, flags, sequence,
    sender), a generic header of 4 (command, version, two reserved), and
    attributes of a length, a type and their data, aligned to 4 bytes.

    What the kernel's headers define is the class [Taskstats]; the answers of
    the system calls are [delay_sys]. *)

From S2P Require Import Prelude CLib CDouble CBytes.

(** ** The kernel's headers *)

(** The fields of [struct taskstats] and [struct cgroupstats] that are
    printed. *)
Record taskstats := mk_taskstats {
  cpu_count : Z; cpu_run_real_total : Z; cpu_run_virtual_total : Z; cpu_delay_total : Z;
  blkio_count : Z; blkio_delay_total : Z;
  swapin_count : Z; swapin_delay_total : Z;
  freepages_count : Z; freepages_delay_total : Z;
  nvcsw : Z; nivcsw : Z;
  ac_comm : string; read_bytes : Z; write_bytes : Z; cancelled_write_bytes : Z
}.
Record cgroupstats := mk_cgroupstats {
  nr_sleeping : Z; nr_running : Z; nr_stopped : Z; nr_uninterruptible : Z; nr_io_wait : Z
}.

(** Numbers and layouts; a [switch] requires its labels to be distinct. *)
Class Taskstats := {
  NLMSG_ERROR : Z; NLM_F_REQUEST : Z; GENL_ID_CTRL : Z;
  CTRL_CMD_GETFAMILY : Z; CTRL_ATTR_FAMILY_ID : Z; CTRL_ATTR_FAMILY_NAME : Z;
  TASKSTATS_GENL_NAME : string; TASKSTATS_CMD_GET : Z;
  TASKSTATS_CMD_ATTR_UNSPEC : Z; TASKSTATS_CMD_ATTR_PID : Z; TASKSTATS_CMD_ATTR_TGID : Z;
  TASKSTATS_CMD_ATTR_REGISTER_CPUMASK : Z; TASKSTATS_CMD_ATTR_DEREGISTER_CPUMASK : Z;
  CGROUPSTATS_CMD_GET : Z; CGROUPSTATS_CMD_ATTR_FD : Z;
  TASKSTATS_TYPE_PID : Z; TASKSTATS_TYPE_TGID : Z; TASKSTATS_TYPE_STATS : Z;
  TASKSTATS_TYPE_AGGR_PID : Z; TASKSTATS_TYPE_AGGR_TGID : Z; TASKSTATS_TYPE_NULL : Z;
  CGROUPSTATS_TYPE_CGROUP_STATS : Z;
  sizeof_taskstats : Z; taskstats_of : list Z → taskstats;
  sizeof_cgroupstats : Z; cgroupstats_of : list Z → cgroupstats;
  outer_labels : NoDup [TASKSTATS_TYPE_AGGR_TGID; TASKSTATS_TYPE_AGGR_PID;
                        CGROUPSTATS_TYPE_CGROUP_STATS; TASKSTATS_TYPE_NULL];
  inner_labels : NoDup [TASKSTATS_TYPE_PID; TASKSTATS_TYPE_TGID; TASKSTATS_TYPE_STATS;
                        TASKSTATS_TYPE_NULL]
}.

(** ** Sizes *)

Definition NLMSG_HDRLEN : Z := 16.
Definition GENL_HDRLEN : Z := 4.
Definition NLA_HDRLEN : Z := 4.
Definition align4 (n : Z) : Z := (n + 3) / 4 * 4.
(** [GENLMSG_DATA(&msg)]: where the first attribute starts. *)
Definition GENLMSG_DATA : Z := NLMSG_HDRLEN + GENL_HDRLEN.
(** [GENLMSG_PAYLOAD(&msg.n)]. *)
Definition GENLMSG_PAYLOAD (nlmsg_len : Z) : Z := i32 (nlmsg_len - NLMSG_HDRLEN - GENL_HDRLEN).

Definition MAX_MSG_SIZE : Z := 1024.
Definition MAX_CPUS : Z := 32.
Definition sizeof_msgtemplate : Z := GENLMSG_DATA + MAX_MSG_SIZE.
Definition sizeof_cpumask : Z := 100 + 6 * MAX_CPUS.

(** [NLMSG_OK]. *)
Definition NLMSG_OK (nlmsg_len rep_len : Z) : bool :=
  (NLMSG_HDRLEN <=? rep_len) && (NLMSG_HDRLEN <=? nlmsg_len) && (nlmsg_len <=? rep_len).

(** ** Settings and state *)

Record delay_opts := mk_delay_opts {
  print_delays : bool;
  print_io_accounting : bool;
  print_task_context_switch_counts : bool;
  dbg : bool;
  loop_ : bool;
  containerpath : option string;
  logfile : option string;
  rcvbufsz : Z;
  cpumask : option string;
  tid : Z;
  cmd_type : Z;
  forking : bool
}.
#[export] Instance delay_opts_eta : Eta delay_opts := fun o =>
  mk_delay_opts (print_delays o) (print_io_accounting o) (print_task_context_switch_counts o)
    (dbg o) (loop_ o) (containerpath o) (logfile o) (rcvbufsz o) (cpumask o) (tid o) (cmd_type o)
    (forking o).

(** What the program has done: its output, the bytes in the log file, the
    number of statistics seen, what it sent; and the answers [sendto] and
    [recv] still have in store.  An answer of [sendto] is the number of bytes
    taken and whether [errno] is [EAGAIN]. *)
Record delays := mk_delays {
  d_out : string;
  d_log : list Z;
  d_count : Z;
  d_sent : list (list Z);
  d_sends : list (Z * bool);
  d_replies : list (option (list Z))
}.
#[export] Instance delays_eta : Eta delays := fun d =>
  mk_delays (d_out d) (d_log d) (d_count d) (d_sent d) (d_sends d) (d_replies d).

Definition printf (text : string) (d : delays) : delays := d <| d_out := d_out d +:+ text |>.
(** The macro [PRINTF]. *)
Definition debugf (o : delay_opts) (text : string) (d : delays) : delays :=
  if dbg o then printf text d else d.

Record delay_sys := mk_delay_sys {
  s_socket : bool; s_sockopt : bool; s_bind : bool;
  s_open_log : bool; s_write_log : bool;
  s_getpid : Z;
  s_fork : Z;
  s_open_cgroup : option Z;
  s_stack : list Z          (** what the memory of a message holds at first *)
}.

(** ** Sending *)

Definition create_nl_socket (Y : delay_sys) (o : delay_opts) : bool :=
  s_socket Y && ((rcvbufsz o =? 0) || s_sockopt Y) && s_bind Y.

(** The loop around [sendto]; 0, or -1 for an error. *)
Fixpoint send_loop (answers : list (Z * bool)) (buf : list Z) (d : delays) : res (Z * delays) :=
  match answers with
  | [] => Die "sendto does not return"
  | (r, again) :: answers =>
      let d := d <| d_sends := answers |> in
      if zlen buf <=? r then Done (0, d <| d_sent := d_sent d ++ [buf] |>)
      else if 0 <? r then
        send_loop answers (drop (Z.to_nat r) buf)
          (d <| d_sent := d_sent d ++ [take (Z.to_nat r) buf] |>)
      else if again then send_loop answers buf d
      else Done (-1, d)
  end.

(** The message in [msg], a local variable that starts as [stack]. *)
Definition build_cmd `{Taskstats} (stack : list Z) (nlmsg_type nlmsg_pid genl_cmd nla_type : Z)
    (nla_data : list Z) : res (list Z) :=
  msg ← awrite stack 0 (le 4 GENLMSG_DATA);
  msg ← awrite msg 4 (le 2 nlmsg_type);
  msg ← awrite msg 6 (le 2 NLM_F_REQUEST);
  msg ← awrite msg 8 (le 4 0);
  msg ← awrite msg 12 (le 4 nlmsg_pid);
  msg ← awrite msg 16 (le 1 genl_cmd);
  msg ← awrite msg 17 (le 1 1);
  msg ← awrite msg 22 (le 2 nla_type);
  let nla_len := (zlen nla_data + 1 + NLA_HDRLEN) mod 2 ^ 16 in
  msg ← awrite msg 20 (le 2 nla_len);
  msg ← awrite msg 24 nla_data;
  let nlmsg_len := GENLMSG_DATA + align4 nla_len in
  msg ← awrite msg 0 (le 4 nlmsg_len);
  bytes_at msg 0 nlmsg_len.

Definition send_cmd `{Taskstats} (Y : delay_sys) (nlmsg_type genl_cmd nla_type : Z)
    (nla_data : list Z) (d : delays) : res (Z * delays) :=
  buf ← build_cmd (s_stack Y) nlmsg_type (s_getpid Y) genl_cmd nla_type nla_data;
  send_loop (d_sends d) buf d.

(** [recv] into an object of [size] bytes: the length, and the object. *)
Definition recv (size : Z) (obj : list Z) (d : delays) : res (option Z * list Z * delays) :=
  match d_replies d with
  | [] => Die "recv does not return"
  | r :: rest =>
      let d := d <| d_replies := rest |> in
      match r with
      | None => Done (None, obj, d)
      | Some bs =>
          let bs := take (Z.to_nat size) bs in
          obj ← awrite obj 0 bs;
          Done (Some (zlen bs), obj, d)
      end
  end.

(** The family of taskstats, or 0. *)
Definition get_family_id `{Taskstats} (Y : delay_sys) (d : delays) : res (Z * delays) :=
  '(rc, d) ← send_cmd Y GENL_ID_CTRL CTRL_CMD_GETFAMILY CTRL_ATTR_FAMILY_NAME
               (c_bytes TASKSTATS_GENL_NAME) d;
  if rc <? 0 then Done (0, d)
  else
    '(rep_len, ans, d) ← recv 276 (take 276 (s_stack Y)) d;
    nlmsg_type ← get 2 ans 4;
    nlmsg_len ← get 4 ans 0;
    match rep_len with
    | None => Done (0, d)
    | Some rep_len =>
        if (nlmsg_type =? NLMSG_ERROR) || negb (NLMSG_OK nlmsg_len rep_len) then Done (0, d)
        else
          first ← get 2 ans GENLMSG_DATA;
          let na := GENLMSG_DATA + align4 first in
          nla_type ← get 2 ans (na + 2);
          if nla_type =? CTRL_ATTR_FAMILY_ID then
            id ← get 2 ans (na + NLA_HDRLEN); Done (id, d)
          else Done (0, d)
    end.

(** ** Printing *)

(** The macro [average_ms] on integers and on a double. *)
Definition average_ms (t c : Z) : Z := t / 1000000 / (if c =? 0 then 1 else c).
Definition average_ms_f (t c : Z) : double :=
  ddiv (ddiv (of_Z t) (of_Z 1000000)) (of_Z (if c =? 0 then 1 else c)).

Definition col (s : string) : string := padl " " 20 s.
Definition num (z : Z) : string := col (dec z).

(** A group of three columns: a title, its width, and the figures. *)
Definition delay_rows (title : string) (width count total : Z) : string :=
  title +:+ padl " " width "count" +:+ col "delay total" +:+ col "delay average" +:+ nl +:+
  "      " +:+ num count +:+ num total +:+ num (average_ms total count) +:+ "ms" +:+ nl.

Definition print_delayacct (t : taskstats) : string :=
  nl +:+ nl +:+ "CPU   " +:+ col "count" +:+ col "real total" +:+ col "virtual total" +:+
    col "delay total" +:+ col "delay average" +:+ nl +:+
  "      " +:+ num (cpu_count t) +:+ num (cpu_run_real_total t) +:+ num (cpu_run_virtual_total t) +:+
    num (cpu_delay_total t) +:+
    padl " " 16 (show_f 3 (average_ms_f (cpu_delay_total t) (cpu_count t))) +:+ "ms" +:+ nl +:+
  delay_rows "IO    " 20 (blkio_count t) (blkio_delay_total t) +:+
  delay_rows "SWAP  " 20 (swapin_count t) (swapin_delay_total t) +:+
  delay_rows "RECLAIM  " 17 (freepages_count t) (freepages_delay_total t).

Definition task_context_switch_counts (t : taskstats) : string :=
  nl +:+ nl +:+ "Task   " +:+ col "voluntary" +:+ col "nonvoluntary" +:+ nl +:+
  "       " +:+ num (nvcsw t) +:+ num (nivcsw t) +:+ nl.

Definition print_cgroupstats (c : cgroupstats) : string :=
  "sleeping " +:+ dec (nr_sleeping c) +:+ ", blocked " +:+ dec (nr_io_wait c) +:+
  ", running " +:+ dec (nr_running c) +:+ ", stopped " +:+ dec (nr_stopped c) +:+
  ", uninterruptible " +:+ dec (nr_uninterruptible c) +:+ nl.

Definition print_ioacct (t : taskstats) : string :=
  ac_comm t +:+ ": read=" +:+ dec (read_bytes t) +:+ ", write=" +:+ dec (write_bytes t) +:+
  ", cancelled_write=" +:+ dec (cancelled_write_bytes t) +:+ nl.

(** ** Walking a reply *)

Section Walk.
Context `{Taskstats} (Y : delay_sys) (o : delay_opts).

Definition print_stats (t : taskstats) (d : delays) : delays :=
  let d := if print_delays o then printf (print_delayacct t) d else d in
  let d := if print_io_accounting o then printf (print_ioacct t) d else d in
  if print_task_context_switch_counts o then printf (task_context_switch_counts t) d else d.

(** [if (fd) write(fd, NLA_DATA(na), na->nla_len)]. *)
Definition write_stats (nla_len : Z) (data : Z → res (list Z)) (d : delays) : res delays :=
  match logfile o with
  | None => Done d
  | Some _ =>
      bs ← data nla_len;
      if s_write_log Y then Done (d <| d_log := d_log d ++ bs |>) else Die "write error"
  end.

Definition print_id (label : string) (data : Z → res (list Z)) (d : delays) : res (bool * delays) :=
  bs ← data 4;
  Done (false, if print_delays o then printf (label +:+ tab +:+ dec (i32 (of_le bs)) +:+ nl) d else d).

(** One nested attribute; [data n] are the [n] bytes at [NLA_DATA(na)].  The
    flag tells whether to leave through [goto done]. *)
Definition nested_action (nla_type nla_len : Z) (data : Z → res (list Z)) (d : delays)
    : res (bool * delays) :=
  if nla_type =? TASKSTATS_TYPE_PID then print_id "PID" data d
  else if nla_type =? TASKSTATS_TYPE_TGID then print_id "TGID" data d
  else if nla_type =? TASKSTATS_TYPE_STATS then
    let d := d <| d_count := i32 (d_count d + 1) |> in
    bs ← (if print_delays o || print_io_accounting o || print_task_context_switch_counts o
          then data sizeof_taskstats else Done []);
    let d := print_stats (taskstats_of bs) d in
    d ← write_stats nla_len data d;
    Done (negb (loop_ o), d)
  else Done (false, d).

(** [while (len2 < aggr_len)]: [na], [len2], whether [goto done] was taken. *)
Definition nested_body (msg : list Z) (aggr_len : Z) (s : Z * Z * bool * delays)
    : res ((Z * Z * bool * delays) + (Z * Z * bool * delays)) :=
  let '(na, len2, _, d) := s in
  if negb (len2 <? aggr_len) then Done (inr s)
  else
    nla_type ← get 2 msg (na + 2);
    nla_len ← get 2 msg na;
    '(stop, d) ← nested_action nla_type nla_len (bytes_at msg (na + NLA_HDRLEN)) d;
    if (stop : bool) then Done (inr (na, len2, true, d))
    else
      let step := align4 nla_len in
      Done (inl (na + step, len2 + step, false, d)).

(** [while (len < rep_len)]: [len], whether [goto done] was taken. *)
Definition reply_body (msg : list Z) (rep_len : Z) (s : Z * bool * delays)
    : res ((Z * bool * delays) + (Z * bool * delays)) :=
  let '(len, _, d) := s in
  if negb (len <? rep_len) then Done (inr s)
  else
    let na := GENLMSG_DATA + len in
    nla_len ← get 2 msg na;
    nla_type ← get 2 msg (na + 2);
    let len := len + align4 nla_len in
    if (nla_type =? TASKSTATS_TYPE_AGGR_TGID) || (nla_type =? TASKSTATS_TYPE_AGGR_PID) then
      let aggr_len := nla_len - NLA_HDRLEN in
      '(_, _, stop, d) ← loop (nested_body msg aggr_len) (Z.max 0 aggr_len + 1)
                           (na + NLA_HDRLEN, 0, false, d);
      Done (if (stop : bool) then inr (len, true, d) else inl (len, false, d))
    else if nla_type =? CGROUPSTATS_TYPE_CGROUP_STATS then
      bs ← bytes_at msg (na + NLA_HDRLEN) sizeof_cgroupstats;
      Done (inl (len, false, printf (print_cgroupstats (cgroupstats_of bs)) d))
    else Done (inl (len, false, d)).

Definition walk_reply (msg : list Z) (rep_len : Z) (d : delays) : res (bool * delays) :=
  '(_, stop, d) ← loop (reply_body msg rep_len) (Z.max 0 rep_len + 1) (0, false, d);
  Done (stop, d).

(** One turn of [do ... while (loop)]: whether to leave, the message. *)
Definition receive (msg : list Z) (d : delays) : res (bool * list Z * delays) :=
  '(rep_len, msg, d) ← recv sizeof_msgtemplate msg d;
  let d := debugf o ("received " +:+ dec (default (-1) rep_len) +:+ " bytes" +:+ nl) d in
  match rep_len with
  | None => Done (false, msg, d)
  | Some rep_len =>
      nlmsg_type ← get 2 msg 4;
      nlmsg_len ← get 4 msg 0;
      if (nlmsg_type =? NLMSG_ERROR) || negb (NLMSG_OK nlmsg_len rep_len) then Done (true, msg, d)
      else
        let d := debugf o ("nlmsghdr size=" +:+ dec NLMSG_HDRLEN +:+ ", nlmsg_len=" +:+
                           dec nlmsg_len +:+ ", rep_len=" +:+ dec rep_len +:+ nl) d in
        '(stop, d) ← walk_reply msg (GENLMSG_PAYLOAD nlmsg_len) d;
        Done (stop, msg, d)
  end.

(** The receiving loop, one turn per reply in store and one more, which waits
    for ever. *)
Fixpoint receive_loop (n : nat) (msg : list Z) (d : delays) : res delays :=
  '(stop, msg, d) ← receive msg d;
  if (stop : bool) || negb (loop_ o) then Done d
  else match n with O => Die "recv does not return" | S n => receive_loop n msg d end.
End Walk.

(** ** Options and main *)

(** [strncpy(cpumask, optarg, sizeof(cpumask))], printed with [%s]. *)
Definition copy_cpumask (optarg : string) : res string :=
  if strlen optarg <? sizeof_cpumask then Done optarg else Wild.
(** [strncpy(containerpath, optarg, strlen(optarg) + 1)] into 1024 bytes. *)
Definition copy_container (optarg : string) : res string :=
  if strlen optarg <? 1024 then Done optarg else Wild.

Definition delay_option `{Taskstats} (Y : delay_sys) (x : ascii * string) (o : delay_opts) (d : delays)
    : res (delay_opts * delays) :=
  let '(c, optarg) := x in
  let opt := Ascii.eqb c in
  let say o text := Done (o, printf (text +:+ nl) d) in
  if opt "d"%char then say (o <| print_delays := true |>) "print delayacct stats ON"
  else if opt "i"%char then say (o <| print_io_accounting := true |>) "printing IO accounting"
  else if opt "q"%char then
    say (o <| print_task_context_switch_counts := true |>) "printing task/process context switch rates"
  else if opt "C"%char then
    path ← copy_container optarg; Done (o <| containerpath := Some path |>, d)
  else if opt "w"%char then say (o <| logfile := Some optarg |>) ("write to file " +:+ optarg)
  else if opt "r"%char then
    let n := atoi optarg in
    if n <? 0 then Die "Invalid rcv buf size"
    else say (o <| rcvbufsz := n |>) ("receive buf size " +:+ dec n)
  else if opt "m"%char then
    mask ← copy_cpumask optarg;
    say (o <| cpumask := Some mask |>) ("cpumask " +:+ mask +:+ " maskset 1")
  else if opt "t"%char then
    if atoi optarg =? 0 then Die "Invalid tgid"
    else Done (o <| tid := atoi optarg |> <| cmd_type := TASKSTATS_CMD_ATTR_TGID |>, d)
  else if opt "p"%char then
    if atoi optarg =? 0 then Die "Invalid pid"
    else Done (o <| tid := atoi optarg |> <| cmd_type := TASKSTATS_CMD_ATTR_PID |>, d)
  else if opt "c"%char then
    if s_fork Y <? 0 then Die "Fork failed"
    else if s_fork Y =? 0 then Die "the child runs the command"
    else Done (o <| tid := s_fork Y |> <| cmd_type := TASKSTATS_CMD_ATTR_PID |>
                 <| forking := true |>, d)
  else if opt "v"%char then say (o <| dbg := true |>) "debug on"
  else if opt "l"%char then say (o <| loop_ := true |>) "listen forever"
  else Die "usage".

(** [while (!forking)]. *)
Fixpoint delay_options `{Taskstats} (Y : delay_sys) (l : list (ascii * string)) (o : delay_opts)
    (d : delays) : res (delay_opts * delays) :=
  match l with
  | [] => Done (o, d)
  | x :: l =>
      if forking o then Done (o, d)
      else '(o, d) ← delay_option Y x o d; delay_options Y l o d
  end.

Definition delay_start `{Taskstats} : delay_opts :=
  mk_delay_opts false false false false false None None 0 None 0 TASKSTATS_CMD_ATTR_UNSPEC false.

(** From the label [done] on. *)
Definition at_done `{Taskstats} (Y : delay_sys) (o : delay_opts) (id : Z) (d : delays) : res delays :=
  match cpumask o with
  | None => Done d
  | Some mask =>
      '(rc, d) ← send_cmd Y id TASKSTATS_CMD_GET TASKSTATS_CMD_ATTR_DEREGISTER_CPUMASK (c_bytes mask) d;
      let d := printf ("Sent deregister mask, retval " +:+ dec rc +:+ nl) d in
      if rc <? 0 then Die "error sending deregister cpumask" else Done d
  end.

(** A command, then [k], or [fail] when it could not be sent. *)
Definition command `{Taskstats} (Y : delay_sys) (id genl_cmd nla_type : Z) (data : list Z)
    (note : Z → delays → delays) (fail k : delays → res delays) (d : delays) : res delays :=
  '(rc, d) ← send_cmd Y id genl_cmd nla_type data d;
  let d := note rc d in
  if rc <? 0 then fail d else k d.

Section Steps.
Context `{Taskstats} (Y : delay_sys) (o : delay_opts) (id : Z).

Definition register_mask (k : delays → res delays) (d : delays) : res delays :=
  match cpumask o with
  | None => k d
  | Some mask =>
      command Y id TASKSTATS_CMD_GET TASKSTATS_CMD_ATTR_REGISTER_CPUMASK (c_bytes mask)
        (fun rc => debugf o ("Sent register cpumask, retval " +:+ dec rc +:+ nl)) Done k d
  end.
Definition ask_task (k : delays → res delays) (d : delays) : res delays :=
  if tid o =? 0 then k d
  else command Y id TASKSTATS_CMD_GET (cmd_type o) (le 4 (tid o))
         (fun rc => debugf o ("Sent pid/tgid, retval " +:+ dec rc +:+ nl)) (at_done Y o id) k d.
Definition ask_container (k : delays → res delays) (d : delays) : res delays :=
  match containerpath o with
  | None => k d
  | Some _ =>
      match s_open_cgroup Y with
      | None => Done d
      | Some cfd => command Y id CGROUPSTATS_CMD_GET CGROUPSTATS_CMD_ATTR_FD (le 4 cfd)
                      (fun _ d => d) Done k d
      end
  end.

(** [main] once the family is known; the label [err] only closes files. *)
Definition run (d : delays) : res delays :=
  register_mask (fun d =>
    if negb (tid o =? 0) && negb (bool_decide (containerpath o = None)) then Done d
    else
      ask_task (fun d =>
        ask_container (fun d =>
          if bool_decide (cpumask o = None) && (tid o =? 0) && bool_decide (containerpath o = None)
          then Done d
          else
            d ← receive_loop Y o (length (d_replies d)) (s_stack Y) d;
            at_done Y o id d) d) d) d.
End Steps.

Definition main `{Taskstats} (Y : delay_sys) (opts : list (ascii * string)) (d : delays) : res delays :=
  '(o, d) ← delay_options Y opts delay_start d;
  if negb (bool_decide (logfile o = None)) && negb (s_open_log Y) then Die "Cannot open output file"
  else if negb (create_nl_socket Y o) then Die "error creating Netlink socket"
  else
    '(id, d) ← get_family_id Y d;
    if id =? 0 then Done d
    else run Y o id (debugf o ("family id " +:+ dec id +:+ nl) d).

Lemma align4_bounds n : n ≤ align4 n < n + 4.
Proof. unfold align4. pose proof (Z.div_mod (n + 3) 4 ltac:(lia)). pose proof (Z.mod_pos_bound (n + 3) 4). lia. Qed.

Lemma align4_fits n : n ≤ 1019 → align4 (n + 5) ≤ 1024.
Proof.
  intros. unfold align4. pose proof (Z.div_le_mono (n + 5 + 3) 1027 4 ltac:(lia) ltac:(lia)) as Hq.
  change (1027 / 4) with 256 in Hq. lia.
Qed.

(** ** Requests *)

(** The message on the wire; two reserved bytes and the end of the attribute
    are what the stack held. *)
Definition frame `{Taskstats} (stack : list Z) (nlmsg_type nlmsg_pid genl_cmd nla_type : Z)
    (data : list Z) : list Z :=
  let n := zlen data in
  let total := align4 (n + 5) in
  le 4 (20 + total) ++ le 2 nlmsg_type ++ le 2 NLM_F_REQUEST ++ le 4 0 ++ le 4 nlmsg_pid ++
  le 1 genl_cmd ++ le 1 1 ++ slice stack 18 2 ++
  le 2 (n + 5) ++ le 2 nla_type ++ data ++ slice stack (24 + n) (total - 4 - n).

(** The fields of a message with [n] bytes of data in an attribute of [total]
    bytes. *)
Definition field_sizes (n total : Z) : list Z := [4; 2; 2; 4; 4; 1; 1; 2; 2; 2; n; total - 4 - n].

Ltac write_field k :=
  erewrite (awrite_field _ k) by (reflexivity || (rewrite ?zlen_le; cbn; lia) ||
    (cbn [concat take]; rewrite ?zlen_app, ?zlen_le, ?zlen_nil; lia));
  cbn [mbind res_bind]; cbn [insert list_insert].

Lemma build_cmd_frame `{Taskstats} stack ty pid cmd nt data :
  zlen stack = sizeof_msgtemplate → zlen data ≤ 1019 →
  build_cmd stack ty pid cmd nt data = Done (frame stack ty pid cmd nt data).
Proof.
  intros Hs Hd. pose proof (zlen_nonneg data) as Hn. unfold build_cmd, frame.
  change sizeof_msgtemplate with 1044 in Hs. change NLA_HDRLEN with 4. change GENLMSG_DATA with 20.
  set (n := zlen data) in *. rewrite Z.mod_small by lia.
  replace (n + 1 + 4) with (n + 5) by lia. pose proof (align4_bounds (n + 5)).
  assert (align4 (n + 5) ≤ 1024) by by apply align4_fits.
  destruct (split_sizes (field_sizes n (align4 (n + 5))) stack) as (fs & fend & -> & Hfs).
  { repeat (apply Forall_cons; split; [lia|]). done. }
  { cbn. unfold id. lia. }
  repeat (destruct fs as [|? fs]; [discriminate Hfs|cbn in Hfs; injection Hfs as ? Hfs]).
  destruct fs; [|discriminate Hfs]. cbn [app].
  erewrite (slice_field _ 7) by (reflexivity || (cbn; zlen_lia)).
  erewrite (slice_field _ 11) by (reflexivity || (cbn; zlen_lia)).
  write_field 0%nat. write_field 1%nat. write_field 2%nat. write_field 3%nat. write_field 4%nat.
  write_field 5%nat. write_field 6%nat. write_field 9%nat. write_field 8%nat. write_field 10%nat.
  write_field 0%nat.
  match goal with |- bytes_at (concat ?l) _ _ = _ => set (fields := l) end.
  replace (concat fields) with ([] ++ concat (take 12 fields) ++ fend)
    by (cbn [concat take fields app]; by rewrite !app_nil_r, <- ?app_assoc).
  rewrite bytes_at_mid; [|done|cbn [concat take fields]; rewrite !zlen_app, !zlen_le, zlen_nil; lia].
  cbn [concat take fields]. by rewrite app_nil_r.
Qed.

Lemma frame_len `{Taskstats} stack ty pid cmd nt data :
  zlen stack = sizeof_msgtemplate → zlen data ≤ 1019 →
  zlen (frame stack ty pid cmd nt data) = 20 + align4 (zlen data + 5).
Proof.
  intros Hs Hd. pose proof (zlen_nonneg data). pose proof (align4_bounds (zlen data + 5)).
  change sizeof_msgtemplate with 1044 in Hs.
  assert (align4 (zlen data + 5) ≤ 1024) by by apply align4_fits.
  unfold frame. rewrite !zlen_app, !zlen_le, !zlen_slice by lia. lia.
Qed.

(** What [send_loop] has sent. *)
Lemma send_loop_sends answers : ∀ buf d,
  0 < zlen buf →
  match send_loop answers buf d with
  | Done (rc, d') =>
      ∃ parts left, d' = d <| d_sent := d_sent d ++ parts |> <| d_sends := d_sends d' |> ∧
        (rc = 0 ∧ concat parts = buf ∨ rc = -1 ∧ concat parts ++ left = buf ∧ left ≠ [])
  | Die _ => Forall (fun a => a.1 < zlen buf) answers
  | Wild => False
  end.
Proof.
  induction answers as [|[r again] answers IH]; intros buf d Hb; [by constructor|]. cbn [send_loop].
  destruct (Z.leb_spec (zlen buf) r) as [|Hr].
  { exists [buf], []. cbn. rewrite app_nil_r. auto. }
  destruct (Z.ltb_spec 0 r) as [Hp|]; [|destruct again].
  - set (d1 := d <| d_sends := answers |> <| d_sent := d_sent d ++ [take (Z.to_nat r) buf] |>).
    specialize (IH (drop (Z.to_nat r) buf) d1
      ltac:(unfold zlen in *; rewrite length_drop; lia)).
    change (d_sent (d <| d_sends := answers |>)) with (d_sent d).
    fold d1. destruct (send_loop _ _ d1) as [[rc d']|w|]; [|constructor; [done|]|done].
    + destruct IH as (parts & lft & Hd & Hc). exists (take (Z.to_nat r) buf :: parts), lft.
      split; [rewrite Hd at 1; subst d1; cbn; by rewrite <- app_assoc|]. cbn [concat].
      destruct Hc as [[-> Hc]|(-> & Hc & Hl)]; [left|right; split; [done|split; [|done]]].
      * by rewrite Hc, take_drop.
      * by rewrite <- app_assoc, Hc, take_drop.
    + eapply Forall_impl; [exact IH|]. cbn. intros a Ha.
      unfold zlen in *. rewrite length_drop in Ha. lia.
  - specialize (IH buf (d <| d_sends := answers |>) Hb).
    destruct (send_loop _ _ _) as [[rc d']|w|]; [|by constructor|done].
    destruct IH as (parts & lft & Hd & Hc). exists parts, lft. split; [|done].
    rewrite Hd at 1. by cbn.
  - exists [], buf. split; [cbn; by rewrite app_nil_r|]. right. split_and!; [done|done|].
    intros ->. done.
Qed.

(** C24: a request is framed as netlink asks, whatever the stack held: the
    header with the length of the message, its type and the sender, the command,
    and one attribute with the data.  [send_cmd] never writes outside the
    message for data of up to 1019 bytes; it answers 0 exactly when the parts it
    sent make up the whole message, and -1 when a part is missing, however
    [sendto] splits it; it is stuck only while [sendto] keeps taking less than
    all of it. *)
Theorem send_cmd_request `{Taskstats} Y ty cmd nt data d :
  zlen (s_stack Y) = sizeof_msgtemplate → zlen data ≤ 1019 →
  let msg := frame (s_stack Y) ty (s_getpid Y) cmd nt data in
  zlen msg = 20 + align4 (zlen data + 5) ∧
  match send_cmd Y ty cmd nt data d with
  | Done (rc, d') =>
      ∃ parts left, d' = d <| d_sent := d_sent d ++ parts |> <| d_sends := d_sends d' |> ∧
        (rc = 0 ∧ concat parts = msg ∨ rc = -1 ∧ concat parts ++ left = msg ∧ left ≠ [])
  | Die _ => Forall (fun a => a.1 < zlen msg) (d_sends d)
  | Wild => False
  end.
Proof.
  intros Hs Hd msg. pose proof (align4_bounds (zlen data + 5)). pose proof (zlen_nonneg data).
  assert (zlen msg = 20 + align4 (zlen data + 5)) as Hm by by apply frame_len.
  split; [done|]. unfold send_cmd. rewrite build_cmd_frame by done. cbn [mbind res_bind].
  apply send_loop_sends. fold msg. lia.
Qed.

(** ** Replies *)

(** An attribute of a reply as the kernel lays it out, and the items of a
    message: an aggregate with nested attributes, or a plain attribute. *)
Record attr := mk_attr { a_type : Z; a_data : list Z; a_pad : list Z }.
Inductive item := Aggr (type : Z) (l : list attr) | Plain (a : attr).

Definition a_len (a : attr) : Z := NLA_HDRLEN + zlen (a_data a).
Definition attr_bytes (a : attr) : list Z :=
  le 2 (a_len a) ++ le 2 (a_type a) ++ a_data a ++ a_pad a.
Definition attr_ok (a : attr) : Prop :=
  0 ≤ a_type a < 2 ^ 16 ∧ a_len a < 2 ^ 16 ∧ zlen (a_pad a) = align4 (a_len a) - a_len a.

Definition nest (l : list attr) : list Z := concat (attr_bytes <$> l).
Definition item_attr (i : item) : attr :=
  match i with Aggr t l => mk_attr t (nest l) [] | Plain a => a end.
Definition items_bytes (l : list item) : list Z := nest (item_attr <$> l).

Section Tree.
Context `{Taskstats} (Y : delay_sys) (o : delay_opts).

Definition is_aggr (type : Z) : bool :=
  (type =? TASKSTATS_TYPE_AGGR_TGID) || (type =? TASKSTATS_TYPE_AGGR_PID).
Definition item_ok (i : item) : Prop :=
  attr_ok (item_attr i) ∧
  match i with
  | Aggr t l => is_aggr t = true ∧ Forall attr_ok l
  | Plain a => is_aggr (a_type a) = false
  end.

(** What a reply means: its attributes one after the other, until statistics
    have been seen (unless listening for ever).  [rest] are the bytes that
    follow in memory. *)
Fixpoint tree_nested (l : list attr) (rest : list Z) (d : delays) : res (bool * delays) :=
  match l with
  | [] => Done (false, d)
  | a :: l =>
      '(stop, d) ← nested_action Y o (a_type a) (a_len a)
                     (bytes_at (a_data a ++ a_pad a ++ nest l ++ rest) 0) d;
      if (stop : bool) then Done (true, d) else tree_nested l rest d
  end.

Definition tree_item (i : item) (rest : list Z) (d : delays) : res (bool * delays) :=
  match i with
  | Aggr _ l => tree_nested l rest d
  | Plain a =>
      if a_type a =? CGROUPSTATS_TYPE_CGROUP_STATS then
        bs ← bytes_at (a_data a ++ a_pad a ++ rest) 0 sizeof_cgroupstats;
        Done (false, printf (print_cgroupstats (cgroupstats_of bs)) d)
      else Done (false, d)
  end.

Fixpoint tree_reply (l : list item) (rest : list Z) (d : delays) : res (bool * delays) :=
  match l with
  | [] => Done (false, d)
  | i :: l =>
      '(stop, d) ← tree_item i (items_bytes l ++ rest) d;
      if (stop : bool) then Done (true, d) else tree_reply l rest d
  end.

Lemma nested_action_ext t len f g d :
  (∀ n, f n = g n) → nested_action Y o t len f d = nested_action Y o t len g d.
Proof.
  intros E. unfold nested_action, print_id, write_stats. rewrite !E.
  by repeat case_match.
Qed.

(** The header and the data of an attribute in memory. *)
Lemma attr_at pre a rest :
  attr_ok a →
  let msg := pre ++ attr_bytes a ++ rest in
  get 2 msg (zlen pre) = Done (a_len a) ∧ get 2 msg (zlen pre + 2) = Done (a_type a) ∧
  (∀ n, bytes_at msg (zlen pre + NLA_HDRLEN) n = bytes_at (a_data a ++ a_pad a ++ rest) 0 n) ∧
  zlen (attr_bytes a) = align4 (a_len a).
Proof.
  intros (Ht & Hl & Hp) msg. subst msg. unfold attr_bytes. rewrite <- !app_assoc.
  pose proof (zlen_nonneg (a_data a)). unfold a_len in *. change NLA_HDRLEN with 4 in *.
  split_and!.
  - apply get_mid; [done|done|]. change (256 ^ 2) with (2 ^ 16). lia.
  - rewrite app_assoc. apply get_mid; [by rewrite zlen_app, zlen_le|done|].
    by change (256 ^ 2) with (2 ^ 16).
  - intros n. rewrite !app_assoc, <- (app_assoc _ (a_data a)), <- (app_assoc _ (a_data a ++ a_pad a)).
    replace (zlen pre + 4) with (zlen pre + 4 + 0) by lia.
    rewrite bytes_at_skip; [by rewrite <- app_assoc|rewrite !zlen_app, !zlen_le; lia|lia].
  - rewrite !zlen_app, !zlen_le. lia.
Qed.

Lemma align4_pos a : attr_ok a → 4 ≤ align4 (a_len a).
Proof.
  intros _. pose proof (zlen_nonneg (a_data a)). unfold a_len. change NLA_HDRLEN with 4.
  unfold align4. pose proof (Z.div_le_mono 4 (4 + zlen (a_data a) + 3) 4 ltac:(lia) ltac:(lia)) as Hq.
  change (4 / 4) with 1 in Hq. lia.
Qed.

Lemma nested_body_go msg aggr_len na len2 b d t n :
  len2 < aggr_len → get 2 msg (na + 2) = Done t → get 2 msg na = Done n →
  nested_body Y o msg aggr_len (na, len2, b, d) =
    ('(stop, d) ← nested_action Y o t n (bytes_at msg (na + NLA_HDRLEN)) d;
     if (stop : bool) then Done (inr (na, len2, true, d))
     else Done (inl (na + align4 n, len2 + align4 n, false, d))).
Proof.
  intros Hlt Ht Hn. unfold nested_body. replace (len2 <? aggr_len) with true by lia. cbn [negb].
  by rewrite Ht, Hn.
Qed.

Lemma nested_loop rest l : ∀ pre len2 d fuel,
  Forall attr_ok l → zlen l < fuel →
  ∃ na' len2',
    loop (nested_body Y o (pre ++ nest l ++ rest) (len2 + zlen (nest l))) fuel (zlen pre, len2, false, d) =
      ('(stop, d) ← tree_nested l rest d; Done (na', len2', stop, d)).
Proof.
  induction l as [|a l IH]; intros pre len2 d fuel Hl Hf; rewrite ?zlen_cons in Hf.
  - exists (zlen pre), len2. rewrite loop_step by (rewrite zlen_nil in Hf; lia). unfold nested_body.
    change (nest []) with (@nil Z). rewrite zlen_nil, Z.add_0_r, Z.ltb_irrefl. done.
  - apply Forall_cons in Hl as [Ha Hl]. pose proof (zlen_nonneg l). pose proof (zlen_nonneg (nest l)).
    change (nest (a :: l)) with (attr_bytes a ++ nest l). rewrite <- app_assoc.
    destruct (attr_at pre a (nest l ++ rest) Ha) as (Hlen & Hty & Hdata & Hz).
    pose proof (align4_pos a Ha).
    rewrite zlen_app, Hz, loop_step by lia.
    rewrite (nested_body_go _ _ _ _ _ _ (a_type a) (a_len a)) by (done || lia).
    cbn [tree_nested].
    rewrite (nested_action_ext _ _ _ (bytes_at (a_data a ++ a_pad a ++ nest l ++ rest) 0)) by done.
    destruct (nested_action Y o _ _ _ d) as [[[] d']| |]; cbn [mbind res_bind]; try (by exists 0, 0).
    + by exists (zlen pre), len2.
    + destruct (IH (pre ++ attr_bytes a) (len2 + align4 (a_len a)) d' (fuel - 1)) as (na' & len2' & E);
        [done|lia|].
      exists na', len2'. rewrite <- E. rewrite zlen_app, Hz, <- app_assoc.
      by replace (len2 + align4 (a_len a) + zlen (nest l)) with
        (len2 + (align4 (a_len a) + zlen (nest l))) by lia.
Qed.

Lemma zlen_nest l : Forall attr_ok l → 4 * zlen l ≤ zlen (nest l).
Proof.
  induction l as [|a l IH]; intros Hl; [done|]. apply Forall_cons in Hl as [Ha Hl].
  change (nest (a :: l)) with (attr_bytes a ++ nest l). rewrite zlen_app, zlen_cons.
  destruct (attr_at [] a [] Ha) as (_ & _ & _ & ->). pose proof (align4_pos a Ha). specialize (IH Hl). lia.
Qed.

(** One item in memory, read by the body of the outer loop. *)
Lemma reply_body_item pre i rest len b rep_len d :
  item_ok i → zlen pre = GENLMSG_DATA + len → len < rep_len →
  let len' := len + align4 (a_len (item_attr i)) in
  reply_body Y o (pre ++ attr_bytes (item_attr i) ++ rest) rep_len (len, b, d) =
    ('(stop, d) ← tree_item i rest d;
     Done (if (stop : bool) then inr (len', true, d) else inl (len', false, d))).
Proof.
  intros [Ha Hi] Hp Hlt len'. unfold reply_body. replace (len <? rep_len) with true by lia. cbn [negb].
  rewrite <- Hp. destruct (attr_at pre _ rest Ha) as (Hlen & Hty & Hdata & _).
  rewrite Hlen, Hty. cbn [mbind res_bind]. fold (is_aggr (a_type (item_attr i))).
  destruct i as [t l|a]; cbn [item_attr a_type tree_item] in *.
  - destruct Hi as [-> Hl]. unfold a_len. cbn [a_data].
    replace (NLA_HDRLEN + zlen (nest l) - NLA_HDRLEN) with (0 + zlen (nest l)) by lia.
    pose proof (zlen_nest l Hl). pose proof (zlen_nonneg l). rewrite (Z.max_r 0) by lia.
    unfold attr_bytes. cbn [a_type a_data a_pad]. rewrite app_nil_r.
    destruct (nested_loop rest l (pre ++ le 2 (a_len (mk_attr t (nest l) [])) ++ le 2 t) 0 d
                (0 + zlen (nest l) + 1)) as (na' & len2' & E); [done|lia|].
    rewrite <- !app_assoc in *.
    replace (zlen pre + NLA_HDRLEN) with (zlen (pre ++ le 2 (a_len (mk_attr t (nest l) [])) ++ le 2 t))
      by (rewrite !zlen_app, !zlen_le; done).
    rewrite E. by destruct (tree_nested l rest d) as [[[] ?]| |].
  - rewrite Hi. destruct (a_type a =? _); [|done]. rewrite Hdata.
    by destruct (bytes_at _ _ _).
Qed.

Lemma reply_loop rest l : ∀ pre len d fuel,
  Forall item_ok l → zlen pre = GENLMSG_DATA + len → zlen l < fuel →
  ∃ len', loop (reply_body Y o (pre ++ items_bytes l ++ rest) (len + zlen (items_bytes l))) fuel (len, false, d) =
    ('(stop, d) ← tree_reply l rest d; Done (len', stop, d)).
Proof.
  induction l as [|i l IH]; intros pre len d fuel Hl Hp Hf; rewrite ?zlen_cons in Hf.
  - exists len. rewrite loop_step by (rewrite zlen_nil in Hf; lia). unfold reply_body.
    change (items_bytes []) with (@nil Z). rewrite zlen_nil, Z.add_0_r, Z.ltb_irrefl. done.
  - apply Forall_cons in Hl as [Hi Hl]. pose proof (zlen_nonneg l). pose proof (zlen_nonneg (items_bytes l)).
    change (items_bytes (i :: l)) with (attr_bytes (item_attr i) ++ items_bytes l). rewrite <- app_assoc.
    destruct (attr_at pre (item_attr i) [] (proj1 Hi)) as (_ & _ & _ & Hz).
    pose proof (align4_pos _ (proj1 Hi)).
    rewrite zlen_app, Hz, loop_step by lia. rewrite reply_body_item by (done || lia). cbn [tree_reply].
    destruct (tree_item i _ d) as [[[] d']| |]; cbn [mbind res_bind]; try (by exists 0).
    + by eexists.
    + destruct (IH (pre ++ attr_bytes (item_attr i)) (len + align4 (a_len (item_attr i))) d' (fuel - 1))
        as (len' & E); [done|rewrite zlen_app; lia|lia|].
      exists len'. rewrite <- E, <- app_assoc. by rewrite Z.add_assoc.
Qed.

Lemma walk_reply_tree header l rest d :
  zlen header = GENLMSG_DATA → Forall item_ok l →
  walk_reply Y o (header ++ items_bytes l ++ rest) (zlen (items_bytes l)) d = tree_reply l rest d.
Proof.
  intros Hh Hl. unfold walk_reply.
  assert (zlen l ≤ zlen (items_bytes l)).
  { pose proof (zlen_nest (item_attr <$> l)) as Hz. unfold zlen in Hz at 1. rewrite length_fmap in Hz.
    fold (zlen l) (items_bytes l) in Hz. pose proof (zlen_nonneg l).
    assert (Forall attr_ok (item_attr <$> l)) as Ho; [|specialize (Hz Ho); lia].
    apply Forall_fmap. eapply Forall_impl; [exact Hl|]. by intros i [? _]. }
  pose proof (zlen_nonneg (items_bytes l)). rewrite (Z.max_r 0) by lia.
  destruct (reply_loop rest l header 0 d (zlen (items_bytes l) + 1)) as (len' & E); [done|lia|lia|].
  change (0 + zlen (items_bytes l)) with (zlen (items_bytes l)) in E. rewrite E.
  by destruct (tree_reply l rest d) as [[[] ?]| |].
Qed.
End Tree.

(** A reply as it is received: headers, items. *)
Definition reply_bytes (ty : Z) (header : list Z) (l : list item) : list Z :=
  le 4 (GENLMSG_DATA + zlen (items_bytes l)) ++ le 2 ty ++ header ++ items_bytes l.

Lemma zlen_reply ty header l :
  zlen header = 14 → zlen (reply_bytes ty header l) = GENLMSG_DATA + zlen (items_bytes l).
Proof. intros Hh. unfold reply_bytes. rewrite !zlen_app, !zlen_le. change GENLMSG_DATA with 20. lia. Qed.

(** A reply that fits is received whole. *)
Lemma recv_reply size obj bs replies d :
  zlen obj = size → zlen bs ≤ size → d_replies d = Some bs :: replies →
  recv size obj d = Done (Some (zlen bs), bs ++ drop (Z.to_nat (zlen bs)) obj, d <| d_replies := replies |>).
Proof.
  intros Ho Hb Hr. unfold recv. rewrite Hr, take_ge by (unfold zlen in *; lia).
  pose proof (zlen_nonneg bs). by rewrite awrite_in by lia.
Qed.

(** The two fields of the header that are looked at. *)
Lemma reply_header ty header l rest :
  0 ≤ ty < 2 ^ 16 → zlen header = 14 → GENLMSG_DATA + zlen (items_bytes l) ≤ sizeof_msgtemplate →
  get 2 (reply_bytes ty header l ++ rest) 4 = Done ty ∧
  get 4 (reply_bytes ty header l ++ rest) 0 = Done (GENLMSG_DATA + zlen (items_bytes l)).
Proof.
  intros Hty Hh Hfit. pose proof (zlen_nonneg (items_bytes l)). change sizeof_msgtemplate with 1044 in *.
  change GENLMSG_DATA with 20 in *. unfold reply_bytes. rewrite <- !app_assoc. split.
  - apply get_mid; [apply zlen_le|done|]. by change (256 ^ 2) with (2 ^ 16).
  - apply (get_mid [] 4); [done|done|]. change GENLMSG_DATA with 20. change (256 ^ 4) with 4294967296. lia.
Qed.

Lemma reply_split ty header l rest :
  reply_bytes ty header l ++ rest =
    (le 4 (GENLMSG_DATA + zlen (items_bytes l)) ++ le 2 ty ++ header) ++ items_bytes l ++ rest.
Proof. unfold reply_bytes. by rewrite <- !app_assoc. Qed.

Lemma receive_tree `{Taskstats} Y o ty header l msg d replies :
  zlen msg = sizeof_msgtemplate → zlen header = 14 → 0 ≤ ty < 2 ^ 16 → ty ≠ NLMSG_ERROR →
  Forall item_ok l → GENLMSG_DATA + zlen (items_bytes l) ≤ sizeof_msgtemplate →
  d_replies d = Some (reply_bytes ty header l) :: replies → dbg o = false →
  let rest := drop (Z.to_nat (GENLMSG_DATA + zlen (items_bytes l))) msg in
  receive Y o msg d =
    ('(stop, d) ← tree_reply Y o l rest (d <| d_replies := replies |>);
     Done (stop, reply_bytes ty header l ++ rest, d)).
Proof.
  intros Hm Hh Hty Hne Hl Hfit Hr Hdbg rest. unfold receive.
  rewrite (recv_reply _ _ _ _ _ Hm ltac:(rewrite zlen_reply by done; done) Hr).
  cbn [mbind res_bind]. rewrite zlen_reply by done. fold rest. unfold debugf. rewrite Hdbg.
  destruct (reply_header ty header l rest Hty Hh Hfit) as [-> ->]. cbn [mbind res_bind].
  pose proof (zlen_nonneg (items_bytes l)). change GENLMSG_DATA with 20 in *.
  change sizeof_msgtemplate with 1044 in *.
  set (n := 20 + zlen (items_bytes l)) in *. replace (ty =? NLMSG_ERROR) with false by lia.
  unfold NLMSG_OK. change NLMSG_HDRLEN with 16.
  replace ((16 <=? n) && (16 <=? n) && (n <=? n)) with true by lia.
  cbn [orb negb]. unfold GENLMSG_PAYLOAD. change (n - NLMSG_HDRLEN - GENL_HDRLEN) with (n - 16 - 4).
  rewrite i32_small by lia. replace (n - 16 - 4) with (zlen (items_bytes l)) by lia.
  rewrite reply_split.
  rewrite walk_reply_tree; [|rewrite !zlen_app, !zlen_le; change GENLMSG_DATA with 20; lia|done].
  by destruct (tree_reply Y o l rest _) as [[? ?]| |].
Qed.

(** C23: a reply the kernel lays out properly (a header that announces its length, aligned
    attributes with true lengths, aggregates of nested attributes) that fits the
    message is understood: the walk over its bytes ends, and has the effect of
    going through its attributes one by one: identifiers and statistics are
    printed and logged as the options ask, statistics end it unless the program
    listens for ever.  The memory after the reply ([rest], left over from
    earlier messages) is only seen by reads past the last attribute. *)
Theorem receive_refines `{Taskstats} Y o ty header l msg d replies :
  zlen msg = sizeof_msgtemplate → zlen header = 14 → 0 ≤ ty < 2 ^ 16 → ty ≠ NLMSG_ERROR →
  Forall item_ok l → GENLMSG_DATA + zlen (items_bytes l) ≤ sizeof_msgtemplate →
  d_replies d = Some (reply_bytes ty header l) :: replies → dbg o = false →
  let rest := drop (Z.to_nat (GENLMSG_DATA + zlen (items_bytes l))) msg in
  receive Y o msg d =
    ('(stop, d) ← tree_reply Y o l rest (d <| d_replies := replies |>);
     Done (stop, reply_bytes ty header l ++ rest, d)).
Proof. apply receive_tree. Qed.

(** ** A whole run *)

(** A command that [sendto] takes at once. *)
Lemma send_cmd_at_once `{Taskstats} Y ty cmd nt data d r b sends :
  zlen (s_stack Y) = sizeof_msgtemplate → zlen data ≤ 1019 → d_sends d = (r, b) :: sends →
  sizeof_msgtemplate ≤ r →
  send_cmd Y ty cmd nt data d =
    Done (0, d <| d_sends := sends |>
               <| d_sent := d_sent d ++ [frame (s_stack Y) ty (s_getpid Y) cmd nt data] |>).
Proof.
  intros Hs Hd Hr Hle. unfold send_cmd. rewrite build_cmd_frame by done. cbn [mbind res_bind].
  rewrite Hr. cbn [send_loop]. rewrite frame_len by done. pose proof (align4_fits (zlen data) Hd).
  change sizeof_msgtemplate with 1044 in *.
  by replace (20 + align4 (zlen data + 5) <=? r) with true by lia.
Qed.

(** The answer of the controller: the name of the family, its number, and
    more. *)
Definition family_items `{Taskstats} (name : attr) (id : Z) (pad : list Z) (more : list item) : list item :=
  Plain name :: Plain (mk_attr CTRL_ATTR_FAMILY_ID (le 2 id) pad) :: more.

Lemma get_family_id_known `{Taskstats} Y d r b sends header name id pad more replies :
  let l := family_items name id pad more in
  zlen (s_stack Y) = sizeof_msgtemplate → strlen TASKSTATS_GENL_NAME < 100 →
  d_sends d = (r, b) :: sends → sizeof_msgtemplate ≤ r →
  zlen header = 14 → 0 ≤ GENL_ID_CTRL < 2 ^ 16 → GENL_ID_CTRL ≠ NLMSG_ERROR →
  attr_ok name → attr_ok (mk_attr CTRL_ATTR_FAMILY_ID (le 2 id) pad) → 0 ≤ id < 2 ^ 16 →
  GENLMSG_DATA + zlen (items_bytes l) ≤ 276 →
  d_replies d = Some (reply_bytes GENL_ID_CTRL header l) :: replies →
  get_family_id Y d =
    Done (id, d <| d_sends := sends |>
                <| d_sent := d_sent d ++ [frame (s_stack Y) GENL_ID_CTRL (s_getpid Y) CTRL_CMD_GETFAMILY
                                            CTRL_ATTR_FAMILY_NAME (c_bytes TASKSTATS_GENL_NAME)] |>
                <| d_replies := replies |>).
Proof.
  intros l Hs Hname Hr Hle Hh Hctrl Hne Hn Hi Hid Hfit Hrep. unfold get_family_id.
  assert (zlen (c_bytes TASKSTATS_GENL_NAME) ≤ 1019).
  { rewrite zlen_c_bytes. lia. }
  rewrite (send_cmd_at_once _ _ _ _ _ _ r b sends) by done. cbn [mbind res_bind].
  change (0 <? 0) with false. cbv iota.
  set (d1 := d <| d_sends := sends |> <| d_sent := _ |>).
  pose proof (zlen_nonneg (items_bytes l)).
  rewrite (recv_reply 276 _ (reply_bytes GENL_ID_CTRL header l) replies d1);
    [|unfold zlen in *; rewrite length_take; change sizeof_msgtemplate with 1044 in *; lia
     |by rewrite zlen_reply|done].
  cbn [mbind res_bind]. set (rest := drop _ _).
  destruct (reply_header GENL_ID_CTRL header l rest) as [-> ->];
    [done|done|change sizeof_msgtemplate with 1044; lia|].
  cbn [mbind res_bind]. rewrite zlen_reply by done.
  set (n := GENLMSG_DATA + zlen (items_bytes l)) in *. replace (GENL_ID_CTRL =? NLMSG_ERROR) with false by lia.
  assert (NLMSG_OK n n = true) as ->.
  { unfold NLMSG_OK. change NLMSG_HDRLEN with 16. subst n. change GENLMSG_DATA with 20. lia. }
  cbn [orb negb]. rewrite reply_split. set (pre := le 4 _ ++ le 2 _ ++ header).
  assert (zlen pre = GENLMSG_DATA) as Hpre.
  { subst pre. rewrite !zlen_app, !zlen_le. change GENLMSG_DATA with 20. lia. }
  set (num := mk_attr CTRL_ATTR_FAMILY_ID (le 2 id) pad).
  replace (items_bytes l ++ rest) with (attr_bytes name ++ attr_bytes num ++ items_bytes more ++ rest)
    by (change (items_bytes l) with (attr_bytes name ++ attr_bytes num ++ items_bytes more);
        by rewrite <- !app_assoc).
  destruct (attr_at pre name (attr_bytes num ++ items_bytes more ++ rest) Hn) as (Hfirst & _ & _ & Hz).
  rewrite <- Hpre, Hfirst. cbn [mbind res_bind].
  destruct (attr_at (pre ++ attr_bytes name) num (items_bytes more ++ rest) Hi) as (_ & Hty & Hdata & _).
  rewrite <- !app_assoc, zlen_app, Hz in Hty, Hdata. rewrite Hty. cbn [mbind res_bind].
  change (a_type num) with CTRL_ATTR_FAMILY_ID. rewrite Z.eqb_refl. unfold get at 1. rewrite Hdata.
  change (a_data num ++ a_pad num ++ items_bytes more ++ rest)
    with ([] ++ le 2 id ++ pad ++ items_bytes more ++ rest).
  rewrite bytes_at_mid by done. cbn [mbind res_bind]. by rewrite of_le_le.
Qed.


(** The numbers of the kernel's headers, with a structure cut down to the
    counters at its start. *)
Definition u64_at (bs : list Z) (i : Z) : Z := of_le (slice bs (8 * i) 8).
#[export, refine] Instance some_taskstats : Taskstats := {
  NLMSG_ERROR := 2; NLM_F_REQUEST := 1; GENL_ID_CTRL := 16;
  CTRL_CMD_GETFAMILY := 3; CTRL_ATTR_FAMILY_ID := 1; CTRL_ATTR_FAMILY_NAME := 2;
  TASKSTATS_GENL_NAME := "TASKSTATS"; TASKSTATS_CMD_GET := 1;
  TASKSTATS_CMD_ATTR_UNSPEC := 0; TASKSTATS_CMD_ATTR_PID := 1; TASKSTATS_CMD_ATTR_TGID := 2;
  TASKSTATS_CMD_ATTR_REGISTER_CPUMASK := 3; TASKSTATS_CMD_ATTR_DEREGISTER_CPUMASK := 4;
  CGROUPSTATS_CMD_GET := 4; CGROUPSTATS_CMD_ATTR_FD := 1;
  TASKSTATS_TYPE_PID := 1; TASKSTATS_TYPE_TGID := 2; TASKSTATS_TYPE_STATS := 3;
  TASKSTATS_TYPE_AGGR_PID := 4; TASKSTATS_TYPE_AGGR_TGID := 5; TASKSTATS_TYPE_NULL := 6;
  CGROUPSTATS_TYPE_CGROUP_STATS := 1;
  sizeof_taskstats := 80;
  taskstats_of bs := mk_taskstats (u64_at bs 2) (u64_at bs 8) (u64_at bs 9) (u64_at bs 3)
    (u64_at bs 4) (u64_at bs 5) (u64_at bs 6) (u64_at bs 7) 0 0 0 0 "" 0 0 0;
  sizeof_cgroupstats := 40;
  cgroupstats_of bs :=
    mk_cgroupstats (u64_at bs 0) (u64_at bs 1) (u64_at bs 2) (u64_at bs 3) (u64_at bs 4)
}.
Proof. all: apply (bool_decide_unpack _); vm_compute; exact I. Defined.

Definition a_delay_sys : delay_sys :=
  mk_delay_sys true true true true true 77 0 None (replicate 1044 170).
Definition no_delays : delays := mk_delays "" [] 0 [] [] [].

Lemma send_cmd_request_witness :
  zlen (frame (s_stack a_delay_sys) 16 77 3 2 (c_bytes "TASKSTATS")) = 36 ∧
  match send_cmd a_delay_sys 16 3 2 (c_bytes "TASKSTATS") (no_delays <| d_sends := [(10, false); (26, false)] |>) with
  | Done (rc, _) => rc = 0
  | _ => False
  end.
Proof.
  pose proof (send_cmd_request a_delay_sys 16 3 2 (c_bytes "TASKSTATS")
    (no_delays <| d_sends := [(10, false); (26, false)] |>) eq_refl ltac:(vm_compute; discriminate)) as [Hl _].
  split; [exact Hl|vm_compute; reflexivity].
Defined.

(** The answer for process 42: 9 waits of 3 ms in all. *)
Definition a_stats : list Z :=
  le 8 0 ++ le 8 0 ++ le 8 9 ++ le 8 3000000 ++ le 8 0 ++ le 8 0 ++ le 8 0 ++ le 8 0 ++
  le 8 5000 ++ le 8 4000.
Definition a_task_reply : list item :=
  [Aggr 4 [mk_attr 1 (le 4 42) []; mk_attr 3 a_stats []]].
Definition delay_wish : delay_opts := delay_start <| print_delays := true |> <| tid := 42 |>.

Lemma receive_refines_witness :
  let d := no_delays <| d_replies := [Some (reply_bytes 20 (replicate 14 0) a_task_reply)] |> in
  match receive a_delay_sys delay_wish (replicate 1044 170) d with
  | Done (stop, _, d) =>
      stop = true ∧ d_count d = 1 ∧
      d_out d = "PID" +:+ tab +:+ "42" +:+ nl +:+ print_delayacct (taskstats_of a_stats)
  | _ => False
  end.
Proof.
  intros d.
  rewrite (receive_refines a_delay_sys delay_wish 20 (replicate 14 0) a_task_reply (replicate 1044 170) d []);
    [|done|done|lia|done| |by vm_compute|done|done].
  - vm_compute. split_and!; reflexivity.
  - apply Forall_singleton. split; [by vm_compute|]. split; [done|].
    repeat (apply Forall_cons; split; [by vm_compute|]). done.
Defined.

(** The whole run for process 42; the family has number 20. *)
Definition a_family : list item :=
  family_items (mk_attr 2 (c_bytes "TASKSTATS") [0; 0]) 20 [0; 0] [].
Definition before_run : delays :=
  no_delays <| d_sends := [(2000, false); (2000, false)] |>
            <| d_replies := [Some (reply_bytes 16 (replicate 14 0) a_family);
                             Some (reply_bytes 20 (replicate 14 0) a_task_reply)] |>.


(** An attribute of length 0 is walked over for ever. *)
Theorem zero_length_spins `{Taskstats} Y o msg rep_len len d fuel t :
  len < rep_len → get 2 msg (GENLMSG_DATA + len) = Done 0 → get 2 msg (GENLMSG_DATA + len + 2) = Done t →
  t ≠ CGROUPSTATS_TYPE_CGROUP_STATS →
  loop (reply_body Y o msg rep_len) fuel (len, false, d) = Die out_of_fuel.
Proof.
  intros Hlt Hn Ht Hc.
  assert (reply_body Y o msg rep_len (len, false, d) = Done (inl (len, false, d))) as Hb.
  { unfold reply_body. replace (len <? rep_len) with true by lia. cbn [negb]. rewrite Hn, Ht.
    cbn [mbind res_bind]. change (align4 0) with 0. rewrite Z.add_0_r.
    replace (t =? CGROUPSTATS_TYPE_CGROUP_STATS) with false by lia.
    destruct ((t =? _) || (t =? _)); [|done]. by rewrite loop_step. }
  destruct fuel as [|p|p]; try done. unfold loop. rewrite iter_pos_nat.
  assert (∀ n, iter_nat (reply_body Y o msg rep_len) n (len, false, d) = Done (inl (len, false, d))) as ->.
  { induction n as [|n IH]; [done|]. cbn [iter_nat]. rewrite Hb. exact IH. }
  done.
Qed.
