(* ===== verification/RunDelay.v ===== *)
(** * get_rundelay: the run queue delay of a thread

    [steal/get_rundelay.c] samples [/proc/<pid>/schedstat]: the time on the
    CPU, the time waiting for it and the number of slices, and prints the
    differences.  Every [fopen] of that file is an element of a list: [None]
    when it fails, else the text of the file; past the list it fails. *)

From S2P Require Import Prelude CLib CDouble.

Record sample := mk_sample { run_ticks : Z; wait_ticks : Z; nran : Z }.

Definition isblank (c : ascii) : bool := Ascii.eqb c " " || Ascii.eqb c "009".
Definition isdigit (c : ascii) : bool := (48 <=? zchar c) && (zchar c <=? 57).
(** [while ( *ptr && p( *ptr)) ptr++]. *)
Fixpoint skip_while (p : ascii → bool) (s : string) : string :=
  match s with
  | String c r => if p c then skip_while p r else s
  | EmptyString => s
  end.
Definition atoll (s : string) : Z := u64 (atol s).

Definition get_stats (buf : string) : sample :=
  let ptr := skip_while isblank buf in
  let run := atoll ptr in
  let ptr := skip_while isblank (skip_while isdigit ptr) in
  let wait := atoll ptr in
  let ptr := skip_while isblank (skip_while isdigit ptr) in
  mk_sample run wait (atoll ptr).

(** The text up to the first closing parenthesis, copied to [id[32]]; without
    one the NUL is stored at address 1. *)
Definition get_id (buf : string) : res string :=
  match strchr buf ")" with
  | None => Wild
  | Some r =>
      let id := String.substring 0 (String.length buf - String.length r + 1) buf in
      if strlen id <? 32 then Done id else Wild
  end.

Record run_opts := mk_run_opts { sleeptime : Z; count : Z; verbose : Z }.
#[export] Instance run_opts_eta : Eta run_opts := fun o => mk_run_opts (sleeptime o) (count o) (verbose o).

(** The unsigned differences, as doubles. *)
Definition delta (a b : Z) : double := of_Z (u64 (a - b)).
Definition fixed (k : Z) (d : double) : string := padl " " 4 (show_f k d).

(** A verbose line; [%d] shows the low half of a number. *)
Definition verbose_line (id : string) (old new : sample) : string :=
  let low z := dec (i32 z) in
  let slices := u64 (nran new - nran old) in
  let per z := if slices =? 0 then of_Z 0 else ddiv z (of_Z slices) in
  id +:+ " " +:+ low (run_ticks new) +:+ "(" +:+ low (run_ticks new - run_ticks old) +:+ ") " +:+
  low (wait_ticks new) +:+ "(" +:+ low (wait_ticks new - wait_ticks old) +:+ ") " +:+
  low (nran new) +:+ "(" +:+ low (nran new - nran old) +:+ ") avgrun=" +:+
  fixed 2 (per (delta (run_ticks new) (run_ticks old))) +:+ " avgwait" +:+
  fixed 2 (per (delta (wait_ticks new) (wait_ticks old))) +:+ nl.

(** A line with the differences in milliseconds and a ratio; the divisors of
    the ratio are [unsigned int]. *)
Definition delta_line (id ratio : string) (k divisor : Z) (end_ : string) (old new : sample) : string :=
  let ms a b := fixed 2 (ddiv (delta a b) (of_Z 1000000)) in
  id +:+ " deltarun=" +:+ ms (run_ticks new) (run_ticks old) +:+ "ms deltawait=" +:+
  ms (wait_ticks new) (wait_ticks old) +:+ "ms deltawait/" +:+ ratio +:+ "=" +:+
  fixed k (ddiv (delta (wait_ticks new) (wait_ticks old)) (of_Z divisor)) +:+ end_ +:+ nl.

Definition interval_divisor (o : run_opts) : Z := u32 (sleeptime o * 1000000000).
Definition elapse_divisor (o : run_opts) : Z := u32 (u32 (sleeptime o * 10000000) * count o).
Definition interval_line (o : run_opts) (id : string) (old new : sample) : string :=
  delta_line id "interval" 3 (interval_divisor o) "" old new.
Definition average_text (o : run_opts) (id : string) (first last : sample) : string :=
  "----------------------------averag-----------------------------------" +:+ nl +:+
  delta_line id "elaspe" 2 (elapse_divisor o) "%" first last.

(** What is printed for a sample. *)
Definition sample_text (o : run_opts) (id : string) (i : Z) (first old new : sample) : string :=
  if run_ticks old =? 0 then ""
  else
    (if negb (verbose o =? 0) then verbose_line id old new else interval_line o id old new) +:+
    (if i =? count o then average_text o id first new else "").

(** The inner loop with the file open. *)
Fixpoint sampling (o : run_opts) (id : string) (text : string) (opens : list (option string))
    (i : Z) (first old : sample) : string :=
  if negb (i <? u32 (count o + 1)) then ""
  else
    let procbuf := fgets 511 text in
    if strlen procbuf =? 0 then ""
    else
      let new := get_stats (cstr procbuf) in
      let first' := if i =? 0 then new else first in
      sample_text o id i first old new +:+
      match opens with
      | Some text :: opens => sampling o id text opens (i + 1) first' new
      | _ => ""
      end.

Definition zero_sample : sample := mk_sample 0 0 0.

(** The file [/proc/<pid>/stat], if there is one. *)
Definition read_id (stat : option string) : res string :=
  match stat with
  | None => Done ""
  | Some text =>
      let procbuf := fgets 511 text in
      if strlen procbuf =? 0 then Done "" else get_id (cstr procbuf)
  end.

Definition run_option (x : ascii * string) (o : run_opts) : res run_opts :=
  let '(c, optarg) := x in
  if Ascii.eqb c "s" then Done (o <| sleeptime := u32 (atoi optarg) |>)
  else if Ascii.eqb c "c" then Done (o <| count := u32 (atoi optarg) |>)
  else if Ascii.eqb c "v" then Done (o <| verbose := u32 (verbose o + 1) |>)
  else Die "usage".

Definition main (opts : list (ascii * string)) (arg : option string) (stat : option string)
    (opens : list (option string)) : res string :=
  o ← foldm run_option opts (mk_run_opts 1 10 0);
  let out := "interval is " +:+ dec (i32 (sleeptime o)) +:+ " count is " +:+ dec (i32 (count o)) +:+ " " +:+ nl in
  let pid := match arg with Some a => u32 (atoi a) | None => 0 end in
  if pid =? 0 then Die "usage"
  else
    id ← read_id stat;
    match opens with
    | Some text :: opens => Done (out +:+ sampling o id text opens 0 zero_sample zero_sample)
    | _ =>
        if strlen id =? 0 then Done (out +:+ "Process " +:+ dec (i32 pid) +:+ " does not exist." +:+ nl)
        else Done (out +:+ "Process " +:+ id +:+ " has exited." +:+ nl)
    end.

(** ** The line of the kernel is read back *)

Definition sample_ok (s : sample) : Prop :=
  0 ≤ run_ticks s < 2 ^ 63 ∧ 0 ≤ wait_ticks s < 2 ^ 63 ∧ 0 ≤ nran s < 2 ^ 63.
Definition schedstat_line (s : sample) : string :=
  dec (run_ticks s) +:+ " " +:+ dec (wait_ticks s) +:+ " " +:+ dec (nran s) +:+ nl.

Lemma isdigit_char x : (x < 10)%N → isdigit (pretty_N_char x) = true.
Proof.
  intros Hx. assert (x ∈ [0; 1; 2; 3; 4; 5; 6; 7; 8; 9]%N) as Hin.
  { rewrite !elem_of_cons, elem_of_nil. lia. }
  rewrite !elem_of_cons, elem_of_nil in Hin. naive_solver.
Qed.

(** Skipping the digits of a number. *)
Lemma skip_digits n rest : 0 ≤ n → skip_while isdigit (dec n +:+ rest) = skip_while isdigit rest.
Proof.
  intros Hn. unfold dec. destruct n as [|p|p]; [done| |lia].
  change (pretty (Zpos p)) with (pretty_N_go (Npos p) ""). rewrite pretty_N_go_app.
  change ("" +:+ rest) with rest. generalize (Npos p) as n. clear p Hn. intros n.
  revert rest. induction n as [n IH] using (well_founded_induction N.lt_wf_0). intros s.
  destruct (decide (0 < n)%N) as [Hn|Hn].
  - rewrite pretty_N_go_step, IH by (done || by apply N.div_lt). cbn [skip_while].
    by rewrite isdigit_char by (apply N.mod_lt; lia).
  - assert (n = 0%N) as -> by lia. by rewrite pretty_N_go_0.
Qed.

Lemma digit_not_blank c : digit_val c < 10 → isblank c = false.
Proof.
  intros Hc. unfold isblank.
  destruct (Ascii.eqb_spec c " ") as [->|]; [by cbv in Hc|].
  destruct (Ascii.eqb_spec c "009") as [->|]; [by cbv in Hc|done].
Qed.

Lemma skip_blank_dec n rest : 0 ≤ n → skip_while isblank (dec n +:+ rest) = dec n +:+ rest.
Proof.
  intros Hn. destruct (dec_head n rest Hn) as (c & r & -> & Hc & _). cbn [skip_while].
  by rewrite digit_not_blank.
Qed.

Lemma atoll_dec n rest : 0 ≤ n < 2 ^ 63 → ends_number rest → atoll (dec n +:+ rest) = n.
Proof.
  intros Hn Hr. unfold atoll, atol. rewrite strtoll_dec by done. apply u64_small. cbn in *. lia.
Qed.

Lemma next_field n rest :
  0 ≤ n → skip_while isblank (skip_while isdigit (dec n +:+ " " +:+ rest)) = skip_while isblank rest.
Proof. intros Hn. by rewrite skip_digits. Qed.

Lemma get_stats_line s : sample_ok s → get_stats (schedstat_line s) = s.
Proof.
  intros (H1 & H2 & H3). unfold get_stats, schedstat_line.
  rewrite skip_blank_dec, next_field, skip_blank_dec, next_field, skip_blank_dec by lia.
  rewrite !atoll_dec by done. by destruct s.
Qed.

Lemma schedstat_short s :
  sample_ok s → strchr (dec (run_ticks s) +:+ " " +:+ dec (wait_ticks s) +:+ " " +:+ dec (nran s)) "010" = None ∧
  strlen (dec (run_ticks s) +:+ " " +:+ dec (wait_ticks s) +:+ " " +:+ dec (nran s)) < 511 ∧
  c_string (dec (run_ticks s) +:+ " " +:+ dec (wait_ticks s) +:+ " " +:+ dec (nran s)).
Proof.
  intros (H1 & H2 & H3). split_and!.
  - rewrite strchr_dec by (done || lia). change (strchr (" " +:+ ?x) "010") with (strchr x "010").
    rewrite strchr_dec by (done || lia). change (strchr (" " +:+ ?x) "010") with (strchr x "010").
    rewrite <- (string_app_nil_r (dec (nran s))). by rewrite strchr_dec by (done || lia).
  - assert (∀ n, 0 ≤ n < 2 ^ 63 → strlen (dec n) ≤ 19) as Hd.
    { intros n Hn. apply (strlen_dec_le 18). cbn in *. lia. }
    pose proof (Hd _ H1). pose proof (Hd _ H2). pose proof (Hd _ H3).
    rewrite !strlen_app. change (strlen " ") with 1. lia.
  - repeat (apply c_string_app; [first [apply dec_c|done]|]). apply dec_c.
Qed.

(** A file with a line is read as the sample it shows. *)
Lemma read_sample s :
  sample_ok s →
  (strlen (fgets 511 (schedstat_line s)) =? 0) = false ∧
  get_stats (cstr (fgets 511 (schedstat_line s))) = s.
Proof.
  intros Hs. destruct (schedstat_short s Hs) as (Hn & Hl & Hc).
  assert (schedstat_line s =
    (dec (run_ticks s) +:+ " " +:+ dec (wait_ticks s) +:+ " " +:+ dec (nran s)) +:+ nl) as E
    by (unfold schedstat_line; by rewrite !string_app_assoc).
  assert (cstr (fgets 511 (schedstat_line s)) = schedstat_line s) as Hf by (rewrite E; by apply fgets_line).
  rewrite Hf. split; [|by apply get_stats_line].
  destruct (fgets 511 (schedstat_line s)) as [|c r] eqn:Ef.
  - change (cstr "") with "" in Hf. destruct Hs as (Hs & _). unfold schedstat_line in Hf.
    destruct (dec_head (run_ticks s) (" " +:+ dec (wait_ticks s) +:+ " " +:+ dec (nran s) +:+ nl))
      as (c & r & Eh & _); [lia|]. by rewrite Eh in Hf.
  - rewrite strlen_cons. pose proof (strlen_nonneg r). lia.
Qed.

(** ** The report *)

Definition shown (l : list sample) : list (option string) := (fun s => Some (schedstat_line s)) <$> l.

Lemma sampling_reports o id first l : ∀ i old new,
  verbose o = 0 → 0 < i → i + zlen l = count o → count o < 2 ^ 32 - 1 →
  Forall (fun s => sample_ok s ∧ run_ticks s ≠ 0) (new :: l) → run_ticks old ≠ 0 →
  sampling o id (schedstat_line new) (shown l) i first old =
    texts (fun p => interval_line o id p.1 p.2) (zip (old :: new :: l) (new :: l)) +:+
    average_text o id first (default new (last l)).
Proof.
  induction l as [|s l IH]; intros i old new Hv Hi Hc Hm Hs Ho;
    apply Forall_cons in Hs as [[Hok Hnz] Hs]; destruct (read_sample new Hok) as [Hlen Hget].
  - rewrite zlen_nil in Hc. cbn [sampling shown fmap list_fmap].
    rewrite u32_small by lia. replace (i <? count o + 1) with true by lia. cbn [negb].
    rewrite Hlen, Hget. unfold sample_text. replace (run_ticks old =? 0) with false by lia.
    rewrite Hv. change (0 =? 0) with true. cbn [negb]. replace (i =? count o) with true by lia.
    cbn [texts foldr zip zip_with fst snd last default]. by rewrite !string_app_nil_r.
  - rewrite zlen_cons in Hc. pose proof (zlen_nonneg l). cbn [sampling shown fmap list_fmap].
    rewrite u32_small by lia. replace (i <? count o + 1) with true by lia. cbn [negb].
    rewrite Hlen, Hget. unfold sample_text. replace (run_ticks old =? 0) with false by lia.
    rewrite Hv. change (0 =? 0) with true. cbn [negb]. replace (i =? count o) with false by lia.
    replace (i =? 0) with false by lia. rewrite string_app_nil_r. fold (shown l).
    rewrite (IH (i + 1) new s) by (done || lia).
    change (texts ?f (zip (old :: new :: s :: l) (new :: s :: l)))
      with (interval_line o id old new +:+ texts f (zip (new :: s :: l) (s :: l))).
    rewrite last_cons. by destruct (last l); rewrite string_app_assoc.
Qed.

(** C25: get_rundelay with an interval and a number of rounds, on a thread that
    lives long enough: the lines of the kernel are read back exactly, every round prints the
    difference to the round before, and the last one the difference between the
    first and the last sample as well.  Up to four seconds the ratio of a round
    is taken over the interval; the divisor wraps for longer ones. *)
Theorem rundelay_report opts o arg stat id s0 s1 l :
  foldm run_option opts (mk_run_opts 1 10 0) = Done o → verbose o = 0 →
  u32 (atoi arg) ≠ 0 → read_id stat = Done id →
  Forall (fun s => sample_ok s ∧ run_ticks s ≠ 0) (s0 :: s1 :: l) →
  count o = 1 + zlen l → count o < 2 ^ 32 - 1 → 0 ≤ sleeptime o →
  let all := s0 :: s1 :: l in
  main opts (Some arg) stat (shown all) =
    Done ("interval is " +:+ dec (i32 (sleeptime o)) +:+ " count is " +:+ dec (i32 (count o)) +:+ " " +:+ nl +:+
          texts (fun p => interval_line o id p.1 p.2) (zip all (s1 :: l)) +:+
          average_text o id s0 (default s1 (last l))) ∧
  (sleeptime o ≤ 4 ↔ interval_divisor o = sleeptime o * 1000000000).
Proof.
  intros Ho Hv Hp Hid Hs Hc Hm Hsl all. split.
  - unfold main. rewrite Ho. cbn [mbind res_bind]. replace (u32 (atoi arg) =? 0) with false by lia.
    rewrite Hid. cbn [mbind res_bind shown fmap list_fmap all].
    apply Forall_cons in Hs as [[Hok Hnz] Hs]. destruct (read_sample s0 Hok) as [Hlen Hget].
    pose proof (zlen_nonneg l). cbn [sampling]. rewrite u32_small by lia.
    replace (0 <? count o + 1) with true by lia. cbn [negb]. rewrite Hlen, Hget.
    change (sample_text o id 0 zero_sample zero_sample s0) with "". change (0 =? 0) with true. cbv iota.
    change (0 + 1) with 1. change ("" +:+ ?x) with x.
    fold (shown l). rewrite (sampling_reports o id s0 l 1 s0 s1) by (done || lia).
    by rewrite !string_app_assoc.
  - unfold interval_divisor, wrap. pose proof (Z.mod_pos_bound (sleeptime o * 1000000000) (2 ^ 32)).
    split; [intros; apply Z.mod_small; lia|lia].
Qed.

Definition samples : list sample := [mk_sample 100 2000000 1; mk_sample 300 5000000 2; mk_sample 700 5000000 9].
Lemma rundelay_report_witness :
  main [("c"%char, "2")] (Some "7") (Some "7 (sh) S 1") (shown samples) =
  Done ("interval is 1 count is 2 " +:+ nl +:+
        "7 (sh) deltarun=0.00ms deltawait=3.00ms deltawait/interval=0.003" +:+ nl +:+
        "7 (sh) deltarun=0.00ms deltawait=0.00ms deltawait/interval=0.000" +:+ nl +:+
        "----------------------------averag-----------------------------------" +:+ nl +:+
        "7 (sh) deltarun=0.00ms deltawait=3.00ms deltawait/elaspe=0.15%" +:+ nl).
Proof.
  assert (Forall (fun s => sample_ok s ∧ run_ticks s ≠ 0) samples) as Hs.
  { repeat (apply Forall_cons; split;
      [split; [split_and!; vm_compute; (reflexivity || discriminate)|discriminate]|]). done. }
  pose proof (proj1 (rundelay_report [("c"%char, "2")] (mk_run_opts 1 2 0) "7" (Some "7 (sh) S 1") "7 (sh)"
    (mk_sample 100 2000000 1) (mk_sample 300 5000000 2) [mk_sample 700 5000000 9]
    eq_refl eq_refl ltac:(discriminate) eq_refl Hs eq_refl ltac:(done) ltac:(done))) as E.
  change (_ :: _ :: [_]) with samples in E. rewrite E. vm_compute. reflexivity.
Defined.
