(* ===== verification/AvgLat.v ===== *)
(** * tgid_avglat: average run queue delay of a process

    The kernel module [tgid_avglat/tgid_avglat.c].  What the scheduler has
    accounted for a process, its threads and its children is an argument, and so
    is what [proc_create_data] answers.  References taken and never dropped are
    counted. *)

From S2P Require Import Prelude CLib.

Definition EINVAL : Z := 22.
Definition INVALID_PID : Z := -1.

(** A process of [children]: its delay and those of its other threads. *)
Record child := mk_child { c_delay : Z; c_threads : list Z }.
Record proc := mk_proc { p_delay : Z; p_threads : list Z; p_children : list child }.

(** [l_info], and the references held on a pid and on a task. *)
Record lat_info := mk_lat_info { l_pid : Z; l_lat : Z; l_refs : Z }.
#[export] Instance lat_info_eta : Eta lat_info := fun l => mk_lat_info (l_pid l) (l_lat l) (l_refs l).
Definition l_info : lat_info := mk_lat_info INVALID_PID 0 0.

(** [parsed] is what [kstrtoint_from_user] makes of the text. *)
Definition pid_write (parsed : option Z) (count : Z) (info : lat_info) : Z * lat_info :=
  match parsed with
  | None => (- EINVAL, info)
  | Some pid => (count, info <| l_pid := pid |> <| l_lat := 0 |>)
  end.

Definition pid_show (info : lat_info) : string := dec (l_pid info) +:+ nl.

(** The sum and the counters of the loops. *)
Definition add_threads (ds : list Z) (s : Z * Z) : Z * Z :=
  foldl (fun s d => (u64 (s.1 + d), s.2 + 1)) s ds.
Definition add_child (s : Z * Z * Z) (c : child) : Z * Z * Z :=
  let '(lat, children, threads) := s in
  let '(lat, threads) := add_threads (c_threads c) (u64 (lat + c_delay c), threads) in
  (lat, children + 1, threads).

(** [find] looks a process up. *)
Definition get_tids_lat (find : Z → option proc) (pid : Z) (info : lat_info) : res (Z * lat_info) :=
  if pid =? INVALID_PID then Done (0, info)
  else
    match find pid with
    | None => Done (0, info)
    | Some p =>
        let info := info <| l_refs := l_refs info + 2 |> in
        let '(lat, child_cnt, thread_cnt) := foldl add_child (u64 (0 + p_delay p), 0, 0) (p_children p) in
        let '(lat, thread_cnt) :=
          if child_cnt =? 0 then add_threads (p_threads p) (lat, thread_cnt) else (lat, thread_cnt) in
        let n := child_cnt + thread_cnt in
        if n =? 0 then Wild else Done (lat / n, info)
    end.

Definition lat_show (find : Z → option proc) (info : lat_info) : res (string * lat_info) :=
  '(lat, info) ← get_tids_lat find (l_pid info) info;
  Done (dec lat +:+ nl, info).

(** [remove_proc_subtree("pid_runqlat", NULL)]: files that ended up outside
    that directory stay. *)
Definition remove_subtree (mkdir_ok : bool) (files : list string) : list string :=
  if mkdir_ok then [] else files.

(** [pid_runqlat_init]: the value returned, if one is, and the files left in
    /proc, for the answers of [proc_mkdir] (not tested) and the two
    [proc_create_data]. *)
Definition pid_runqlat_init (mkdir_ok pid_ok runqlat_ok : bool) : option Z * list string :=
  let path n := (if mkdir_ok then "pid_runqlat/" else "") +:+ n in
  if negb pid_ok then (None, remove_subtree mkdir_ok [])
  else if negb runqlat_ok then (None, remove_subtree mkdir_ok [path "pid"])
  else (Some 0, [path "pid"; path "runqlat"]).
Definition pid_runqlat_exit (mkdir_ok : bool) (files : list string) : list string :=
  remove_subtree mkdir_ok files.

(** ** What is averaged *)

(** The tasks counted: the children with their threads, or, without children,
    the other threads of the process. *)
Definition counted (p : proc) : list Z :=
  match p_children p with
  | [] => p_threads p
  | cs => cs ≫= fun c => c_delay c :: c_threads c
  end.

Lemma add_threads_sum ds : ∀ lat n,
  0 ≤ lat → Forall (fun d => 0 ≤ d) ds → lat + sum_of id ds < 2 ^ 64 →
  add_threads ds (lat, n) = (lat + sum_of id ds, n + zlen ds).
Proof.
  induction ds as [|d ds IH]; intros lat n Hl Hd Hs.
  - unfold zlen. cbn. f_equal; lia.
  - apply Forall_cons in Hd as [Hd Hds]. change (sum_of id (d :: ds)) with (d + sum_of id ds) in *.
    assert (0 ≤ sum_of id ds) by (apply sum_of_nonneg; by apply Forall_forall).
    change (add_threads (d :: ds) (lat, n)) with (add_threads ds (u64 (lat + d), n + 1)).
    rewrite wrap_small by lia. rewrite IH by (done || lia). rewrite zlen_cons. f_equal; lia.
Qed.

Lemma add_children_sum cs : ∀ lat n k,
  let ds := cs ≫= fun c => c_delay c :: c_threads c in
  0 ≤ lat → Forall (fun d => 0 ≤ d) ds → lat + sum_of id ds < 2 ^ 64 →
  ∃ m j, foldl add_child (lat, n, k) cs = (lat + sum_of id ds, m, j) ∧
         m = n + zlen cs ∧ m + j = n + k + zlen ds.
Proof.
  induction cs as [|c cs IH]; intros lat n k ds Hl Hd Hs.
  - exists n, k. subst ds. unfold zlen. cbn. split_and!; [do 2 f_equal|..]; lia.
  - subst ds. cbn [mbind list_bind] in *. change (list_bind _ _ _ cs) with (cs ≫= fun c => c_delay c :: c_threads c) in *.
    set (ds := cs ≫= _) in *. rewrite Forall_app, Forall_cons in Hd. destruct Hd as [[Hc Ht] Hds].
    rewrite sum_of_app in *. change (sum_of id (c_delay c :: c_threads c)) with
      (c_delay c + sum_of id (c_threads c)) in *.
    assert (0 ≤ sum_of id ds) by (apply sum_of_nonneg; by apply Forall_forall).
    assert (0 ≤ sum_of id (c_threads c)) by (apply sum_of_nonneg; by apply Forall_forall).
    cbn [foldl add_child]. rewrite wrap_small by lia.
    rewrite add_threads_sum by (done || lia).
    destruct (IH (lat + c_delay c + sum_of id (c_threads c)) (n + 1) (k + zlen (c_threads c)))
      as (m & j & E & Hm & Hj); [lia|done|fold ds; lia|].
    exists m, j. rewrite E. fold ds in Hj |- *. rewrite zlen_app, !zlen_cons. split_and!; [f_equal|..]; try lia.
    f_equal. lia.
Qed.

(** Reading the file of a process that exists prints the delay of the
    process and of every counted task, divided by the number of counted tasks
    (the process itself is in the sum and not in the number); a process with
    neither children nor other threads makes the module divide by zero.  Every
    reading takes two references that are never dropped. *)
Theorem lat_show_average find info p :
  let total := p_delay p + sum_of id (counted p) in
  l_pid info ≠ INVALID_PID → find (l_pid info) = Some p →
  0 ≤ p_delay p → Forall (fun d => 0 ≤ d) (counted p) → total < 2 ^ 64 →
  lat_show find info =
    if zlen (counted p) =? 0 then Wild
    else Done (dec (total / zlen (counted p)) +:+ nl, info <| l_refs := l_refs info + 2 |>).
Proof.
  intros total Hpid Hf Hp Hd Ht. unfold lat_show, get_tids_lat.
  replace (l_pid info =? INVALID_PID) with false by lia. rewrite Hf. unfold counted in *.
  assert (0 ≤ sum_of id (counted p)) by (apply sum_of_nonneg; by apply Forall_forall).
  rewrite wrap_small by (unfold counted in *; lia). change (0 + p_delay p) with (p_delay p).
  destruct (p_children p) as [|c cs] eqn:Ec.
  - cbn [foldl]. change (0 =? 0) with true. cbv iota. subst total.
    rewrite add_threads_sum by done. change (0 + (0 + zlen (p_threads p))) with (zlen (p_threads p)).
    by destruct (zlen (p_threads p) =? 0).
  - destruct (add_children_sum (c :: cs) (p_delay p) 0 0) as (m & j & E & Hm & Hj); [done|done|done|].
    rewrite E. rewrite zlen_cons in Hm. pose proof (zlen_nonneg cs).
    replace (m =? 0) with false by lia.
    replace (zlen ((c :: cs) ≫= fun c => c_delay c :: c_threads c)) with (m + j) by lia.
    by destruct (m + j =? 0).
Qed.

Definition a_proc (pid : Z) : option proc :=
  if pid =? 7 then Some (mk_proc 10 [20; 30] []) else Some (mk_proc 10 [] []).
Lemma lat_show_average_witness :
  lat_show a_proc (l_info <| l_pid := 7 |>) = Done ("30" +:+ nl, mk_lat_info 7 0 2) ∧
  lat_show a_proc (l_info <| l_pid := 8 |>) = Wild.
Proof.
  split.
  - rewrite (lat_show_average a_proc _ (mk_proc 10 [20; 30] [])); [reflexivity|discriminate|reflexivity|done| |done].
    repeat (apply Forall_cons; split; [lia|]). done.
  - rewrite (lat_show_average a_proc _ (mk_proc 10 [] [])); [reflexivity|discriminate|reflexivity|done|done|done].
Defined.
