(* ===== verification/Ftools.v ===== *)
(** * mem/linux-ftools: linux-fadvise.c, linux-fallocate.c, showrlimit.c

    Three command lines around one system call each.  What the system answers is
    an argument; a run is an exit code, what was printed on standard output, and
    the system call that was made.  [exit] and [return] from main are the same
    here. *)

From S2P Require Import Prelude CLib.

(** ** linux-fadvise.c *)

Definition toupper (c : ascii) : ascii :=
  if (97 <=? zchar c) && (zchar c <=? 122) then ascii_of_nat (nat_of_ascii c - 32) else c.
Fixpoint strtoupper (str : string) : string :=
  match str with EmptyString => EmptyString | String c s => String (toupper c) (strtoupper s) end.

(** strstr: whether [needle] occurs in [hay]. *)
Fixpoint strstr (hay needle : string) : bool :=
  String.prefix needle hay || match hay with EmptyString => false | String _ hay => strstr hay needle end.

(** The advice of a name. *)
Definition mode_of (param_mode : string) : option Z :=
  if (param_mode =? "POSIX_FADV_NORMAL")%string then Some 0
  else if (param_mode =? "POSIX_FADV_RANDOM")%string then Some 1
  else if (param_mode =? "POSIX_FADV_SEQUENTIAL")%string then Some 2
  else if (param_mode =? "POSIX_FADV_WILLNEED")%string then Some 3
  else if (param_mode =? "POSIX_FADV_DONTNEED")%string then Some 4
  else if (param_mode =? "POSIX_FADV_NOREUSE")%string then Some 5
  else None.

(** A call fadvise64(fd, offset, length, mode) or fallocate(fd, mode, offset, len). *)
Inductive ft_call := Fadvise (fd offset length mode : Z) | Fallocate (fd mode offset len : Z).
Record run := Run { code : Z; out : string; called : list ft_call }.

(** open, the size fstat gives ([None]: it failed), its st_blksize and st_blocks,
    and the results of the two system calls. *)
Record ft_sys := FtSys {
  open_rw : string → Z;
  st_size : Z → option Z;
  st_blksize : Z; st_blocks : Z;
  syscall : ft_call → Z;
}.

Definition fadvise_usage : string :=
  "SYNTAX: fadvise filename mode [offset] [,length]" +:+ nl
  +:+ "Where mode can be:" +:+ nl +:+ nl
  +:+ "  POSIX_FADV_NORMAL      | NORMAL      No further special treatment.  " +:+ nl
  +:+ "  POSIX_FADV_RANDOM      | RANDOM      Expect random page references.  " +:+ nl
  +:+ "  POSIX_FADV_SEQUENTIAL  | SEQUENTIAL  Expect sequential page references.  " +:+ nl
  +:+ "  POSIX_FADV_WILLNEED    | WILLNEED    Will need these pages.  " +:+ nl
  +:+ "  POSIX_FADV_DONTNEED    | DONTNEED    Don't need these pages.  " +:+ nl
  +:+ "  POSIX_FADV_NOREUSE     | NOREUSE     Data will be accessed once.  " +:+ nl.

(** The mode argument up to the first printf: strcat appends to [new_mode], which
    was never set. *)
Definition fadvise_mode (arg : string) : res string :=
  let param_mode := strtoupper arg in
  let param_mode := if (param_mode =? "DO_NOT_WANT")%string then "POSIX_FADV_DONTNEED" else param_mode in
  if strstr "POSIX_FADV_" param_mode then Wild else Done param_mode.

Section ftools.
Context (Y : ft_sys).

Definition fadvise_main (argv : list string) : res run :=
  match argv with
  | _ :: path :: mode_arg :: rest =>
      param_mode ← fadvise_mode mode_arg;
      let o := "Going to fadvise " +:+ path +:+ " as mode " +:+ param_mode +:+ nl in
      let fd := open_rw Y path in
      if fd =? -1 then Done (Run 1 o [])
      else
      match st_size Y fd with
      | None => Done (Run 1 o [])
      | Some size =>
          let offset := match rest !! 0%nat with Some s => atol s | None => 0 end in
          let length := match rest !! 1%nat with Some s => atol s | None => size end in
          let o := o +:+ "offset: " +:+ dec offset +:+ nl +:+ "length: " +:+ dec length +:+ nl in
          match mode_of param_mode with
          | None => Done (Run 1 (o +:+ "Invalid mode " +:+ param_mode +:+ nl) [])
          | Some mode =>
              let o := o +:+ "mode: " +:+ param_mode +:+ nl in
              let c := Fadvise fd offset length mode in
              let result := syscall Y c in
              if negb (result =? 0)
              then Done (Run 1 (if negb (result =? -1) then o else o +:+ "Unable to fadvise: " +:+ dec result +:+ nl) [c])
              else Done (Run 0 (o +:+ "WIN" +:+ nl) [c])
          end
      end
  | _ => Done (Run 1 fadvise_usage [])
  end.

(** ** linux-fallocate.c *)

(** [None]: fstat failed and the program exited with 1. *)
Definition logstats (fd : Z) : option string :=
  match st_size Y fd with
  | None => None
  | Some size =>
      Some ("File stats: " +:+ nl +:+ "    Length:            " +:+ dec size +:+ nl
            +:+ "    Block size:        " +:+ dec (st_blksize Y) +:+ nl
            +:+ "    Blocks allocated:  " +:+ dec (st_blocks Y) +:+ nl)
  end.

Definition FALLOC_FL_KEEP_SIZE : Z := 1.

(** Both usage lines and "Unable to allocate size" go to standard error. *)
Definition fallocate_main (argv : list string) : run :=
  match argv with
  | [_; path; len_arg] =>
      let o := "Going to fallocate " +:+ path +:+ nl in
      let fd := open_rw Y path in
      if fd =? -1 then Run 1 o []
      else
      match logstats fd with
      | None => Run 1 o []
      | Some stats =>
          let len := atol len_arg in
          let o := o +:+ stats +:+ "Increasing file to: " +:+ dec len +:+ nl in
          if len <=? 0 then Run 1 o []
          else
          let c := Fallocate fd FALLOC_FL_KEEP_SIZE 0 len in
          if negb (syscall Y c =? 0) then Run 1 o [c]
          else
          match logstats fd with
          | None => Run 1 o [c]
          | Some stats => Run 0 (o +:+ stats) [c]
          end
      end
  | _ => Run 1 "" []
  end.
End ftools.

(** ** showrlimit.c *)

Definition padd (val : Z) : string :=
  dec val +:+
  (if 1000000000 <? val then " "
   else if 100000000 <? val then "  "
   else if 10000000 <? val then "   "
   else if 1000000 <? val then "    "
   else if 100000 <? val then "     "
   else if 10000 <? val then "      "
   else if 1000 <? val then "       "
   else if 100 <? val then "        "
   else if 10 <? val then "         "
   else if 0 <=? val then "          "
   else if val =? -1 then "         "
   else "").

(** [limit]: rlim_cur and rlim_max, unsigned longs that become ints. *)
Definition dump_limit (header : string) (limit : Z * Z) : string :=
  header +:+ padd (i32 limit.1) +:+ padd (i32 limit.2) +:+ nl.

(** The resources in the order of main, by their numbers (RLIMIT_OFILE is
    RLIMIT_NOFILE). *)
Definition limits : list (string * Z) :=
  [("RLIMIT_AS:          ", 9); ("RLIMIT_CORE:        ", 4); ("RLIMIT_CPU:         ", 0);
   ("RLIMIT_DATA:        ", 2); ("RLIMIT_FSIZE:       ", 1); ("RLIMIT_LOCKS:       ", 10);
   ("RLIMIT_MEMLOCK:     ", 8); ("RLIMIT_MSGQUEUE:    ", 12); ("RLIMIT_NICE:        ", 13);
   ("RLIMIT_NOFILE:      ", 7); ("RLIMIT_NPROC:       ", 6); ("RLIMIT_RSS:         ", 5);
   ("RLIMIT_RTPRIO:      ", 14); ("RLIMIT_SIGPENDING:  ", 11); ("RLIMIT_STACK:       ", 3);
   ("RLIMIT_OFILE:       ", 7)].
Definition showrlimit_main (getrlimit : Z → Z * Z) : string :=
  texts (fun '(header, resource) => dump_limit header (getrlimit resource)) limits.

(** ** What fadvise accepts *)

(** The names the usage text lists, with their advice. *)
Definition advices : list (string * Z) :=
  [("NORMAL", 0); ("RANDOM", 1); ("SEQUENTIAL", 2); ("WILLNEED", 3); ("DONTNEED", 4); ("NOREUSE", 5)].

(** A name in any mix of cases. *)
Definition spelled (arg name : string) : Prop := strtoupper arg = name.

(** What the tests of the program make of a long and of a short name. *)
Lemma mode_names name advice :
  (name, advice) ∈ advices →
  (let m := "POSIX_FADV_" +:+ name in
   m ≠ "DO_NOT_WANT" ∧ strstr "POSIX_FADV_" m = false ∧ mode_of m = Some advice)
  ∧ name ≠ "DO_NOT_WANT" ∧ strstr "POSIX_FADV_" name = false ∧ mode_of name = None.
Proof.
  assert (Forall (fun '(name, advice) =>
    (let m := "POSIX_FADV_" +:+ name in
     m ≠ "DO_NOT_WANT" ∧ strstr "POSIX_FADV_" m = false ∧ mode_of m = Some advice)
    ∧ name ≠ "DO_NOT_WANT" ∧ strstr "POSIX_FADV_" name = false ∧ mode_of name = None) advices) as H
    by (repeat (constructor; [by repeat split|]); constructor).
  intros Hn. rewrite Forall_forall in H. exact (H _ Hn).
Qed.

Lemma fadvise_mode_plain arg m :
  spelled arg m → m ≠ "DO_NOT_WANT" → strstr "POSIX_FADV_" m = false → fadvise_mode arg = Done m.
Proof. unfold spelled, fadvise_mode. intros -> Hm Hs. apply String.eqb_neq in Hm. by rewrite Hm, Hs. Qed.

(** Fadvise makes the one call the command line asks for: with a long mode
    name (in capitals or not, and DO_NOT_WANT) it advises the given range, by
    default the whole file, and reports the result; with the short names its usage
    text offers it makes no call and says that the mode is invalid. *)
Theorem fadvise_modes Y argv0 path arg name advice rest size :
  (name, advice) ∈ advices → open_rw Y path ≠ -1 → st_size Y (open_rw Y path) = Some size →
  let offset := match rest !! 0%nat with Some s => atol s | None => 0 end in
  let length := match rest !! 1%nat with Some s => atol s | None => size end in
  let c := Fadvise (open_rw Y path) offset length advice in
  (spelled arg ("POSIX_FADV_" +:+ name) ∨ (spelled arg "DO_NOT_WANT" ∧ name = "DONTNEED") →
   ∃ o, fadvise_main Y (argv0 :: path :: arg :: rest) = Done (Run (if syscall Y c =? 0 then 0 else 1) o [c]))
  ∧ (spelled arg name →
     ∃ o, fadvise_main Y (argv0 :: path :: arg :: rest) = Done (Run 1 (o +:+ "Invalid mode " +:+ name +:+ nl) [])).
Proof.
  intros Hn Hfd Hsz offset length c. destruct (mode_names name advice Hn) as ((L1 & L2 & L3) & S1 & S2 & S3).
  assert (∀ m, fadvise_mode arg = Done m → mode_of m = Some advice →
    ∃ o, fadvise_main Y (argv0 :: path :: arg :: rest) = Done (Run (if syscall Y c =? 0 then 0 else 1) o [c])) as Hgo.
  { intros m Hm Hmode. unfold fadvise_main. rewrite Hm. cbn [mbind res_bind]. rewrite (proj2 (Z.eqb_neq _ _) Hfd), Hsz, Hmode.
    fold offset length c. destruct (syscall Y c =? 0); eauto. }
  split.
  - intros [Hs|[Hs ->]]; [eapply Hgo; [by apply fadvise_mode_plain|done]|].
    apply (Hgo "POSIX_FADV_DONTNEED"); [|exact L3]. unfold fadvise_mode. by rewrite Hs.
  - intros Hs. unfold fadvise_main. rewrite (fadvise_mode_plain arg name) by done. cbn [mbind res_bind].
    rewrite (proj2 (Z.eqb_neq _ _) Hfd), Hsz, S3. eauto.
Qed.

Definition one_file : ft_sys := FtSys (fun _ => 3) (fun _ => Some 8192) 4096 16 (fun _ => 0).
Lemma fadvise_modes_witness :
  (∃ o, fadvise_main one_file ["fadvise"; "f"; "posix_fadv_dontneed"; "4096"] = Done (Run 0 o [Fadvise 3 4096 8192 4]))
  ∧ ∃ o, fadvise_main one_file ["fadvise"; "f"; "DONTNEED"] = Done (Run 1 (o +:+ "Invalid mode " +:+ "DONTNEED" +:+ nl) []).
Proof.
  split.
  - exact (proj1 (fadvise_modes one_file "fadvise" "f" "posix_fadv_dontneed" "DONTNEED" 4 ["4096"] 8192
      ltac:(apply (bool_decide_unpack _); vm_compute; exact I) ltac:(done) eq_refl) (or_introl eq_refl)).
  - exact (proj2 (fadvise_modes one_file "fadvise" "f" "DONTNEED" "DONTNEED" 4 [] 8192
      ltac:(apply (bool_decide_unpack _); vm_compute; exact I) ltac:(done) eq_refl) eq_refl).
Defined.

(** A mode that is a piece of "POSIX_FADV_" (the arguments of strstr are the wrong
    way round for anything else) is appended to an array that was never set. *)
Lemma fadvise_unset_array : fadvise_mode "fadv" = Wild ∧ fadvise_mode "" = Wild.
Proof. by split. Qed.

(** ** What fallocate does *)

(** Behind its tests fallocate makes one call, which keeps the size of the file:
    the length printed as the new one is not the length of the file. *)
Lemma fallocate_keeps_size Y argv0 path len_arg size :
  open_rw Y path ≠ -1 → st_size Y (open_rw Y path) = Some size →
  called (fallocate_main Y [argv0; path; len_arg])
  = if atol len_arg <=? 0 then [] else [Fallocate (open_rw Y path) FALLOC_FL_KEEP_SIZE 0 (atol len_arg)].
Proof.
  intros Hfd Hsz. unfold fallocate_main, logstats. rewrite (proj2 (Z.eqb_neq _ _) Hfd), Hsz.
  destruct (atol len_arg <=? 0); [done|]. by destruct (syscall Y _ =? 0).
Qed.

(** ** The columns of showrlimit *)

(** The second column starts at the eleventh character, except behind a power of
    ten, where it is one further, and behind a negative number other than -1. *)
Definition powers : list Z := [10; 100; 1000; 10000; 100000; 1000000; 10000000; 100000000; 1000000000].

(** The next test of padd tells that the number has [k + 1] digits. *)
Ltac row_of Hk k :=
  lazymatch goal with |- context [?p <? ?v] =>
    destruct (Z.ltb_spec p v); [rewrite (Hk k) by (cbn; lia); reflexivity|]
  end.

Lemma padd_width val :
  0 ≤ val < 2 ^ 31 → strlen (padd val) = if existsb (Z.eqb val) powers then 12 else 11.
Proof.
  intros Hv. destruct (existsb (Z.eqb val) powers) eqn:E.
  { apply existsb_exists in E as (p & Hp & ->%Z.eqb_eq). cbn in Hp. by repeat destruct Hp as [<-|Hp]. }
  cbn in E. assert (∀ k : nat, 10 ^ Z.of_nat k ≤ val < 10 ^ Z.of_nat (S k) → strlen (dec val) = Z.of_nat (S k)) as Hk.
  { intros k Hk. pose proof (strlen_dec_le k val). pose proof (strlen_dec_ge k val). lia. }
  unfold padd. rewrite strlen_app.
  row_of Hk 9%nat. row_of Hk 8%nat. row_of Hk 7%nat. row_of Hk 6%nat. row_of Hk 5%nat.
  row_of Hk 4%nat. row_of Hk 3%nat. row_of Hk 2%nat. row_of Hk 1%nat.
  replace (0 <=? val) with true by lia. by rewrite strlen_digit by lia.
Qed.
