(* ===== verification/Edu.v ===== *)
(** * edu_driver: registers of a PCI device as a file

    The kernel module [qemu_pci/edu_driver.c].  The device is a record of what
    reading and writing a register does; an access outside its region is
    undefined.  The answers of the PCI and interrupt interfaces are arguments,
    and the resources the driver holds are a list. *)

From S2P Require Import Prelude CLib.

Definition EFAULT : Z := 14.
Definition BAR : Z := 0.
Definition IO_IRQ_ACK : Z := 100.     (* 0x64 *)
Definition IO_IRQ_STATUS : Z := 36.   (* 0x24 *)

Record device := mk_device {
  dev : Type;
  reg_read : Z → dev → Z * dev;
  reg_write : Z → Z → dev → dev;
  bar_len : Z
}.

Section File.
Context (D : device).

Definition in_bar (off : Z) : bool := (0 <=? off) && (off + 4 <=? bar_len D).
Definition ioread32 (off : Z) (s : dev D) : res (Z * dev D) :=
  if in_bar off then Done (reg_read D off s) else Wild.
Definition iowrite32 (v off : Z) (s : dev D) : res (dev D) :=
  if in_bar off then Done (reg_write D off v s) else Wild.

(** [read]: the return value, the new offset, what reached the user, and the
    device; [copy_ok] tells whether [copy_to_user] worked. *)
Definition read (copy_ok : bool) (len off : Z) (s : dev D) : res (Z * Z * option Z * dev D) :=
  if negb (Z.rem off 4 =? 0) || (len =? 0) then Done (0, off, None, s)
  else
    '(kbuf, s) ← ioread32 off s;
    if negb copy_ok then Done (- EFAULT, off, None, s) else Done (4, off + 1, Some kbuf, s).

(** [write]: [user] are the four bytes at the buffer, if they can be read. *)
Definition write (user : option Z) (len off : Z) (s : dev D) : res (Z * dev D) :=
  if negb (Z.rem off 4 =? 0) then Done (len, s)
  else
    match user with
    | None => Done (- EFAULT, s)
    | Some kbuf =>
        if negb (len =? 4) then Done (- EFAULT, s)
        else s ← iowrite32 kbuf off s; Done (len, s)
    end.

Definition llseek (off f_pos : Z) : Z * Z := (off, off).

(** [irq_handler]: whether the interrupt was ours. *)
Definition irq_handler (devi major : Z) (s : dev D) : res (bool * dev D) :=
  if devi =? major then
    '(irq_status, s) ← ioread32 IO_IRQ_STATUS s;
    s ← iowrite32 irq_status IO_IRQ_ACK s;
    Done (true, s)
  else Done (false, s).

(** The registers printed at the end of [pci_probe]. *)
Definition show_registers (s : dev D) : res (dev D) :=
  foldm (fun i s => '(_, s) ← ioread32 i s; Done s) ((fun k => 4 * k) <$> seqZ 0 10) s.
End File.

(** ** Loading *)

Inductive resource := Chrdev | Enabled | Region | Mapped | Vectors | Irq.
#[export] Instance resource_eq_dec : EqDecision resource.
Proof. solve_decision. Defined.

Record pci_answers := mk_pci_answers {
  a_chrdev : Z; a_enable : Z; a_region : bool; a_map : bool; a_irq : Z; a_vectors : Z; a_mem : bool
}.

(** The set-up of interrupts for the module parameter [mode]: the resources,
    and whether it worked. *)
Definition setup_irq (mode : Z) (K : pci_answers) (h : list resource) : bool * list resource :=
  if mode =? 0 then
    if a_irq K <? 0 then (false, h) else (true, h ++ [Irq])
  else if mode =? 1 then
    if a_vectors K <? 0 then (false, h)
    else if a_irq K <? 0 then (false, h ++ [Vectors]) else (true, h ++ [Vectors; Irq])
  else (true, h).

Definition pci_probe (D : device) (mode : Z) (K : pci_answers) (s : dev D)
    : res (Z * list resource * dev D) :=
  let h := if a_chrdev K <? 0 then [] else [Chrdev] in
  if a_enable K <? 0 then Done (1, h, s)
  else if negb (a_region K) then Done (1, h ++ [Enabled], s)
  else
    let h := h ++ [Enabled; Region] in
    let h := if a_map K then h ++ [Mapped] else h in
    let '(ok, h) := setup_irq mode K h in
    if negb ok then Done (1, h, s)
    else if negb (a_mem K) then Done (1, h, s)
    else if negb (a_map K) then Wild
    else s ← show_registers D s; Done (0, h, s).

Definition pci_remove (mode : Z) (h : list resource) : list resource :=
  let freed := if mode =? 1 then [Vectors; Region; Chrdev] else [Region; Chrdev] in
  filter (fun r => r ∉ freed) h.

(** [myinit]: the value for the answer of [pci_register_driver]. *)
Definition myinit (registered : Z) : Z := if registered <? 0 then 1 else 0.

(** ** Properties *)

(** The file gives access to the registers: after seeking to the offset of a
    register, a write of four bytes stores them there, a read gets what the
    device answers and the next read ends the file without touching the device,
    as misaligned accesses do. *)
Theorem edu_register_session (D : device) pos v len (s : dev D) :
  0 ≤ pos → pos + 4 ≤ bar_len D → pos mod 4 = 0 → len ≠ 0 →
  let written := reg_write D pos v s in
  let '(answer, s') := reg_read D pos written in
  write D (Some v) 4 (fst (llseek pos 0)) s = Done (4, written) ∧
  read D true len (fst (llseek pos 0)) written = Done (4, pos + 1, Some answer, s') ∧
  (∀ ok len', read D ok len' (pos + 1) s' = Done (0, pos + 1, None, s')).
Proof.
  intros H0 Hb Ha Hl written. cbn [llseek fst].
  assert (Z.rem pos 4 = 0) as Hr by (by rewrite Z.rem_mod_nonneg by lia).
  assert (Z.rem (pos + 1) 4 = 1) as Hr'.
  { rewrite Z.rem_mod_nonneg by lia. rewrite <- Zplus_mod_idemp_l, Ha. done. }
  assert (in_bar D pos = true) as Hin by (unfold in_bar; lia).
  destruct (reg_read D pos written) as [answer s'] eqn:E. split_and!.
  - unfold write, iowrite32. by rewrite Hr, Hin.
  - unfold read, ioread32. rewrite Hr, Hin. replace (len =? 0) with false by lia. cbn [Z.eqb negb orb].
    by rewrite E.
  - intros ok len'. unfold read. by rewrite Hr'.
Qed.

(** A device of two registers that keep what is written, and a session. *)
Definition cells : device :=
  mk_device (Z * Z) (fun off s => (if off =? 0 then s.1 else s.2, s))
    (fun off v s => if off =? 0 then (v, s.2) else (s.1, v)) 8.
Lemma edu_register_session_witness :
  write cells (Some 99) 4 4 (1, 2) = Done (4, (1, 99)) ∧
  read cells true 4 4 (1, 99) = Done (4, 5, Some 99, (1, 99)).
Proof.
  pose proof (edu_register_session cells 4 99 4 (1, 2) ltac:(done) ltac:(done) eq_refl ltac:(done))
    as (H1 & H2 & _).
  exact (conj H1 H2).
Defined.

(** What loading and unloading leave behind: a failed [pci_probe] keeps all it
    acquired, and unloading keeps the device enabled, the mapping and the
    interrupt handler. *)
Theorem probe_remove_leaks (D : device) mode K (s s' : dev D) ret h :
  pci_probe D mode K s = Done (ret, h, s') →
  (ret = 0 ∨ ret = 1) ∧
  (0 ≤ a_chrdev K → Chrdev ∈ h) ∧
  (0 ≤ a_enable K → Enabled ∈ pci_remove mode h) ∧
  (ret = 0 → Mapped ∈ pci_remove mode h) ∧
  (ret = 0 → (mode = 0 ∨ mode = 1) → Irq ∈ pci_remove mode h) ∧
  Region ∉ pci_remove mode h ∧ Chrdev ∉ pci_remove mode h.
Proof.
  unfold pci_probe, setup_irq, pci_remove. intros E.
  repeat match type of E with
  | context [if ?b then _ else _] => destruct b eqn:?; cbn [negb] in E
  end; inv_done; try discriminate;
  (split_and!; intros; rewrite ?list_elem_of_filter;
   repeat match goal with |- context [if ?b then _ else _] => destruct b eqn:? end;
   try lia; try (set_solver || naive_solver lia)).
Qed.
