(* ===== verification/Taskinfo.v ===== *)
(** * taskinfo/taskinfo.c: a process and its threads through /proc

    The kernel module keeps the pid written to /proc/task_info/pid and prints, on
    reading /proc/task_info/taskinfo, that task and the rest of its thread group.
    The tasks are a heap of records linked by their [thread_group] nodes; a link
    or a parent that leads nowhere is [Wild].  References on pids and tasks that
    are taken and never given back are counted. *)

From S2P Require Import Prelude CLib.
From stdpp Require Import gmap.
Local Open Scope Z_scope.

Definition EINVAL : Z := 22.
Definition INVALID_PID : Z := -1.

Record mm_struct := Mm {
  start_code : Z; end_code : Z; start_data : Z; end_data : Z; start_brk : Z; brk : Z; start_stack : Z;
}.
(** [parent] and [thread_group]: the addresses of the parent and of the task whose
    node follows in the list of the thread group. *)
Record task_struct := Task {
  comm : string; pid : Z; parent : Z; state : Z; exit_state : Z; prio : Z; policy : Z;
  mm : option mm_struct; run_delay : Z; utime : Z; stime : Z; start_time : Z; thread_group : Z;
}.

(** The kernel: its tasks, the mask TASK_REPORT of its version, whether it knows
    a pid and which task has it. *)
Record kernel := Kernel {
  tasks : gmap Z task_struct;
  TASK_REPORT : Z;
  known_pid : Z → bool;
  pid_task : Z → option Z;
}.

(** struct task_info, and the references held. *)
Record task_info := TaskInfo { info_pid : Z; pid_refs : Z; task_refs : Z }.
#[export] Instance task_info_eta : Eta task_info := fun i => TaskInfo (info_pid i) (pid_refs i) (task_refs i).
Definition tsk_info : task_info := TaskInfo INVALID_PID 0 0.

Definition task_state_array : list string :=
  ["R (running)"; "S (sleeping)"; "D (disk sleep)"; "T (stopped)"; "T (tracing stop)"; "Z (zombie)"; "X (dead)"].

Section module.
Context (K : kernel).

Definition deref (a : Z) : res task_struct := from_opt (tasks K !! a).

(** The loop of get_task_state, over an unsigned int. *)
Fixpoint advance (n : nat) (state p : Z) : Z :=
  match n with
  | O => p
  | S n => if state =? 0 then p else advance n (Z.shiftr state 1) (p + 1)
  end.
Definition get_task_state (tsk : task_struct) : res string :=
  let state := u32 (Z.lor (Z.land (state tsk) (TASK_REPORT K)) (exit_state tsk)) in
  aget task_state_array (advance 32 state 0).

Definition get_task_mm (m : option mm_struct) (field : mm_struct → Z) : Z :=
  match m with Some m => u64 (field m) | None => 0 end.

(** "0x%-8.8lx". *)
Definition addr (z : Z) : string := "0x" +:+ padr 8 (padl "0" 8 (hex z)).
Definition addr_pair (m : option mm_struct) (f g : mm_struct → Z) : string :=
  addr (get_task_mm m f) +:+ "~" +:+ addr (get_task_mm m g).

(** The columns both listings start with. *)
Definition task_columns (t : task_struct) : res string :=
  p ← deref (parent t);
  st ← get_task_state t;
  Done (padr 18 (comm t) +:+ padr 8 (dec (pid t)) +:+ padr 8 (dec (pid p)) +:+ padr 15 st
        +:+ padr 5 (dec (prio t)) +:+ padr 5 (dec (policy t))).

Definition print_info (t : task_struct) : res string :=
  c ← task_columns t;
  let m := mm t in
  Done (c +:+ " " +:+ addr_pair m start_code end_code +:+ " " +:+ addr_pair m start_data end_data
        +:+ " " +:+ addr_pair m start_brk brk +:+ " " +:+ addr (get_task_mm m start_stack) +:+ " "
        +:+ padr 15 (dec (run_delay t)) +:+ padr 15 (dec (utime t)) +:+ padr 15 (dec (stime t))
        +:+ padl " " 15 (dec (start_time t)) +:+ nl).

(** taskall_init's line for a process. *)
Definition taskall_line (t : task_struct) : res string :=
  c ← task_columns t;
  let m := mm t in
  Done (c +:+ addr_pair m start_code end_code +:+ "  " +:+ addr_pair m start_data end_data
        +:+ "  " +:+ addr_pair m start_brk brk +:+ "  " +:+ addr (get_task_mm m start_stack)
        +:+ dec (i64 (run_delay t)) +:+ nl).
Fixpoint taskall_lines (procs : list Z) : res string :=
  match procs with
  | [] => Done ""
  | a :: procs => t ← deref a; l ← taskall_line t; ls ← taskall_lines procs; Done (l +:+ ls)
  end.
(** [current]: the pid of the current task; [procs]: the processes. *)
Definition taskall_init (current : Z) (procs : list Z) : res (Z * string) :=
  ls ← taskall_lines procs;
  Done (0, "task all enter" +:+ nl +:+ "this " +:+ dec current +:+ nl
           +:+ "TASK NAME       PID   PPID    STATE       NICE POLICY   CODE     DATA    BANK    STACK" +:+ nl +:+ ls).

Definition pid_show (info : task_info) : string := dec (info_pid info) +:+ nl.

(** [parsed] is what kstrtoint_from_user makes of the text. *)
Definition pid_store (parsed : option Z) (count : Z) (info : task_info) : Z * task_info :=
  match parsed with
  | None => (- EINVAL, info)
  | Some pid => (count, info <| info_pid := pid |>)
  end.

(** list_for_each: from the node at [pos] until the one at [head]. *)
Fixpoint threads (fuel : nat) (head pos : Z) : res (option string) :=
  if pos =? head then Done (Some "")
  else
    match fuel with
    | O => Done None
    | S fuel =>
        t ← deref pos;
        line ← print_info t;
        o ← threads fuel head (thread_group t);
        Done (option_map (append line) o)
    end.

(** What a reading does: the text of the file, the kernel's log, the return
    value ([None]: the end of the function is reached without a return), and the
    references. *)
Record shown := Shown { seq : string; log : string; ret : option Z; info_after : task_info }.

Definition taskinfo_show (fuel : nat) (info : task_info) : res (option shown) :=
  let found := known_pid K (info_pid info) in
  let info := if found then info <| pid_refs := pid_refs info + 1 |> else info in
  match (if found then pid_task K (info_pid info) else None) with
  | None => Done (Some (Shown "" ("No process found!" +:+ nl) (Some 0) info))
  | Some a =>
      let info := info <| task_refs := task_refs info + 1 |> in
      ptask ← deref a;
      line ← print_info ptask;
      o ← threads fuel a (thread_group ptask);
      Done (option_map (fun rest => Shown (line +:+ rest) "" None info) o)
  end.
End module.

(** ** Loading *)

(** remove_proc_subtree("task_info", NULL). *)
Definition in_subtree (path : string) : bool := (path =? "task_info")%string || String.prefix "task_info/" path.
Definition remove_task_info (files : list string) : list string := List.filter (fun f => negb (in_subtree f)) files.

(** proc_create_data below [parent_dir], which is the root when mkdir failed. *)
Definition proc_create (mkdir_ok : bool) (name : string) (files : list string) : list string :=
  (if mkdir_ok then "task_info/" +:+ name else name) :: files.

(** The return value ([None]: none is given) and the files of /proc. *)
Definition taskinfo_init (mkdir_ok pid_ok taskinfo_ok : bool) (files : list string) : option Z * list string :=
  let files := if mkdir_ok then "task_info" :: files else files in
  if negb pid_ok then (None, remove_task_info files)
  else
    let files := proc_create mkdir_ok "pid" files in
    if negb taskinfo_ok then (None, remove_task_info files)
    else (Some 0, proc_create mkdir_ok "taskinfo" files).

Definition taskinfo_exit (files : list string) : list string * string :=
  (remove_task_info files, "taskinfo exit" +:+ nl).

(** ** The state column *)

Lemma advance_log2 n : ∀ s p, 0 ≤ s < 2 ^ Z.of_nat n →
  advance n s p = p + if s =? 0 then 0 else Z.log2 s + 1.
Proof.
  induction n as [|n IH]; intros s p Hs; cbn [advance].
  - change (2 ^ Z.of_nat 0) with 1 in Hs. replace (s =? 0) with true by lia. lia.
  - destruct (Z.eqb_spec s 0) as [|Hz]; [lia|]. rewrite Nat2Z.inj_succ, Z.pow_succ_r in Hs by lia.
    rewrite Z.shiftr_div_pow2 by lia. change (2 ^ 1) with 2.
    rewrite IH by (split; [apply Z.div_pos; lia|apply Z.div_lt_upper_bound; lia]).
    destruct (Z.eqb_spec (s / 2) 0) as [E|E].
    + assert (s = 1) as -> by (pose proof (Z.div_mod s 2 ltac:(lia)); pose proof (Z.mod_pos_bound s 2 ltac:(lia)); lia).
      cbn. lia.
    + replace (s / 2) with (Z.shiftr s 1) by (by rewrite Z.shiftr_div_pow2).
      rewrite Z.log2_shiftr by lia. pose proof (Z.log2_nonneg (Z.shiftr s 1)).
      assert (1 ≤ Z.log2 s); [|lia]. apply Z.log2_le_pow2; [lia|].
      destruct (Z.eq_dec s 1) as [->|]; [done|]. lia.
Qed.

(** The bits a kernel reports of a task. *)
Definition reported (K : kernel) (t : task_struct) : Z :=
  Z.lor (Z.land (state t) (TASK_REPORT K)) (exit_state t).

(** The name is that of the highest bit, as long as it is one of six. *)
Lemma get_task_state_name K t :
  0 ≤ reported K t < 64 →
  ∃ name, get_task_state K t = Done name
    ∧ task_state_array !! Z.to_nat (if reported K t =? 0 then 0 else Z.log2 (reported K t) + 1) = Some name.
Proof.
  intros H. unfold get_task_state. fold (reported K t). rewrite u32_small, advance_log2 by (cbn; lia). rewrite Z.add_0_l.
  set (i := if _ =? 0 then _ else _).
  assert (0 ≤ i < zlen task_state_array) as Hi.
  { unfold i. change (zlen task_state_array) with 7. destruct (Z.eqb_spec (reported K t) 0); [lia|].
    pose proof (Z.log2_nonneg (reported K t)). assert (Z.log2 (reported K t) < 6); [|lia]. apply Z.log2_lt_pow2; lia. }
  destruct (aget_in task_state_array i Hi) as (x & Hx). exists x. split; [done|].
  by apply aget_done in Hx as [_ Hx].
Qed.

(** From Linux 4.14 on TASK_REPORT has a seventh bit, TASK_PARKED: a parked
    thread reads the pointer behind the array. *)
Lemma parked_reads_behind K t :
  reported K t = 64 → get_task_state K t = Wild.
Proof. intros H. unfold get_task_state. fold (reported K t). by rewrite H. Qed.

(** ** The thread group *)

(** A task whose line can be printed. *)
Definition printable (K : kernel) (a : Z) : Prop :=
  ∃ t, tasks K !! a = Some t ∧ is_Some (tasks K !! parent t) ∧ 0 ≤ reported K t < 64.

Lemma print_info_line K a :
  printable K a → ∃ t line, tasks K !! a = Some t ∧ print_info K t = Done line.
Proof.
  intros (t & Ht & (p & Hp) & Hr). exists t.
  destruct (get_task_state_name K t Hr) as (name & Hn & _).
  unfold print_info, task_columns, deref. rewrite Hp, Hn. eauto.
Qed.

(** The nodes [l] from the one at [from], up to the one at [to]. *)
Fixpoint chain (K : kernel) (from : Z) (l : list Z) (to : Z) : Prop :=
  match l with
  | [] => from = to
  | x :: l => from = x ∧ ∃ t, tasks K !! x = Some t ∧ chain K (thread_group t) l to
  end.
(** The group of [a]: a circle through [a] and the other threads [l]. *)
Definition group (K : kernel) (a : Z) (l : list Z) : Prop :=
  a ∉ l ∧ ∃ t, tasks K !! a = Some t ∧ chain K (thread_group t) l a.

Definition line_at (K : kernel) (a : Z) (line : string) : Prop :=
  ∃ t, tasks K !! a = Some t ∧ print_info K t = Done line.

Lemma threads_chain K head l : ∀ fuel pos,
  head ∉ l → Forall (printable K) l → chain K pos l head → (length l ≤ fuel)%nat →
  ∃ lines, Forall2 (line_at K) l lines ∧ threads K fuel head pos = Done (Some (texts id lines)).
Proof.
  induction l as [|x l IH]; intros fuel pos Hh Hp Hc Hf.
  - cbn in Hc. subst. exists []. split; [constructor|]. destruct fuel; cbn; by rewrite Z.eqb_refl.
  - apply Forall_cons in Hp as [Hx Hp]. apply not_elem_of_cons in Hh as [Hn Hh].
    destruct Hc as (-> & t & Ht & Hc). destruct (print_info_line K x Hx) as (t' & line & Ht' & Hl).
    rewrite Ht in Ht'. injection Ht' as <-. destruct fuel as [|fuel]; [cbn in Hf; lia|].
    destruct (IH fuel (thread_group t)) as (lines & Hls & E); [done..|cbn in Hf; lia|].
    exists (line :: lines). split; [constructor; [by exists t|done]|].
    cbn [threads]. rewrite (proj2 (Z.eqb_neq x head)) by congruence. unfold deref. rewrite Ht. cbn [from_opt mbind res_bind].
    by rewrite Hl, E.
Qed.

(** C33: reading taskinfo lists the task of the pid that was written and then every
    other thread of its group, each once; a pid without a task gives an empty
    file and a line in the log.  The state column is found inside its array when
    the kernel reports at most six state bits.  Every reading of a living task
    keeps one more reference on the pid and on the task, and the function then
    ends without giving a value. *)
Theorem taskinfo_lists_group K fuel info nr count a l :
  known_pid K nr = true → pid_task K nr = Some a → group K a l → Forall (printable K) (a :: l) →
  (length l ≤ fuel)%nat →
  let '(rc, info1) := pid_store (Some nr) count info in
  rc = count ∧ pid_show info1 = dec nr +:+ nl
  ∧ ∃ lines, Forall2 (line_at K) (a :: l) lines
    ∧ taskinfo_show K fuel info1
      = Done (Some (Shown (texts id lines) "" None (TaskInfo nr (pid_refs info + 1) (task_refs info + 1)))).
Proof.
  intros Hk Hpt (Ha & t & Ht & Hc) Hp Hf. cbn [pid_store]. split; [done|]. split; [done|].
  apply Forall_cons in Hp as [Hpa Hp]. destruct (print_info_line K a Hpa) as (t' & line & Ht' & Hl).
  rewrite Ht in Ht'. injection Ht' as <-.
  destruct (threads_chain K a l fuel (thread_group t)) as (lines & Hls & E); [done..|].
  exists (line :: lines). split; [constructor; [by exists t|done]|].
  unfold taskinfo_show. cbn. rewrite Hk. cbn. rewrite Hpt. unfold deref. rewrite Ht. cbn [from_opt mbind res_bind].
  by rewrite Hl, E.
Qed.

(** Two threads, 100 and 101, and their parent. *)
Definition small_task (nr par next st : Z) : task_struct :=
  Task "sh" nr par st 0 120 0 None 5 1 2 3 next.
Definition small_kernel : kernel :=
  Kernel (<[100 := small_task 100 1 101 0]> (<[101 := small_task 101 1 100 1]> {[1 := small_task 1 1 1 2]}))
    63 (fun nr => nr =? 100) (fun nr => if nr =? 100 then Some 100 else None).

Lemma taskinfo_lists_group_witness :
  ∃ lines, Forall2 (line_at small_kernel) [100; 101] lines
    ∧ taskinfo_show small_kernel 1 (TaskInfo 100 0 0) = Done (Some (Shown (texts id lines) "" None (TaskInfo 100 1 1))).
Proof.
  destruct (taskinfo_lists_group small_kernel 1 tsk_info 100 4 100 [101]) as (_ & _ & H); [done|done| | |cbn; lia|exact H].
  - split; [intros [|[]%elem_of_nil]%elem_of_cons; lia|]. exists (small_task 100 1 101 0). split; [done|].
    split; [done|]. by exists (small_task 101 1 100 1).
  - apply Forall_cons. split; [|apply Forall_cons; split; [|constructor]]; eexists; (split; [reflexivity|]); (split; [by eexists|]); vm_compute; split; congruence.
Defined.

(** ** A task that leaves its group *)

(** The list is walked without a lock.  When the task has been unhashed, its node
    still points into the group but no node of the group points to it: the loop
    does not end. *)
Lemma removed_task_loops K head r fuel : ∀ pos,
  head ∉ r → Forall (printable K) r →
  (∀ x t, x ∈ r → tasks K !! x = Some t → thread_group t ∈ r) →
  pos ∈ r → threads K fuel head pos = Done None.
Proof.
  induction fuel as [|fuel IH]; intros pos Hh Hp Hr Hpos.
  - cbn. by rewrite (proj2 (Z.eqb_neq pos head)) by congruence.
  - cbn. rewrite (proj2 (Z.eqb_neq pos head)) by congruence.
    assert (printable K pos) as Hx by (by eapply Forall_forall in Hp).
    destruct (print_info_line K pos Hx) as (t & line & Ht & Hl). unfold deref. rewrite Ht. cbn [from_opt mbind res_bind].
    rewrite Hl. cbn [mbind res_bind]. by rewrite IH by eauto.
Qed.

(** ** Loading and unloading *)

Lemma remove_task_info_clean files : Forall (fun f => in_subtree f = false) files → remove_task_info files = files.
Proof. induction 1 as [|f files H _ IH]; [done|]. cbn. rewrite H. cbn. by f_equal. Qed.

(** With the directory, what init adds exit takes away, also when a file could
    not be created. *)
Lemma taskinfo_unload pid_ok taskinfo_ok files :
  Forall (fun f => in_subtree f = false) files →
  fst (taskinfo_exit (snd (taskinfo_init true pid_ok taskinfo_ok files))) = files.
Proof.
  intros H. pose proof (remove_task_info_clean files H) as E.
  unfold remove_task_info in E. destruct pid_ok, taskinfo_ok; cbn; by rewrite !E.
Qed.

(** Without it the files are created in /proc itself, and stay behind. *)
Lemma mkdir_failure_leaves_files :
  fst (taskinfo_exit (snd (taskinfo_init false true true []))) = ["taskinfo"; "pid"].
Proof. reflexivity. Qed.
