(* ===== verification/LockThreads.v ===== *)
(** * lock/mutex/mutex.c and lock/semaphore/semaphore.c: two threads and a counter

    Both modules start two kernel threads that increase a common counter under a
    lock and print it, and stop them on unloading.  The threads and the module
    are programs with a program counter each; a step of any of them is a step of
    the system.  The increment is two steps, a load and a store, so that without
    the lock updates would be lost.  A mutex and a semaphore that starts at 1 are
    the same lock here; [down_interruptible] can also fail. *)

From S2P Require Import Prelude CLib.

(** Where a thread is.  [Absent]: it does not exist; [Fresh]: it was created and
    has not run yet. *)
Inductive tpc :=
| Absent | Fresh | Test | Locking | Load | Store (v : Z) | Print | Sleep | Unlock | Stopping | Exited.
Inductive who := T1 | T2.
#[export] Instance who_eq : EqDecision who.
Proof. solve_decision. Defined.

(** What kthread_run or kthread_create returned; a failure is an ERR_PTR, which is
    not NULL. *)
Inductive ptr := Unset | Thread | ErrPtr.

(** Where the module is: the two halves of init_thread, loaded, the two calls of
    kthread_stop (each sets the flag and waits), and unloaded.  [Oops]:
    kthread_stop was called on a pointer that is not a thread. *)
Inductive mpc := Init1 | Init2 | Loaded | Stop1 | Wait1 | Stop2 | Wait2 | Unloaded | Oops.

Record sys := Sys {
  pc : who → tpc;
  stop : who → bool;         (* kthread_should_stop *)
  holder : option who;       (* of my_mutex, or of my_sem *)
  counter : Z;
  module : mpc;
  threads : who → ptr;       (* thread1 and thread2 *)
  log : list (who * Z);      (* the lines "Thread<n> Running <counter>" *)
}.
#[export] Instance sys_eta : Eta sys :=
  fun s => Sys (pc s) (stop s) (holder s) (counter s) (module s) (threads s) (log s).

Definition set {A} (f : who → A) (i : who) (a : A) : who → A := fun j => if decide (j = i) then a else f j.
Definition goes (s : sys) (i : who) (p : tpc) : sys := s <| pc := set (pc s) i p |>.

Definition start : sys := Sys (fun _ => Absent) (fun _ => false) None 0 Init1 (fun _ => Unset) [].

(** One step of thread_fn1 or thread_fn2; [signals]: the lock can be interrupted
    (semaphore.c). *)
Inductive thread_step (signals : bool) (i : who) : sys → sys → Prop :=
| t_begin s : pc s i = Fresh → thread_step signals i s (goes s i Test)
| t_never s : pc s i = Fresh → stop s i = true → thread_step signals i s (goes s i Exited)
| t_test s : pc s i = Test → thread_step signals i s (goes s i (if stop s i then Stopping else Locking))
| t_lock s : pc s i = Locking → holder s = None → thread_step signals i s (goes (s <| holder := Some i |>) i Load)
| t_intr s : pc s i = Locking → signals = true → thread_step signals i s (goes s i Stopping)
| t_load s : pc s i = Load → thread_step signals i s (goes s i (Store (counter s)))
| t_store s v : pc s i = Store v → thread_step signals i s (goes (s <| counter := i32 (v + 1) |>) i Print)
| t_print s : pc s i = Print → thread_step signals i s (goes (s <| log := log s ++ [(i, counter s)] |>) i Sleep)
| t_sleep s : pc s i = Sleep → thread_step signals i s (goes s i Unlock)
| t_unlock s : pc s i = Unlock → thread_step signals i s (goes (s <| holder := None |>) i Test)
| t_exit s : pc s i = Stopping → thread_step signals i s (goes s i Exited).

(** kthread_run, or kthread_create and wake_up_process, for thread [i]. *)
Definition create (ok : bool) (i : who) (next : mpc) (s : sys) : sys :=
  let s := s <| module := next |> <| threads := set (threads s) i (if ok then Thread else ErrPtr) |> in
  if ok then goes s i Fresh else s.

(** [if (thread) kthread_stop(thread)], up to the wait. *)
Definition stop_thread (i : who) (wait skip : mpc) (s : sys) : sys :=
  match threads s i with
  | Unset => s <| module := skip |>
  | ErrPtr => s <| module := Oops |>
  | Thread => s <| stop := set (stop s) i true |> <| module := wait |>
  end.

(** One step of init_thread or cleanup_thread. *)
Inductive module_step : sys → sys → Prop :=
| m_init1 ok s : module s = Init1 → module_step s (create ok T1 Init2 s)
| m_init2 ok s : module s = Init2 → module_step s (create ok T2 Loaded s)
| m_unload s : module s = Loaded → module_step s (s <| module := Stop1 |>)
| m_stop1 s : module s = Stop1 → module_step s (stop_thread T1 Wait1 Stop2 s)
| m_wait1 s : module s = Wait1 → pc s T1 = Exited → module_step s (s <| module := Stop2 |>)
| m_stop2 s : module s = Stop2 → module_step s (stop_thread T2 Wait2 Unloaded s)
| m_wait2 s : module s = Wait2 → pc s T2 = Exited → module_step s (s <| module := Unloaded |>).

Inductive step (signals : bool) (s s' : sys) : Prop :=
| step_thread i : thread_step signals i s s' → step signals s s'
| step_module : module_step s s' → step signals s s'.

Definition reachable (signals : bool) : sys → Prop := rtc (step signals) start.

(** ** The invariant *)

(** Between taking and releasing the lock. *)
Definition critical (p : tpc) : bool :=
  match p with Load | Store _ | Print | Sleep | Unlock => true | _ => false end.
(** The numbers printed. *)
Definition printed (s : sys) : list Z := snd <$> log s.
(** The increments done: one of them may not be printed yet. *)
Definition pending (s : sys) : Z := match holder s with Some i => match pc s i with Print => 1 | _ => 0 end | None => 0 end.

(** A thread the module has waited for, and one it has tried to create. *)
Definition waited_by (m : mpc) (i : who) : bool :=
  match m, i with Stop2, T1 | Wait2, T1 | Unloaded, _ => true | _, _ => false end.
Definition created_by (m : mpc) (i : who) : bool :=
  match m, i with Init1, _ | Init2, T2 => false | _, _ => true end.
(** The thread whose exit kthread_stop waits for. *)
Definition waiting_for (m : mpc) : option who := match m with Wait1 => Some T1 | Wait2 => Some T2 | _ => None end.

Record inv (s : sys) : Prop := Inv {
  inv_lock : ∀ i, critical (pc s i) = true ↔ holder s = Some i;
  inv_store : ∀ i v, pc s i = Store v → v = counter s;
  inv_counter : counter s = i32 (zlen (log s) + pending s);
  inv_printed : printed s = (fun k => i32 k) <$> seqZ 1 (zlen (log s));
  inv_waited : ∀ i, waited_by (module s) i = true → pc s i = Exited ∨ pc s i = Absent;
  inv_absent : ∀ i, pc s i = Absent ↔ threads s i ≠ Thread;
  inv_unset : ∀ i, threads s i = Unset ↔ created_by (module s) i = false;
  inv_waiting : ∀ i, waiting_for (module s) = Some i → threads s i = Thread ∧ stop s i = true;
}.

Lemma i32_succ a : i32 (i32 a + 1) = i32 (a + 1).
Proof.
  unfold swrap. f_equal. replace (_ - 2 ^ (32 - 1) + 1 + 2 ^ (32 - 1)) with ((a + 2 ^ (32 - 1)) mod 2 ^ 32 + 1) by lia.
  rewrite Zplus_mod_idemp_l. f_equal. lia.
Qed.

Lemma set_same {A} (f : who → A) i a : set f i a i = a.
Proof. unfold set. by rewrite decide_True. Qed.
Lemma set_other {A} (f : who → A) i j a : j ≠ i → set f i a j = f j.
Proof. intros. unfold set. by rewrite decide_False. Qed.

(** A thread that is not in the critical section does not print. *)
Lemma pending_spec s i : inv s → holder s = Some i → pending s = match pc s i with Print => 1 | _ => 0 end.
Proof. intros _ H. unfold pending. by rewrite H. Qed.

(** Moving thread [i] from [pc s i] to [p] keeps the parts of the invariant that
    do not depend on what else the step does. *)
Lemma inv_goes s i p h c l :
  inv s → pc s i ≠ Absent → pc s i ≠ Exited → p ≠ Absent →
  (critical p = true ↔ h = Some i) → (∀ j, j ≠ i → holder s = Some j ↔ h = Some j) →
  (∀ v, p = Store v → v = c) → (∀ j v, j ≠ i → pc s j = Store v → v = c) →
  c = i32 (zlen l + match h with Some j => match set (pc s) i p j with Print => 1 | _ => 0 end | None => 0 end) →
  snd <$> l = (fun k => i32 k) <$> seqZ 1 (zlen l) →
  inv (goes (s <| holder := h |> <| counter := c |> <| log := l |>) i p).
Proof.
  intros [] Ha He Hp Hc Hh Hv Hw Hcnt Hl. constructor; cbn; try done.
  - intros j. destruct (decide (j = i)) as [->|Hj]; [by rewrite set_same|]. rewrite set_other by done.
    rewrite inv_lock0. by apply Hh.
  - intros j v. destruct (decide (j = i)) as [->|Hj]; [rewrite set_same|rewrite set_other by done]; eauto.
  - intros j Hm. destruct (decide (j = i)) as [->|Hj]; [|rewrite set_other by done; auto].
    destruct (inv_waited0 i Hm); contradiction.
  - intros j. destruct (decide (j = i)) as [->|Hj]; [|rewrite set_other by done; auto]. rewrite set_same.
    rewrite <- inv_absent0. by split.
Qed.

(** The number of unprinted increments when [i] moves from and to other places
    than the print. *)
Lemma pending_other s i p :
  pc s i ≠ Print → p ≠ Print →
  match holder s with Some j => match set (pc s) i p j with Print => 1 | _ => 0 end | None => 0 end = pending s.
Proof.
  intros H1 H2. unfold pending. destruct (holder s) as [j|]; [|done].
  destruct (decide (j = i)) as [->|Hj]; [rewrite set_same|by rewrite set_other].
  destruct p, (pc s i); congruence.
Qed.

(** A step that changes nothing but the place of the thread. *)
Lemma inv_moves s i p :
  inv s → pc s i ≠ Absent → pc s i ≠ Exited → p ≠ Absent → pc s i ≠ Print → p ≠ Print →
  critical p = critical (pc s i) → (∀ v, p = Store v → v = counter s) → inv (goes s i p).
Proof.
  intros Hi Ha He Hp H1 H2 Hc Hv. pose proof (inv_goes s i p (holder s) (counter s) (log s) Hi Ha He Hp) as H.
  destruct Hi. cbn in *. apply H; try done.
  - by rewrite Hc.
  - intros j v _. apply inv_store0.
  - by rewrite pending_other.
Qed.

Lemma holder_of s i : inv s → critical (pc s i) = true → holder s = Some i.
Proof. intros Hi. apply (inv_lock _ Hi). Qed.

(** Only the holder is between load and print. *)
Lemma alone s i j v : inv s → holder s = Some i → j ≠ i → pc s j ≠ Store v.
Proof.
  intros Hi Hh Hj E. assert (holder s = Some j) by (apply holder_of; [done|by rewrite E]). congruence.
Qed.

Lemma inv_thread signals i s s' : thread_step signals i s s' → inv s → inv s'.
Proof.
  intros Hs Hi. pose proof Hi as Hi'. destruct Hi'.
  destruct Hs as [s Hp|s Hp _|s Hp|s Hp Hn|s Hp _|s Hp|s v Hp|s Hp|s Hp|s Hp|s Hp].
  all: try (apply inv_moves; rewrite ?Hp; try done; try (by destruct (stop s i)); congruence).
  - (* lock *) pose proof (inv_goes s i Load (Some i) (counter s) (log s) Hi) as H. rewrite Hp in H. apply H; try done.
    + intros j Hj. rewrite Hn. split; congruence.
    + intros j v _. apply inv_store0.
    + rewrite set_same. unfold pending in inv_counter0. by rewrite Hn in inv_counter0.
  - (* store *) assert (holder s = Some i) as Hh by (apply holder_of; [done|by rewrite Hp]).
    pose proof (inv_goes s i Print (holder s) (i32 (v + 1)) (log s) Hi) as H. rewrite Hp in H. apply H; try done.
    + intros j w Hj E. by destruct (alone s i j w Hi Hh Hj).
    + rewrite Hh, set_same, (inv_store0 _ _ Hp), inv_counter0, (pending_spec s i Hi Hh), Hp, i32_succ. f_equal. lia.
  - (* print *) assert (holder s = Some i) as Hh by (apply holder_of; [done|by rewrite Hp]).
    pose proof (inv_goes s i Sleep (holder s) (counter s) (log s ++ [(i, counter s)]) Hi) as H. rewrite Hp in H.
    rewrite (pending_spec s i Hi Hh), Hp in inv_counter0. apply H; try done.
    + intros j w Hj E. by destruct (alone s i j w Hi Hh Hj).
    + rewrite Hh, set_same, zlen_app. rewrite inv_counter0. f_equal. unfold zlen. cbn. lia.
    + rewrite fmap_app, zlen_app. change (zlen [(i, counter s)]) with 1. pose proof (zlen_nonneg (log s)).
      rewrite seqZ_app, fmap_app by lia. f_equal; [exact inv_printed0|].
      change ([counter s] = [i32 (0 + (1 + zlen (log s)))]).
      rewrite inv_counter0. by replace (0 + (1 + zlen (log s))) with (zlen (log s) + 1) by lia.
  - (* unlock *) assert (holder s = Some i) as Hh by (apply holder_of; [done|by rewrite Hp]).
    pose proof (inv_goes s i Test None (counter s) (log s) Hi) as H. rewrite Hp in H. apply H; try done.
    + intros j Hj. rewrite Hh. split; congruence.
    + intros j w Hj E. by destruct (alone s i j w Hi Hh Hj).
    + by rewrite (pending_spec s i Hi Hh), Hp in inv_counter0.
Qed.

(** ** The module *)

Lemma inv_start : inv start.
Proof. constructor; try done; intros []; done. Qed.

Lemma inv_create ok i next s :
  inv s → threads s i = Unset → (∀ j, created_by next j = if decide (j = i) then true else created_by (module s) j) →
  (∀ j, waited_by next j = false) → waiting_for next = None → inv (create ok i next s).
Proof.
  intros [] Hu Hc Hw Hf. assert (pc s i = Absent) as Ha by (apply inv_absent0; congruence).
  assert (holder s ≠ Some i) as Hh by (rewrite <- inv_lock0, Ha; done).
  assert (∀ j, set (threads s) i (if ok then Thread else ErrPtr) j = Unset ↔ created_by next j = false) as Hun.
  { intros j. rewrite Hc. destruct (decide (j = i)) as [->|Hj]; [rewrite set_same|rewrite set_other by done; apply inv_unset0].
    by destruct ok. }
  unfold create. destruct ok; constructor; cbn; try done; try (intros j; by rewrite Hf).
  - intros j. destruct (decide (j = i)) as [->|Hj]; [rewrite set_same|rewrite set_other by done; apply inv_lock0]. by split.
  - intros j v. destruct (decide (j = i)) as [->|Hj]; [by rewrite set_same|rewrite set_other by done; apply inv_store0].
  - rewrite inv_counter0. f_equal. f_equal. symmetry. apply (pending_other s); [by rewrite Ha|done].
  - intros j. by rewrite Hw.
  - intros j. destruct (decide (j = i)) as [->|Hj]; [rewrite !set_same|rewrite !set_other by done; apply inv_absent0].
    split; congruence.
  - intros j. by rewrite Hw.
  - intros j. destruct (decide (j = i)) as [->|Hj]; [rewrite !set_same|rewrite !set_other by done; apply inv_absent0].
    by rewrite Ha.
Qed.

(** A step of the module that leaves threads, lock, counter and log alone. *)
Lemma inv_at s m f :
  inv s → (∀ i, waited_by m i = true → waited_by (module s) i = true ∨ pc s i = Exited ∨ pc s i = Absent) →
  (∀ i, created_by m i = created_by (module s) i) →
  (∀ i, waiting_for m = Some i → threads s i = Thread ∧ f i = true) → inv (s <| stop := f |> <| module := m |>).
Proof.
  intros [] Hw Hc Hf. constructor; cbn; try done.
  - intros i H. destruct (Hw i H) as [H'|H']; auto.
  - intros i. by rewrite Hc.
Qed.

Lemma inv_module s s' : module_step s s' → inv s → inv s'.
Proof.
  intros Hs Hi. pose proof (inv_at s) as Hat. pose proof Hi as Hi'. destruct Hi'.
  destruct Hs as [ok s Hm|ok s Hm|s Hm|s Hm|s Hm Hx|s Hm|s Hm Hx].
  - apply inv_create; [done|apply inv_unset0; by rewrite Hm| |done..]. intros []; by rewrite Hm.
  - apply inv_create; [done|apply inv_unset0; by rewrite Hm| |by intros []|done]. intros []; by rewrite Hm.
  - apply (Hat Stop1 (stop s)); [done|by intros []|by intros []; rewrite Hm|done].
  - assert (threads s T1 ≠ Unset) as Hu by (intros E%inv_unset0; by rewrite Hm in E).
    unfold stop_thread. destruct (threads s T1) eqn:E; [done| |].
    + apply (Hat Wait1); [done|by intros []|by intros []; rewrite Hm|by intros ? [= <-]; rewrite set_same].
    + apply (Hat Oops (stop s)); [done|by intros []|by intros []; rewrite Hm|done].
  - apply (Hat Stop2 (stop s)); [done|intros []; rewrite ?Hx; auto; done|by intros []; rewrite Hm|done].
  - assert (threads s T2 ≠ Unset) as Hu by (intros E%inv_unset0; by rewrite Hm in E).
    unfold stop_thread. destruct (threads s T2) eqn:E; [done| |].
    + apply (Hat Wait2); [done|intros []; rewrite Hm; auto|by intros []; rewrite Hm|by intros ? [= <-]; rewrite set_same].
    + apply (Hat Oops (stop s)); [done|by intros []|by intros []; rewrite Hm|done].
  - apply (Hat Unloaded (stop s)); [done|intros []; rewrite ?Hm, ?Hx; auto|by intros []; rewrite Hm|done].
Qed.

Lemma inv_reachable signals s : reachable signals s → inv s.
Proof.
  intros H. assert (inv start) as H0 by apply inv_start. unfold reachable in H.
  induction H as [|s1 s2 s3 [i Hs|Hs] _ IH]; [done|apply IH; by eapply inv_thread|apply IH; by eapply inv_module].
Qed.

(** ** Unloading *)

(** [s'] differs from [s] by the place of thread [i], the lock, the counter and
    the log only. *)
Definition only (i : who) (s s' : sys) : Prop :=
  stop s' = stop s ∧ module s' = module s ∧ threads s' = threads s ∧ ∀ j, j ≠ i → pc s' j = pc s j.

Definition can (signals : bool) (i : who) (s : sys) (P : sys → Prop) : Prop :=
  ∃ s', rtc (step signals) s s' ∧ only i s s' ∧ P s'.

Lemma can_go_on signals i s s' P :
  thread_step signals i s s' → only i s s' → can signals i s' P → can signals i s P.
Proof.
  intros Hs (A1 & A2 & A3 & A4) (s2 & Hr & (B1 & B2 & B3 & B4) & HP). exists s2. split; [by eapply rtc_l; [eapply step_thread|]|].
  split; [|done]. split; [congruence|]. split; [congruence|]. split; [congruence|].
  intros j Hj. by rewrite B4, A4.
Qed.

Lemma only_goes s i p h c l : only i s (goes (s <| holder := h |> <| counter := c |> <| log := l |>) i p).
Proof. repeat split; try done. intros j Hj. by apply set_other. Qed.

(** The next step of thread [i] is [t]. *)
Ltac can_go t :=
  lazymatch goal with |- can _ ?i ?s _ =>
    eapply (can_go_on _ i s);
      [by eapply t
      |first [apply (only_goes s i _ (holder s) (counter s) (log s)) | apply (only_goes s i _ _ (counter s) (log s))
             |apply (only_goes s i _ (holder s) _ (log s)) | apply (only_goes s i _ (holder s) (counter s) _)]|]
  end.

(** The thread in the critical section can finish it. *)
Lemma can_unlock signals i s :
  critical (pc s i) = true → can signals i s (fun s' => pc s' i = Test ∧ holder s' = None).
Proof.
  assert (∀ s, pc s i = Unlock → can signals i s (fun s' => pc s' i = Test ∧ holder s' = None)) as H1.
  { intros s1 E. can_go t_unlock. eexists. split; [done|]. split; [by repeat split|]. by cbn; rewrite set_same. }
  assert (∀ s, pc s i = Sleep → can signals i s (fun s' => pc s' i = Test ∧ holder s' = None)) as H2.
  { intros s1 E. can_go t_sleep. apply H1. apply set_same. }
  assert (∀ s, pc s i = Print → can signals i s (fun s' => pc s' i = Test ∧ holder s' = None)) as H3.
  { intros s1 E. can_go t_print. apply H2. apply set_same. }
  assert (∀ s v, pc s i = Store v → can signals i s (fun s' => pc s' i = Test ∧ holder s' = None)) as H4.
  { intros s1 v E. can_go t_store. apply H3. apply set_same. }
  destruct (pc s i) eqn:E; try done; intros _; [|by eapply H4|by apply H3|by apply H2|by apply H1].
  can_go t_load. eapply H4. apply set_same.
Qed.

(** With the lock free, a thread that was asked to stop can exit. *)
Lemma can_exit signals i s :
  inv s → stop s i = true → pc s i ≠ Absent → (holder s = None ∨ holder s = Some i) →
  can signals i s (fun s' => pc s' i = Exited).
Proof.
  intros Hi Hs Ha Hh.
  assert (∀ s, pc s i = Exited → can signals i s (fun s' => pc s' i = Exited)) as H0.
  { intros s1 E. exists s1. split; [done|]. by repeat split. }
  assert (∀ s, pc s i = Stopping → can signals i s (fun s' => pc s' i = Exited)) as H1.
  { intros s1 E. can_go t_exit. apply H0. apply set_same. }
  assert (∀ s, stop s i = true → pc s i = Test → can signals i s (fun s' => pc s' i = Exited)) as H2.
  { intros s1 Hst E. can_go t_test. apply H1. cbn. by rewrite Hst, set_same. }
  assert (∀ s, stop s i = true → critical (pc s i) = true → can signals i s (fun s' => pc s' i = Exited)) as H3.
  { intros s1 Hst E. destruct (can_unlock signals i s1 E) as (s2 & Hr & (A1 & A2 & A3 & A4) & Hp & _).
    destruct (H2 s2) as (s3 & Hr' & (B1 & B2 & B3 & B4) & Hp'); [by rewrite A1|done|].
    exists s3. split; [by etrans|]. split; [|done]. repeat split; try congruence. intros j Hj. by rewrite B4, A4. }
  destruct (critical (pc s i)) eqn:Ec; [by apply H3|].
  assert (holder s = None) as Hn.
  { destruct Hh as [|Hh]; [done|]. apply (inv_lock _ Hi) in Hh. congruence. }
  destruct (pc s i) eqn:E; try done; [|by apply H2| |by apply H1|by apply H0].
  - can_go t_never. apply H0. apply set_same.
  - can_go t_lock. apply H3; [done|]. cbn. by rewrite set_same.
Qed.

Lemma inv_rtc signals s s' : rtc (step signals) s s' → inv s → inv s'.
Proof.
  induction 1 as [|s1 s2 s3 [i Hs|Hs] _ IH]; intros Hi; [done|apply IH; by eapply inv_thread|apply IH; by eapply inv_module].
Qed.

(** What kthread_stop waits for can happen: the other thread leaves the critical
    section if it is there, then the waited-for thread exits. *)
Lemma can_wait signals s i :
  inv s → waiting_for (module s) = Some i →
  ∃ s', rtc (step signals) s s' ∧ pc s' i = Exited ∧ module s' = module s ∧ threads s' = threads s.
Proof.
  intros Hi Hw. destruct (inv_waiting _ Hi i Hw) as [Ht Hs].
  assert (∃ s1, rtc (step signals) s s1 ∧ (holder s1 = None ∨ holder s1 = Some i)
    ∧ stop s1 = stop s ∧ module s1 = module s ∧ threads s1 = threads s) as (s1 & Hr & Hh & E1 & E2 & E3).
  { destruct (holder s) as [j|] eqn:Hh; [|exists s; split; [apply rtc_refl|auto]]. destruct (decide (j = i)) as [->|Hj]; [exists s; split; [apply rtc_refl|auto]|].
    destruct (can_unlock signals j s) as (s1 & Hr & (A1 & A2 & A3 & _) & _ & Hn); [by apply (inv_lock _ Hi)|].
    exists s1. auto. }
  pose proof (inv_rtc _ _ _ Hr Hi) as Hi1.
  destruct (can_exit signals i s1) as (s2 & Hr2 & (B1 & B2 & B3 & _) & Hp); [done|by rewrite E1| |done|].
  { rewrite (inv_absent _ Hi1 i), E3. intros H. by destruct H. }
  exists s2. split; [by etrans|]. split; [done|]. split; congruence.
Qed.

Definition healthy (s : sys) : Prop := ∀ i, threads s i ≠ ErrPtr.

(** From every place of the module the unloading can be completed. *)
Lemma can_unload signals s :
  inv s → healthy s → module s ≠ Oops → ∃ s', rtc (step signals) s s' ∧ module s' = Unloaded.
Proof.
  set (U s := inv s → healthy s → ∃ s', rtc (step signals) s s' ∧ module s' = Unloaded).
  assert (∀ s s', module_step s s' → healthy s' → U s' → U s) as Hgo.
  { intros s1 s2 Hs Hh HU Hi _. destruct HU as (s3 & Hr & E); [by eapply inv_module|done|].
    exists s3. split; [by eapply rtc_l; [apply step_module|]|done]. }
  assert (∀ s i m, waiting_for (module s) = Some i →
    (∀ s', pc s' i = Exited → module s' = module s → module_step s' (s' <| module := m |>)) →
    (∀ s', module s' = m → U s') → U s) as Hwait.
  { intros s1 i m Hw Hm HU Hi Hh. destruct (can_wait signals s1 i Hi Hw) as (s2 & Hr & Hp & E & Et).
    destruct (Hgo s2 (s2 <| module := m |>)) as (s3 & Hr3 & E3); [by apply Hm|intros j; cbn; rewrite Et; apply Hh|by apply HU| | |].
    - by eapply inv_rtc.
    - intros j. rewrite Et. apply Hh.
    - exists s3. split; [by etrans|done]. }
  assert (∀ s, module s = Unloaded → U s) as H0 by (intros s1 E _ _; by exists s1).
  assert (∀ s, module s = Wait2 → U s) as H1.
  { intros s1 E. apply (Hwait s1 T2 Unloaded); [by rewrite E|rewrite E; intros; by apply m_wait2|done]. }
  assert (∀ s i wait skip, threads s i ≠ ErrPtr → module_step s (stop_thread i wait skip s) →
    (∀ s', module s' = wait → U s') → (∀ s', module s' = skip → U s') → U s) as Hstop.
  { intros s1 i wait skip Ht Hs HU1 HU2 Hi Hh. apply (Hgo _ _ Hs); [| |done..].
    - unfold stop_thread. by destruct (threads s1 i).
    - unfold stop_thread. destruct (threads s1 i) eqn:E; [by apply HU2|by apply HU1|done]. }
  assert (∀ s, module s = Stop2 → U s) as H2.
  { intros s1 E Hi Hh. apply (Hstop s1 T2 Wait2 Unloaded); [apply Hh|by apply m_stop2|done..]. }
  assert (∀ s, module s = Wait1 → U s) as H3.
  { intros s1 E. apply (Hwait s1 T1 Stop2); [by rewrite E|rewrite E; intros; by apply m_wait1|done]. }
  assert (∀ s, module s = Stop1 → U s) as H4.
  { intros s1 E Hi Hh. apply (Hstop s1 T1 Wait1 Stop2); [apply Hh|by apply m_stop1|done..]. }
  assert (∀ s, module s = Loaded → U s) as H5.
  { intros s1 E Hi Hh. apply (Hgo s1 (s1 <| module := Stop1 |>)); [by apply m_unload|exact Hh|by apply H4|done..]. }
  assert (∀ s i m, healthy s → healthy (create true i m s)) as Hc.
  { intros s1 i m Hh j. cbn. unfold set. case_decide; [done|apply Hh]. }
  assert (∀ s, module s = Init2 → U s) as H6.
  { intros s1 E Hi Hh. apply (Hgo s1 (create true T2 Loaded s1)); [by apply m_init2|by apply Hc|by apply H5|done..]. }
  assert (∀ s, module s = Init1 → U s) as H7.
  { intros s1 E Hi Hh. apply (Hgo s1 (create true T1 Init2 s1)); [by apply m_init1|by apply Hc|by apply H6|done..]. }
  intros Hi Hh Ho. destruct (module s) eqn:E; try done; [apply H7|apply H6|apply H5|apply H4|apply H3|apply H2|apply H1|apply H0]; done.
Qed.


(** A state in which both threads were created and the first holds the lock. *)
Definition busy : sys :=
  goes ((goes (goes (create true T2 Loaded (create true T1 Init2 start)) T1 Test) T1 Locking) <| holder := Some T1 |>) T1 Load.

(** A thread that could not be created leaves an ERR_PTR, which passes the test
    for NULL: unloading calls kthread_stop on it. *)
Lemma failed_create_oops : ∃ s, reachable false s ∧ module s = Oops.
Proof.
  eexists. split.
  - eapply rtc_l; [apply step_module; by apply (m_init1 false)|].
    eapply rtc_l; [apply step_module; by apply (m_init2 true)|].
    eapply rtc_l; [apply step_module; by apply m_unload|].
    eapply rtc_l; [apply step_module; by apply m_stop1|]. apply rtc_refl.
  - reflexivity.
Qed.
