(* ===== verification/Chrdev.v ===== *)
(** * Character device modules: lock/cdev_mutex, lock/cdev_semaphore, lock/rwsem, wakeup

    Four modules with the same way of registering a device and four kinds of
    file operations around a lock or a wait queue.  Loading, unloading and the
    operations are programs that call the kernel; what the kernel lets a module
    do with a device number, a cdev, a class and a device, and with its locks, is
    the world [kern].  The wait queue of wakeup.c is then run with any number of
    readers and writers. *)

From S2P Require Import Prelude CLib Calls.

Definition EFAULT : Z := 14.

Inductive chr_call :=
| Printk (s : string)
| Alloc_region (first count : Z) (name : string) | Unregister_region (count : Z) | Major
| Cdev_init | Cdev_add (count : Z) | Cdev_del
| Class_create (name : string) | Class_destroy (cl : Z)
| Device_create (cl : Z) (name : string) | Device_destroy (cl : Z)
| Sema_init (n : Z) | Init_rwsem
| Mutex_lock_interruptible | Mutex_unlock | Spin_lock | Spin_unlock
| Down_read | Up_read | Down_write | Up_write | Ssleep (n : Z)
| Copy_from_user (off : Z) | Set_c (c : Z)
| Set_task | Wait_event | Get_user | Set_flag (c : Z) | Wake_up.

(** class_create and device_create answer an error code or a pointer;
    [Copy_from_user] and [Get_user] the character, if it could be read. *)
Definition chr_ans (c : chr_call) : Type :=
  match c with
  | Alloc_region _ _ _ | Cdev_add _ | Major | Mutex_lock_interruptible | Wait_event => Z
  | Class_create _ | Device_create _ _ => Z + Z
  | Copy_from_user _ | Get_user => option Z
  | _ => unit
  end.
Definition chr : api := Api chr_call chr_ans.
Abbreviation io := (prog chr).
Abbreviation req c := (ask (E := chr) c).
Definition printk (s : string) : io unit := req (Printk s).

(** ** Registering *)

(** The body the four init functions share, up to their return 0: the error code,
    or the class that was stored in [cl]. *)
Definition register (first count : Z) (name : string) (major : bool) (cls devname : string) : io (Z + Z) :=
  ret ← req (Alloc_region first count name);
  if ret <? 0 then Ret (inl ret)
  else
  _ ← (if major then m ← req Major; printk ("Major Nr: " +:+ dec m +:+ nl) else Ret tt);
  _ ← req Cdev_init;
  ret ← req (Cdev_add count);
  if ret <? 0 then _ ← req (Unregister_region count); Ret (inl ret)
  else
  cl ← req (Class_create cls);
  match cl with
  | inl e => _ ← req Cdev_del; _ ← req (Unregister_region count); Ret (inl e)
  | inr cl =>
      dev_ret ← req (Device_create cl devname);
      match dev_ret with
      | inl e => _ ← req (Class_destroy cl); _ ← req Cdev_del; _ ← req (Unregister_region count); Ret (inl e)
      | inr _ => Ret (inr cl)
      end
  end.
Definition unregister (count cl : Z) : io unit :=
  _ ← req (Device_destroy cl);
  _ ← req (Class_destroy cl);
  _ ← req Cdev_del;
  req (Unregister_region count).

(** The return value and, when it is 0, the class. *)
Definition finish (r : Z + Z) (last : io unit) : io (Z * option Z) :=
  match r with
  | inl e => Ret (e, None)
  | inr cl => _ ← last; Ret (0, Some cl)
  end.

(** cdev_mutex.c *)
Definition init_mutex : io (Z * option Z) :=
  r ← register 0 1 "my_mutex" false "char" ("mymutex" +:+ dec 0);
  finish r (Ret tt).
Definition exit_mutex (cl : Z) : io unit := unregister 1 cl.

(** cdev_semaphore.c *)
Definition sem_init : io (Z * option Z) :=
  r ← register 1 2 "my_sem" false "chardev" ("mysem" +:+ dec 1);
  finish r (req (Sema_init 0)).
Definition sem_exit (cl : Z) : io unit := unregister 2 cl.

(** rwsem.c *)
Definition rw_sem_init : io (Z * option Z) :=
  r ← register 0 1 "rws" true "chardrv" ("mychar" +:+ dec 0);
  finish r (req Init_rwsem).
Definition rw_sem_cleanup (cl : Z) : io unit :=
  _ ← printk ("Inside cleanup_module" +:+ nl);
  unregister 1 cl.

(** wakeup.c *)
Definition schd_init : io (Z * option Z) :=
  r ← register 0 1 "wqd" true "chardrv" ("mychar" +:+ dec 0);
  finish r (Ret tt).
Definition schd_cleanup (cl : Z) : io unit :=
  _ ← printk ("Inside cleanup_module" +:+ nl);
  unregister 1 cl.

(** ** File operations *)

(** my_open and my_close of the first two; open and release of the others. *)
Definition my_open : io Z := Ret 0.
Definition my_close : io Z := Ret 0.
Definition rw_open : io Z := _ ← printk ("Inside open" +:+ nl); _ ← req Set_task; Ret 0.
Definition wq_open : io Z := _ ← printk ("Inside open" +:+ nl); Ret 0.
Definition chr_release : io Z := _ ← printk ("Inside close" +:+ nl); Ret 0.

Definition mutex_read : io Z :=
  r ← req Mutex_lock_interruptible;
  if negb (r =? 0) then _ ← printk ("Unable to acquire Semaphore" +:+ nl); Ret (-1)
  else Ret 0.

(** copy_from_user(&c, buf + len - 1, 1) and the return. *)
Definition copy_last (len : Z) : io Z :=
  v ← req (Copy_from_user (len - 1));
  match v with
  | None => Ret (- EFAULT)
  | Some v => _ ← req (Set_c v); Ret len
  end.
Definition mutex_write (len : Z) : io Z := _ ← req Mutex_unlock; copy_last len.

Definition sem_read : io Z := _ ← req Spin_lock; _ ← req (Ssleep 2); Ret 0.
Definition sem_write (len : Z) : io Z := _ ← req Spin_unlock; copy_last len.

Definition rw_read : io Z :=
  _ ← printk ("Inside read" +:+ nl);
  _ ← req Down_read;
  _ ← printk ("Got the Semaphore in Read" +:+ nl);
  _ ← printk ("Going to Sleep" +:+ nl);
  _ ← req (Ssleep 30);
  _ ← req Up_read;
  Ret 0.
Definition rw_write (count : Z) : io Z :=
  _ ← printk ("Inside write. Waiting for Semaphore..." +:+ nl);
  _ ← req Down_write;
  _ ← printk ("Got the Semaphore in Write" +:+ nl);
  _ ← req Up_write;
  Ret count.

Definition wq_read : io Z :=
  _ ← printk ("Inside read" +:+ nl);
  _ ← printk ("Scheduling out" +:+ nl);
  _ ← req Wait_event;
  _ ← req (Set_flag (zchar "n"));
  _ ← printk ("Woken Up" +:+ nl);
  Ret 0.
(** __get_user stores the character it read in [flag]. *)
Definition wq_write (count : Z) : io Z :=
  _ ← printk ("Inside Write" +:+ nl);
  v ← req Get_user;
  match v with
  | None => Ret (- EFAULT)
  | Some v => _ ← req (Set_flag v); _ ← req Wake_up; Ret count
  end.

(** ** What the kernel asks for *)

Inductive obj := Region (count : Z) | Cdev | Class (cl : Z) | Device (cl : Z).
#[export] Instance obj_eq : EqDecision obj.
Proof. solve_decision. Defined.

(** The objects a module holds, whether its rw_semaphore is initialised, and the
    locks the calling task holds. *)
Record kst := Kst {
  held : list obj; rwsem_ready : bool; mutex_held : bool; spin_held : bool; read_held : bool; write_held : bool;
}.
#[export] Instance kst_eta : Eta kst := fun s =>
  Kst (held s) (rwsem_ready s) (mutex_held s) (spin_held s) (read_held s) (write_held s).

Definition gives_up (o : obj) (s : kst) : kst := s <| held := filter (.≠ o) (held s) |>.
Definition takes (o : obj) (s : kst) : kst := s <| held := o :: held s |>.

Definition proper (c : chr_call) (s : kst) : Prop :=
  match c with
  | Cdev_add n => Region n ∈ held s
  | Unregister_region n => Region n ∈ held s ∧ Cdev ∉ held s
  | Cdev_del => Cdev ∈ held s
  | Class_destroy cl => Class cl ∈ held s ∧ Device cl ∉ held s
  | Device_create cl _ => Class cl ∈ held s ∧ Cdev ∈ held s
  | Device_destroy cl => Device cl ∈ held s
  | Mutex_unlock => mutex_held s = true
  | Spin_unlock => spin_held s = true
  | Down_read | Down_write => rwsem_ready s = true ∧ read_held s = false ∧ write_held s = false ∧ spin_held s = false
  | Up_read => read_held s = true
  | Up_write => write_held s = true
  | Ssleep _ => spin_held s = false
  | _ => True
  end.

(** An error pointer holds a small negative code; a new class is a new one. *)
Definition possible (c : chr_call) (s : kst) : chr_ans c → Prop :=
  match c with
  | Alloc_region n k _ => fun a => a ≤ 0
  | Cdev_add _ => fun a => a ≤ 0
  | Class_create _ => fun a => match a with inl e => -4095 ≤ e < 0 | inr cl => Class cl ∉ held s ∧ Device cl ∉ held s end
  | Device_create _ _ => fun a => match a with inl e => -4095 ≤ e < 0 | inr _ => True end
  | _ => fun _ => True
  end.

Definition becomes (c : chr_call) : chr_ans c → kst → kst :=
  match c with
  | Alloc_region _ n _ => fun a s => if a <? 0 then s else takes (Region n) s
  | Cdev_add _ => fun a s => if a <? 0 then s else takes Cdev s
  | Class_create _ => fun a s => match a with inr cl => takes (Class cl) s | inl _ => s end
  | Device_create cl _ => fun a s => match a with inr _ => takes (Device cl) s | inl _ => s end
  | Unregister_region n => fun _ s => gives_up (Region n) s
  | Cdev_del => fun _ s => gives_up Cdev s
  | Class_destroy cl => fun _ s => gives_up (Class cl) s
  | Device_destroy cl => fun _ s => gives_up (Device cl) s
  | Init_rwsem => fun _ s => s <| rwsem_ready := true |>
  | Mutex_lock_interruptible => fun a s => if a =? 0 then s <| mutex_held := true |> else s
  | Mutex_unlock => fun _ s => s <| mutex_held := false |>
  | Spin_lock => fun _ s => s <| spin_held := true |>
  | Spin_unlock => fun _ s => s <| spin_held := false |>
  | Down_read => fun _ s => s <| read_held := true |>
  | Up_read => fun _ s => s <| read_held := false |>
  | Down_write => fun _ s => s <| write_held := true |>
  | Up_write => fun _ s => s <| write_held := false |>
  | _ => fun _ s => s
  end.
Definition kern : world chr := World chr kst proper possible becomes.

(** The four modules. *)
Inductive chr_module := Mutex | Semaphore | Rwsem | Wakeup.
Definition init_of (m : chr_module) : io (Z * option Z) :=
  match m with Mutex => init_mutex | Semaphore => sem_init | Rwsem => rw_sem_init | Wakeup => schd_init end.
Definition exit_of (m : chr_module) : Z → io unit :=
  match m with Mutex => exit_mutex | Semaphore => sem_exit | Rwsem => rw_sem_cleanup | Wakeup => schd_cleanup end.

(** A device that is registered, and nothing else. *)
Definition registered (n cl : Z) : list obj := [Device cl; Class cl; Cdev; Region n].

Lemma gives_up_head o l s : held s = o :: l → o ∉ l → held (gives_up o s) = l.
Proof.
  intros H Hn. cbn. rewrite H, filter_cons_False by (intros E; by apply E). clear H.
  induction l as [|x l IH]; [done|]. apply not_elem_of_cons in Hn as [Hx Hn].
  rewrite filter_cons_True by done. by rewrite IH.
Qed.

(** The next call gives up the object at the head of what is held. *)
Ltac back_out H :=
  try apply wp_bind; cbn [wp ask]; split; [cbn [requires kern proper]; rewrite H; set_solver|]; intros ? _;
  cbn [after kern becomes]; apply gives_up_head in H; [|set_solver].
(** The next call is always allowed. *)
Ltac call := apply wp_bind; cbn [wp ask]; split; [exact I|].

Lemma unregister_wp n cl s :
  held s = registered n cl → wp kern (unregister n cl) s (fun _ s' => held s' = []).
Proof. intros H. unfold registered in H. unfold unregister. do 4 back_out H. exact H. Qed.

Lemma printk_wp m s (Q : unit → kst → Prop) : Q tt s → wp kern (printk m) s Q.
Proof. intros H. cbn. split; [exact I|]. intros [] _. exact H. Qed.

Lemma register_wp first n name major cls devname s :
  held s = [] →
  wp kern (register first n name major cls devname) s
    (fun r s' => match r with inl e => e < 0 ∧ held s' = [] | inr cl => held s' = registered n cl end).
Proof.
  intros H. unfold register. call. intros ret Hret. cbn [answers kern possible] in Hret. cbn [after kern becomes].
  destruct (Z.ltb_spec ret 0); [by cbn|].
  assert (held (takes (Region n) s) = [Region n]) as H1 by (cbn; by rewrite H).
  generalize dependent (takes (Region n) s). clear s H. intros s H.
  apply wp_bind. assert (wp kern (if major then m ← req Major; printk ("Major Nr: " +:+ dec m +:+ nl) else Ret tt) s
    (fun _ s' => s' = s)) as Hm.
  { destruct major; [|done]. call. intros m _. by apply printk_wp. }
  eapply wp_mono; [exact Hm|]. intros _ ? ->. call. intros ? _. cbn [after kern becomes].
  apply wp_bind. cbn [wp ask]. split; [cbn [requires kern proper]; rewrite H; set_solver|]. intros ret2 _. cbn [after kern becomes].
  destruct (Z.ltb_spec ret2 0); [back_out H; by cbn|].
  assert (held (takes Cdev s) = [Cdev; Region n]) as H2 by (cbn; by rewrite H).
  generalize dependent (takes Cdev s). clear s H Hm. intros s H.
  call. intros [e|cl] Hcl; cbn [answers kern possible] in Hcl; cbn [after kern becomes].
  { do 2 back_out H. cbn. split; [lia|done]. }
  assert (held (takes (Class cl) s) = [Class cl; Cdev; Region n]) as H3 by (cbn; by rewrite H).
  generalize dependent (takes (Class cl) s). clear s H Hcl. intros s H.
  apply wp_bind. cbn [wp ask]. split; [cbn [requires kern proper]; rewrite H; set_solver|]. intros [e|d] Hd;
    cbn [answers kern possible] in Hd; cbn [after kern becomes].
  - do 3 back_out H. cbn. split; [lia|done].
  - cbn. by rewrite H.
Qed.

Lemma finish_wp r last s n :
  match r with inl e => e < 0 ∧ held s = [] | inr cl => held s = registered n cl end →
  wp kern last s (fun _ s' => held s' = held s) →
  wp kern (finish r last) s (fun '(rc, cl) s' =>
    (rc = 0 ∧ ∃ c, cl = Some c ∧ held s' = registered n c) ∨ (rc < 0 ∧ cl = None ∧ held s' = [])).
Proof.
  intros Hr Hl. destruct r as [e|cl]; cbn [finish]; [right; tauto|].
  eapply wp_seq; [exact Hl|]. intros [] s' E. cbn. left. split; [done|]. exists cl. by rewrite E.
Qed.

(** C35: the four modules load and unload cleanly: whichever of the four calls
    that register a device fails, the init function takes back what the earlier
    ones did, in the order the kernel asks for, and returns the error code; when
    it returns 0 the exit function takes back everything. *)
Theorem chrdev_modules_unwind m s :
  held s = [] →
  wp kern (init_of m) s (fun '(rc, cl) s' =>
    (rc = 0 ∧ ∃ c, cl = Some c ∧ wp kern (exit_of m c) s' (fun _ s'' => held s'' = []))
    ∨ (rc < 0 ∧ cl = None ∧ held s' = [])).
Proof.
  intros H. set (n := match m with Semaphore => 2 | _ => 1 end).
  assert (∀ c s', held s' = registered n c → wp kern (exit_of m c) s' (fun _ s'' => held s'' = [])) as Hx.
  { intros c s' E. destruct m; cbn [exit_of]; try (by apply unregister_wp);
      apply wp_bind, printk_wp; by apply unregister_wp. }
  assert (wp kern (init_of m) s (fun '(rc, cl) s' =>
    (rc = 0 ∧ ∃ c, cl = Some c ∧ held s' = registered n c) ∨ (rc < 0 ∧ cl = None ∧ held s' = []))) as Hi.
  { destruct m; (eapply wp_seq; [by apply register_wp|]); intros r s' Hr; apply finish_wp; try exact Hr; try done;
      cbn; (split; [exact I|]); by intros [] _. }
  eapply wp_mono; [exact Hi|]. intros [rc cl] s' [(-> & c & -> & E)|E]; [left|right; exact E]. eauto.
Qed.

Definition kst0 : kst := Kst [] false false false false false.
Lemma chrdev_modules_unwind_witness :
  wp kern (init_of Rwsem) kst0 (fun '(rc, cl) s' =>
    (rc = 0 ∧ ∃ c, cl = Some c ∧ wp kern (exit_of Rwsem c) s' (fun _ s'' => held s'' = []))
    ∨ (rc < 0 ∧ cl = None ∧ held s' = [])).
Proof. apply (chrdev_modules_unwind Rwsem kst0). reflexivity. Defined.

(** ** The locks *)

(** rwsem.c: reading and writing give back what they take and sleep only where it
    is allowed. *)
Lemma rw_ops_balanced s count :
  rwsem_ready s = true → read_held s = false → write_held s = false → spin_held s = false →
  wp kern rw_read s (fun r s' => r = 0 ∧ s' = s) ∧ wp kern (rw_write count) s (fun r s' => r = count ∧ s' = s).
Proof. destruct s as [h r m sp rd wr]. cbn. intros -> -> -> ->. split; repeat (split; [done|intros ? _]); done. Qed.

(** cdev_mutex.c: a write without a read before it releases a mutex that the task
    does not hold. *)
Lemma mutex_write_unowned len s Q : mutex_held s = false → ¬ wp kern (mutex_write len) s Q.
Proof. intros H [Hr _]. cbn in Hr. congruence. Qed.

(** cdev_semaphore.c: a read sleeps while it holds a spin lock. *)
Lemma sem_read_sleeps_locked s Q : ¬ wp kern sem_read s Q.
Proof. intros [_ H]. destruct (H tt I) as [Hs _]. done. Qed.

(** ** The wait queue of wakeup.c *)

(** The flag, the reads and writes under way, and two counters: the writes of 'y'
    so far and the waits that ended because the flag was 'y'. *)
Record wq := Wq { flag : Z; readers : list (io Z); writers : list (io Z); ys : Z; passes : Z }.
#[export] Instance wq_eta : Eta wq := fun s => Wq (flag s) (readers s) (writers s) (ys s) (passes s).
Definition wq0 : wq := Wq (zchar "n") [] [] 0 0.

(** One call of a reader: a wait ends with 0 when the flag is 'y', or with an
    error when a signal arrives. *)
Definition reader_call (c : chr_call) (s : wq) : chr_ans c → wq → Prop :=
  match c with
  | Wait_event => fun a s' =>
      (a = 0 ∧ flag s = zchar "y" ∧ s' = s <| passes := passes s + 1 |>) ∨ (a ≠ 0 ∧ s' = s)
  | Set_flag v => fun _ s' => s' = s <| flag := v |>
  | _ => fun _ s' => s' = s
  end.
(** One call of a writer. *)
Definition writer_call (c : chr_call) (s : wq) : chr_ans c → wq → Prop :=
  match c with
  | Set_flag v => fun _ s' => s' = s <| flag := v |> <| ys := ys s + if v =? zchar "y" then 1 else 0 |>
  | _ => fun _ s' => s' = s
  end.
(** The program [p] makes its next call and goes on as [p']; [None]: it returned. *)
Definition moves (sem : ∀ c : chr_call, wq → chr_ans c → wq → Prop) (p : io Z) (s : wq) (p' : option (io Z)) (s' : wq) : Prop :=
  match p with
  | Do c k => ∃ a, sem c s a s' ∧ p' = Some (k a)
  | Ret _ => p' = None ∧ s' = s
  | _ => False
  end.
Definition replace (l : list (io Z)) (i : nat) (p : option (io Z)) : list (io Z) :=
  match p with Some p => <[i := p]> l | None => take i l ++ drop (S i) l end.

(** [single]: the file has one reader at a time. *)
Inductive wq_step (single : bool) (s : wq) : wq → Prop :=
| wq_begin_read : (single = true → readers s = []) → wq_step single s (s <| readers := wq_read :: readers s |>)
| wq_begin_write count : wq_step single s (s <| writers := wq_write count :: writers s |>)
| wq_reads i p p' s' : readers s !! i = Some p → moves reader_call p s p' s' →
    wq_step single s (s' <| readers := replace (readers s') i p' |>)
| wq_writes i p p' s' : writers s !! i = Some p → moves writer_call p s p' s' →
    wq_step single s (s' <| writers := replace (writers s') i p' |>).

(** The stages of a read: before the wait, between the wait and the reset of the
    flag, behind it. *)
Definition after_wait : io Z := _ ← req (Set_flag (zchar "n")); _ ← printk ("Woken Up" +:+ nl); Ret 0.
Inductive stage : bool → io Z → Prop :=
| stage_0 : stage false wq_read
| stage_1 : stage false (_ ← printk ("Scheduling out" +:+ nl); _ ← req Wait_event; after_wait)
| stage_2 : stage false (_ ← req Wait_event; after_wait)
| stage_3 : stage true after_wait
| stage_4 : stage false (_ ← printk ("Woken Up" +:+ nl); Ret 0)
| stage_5 : stage false (Ret 0).

(** With one reader every wait that ended was paid for by a write, and a flag
    that is up can still be spent, unless the reader is about to put it down. *)
Definition wq_inv (s : wq) : Prop :=
  (readers s = [] ∨ ∃ b p, readers s = [p] ∧ stage b p
    ∧ (b = true ∨ (flag s = zchar "y" → passes s + 1 ≤ ys s)))
  ∧ passes s ≤ ys s ∧ (readers s = [] → flag s = zchar "y" → passes s + 1 ≤ ys s).

Lemma writer_moves_inv p p' s s' :
  moves writer_call p s p' s' → wq_inv s → wq_inv s' ∧ readers s' = readers s.
Proof.
  intros Hm Hi. destruct p as [|  | |c k]; cbn in Hm; try done; [by destruct Hm as [_ ->]|].
  destruct Hm as (a & Hc & _). destruct Hi as (H1 & H2 & H3).
  destruct c; cbn in Hc; subst s'; try (split; [|done]; repeat split; by auto).
  split; [|done]. unfold wq_inv. cbn. destruct (Z.eqb_spec c (zchar "y")) as [->|Hn].
  - split; [|split; intros; lia]. destruct H1 as [H1|(b & q & H1 & H4 & _)]; [by left|right].
    exists b, q. split; [done|]. split; [done|]. right. intros _. lia.
  - split; [|split; [lia|done]]. destruct H1 as [H1|(b & q & H1 & H4 & _)]; [by left|right].
    exists b, q. split; [done|]. split; [done|]. by right.
Qed.

(** The reader at stage [b] is alone, at index 0. *)
Definition reading (b : bool) (p : io Z) (s : wq) : Prop :=
  readers s = [p] ∧ stage b p ∧ (b = true ∨ (flag s = zchar "y" → passes s + 1 ≤ ys s)) ∧ passes s ≤ ys s.

Lemma reading_inv b p s : reading b p s → wq_inv s.
Proof. intros (H1 & H2 & H3 & H4). split; [right; exists b, p; auto|]. split; [done|]. by rewrite H1. Qed.

Lemma reader_moves_inv b p p' s s' :
  reading b p s → moves reader_call p s p' s' → wq_inv (s' <| readers := replace (readers s') 0 p' |>).
Proof.
  intros (Hr & Hs & Hf & Hle) Hm.
  assert (∀ b q s1, stage b q → readers s1 = [p] → (b = true ∨ (flag s1 = zchar "y" → passes s1 + 1 ≤ ys s1)) →
    passes s1 ≤ ys s1 → wq_inv (s1 <| readers := replace (readers s1) 0 (Some q) |>)) as Hgo.
  { intros b1 q s1 H1 H2 H3 H4. apply (reading_inv b1 q). unfold reading. cbn. rewrite H2. auto. }
  destruct Hs; cbn in Hm.
  - destruct Hm as ([] & -> & ->). apply (Hgo false); [exact stage_1|done..].
  - destruct Hm as ([] & -> & ->). apply (Hgo false); [exact stage_2|done..].
  - destruct Hm as (a & [(-> & Hy & ->)|(_ & ->)] & ->); apply (Hgo true); try exact stage_3; auto.
    destruct Hf as [|Hf]; [done|]. cbn. specialize (Hf Hy). lia.
  - destruct Hm as ([] & -> & ->). apply (Hgo false); [exact stage_4|done|right; cbn; discriminate|done].
  - destruct Hm as ([] & -> & ->). apply (Hgo false); [exact stage_5|done..].
  - destruct Hm as [-> ->]. destruct Hf as [|Hf]; [done|]. split; [left; cbn; by rewrite Hr|]. auto.
Qed.

Lemma wq_step_inv s s' : wq_step true s s' → wq_inv s → wq_inv s'.
Proof.
  intros Hs Hi. destruct Hs as [Hn|count|i p p' s' Hp Hm|i p p' s' Hp Hm].
  - destruct Hi as (_ & H2 & H3). specialize (Hn eq_refl). apply (reading_inv false wq_read).
    split; [cbn; by rewrite Hn|]. split; [exact stage_0|]. split; [right; cbn; auto|done].
  - exact Hi.
  - destruct Hi as ([H1|(b & q & H1 & Hst & Hf)] & H2 & _); rewrite H1 in Hp; [done|].
    destruct i as [|i]; [|by destruct i]. injection Hp as ->. apply (reader_moves_inv b p p' s); [by split|done].
  - destruct (writer_moves_inv p p' s s' Hm Hi) as [H _]. exact H.
Qed.

(** C36: with one reader at a time, the wait queue of wakeup.c never lets a read
    pass that was not paid for: the waits that ended because the flag was up are
    at most as many as the writes of 'y', in every interleaving of the calls of
    the reader and of any number of writers. *)
Theorem wakeup_reads_paid s : rtc (wq_step true) wq0 s → passes s ≤ ys s.
Proof.
  intros H. enough (wq_inv s) as (_ & H2 & _) by exact H2.
  assert (wq_inv wq0) as H0 by (split; [by left|]; split; [done|]; discriminate).
  induction H as [|s1 s2 s3 Hs _ IH]; [done|]. apply IH. by eapply wq_step_inv.
Qed.

(** Runs step by step: the state is computed after each. *)
Lemma run_read single s c a k p s1 s' :
  readers s !! 0%nat = Some p → p = Do c k → reader_call c s a s1 →
  rtc (wq_step single) (s1 <| readers := replace (readers s1) 0 (Some (k a)) |>) s' → rtc (wq_step single) s s'.
Proof. intros Hp -> Hc Hr. eapply rtc_l; [|exact Hr]. eapply wq_reads; [exact Hp|]. cbn. eauto. Qed.
Lemma run_write single s c a k p s1 s' :
  writers s !! 0%nat = Some p → p = Do c k → writer_call c s a s1 →
  rtc (wq_step single) (s1 <| writers := replace (writers s1) 0 (Some (k a)) |>) s' → rtc (wq_step single) s s'.
Proof. intros Hp -> Hc Hr. eapply rtc_l; [|exact Hr]. eapply wq_writes; [exact Hp|]. cbn. eauto. Qed.

Tactic Notation "reads" uconstr(c) uconstr(a) := eapply (run_read _ _ c a); [reflexivity|reflexivity|cbn; by auto|cbn].
Tactic Notation "writes" uconstr(c) uconstr(a) := eapply (run_write _ _ c a); [reflexivity|reflexivity|reflexivity|cbn].

(** A read waits, 'y' is written, and the read passes. *)
Definition paid : wq :=
  Wq (zchar "y") [after_wait] [_ ← req Wake_up; Ret 1] 1 1.
Lemma paid_run : rtc (wq_step true) wq0 paid.
Proof.
  eapply rtc_l; [by apply wq_begin_read|]. cbn.
  eapply rtc_l; [by apply (wq_begin_write _ _ 1)|]. cbn.
  reads (Printk _) tt. reads (Printk _) tt.
  writes (Printk _) tt. writes Get_user (Some (zchar "y")). writes (Set_flag _) tt.
  reads Wait_event 0. apply rtc_refl.
Qed.
Lemma wakeup_reads_paid_witness : passes paid = 1 ∧ passes paid ≤ ys paid.
Proof. split; [reflexivity|]. apply (wakeup_reads_paid paid), paid_run. Defined.

(** Two readers: both can find the flag up before one of them puts it down. *)
Lemma two_readers_one_write : ∃ s, rtc (wq_step false) wq0 s ∧ passes s = 2 ∧ ys s = 1.
Proof.
  eexists. split.
  - eapply rtc_l; [by apply (wq_begin_write _ _ 1)|]. cbn.
    writes (Printk _) tt. writes Get_user (Some (zchar "y")). writes (Set_flag _) tt.
    eapply rtc_l; [by apply wq_begin_read|]. cbn.
    reads (Printk _) tt. reads (Printk _) tt. reads Wait_event 0.
    eapply rtc_l; [by apply wq_begin_read|]. cbn.
    reads (Printk _) tt. reads (Printk _) tt. reads Wait_event 0. apply rtc_refl.
  - by cbn.
Qed.

(** A signal ends the wait too, and the read returns 0 as if it had been woken. *)
Lemma interrupted_read_returns :
  ∃ s, rtc (wq_step true) wq0 s ∧ readers s = [Ret 0] ∧ ys s = 0.
Proof.
  eexists. split.
  - eapply rtc_l; [by apply wq_begin_read|]. cbn.
    reads (Printk _) tt. reads (Printk _) tt. reads Wait_event (-512). reads (Set_flag _) tt. reads (Printk _) tt. apply rtc_refl.
  - by cbn.
Qed.
