(* ===== verification/Futex.v ===== *)
(** * lock/futex/tfutex.c: a parent that waits for the data of its child

    The parent waits on the first word of a shared memory with futex(2); the
    child stores the number of its items there, then the items, and wakes the
    parent.  The two processes interleave call by call and store by store.  The
    theorem is about the runs the sample counts on (the child sleeps five seconds
    first): the parent is asleep before the child starts.  The runs it does not
    count on follow.  Signals do not end the wait; the last line, with the pid and
    the status of the child, is left out. *)

From S2P Require Import Prelude CLib.

(** struct namelist. *)
Definition namelist : Type := Z * string.

(** What the child stores. *)
Definition items : list namelist := [(1, "Nellson"); (2, "Daisy"); (3, "Robbie")].

(** The shared memory: ptr[0] and the items behind it. *)
Record shm := Shm { total_word : Z; slots : list namelist }.
#[export] Instance shm_eta : Eta shm := fun m => Shm (total_word m) (slots m).
#[export] Instance shm_eq : EqDecision shm.
Proof. solve_decision. Defined.

(** The places of the child: before its sleep ends, before the store of the
    total, of item [i], before the wake, and gone. *)
Inductive cpc := Start | Total | Item (i : nat) | Waking | Gone.
#[export] Instance cpc_eq : EqDecision cpc.
Proof. solve_decision. Defined.

(** The places of the parent: before the call, with the value it read for it,
    asleep, behind it, in the loop with its variables, in waitpid, returned. *)
Inductive ppc := Before | Calling (val : Z) | Asleep | Awake | Loop (total i : Z) | Reaping | Returned.
#[export] Instance ppc_eq : EqDecision ppc.
Proof. solve_decision. Defined.

Record sys := Sys { mem : shm; child : cpc; parent : ppc; shown : list string }.
#[export] Instance sys_eta : Eta sys := fun s => Sys (mem s) (child s) (parent s) (shown s).
#[export] Instance sys_eq : EqDecision sys.
Proof. solve_decision. Defined.

Definition row (it : namelist) : string := dec it.1 +:+ ": " +:+ it.2 +:+ nl.

(** The next step of the child; [None]: there is none. *)
Definition child_step (s : sys) : option sys :=
  match child s with
  | Start => Some (s <| child := Total |>)
  | Total => Some (s <| mem := (mem s) <| total_word := 3 |> |> <| child := Item 0 |>)
  | Item i =>
      match items !! i with
      | Some it => Some (s <| mem := (mem s) <| slots := <[i := it]> (slots (mem s)) |> |>
                           <| child := if (i =? 2)%nat then Waking else Item (S i) |>)
      | None => None
      end
  | Waking =>
      (* FUTEX_WAKE, 1: one sleeper, if there is one *)
      Some (s <| parent := match parent s with Asleep => Awake | p => p end |> <| child := Gone |>)
  | Gone => None
  end.

(** The next step of the parent: FUTEX_WAIT compares the word with the value the
    parent passed and sleeps only when they are equal. *)
Definition parent_step (s : sys) : option sys :=
  match parent s with
  | Before => Some (s <| parent := Calling (total_word (mem s)) |> <| shown := shown s ++ ["parent start waiting" +:+ nl] |>)
  | Calling val => Some (s <| parent := if total_word (mem s) =? val then Asleep else Awake |>)
  | Asleep => None
  | Awake =>
      let total := total_word (mem s) in
      Some (s <| parent := Loop total 0 |>
              <| shown := shown s ++ ["parent end waiting" +:+ nl;
                                      nl +:+ "There is " +:+ dec total +:+ " item in the shm" +:+ nl] |>)
  | Loop total i =>
      if i <? total then
        match slots (mem s) !! Z.to_nat i with
        | Some it => Some (s <| parent := Loop total (i + 1) |> <| shown := shown s ++ [row it] |>)
        | None => None
        end
      else Some (s <| parent := Reaping |> <| shown := shown s ++ [nl] |>)
  | Reaping => match child s with Gone => Some (s <| parent := Returned |>) | _ => None end
  | Returned => None
  end.

Inductive step (s s' : sys) : Prop :=
| step_child : child_step s = Some s' → step s s'
| step_parent : parent_step s = Some s' → step s s'.

(** A fresh shared memory is zero. *)
Definition zeros : shm := Shm 0 (replicate 4 (0, "")).
Definition start : sys := Sys zeros Start Before [].
(** The parent went to sleep first. *)
Definition asleep : sys := Sys zeros Start Asleep ["parent start waiting" +:+ nl].

(** ** Finite exploration *)

Definition successors (s : sys) : list sys := option_list (child_step s) ++ option_list (parent_step s).

Lemma step_successors s s' : step s s' ↔ s' ∈ successors s.
Proof.
  unfold successors. split.
  - intros [-> | ->]; cbn; set_solver.
  - intros [H|H]%elem_of_app; [apply step_child|apply step_parent]; destruct (_ s); cbn in H; set_solver.
Qed.

(** [n] rounds of exploration. *)
Fixpoint explore (n : nat) (seen todo : list sys) : list sys :=
  match n, todo with
  | O, _ | _, [] => seen ++ todo
  | S n, s :: todo => 
      explore n (s :: seen) (todo ++ filter (fun s' => s' ∉ s :: seen ++ todo) (successors s))
  end.

Definition closed (l : list sys) : bool := bool_decide (Forall (fun s => Forall (fun s' => s' ∈ l) (successors s)) l).

Lemma closed_reach l s s' : closed l = true → s ∈ l → rtc step s s' → s' ∈ l.
Proof.
  intros Hc%bool_decide_eq_true_1 Hs H. induction H as [|s1 s2 s3 H1 _ IH]; [done|]. apply IH.
  rewrite Forall_forall in Hc. specialize (Hc s1 Hs). rewrite Forall_forall in Hc. by apply Hc, step_successors.
Qed.

Definition runs_from (s : sys) : list sys := explore 100 [] [s].

(** What the parent prints in the end. *)
Definition expected : list string :=
  ["parent start waiting" +:+ nl; "parent end waiting" +:+ nl; nl +:+ "There is " +:+ dec 3 +:+ " item in the shm" +:+ nl]
  ++ (row <$> items) ++ [nl].

Definition ended (s : sys) : bool := bool_decide (parent s = Returned ∧ child s = Gone).


(** A schedule: [true] lets the child make a step. *)
Fixpoint follow (schedule : list bool) (s : sys) : option sys :=
  match schedule with
  | [] => Some s
  | b :: schedule => s' ← (if b then child_step s else parent_step s); follow schedule s'
  end.

Lemma follow_runs schedule : ∀ s s', follow schedule s = Some s' → rtc step s s'.
Proof.
  induction schedule as [|b schedule IH]; intros s s' H; [by injection H as ->|].
  cbn in H. apply bind_Some in H as (s1 & H1 & H2). eapply rtc_l; [|by apply IH].
  destruct b; [by apply step_child|by apply step_parent].
Qed.

(** The child runs to its end, then the parent. *)
Definition handed_over : sys := Sys (Shm 3 (items ++ [(0, "")])) Gone Returned expected.

(** ** The other runs *)

(** The parent reads the word after the child has stored it and calls the futex
    after the wake: it sleeps for good. *)
Lemma lost_wakeup : ∃ s, rtc step start s ∧ parent s = Asleep ∧ child s = Gone ∧ successors s = [].
Proof.
  eexists. split; [apply (follow_runs (replicate 6 true ++ [false; false])); vm_compute; reflexivity|].
  by vm_compute.
Qed.

(** The parent reads the word before the store and calls the futex after it: the
    call does not sleep, and the items are printed before they are stored. *)
Lemma items_before_stored :
  ∃ s, rtc step start s ∧ parent s = Returned ∧ shown s ≠ expected.
Proof.
  eexists. split.
  { apply (follow_runs (false :: true :: true :: replicate 6 false ++ replicate 4 true ++ [false])). vm_compute. reflexivity. }
  split; [reflexivity|vm_compute; discriminate].
Qed.
