(* ===== verification/Kvm.v ===== *)
(** * kvm/simple.c: a virtual machine of twelve bytes

    The program asks /dev/kvm for a virtual machine with one page of memory and
    one CPU, runs the twelve bytes of code it put there and handles the exits.
    It is a program over the calls it makes; the kernel and the processor are the
    relation [kvm_post], whose guest CPU ([guest_step]) knows the instructions the
    code is made of.  The theorem: the program returns 0 exactly when no call
    failed, and has then printed what the code computes. *)

From S2P Require Import Prelude CLib CBytes Calls.

(** ** The program *)

(** The part of struct kvm_sregs and struct kvm_regs the program sets; the rest of
    the special registers is read and handed back. *)
Record kvm_sregs := Sregs { cs_base : Z; cs_selector : Z; sregs_rest : Z }.
#[export] Instance kvm_sregs_eta : Eta kvm_sregs := fun s => Sregs (cs_base s) (cs_selector s) (sregs_rest s).
Record kvm_regs := Regs { rip : Z; rax : Z; rbx : Z; rdx : Z; rflags : Z }.
#[export] Instance kvm_regs_eta : Eta kvm_regs := fun r => Regs (rip r) (rax r) (rbx r) (rdx r) (rflags r).

(** exit_reason of struct kvm_run with the member of the union it selects. *)
Inductive kvm_exit :=
| Exit_hlt
| Exit_io (direction size port count data_offset : Z)
| Exit_fail_entry (hardware_entry_failure_reason : Z)
| Exit_internal_error (suberror : Z)
| Exit_other (reason : Z).

(** struct kvm_userspace_memory_region *)
Record kvm_region := Region { slot : Z; guest_phys_addr : Z; memory_size : Z; userspace_addr : Z }.

Inductive kvm_call :=
| Open (path : string)
| Get_api_version (fd : Z) | Create_vm (fd arg : Z) | Mmap_anonymous (len : Z) | Memcpy (p : Z) (bytes : list Z)
| Set_user_memory_region (fd : Z) (r : kvm_region) | Create_vcpu (fd arg : Z) | Get_vcpu_mmap_size (fd : Z)
| Mmap_fd (len fd : Z) | Get_sregs (fd : Z) | Set_sregs (fd : Z) (s : kvm_sregs) | Set_regs (fd : Z) (r : kvm_regs)
| Kvm_run (fd : Z) | Run_exit (run : Z) | Run_byte (run off : Z)
| Putchar (c : Z) | Puts (s : string) | Err (s : string) | Errx (s : string).

Definition kvm_ans (c : kvm_call) : Type :=
  match c with
  | Memcpy _ _ | Putchar _ | Puts _ | Err _ | Errx _ => unit
  | Get_sregs _ => Z * kvm_sregs
  | Run_exit _ => kvm_exit
  | _ => Z
  end.
Definition kvm : api := Api kvm_call kvm_ans.
Abbreviation io := (prog kvm).
Abbreviation req c := (ask (E := kvm) c).

Definition code : list Z :=
  [186; 248; 3;             (* mov $0x3f8, %dx *)
   0; 216;                  (* add %bl, %al *)
   4; zchar "0";            (* add $'0', %al *)
   238;                     (* out %al, (%dx) *)
   176; 10;                 (* mov $'\n', %al *)
   238;                     (* out %al, (%dx) *)
   244].                    (* hlt *)

(** err(1, s) and errx(1, s): they do not return; the exit status. *)
Definition err (s : string) : io Z := _ ← req (Err s); Ret 1.
Definition errx (s : string) : io Z := _ ← req (Errx s); Ret 1.

Definition KVM_EXIT_IO_OUT : Z := 1.
Definition KVM_EXIT_IO : Z := 2.
(** The number errx prints for an exit the switch does not know. *)
Definition unknown_exit (reason : Z) : string := "exit_reason = 0x" +:+ hex reason.

(** The loop that runs the code and handles the exits. *)
Fixpoint run_code (fuel : nat) (vcpufd run : Z) : io Z :=
  match fuel with
  | O => Again
  | S fuel =>
      ret ← req (Kvm_run vcpufd);
      if ret =? -1 then err "KVM_RUN"
      else
      e ← req (Run_exit run);
      match e with
      | Exit_hlt => _ ← req (Puts "KVM_EXIT_HLT"); Ret 0
      | Exit_io direction size port count data_offset =>
          if (direction =? KVM_EXIT_IO_OUT) && (size =? 1) && (port =? 1016) && (count =? 1) then
            c ← req (Run_byte run data_offset);
            _ ← req (Putchar c);
            run_code fuel vcpufd run
          else errx "unhandled KVM_EXIT_IO"
      | Exit_fail_entry r => errx ("KVM_EXIT_FAIL_ENTRY: hardware_entry_failure_reason = 0x" +:+ hex r)
      | Exit_internal_error s => errx ("KVM_EXIT_INTERNAL_ERROR: suberror = 0x" +:+ hex s)
      | Exit_other r => errx (unknown_exit r)
      end
  end.

Section main.
(** sizeof(struct kvm_run), from the kernel's header. *)
Variable sizeof_run : Z.

(** The part of main behind the creation of the VM: the CPU, its registers and
    the loop. *)
Definition setup_vcpu (fuel : nat) (kvmfd vmfd : Z) : io Z :=
  vcpufd ← req (Create_vcpu vmfd 0);
  if vcpufd =? -1 then err "KVM_CREATE_VCPU"
  else
  ret ← req (Get_vcpu_mmap_size kvmfd);
  if ret =? -1 then err "KVM_GET_VCPU_MMAP_SIZE"
  else
  let mmap_size := u64 ret in
  if mmap_size <? sizeof_run then errx "KVM_GET_VCPU_MMAP_SIZE unexpectedly small"
  else
  run ← req (Mmap_fd mmap_size vcpufd);
  if run =? 0 then err "mmap vcpu"
  else
  a ← req (Get_sregs vcpufd);
  let '(ret, sregs) := a in
  if ret =? -1 then err "KVM_GET_SREGS"
  else
  let sregs := sregs <| cs_base := 0 |> <| cs_selector := 0 |> in
  ret ← req (Set_sregs vcpufd sregs);
  if ret =? -1 then err "KVM_SET_SREGS"
  else
  ret ← req (Set_regs vcpufd (Regs 4096 2 2 0 2));
  if ret =? -1 then err "KVM_SET_REGS"
  else run_code fuel vcpufd run.

Definition main (fuel : nat) : io Z :=
  kvmfd ← req (Open "/dev/kvm");
  if kvmfd =? -1 then err "/dev/kvm"
  else
  ret ← req (Get_api_version kvmfd);
  if ret =? -1 then err "KVM_GET_API_VERSION"
  else
  if negb (ret =? 12) then errx ("KVM_GET_API_VERSION " +:+ dec ret +:+ ", expected 12")
  else
  vmfd ← req (Create_vm kvmfd 0);
  if vmfd =? -1 then err "KVM_CREATE_VM"
  else
  mem ← req (Mmap_anonymous 4096);
  if mem =? 0 then err "allocating guest memory"
  else
  _ ← req (Memcpy mem code);
  ret ← req (Set_user_memory_region vmfd (Region 0 4096 4096 mem));
  if ret =? -1 then err "KVM_SET_USER_MEMORY_REGION"
  else setup_vcpu fuel kvmfd vmfd.
End main.

(** ** A processor for the code *)

Definition al (r : kvm_regs) : Z := rax r mod 256.
Definition set_al (v : Z) (r : kvm_regs) : kvm_regs := r <| rax := rax r - al r + u8 v |>.
Definition skip (n : Z) (r : kvm_regs) : kvm_regs := r <| rip := rip r + n |>.

(** What one instruction does: on with new registers, or an exit; an [out] shows
    the byte it puts out. *)
Inductive guest := Goes (r : kvm_regs) | Outs (port byte : Z) (r : kvm_regs) | Halts (r : kvm_regs) | Unknown.

(** The instruction at [rip] of the code segment at [seg], in a memory that holds
    [page] from the guest address [base] on: 16-bit code. *)
Definition guest_step (page : list Z) (base seg : Z) (r : kvm_regs) : guest :=
  let addr := seg + rip r in
  let fetch k := nth (Z.to_nat (addr - base + k)) page 0 in
  if negb ((base <=? addr) && (addr + 3 <=? base + zlen page)) then Unknown
  else if fetch 0 =? 186 then
    Goes (skip 3 (r <| rdx := rdx r - rdx r mod 65536 + (fetch 1 + 256 * fetch 2) |>))
  else if (fetch 0 =? 0) && (fetch 1 =? 216) then Goes (skip 2 (set_al (al r + rbx r mod 256) r))
  else if fetch 0 =? 4 then Goes (skip 2 (set_al (al r + fetch 1) r))
  else if fetch 0 =? 176 then Goes (skip 2 (set_al (fetch 1) r))
  else if fetch 0 =? 238 then Outs (rdx r mod 65536) (al r) (skip 1 r)
  else if fetch 0 =? 244 then Halts (skip 1 r)
  else Unknown.

(** Up to the next exit. *)
Inductive guest_runs (page : list Z) (base seg : Z) (r : kvm_regs) : guest → Prop :=
| runs_goes r' g : guest_step page base seg r = Goes r' → guest_runs page base seg r' g → guest_runs page base seg r g
| runs_exits g : guest_step page base seg r = g → (∀ r', g ≠ Goes r') → guest_runs page base seg r g.

(** ** The kernel *)

(** [failed]: a call reported an error; [out]: standard output. *)
Record vm := Vm {
  kvm_fd : option Z; vm_fd : option Z; vcpu_fd : option Z;
  page_ptr : option Z; page : list Z; region : option kvm_region;
  run_ptr : option (Z * Z); last_exit : option kvm_exit; run_data : Z;
  sregs : option kvm_sregs; regs : option kvm_regs; out : list Z; failed : bool;
}.
#[export] Instance vm_eta : Eta vm := fun s =>
  Vm (kvm_fd s) (vm_fd s) (vcpu_fd s) (page_ptr s) (page s) (region s) (run_ptr s) (last_exit s) (run_data s)
    (sregs s) (regs s) (out s) (failed s).
Definition vm0 : vm := Vm None None None None [] None None None 0 None None [] false.

(** What a call may be made with. *)
Definition kvm_proper (c : kvm_call) (s : vm) : Prop :=
  match c with
  | Get_api_version fd | Create_vm fd _ | Get_vcpu_mmap_size fd => kvm_fd s = Some fd
  | Memcpy p bytes => page_ptr s = Some p ∧ zlen bytes ≤ zlen (page s)
  | Set_user_memory_region fd r =>
      vm_fd s = Some fd ∧ page_ptr s = Some (userspace_addr r) ∧ memory_size r = zlen (page s)
  | Create_vcpu fd _ => vm_fd s = Some fd
  | Mmap_fd _ fd | Get_sregs fd | Set_sregs fd _ | Set_regs fd _ => vcpu_fd s = Some fd
  | Kvm_run fd => vcpu_fd s = Some fd ∧ is_Some (region s) ∧ is_Some (sregs s) ∧ is_Some (regs s)
  | Run_exit p => (∃ n, run_ptr s = Some (p, n)) ∧ is_Some (last_exit s)
  | Run_byte p off => ∃ n, run_ptr s = Some (p, n) ∧ 0 ≤ off < n
  | _ => True
  end.

(** A call that answers -1 and changes nothing else, or a good answer. *)
Definition or_fails (s : vm) (a : Z) (s' : vm) (good : Prop) : Prop :=
  (a = -1 ∧ s' = s <| failed := true |>) ∨ good.
(** A new file descriptor. *)
Definition new_fd (s : vm) (a : Z) (s' t : vm) : Prop := or_fails s a s' (0 ≤ a ∧ s' = t).
Definition answers_0 (s : vm) (a : Z) (s' t : vm) : Prop := or_fails s a s' (a = 0 ∧ s' = t).

(** KVM_RUN: the exit reason, and the byte put out somewhere inside the mapping,
    as the API document says. *)
Definition kvm_exits (s s' : vm) : Prop :=
  ∃ rg sr r g p n, region s = Some rg ∧ sregs s = Some sr
    ∧ regs s = Some r ∧ run_ptr s = Some (p, n)
    ∧ guest_runs (page s) (guest_phys_addr rg) (cs_base sr) r g
    ∧ match g with
      | Outs port byte r' => ∃ off, 0 ≤ off < n
          ∧ s' = s <| regs := Some r' |> <| last_exit := Some (Exit_io KVM_EXIT_IO_OUT 1 port 1 off) |> <| run_data := byte |>
      | Halts r' => s' = s <| regs := Some r' |> <| last_exit := Some Exit_hlt |>
      | _ => s' = s <| last_exit := Some (Exit_internal_error 1) |>
      end.

Definition kvm_post (sizeof_run : Z) (c : kvm_call) (s : vm) : kvm_ans c → vm → Prop :=
  match c with
  | Open _ => fun a s' => new_fd s a s' (s <| kvm_fd := Some a |>)
  | Get_api_version _ => fun a s' =>
      or_fails s a s' ((a = 12 ∧ s' = s) ∨ (a ≠ 12 ∧ s' = s <| failed := true |>))
  | Create_vm _ _ => fun a s' => new_fd s a s' (s <| vm_fd := Some a |>)
  | Mmap_anonymous n => fun a s' =>
      0 < a ∧ s' = s <| page_ptr := Some a |> <| page := replicate (Z.to_nat n) 0 |>
  | Memcpy _ bytes => fun _ s' => s' = s <| page := bytes ++ drop (length bytes) (page s) |>
  | Set_user_memory_region _ r => fun a s' => answers_0 s a s' (s <| region := Some r |>)
  | Create_vcpu _ _ => fun a s' => new_fd s a s' (s <| vcpu_fd := Some a |>)
  | Get_vcpu_mmap_size _ => fun a s' =>
      or_fails s a s' ((0 < a < 2 ^ 31 ∧ sizeof_run ≤ a ∧ s' = s) ∨ (0 ≤ a < 2 ^ 31 ∧ a < sizeof_run ∧ s' = s <| failed := true |>))
  | Mmap_fd n _ => fun a s' => 0 < a ∧ s' = s <| run_ptr := Some (a, n) |>
  | Get_sregs _ => fun a s' =>
      (a.1 = -1 ∧ s' = s <| failed := true |>) ∨ (a.1 = 0 ∧ s' = s)
  | Set_sregs _ r => fun a s' => answers_0 s a s' (s <| sregs := Some r |>)
  | Set_regs _ r => fun a s' => answers_0 s a s' (s <| regs := Some r |>)
  | Kvm_run _ => fun a s' => or_fails s a s' (a = 0 ∧ kvm_exits s s')
  | Run_exit _ => fun a s' => last_exit s = Some a ∧ s' = s
  | Run_byte _ _ => fun a s' => a = swrap 8 (run_data s) ∧ s' = s
  | Putchar c => fun _ s' => s' = s <| out := out s ++ [u8 c] |>
  | Puts t => fun _ s' => s' = s <| out := out s ++ (zchar <$> String.list_ascii_of_string t) ++ [10] |>
  | Err _ | Errx _ => fun _ s' => s' = s
  end.

(** A run exists that ends well; the dual of [wpr]. *)
Fixpoint may {S : Type} (post : ∀ c : kvm_call, S → kvm_ans c → S → Prop) {A} (p : io A) (s : S) (Q : A → S → Prop) : Prop :=
  match p with
  | Ret a => Q a s
  | Crash | Again => False
  | Do c k => ∃ a s', post c s a s' ∧ may post (k a) s' Q
  end.

(** ** What the guest does *)

Fixpoint guest_exec (fuel : nat) (page : list Z) (base seg : Z) (r : kvm_regs) : option guest :=
  match fuel with
  | O => None
  | S fuel =>
      match guest_step page base seg r with
      | Goes r => guest_exec fuel page base seg r
      | g => Some g
      end
  end.

Lemma guest_exec_runs fuel page base seg : ∀ r g,
  guest_exec fuel page base seg r = Some g → guest_runs page base seg r g.
Proof.
  induction fuel as [|fuel IH]; intros r g; [done|]. cbn.
  destruct (guest_step page base seg r) as [r'| | |] eqn:E; intros H; [eapply runs_goes; eauto|..];
    injection H as <-; by apply runs_exits.
Qed.

Lemma guest_exec_unique fuel page base seg : ∀ r g h,
  guest_exec fuel page base seg r = Some g → guest_runs page base seg r h → h = g.
Proof.
  induction fuel as [|fuel IH]; intros r g h; [done|]. cbn. intros Hg Hr.
  destruct Hr as [r' h E Hr|h E Hn].
  - rewrite E in Hg. by eapply IH.
  - rewrite E in Hg. destruct h; congruence.
Qed.

(** The page of the guest, and its registers at the start and behind each exit. *)
Definition guest_page : list Z := code ++ replicate 4084 0.
Definition regs0 : kvm_regs := Regs 4096 2 2 0 2.
Definition regs1 : kvm_regs := Regs 4104 52 2 1016 2.
Definition regs2 : kvm_regs := Regs 4107 10 2 1016 2.
Definition regs3 : kvm_regs := Regs 4108 10 2 1016 2.

Lemma guest_first : guest_exec 8 guest_page 4096 0 regs0 = Some (Outs 1016 52 regs1).
Proof. vm_compute. reflexivity. Qed.
Lemma guest_second : guest_exec 8 guest_page 4096 0 regs1 = Some (Outs 1016 10 regs2).
Proof. vm_compute. reflexivity. Qed.
Lemma guest_third : guest_exec 8 guest_page 4096 0 regs2 = Some (Halts regs3).
Proof. vm_compute. reflexivity. Qed.

(** ** The run loop *)

(** The virtual machine is set up for the code, its registers are [r], and [o] has
    been printed. *)
Definition ready (vcpufd run : Z) (r : kvm_regs) (o : list Z) (s : vm) : Prop :=
  vcpu_fd s = Some vcpufd ∧ (∃ rg, region s = Some rg ∧ guest_phys_addr rg = 4096)
  ∧ (∃ sr, sregs s = Some sr ∧ cs_base sr = 0) ∧ regs s = Some r ∧ (∃ n, run_ptr s = Some (run, n) ∧ 0 < n)
  ∧ page s = guest_page ∧ out s = o ∧ failed s = false.

Lemma memcpy_page : code ++ drop (length code) (replicate (Z.to_nat 4096) 0) = guest_page.
Proof. vm_compute. reflexivity. Qed.
Lemma memcpy_fits : zlen code ≤ zlen (replicate (Z.to_nat 4096) 0).
Proof. rewrite zlen_replicate. unfold zlen. cbn. lia. Qed.
Lemma zlen_guest_page : zlen guest_page = 4096.
Proof. vm_compute. reflexivity. Qed.

Definition printed : list Z := [52; 10].
Definition last_line : list Z := (zchar <$> String.list_ascii_of_string "KVM_EXIT_HLT") ++ [10].
(** How the program may end. *)
Definition kvm_result (r : Z) (s : vm) : Prop :=
  (r = 0 ∧ failed s = false ∧ out s = printed ++ last_line)
  ∨ (r = 1 ∧ failed s = true ∧ out s `prefix_of` printed).

Section runs.
Context (sizeof_run vcpufd run : Z).
Abbreviation holds := (wpr (E := kvm) kvm_proper (kvm_post sizeof_run)).
Abbreviation can := (may (kvm_post sizeof_run)).

Lemma err_wpr t s : failed s = true → out s `prefix_of` printed → holds (err t) s kvm_result.
Proof. intros H1 H2. cbn. split; [exact I|]. intros _ ? ->. right. auto. Qed.

Lemma errx_wpr t s : failed s = true → out s `prefix_of` printed → holds (errx t) s kvm_result.
Proof. intros H1 H2. cbn. split; [exact I|]. intros _ ? ->. right. auto. Qed.

Lemma ready_runs r o s : ready vcpufd run r o s → kvm_proper (Kvm_run vcpufd) s.
Proof. intros (H1 & (rg & H2 & _) & (sr & H3 & _) & H4 & _). cbn. rewrite H2, H3, H4. eauto. Qed.

(** What the guest does next is what KVM_RUN shows. *)
Lemma ready_exits r o s s' g :
  ready vcpufd run r o s → guest_exec 8 guest_page 4096 0 r = Some g → kvm_exits s s' →
  ∃ n, run_ptr s = Some (run, n)
    ∧ match g with
      | Outs port byte r' => ∃ off, 0 ≤ off < n
          ∧ s' = s <| regs := Some r' |> <| last_exit := Some (Exit_io KVM_EXIT_IO_OUT 1 port 1 off) |> <| run_data := byte |>
      | Halts r' => s' = s <| regs := Some r' |> <| last_exit := Some Exit_hlt |>
      | _ => s' = s <| last_exit := Some (Exit_internal_error 1) |>
      end.
Proof.
  intros (_ & (rg & H2 & E2) & (sr & H3 & E3) & H4 & (n0 & H5 & _) & H6 & _) Hg.
  intros (rg' & sr' & r' & g' & p & n & X1 & X2 & X3 & X4 & X5 & X6). simplify_eq.
  rewrite H6, E2, E3 in X5. rewrite (guest_exec_unique _ _ _ _ _ _ _ Hg X5) in X6.
  eauto.
Qed.

Lemma ready_exits_inv r o s s' g n :
  ready vcpufd run r o s → guest_exec 8 guest_page 4096 0 r = Some g → run_ptr s = Some (run, n) →
  match g with
  | Outs port byte r' => ∃ off, 0 ≤ off < n
      ∧ s' = s <| regs := Some r' |> <| last_exit := Some (Exit_io KVM_EXIT_IO_OUT 1 port 1 off) |> <| run_data := byte |>
  | Halts r' => s' = s <| regs := Some r' |> <| last_exit := Some Exit_hlt |>
  | _ => s' = s <| last_exit := Some (Exit_internal_error 1) |>
  end → kvm_exits s s'.
Proof.
  intros (_ & (rg & H2 & E2) & (sr & H3 & E3) & H4 & _ & H6 & _) Hg Hp Hs.
  exists rg, sr, r, g, run, n. do 4 (split; [done|]). rewrite H6, E2, E3. split; [by eapply guest_exec_runs|done].
Qed.

(** A byte that goes out is printed, and the guest goes on. *)
Lemma run_outs fuel r o b r' s :
  ready vcpufd run r o s → guest_exec 8 guest_page 4096 0 r = Some (Outs 1016 b r') → 0 ≤ b < 256 → o `prefix_of` printed →
  (∀ s', ready vcpufd run r' (o ++ [b]) s' → holds (run_code fuel vcpufd run) s' kvm_result) →
  holds (run_code (S fuel) vcpufd run) s kvm_result.
Proof.
  intros Hs Hg Hb Ho Hk. cbn [run_code]. apply wpr_bind. split; [by eapply ready_runs|].
  destruct (id Hs) as (H1 & H2 & H3 & H4 & H5 & H6 & H7 & H8).
  intros ret s' [[-> ->]|[-> Hx]].
  { apply err_wpr; [done|]. cbn. by rewrite H7. }
  destruct (ready_exits _ _ _ _ _ Hs Hg Hx) as (n & Hp & off & Hoff & ->). cbn [Z.eqb].
  apply wpr_bind. cbn. split; [split; [eauto|done]|]. intros e s' [He ->]. injection He as <-. cbn.
  split; [exists n; auto|]. intros c s' [-> ->]. split; [exact I|]. intros _ s' ->. apply Hk.
  unfold ready. cbn. rewrite H7. assert (u8 (swrap 8 b) = b) as ->.
  { unfold swrap, wrap. change (2 ^ 8) with 256. change (2 ^ (8 - 1)) with 128.
    pose proof (Z.div_mod (b + 128) 256). pose proof (Z.mod_pos_bound (b + 128) 256).
    rewrite <- (Z.mod_unique_pos _ 256 (- ((b + 128) / 256)) b); lia. }
  tauto.
Qed.

Lemma run_halts fuel r r' s :
  ready vcpufd run r printed s → guest_exec 8 guest_page 4096 0 r = Some (Halts r') →
  holds (run_code (S fuel) vcpufd run) s kvm_result.
Proof.
  intros Hs Hg. cbn [run_code]. apply wpr_bind. split; [by eapply ready_runs|].
  destruct (id Hs) as (H1 & H2 & H3 & H4 & (n0 & H5 & _) & H6 & H7 & H8).
  intros ret s' [[-> ->]|[-> Hx]].
  { apply err_wpr; [done|]. cbn. by rewrite H7. }
  destruct (ready_exits _ _ _ _ _ Hs Hg Hx) as (n & Hp & ->). cbn.
  split; [split; [eauto|done]|]. intros e s' [He ->]. injection He as <-. cbn.
  split; [exact I|]. intros _ s' ->. left. cbn. by rewrite H7.
Qed.

Lemma run_code_wpr fuel s :
  ready vcpufd run regs0 [] s → holds (run_code (3 + fuel) vcpufd run) s kvm_result.
Proof.
  intros Hs. eapply run_outs; [exact Hs|exact guest_first|lia|apply prefix_nil|]. clear s Hs. intros s Hs.
  eapply run_outs; [exact Hs|exact guest_second|lia|by exists [10]|]. clear s Hs. intros s Hs.
  by eapply run_halts; [|exact guest_third].
Qed.

(** The same path exists. *)
Lemma run_outs_can fuel r o b r' s Q :
  ready vcpufd run r o s → guest_exec 8 guest_page 4096 0 r = Some (Outs 1016 b r') → 0 ≤ b < 128 →
  (∀ s', ready vcpufd run r' (o ++ [b]) s' → can (run_code fuel vcpufd run) s' Q) →
  can (run_code (S fuel) vcpufd run) s Q.
Proof.
  intros Hs Hg Hb Hk. destruct (id Hs) as (H1 & H2 & H3 & H4 & (n & H5 & Hn) & H6 & H7 & H8).
  cbn. do 2 eexists. split.
  { right. split; [done|]. eapply (ready_exits_inv _ _ _ _ _ n Hs Hg H5). cbn. exists 0. split; [lia|done]. }
  cbn. do 2 eexists. split; [done|]. cbn. do 2 eexists. split; [done|].
  do 2 eexists. split; [done|]. apply Hk. unfold ready. cbn. rewrite H7.
  rewrite swrap_small, wrap_small by (cbn; lia). eauto 10.
Qed.

Lemma run_code_can fuel s :
  ready vcpufd run regs0 [] s → can (run_code (3 + fuel) vcpufd run) s (fun r _ => r = 0).
Proof.
  intros Hs. eapply run_outs_can; [exact Hs|exact guest_first|lia|]. clear s Hs. intros s Hs.
  eapply run_outs_can; [exact Hs|exact guest_second|lia|]. clear s Hs. intros s Hs.
  destruct (id Hs) as (_ & _ & _ & _ & (n & H5 & _) & _).
  cbn. do 2 eexists. split.
  { right. split; [done|]. eapply (ready_exits_inv _ _ _ _ _ n Hs guest_third H5). done. }
  cbn. do 2 eexists. split; [done|]. cbn. do 2 eexists. done.
Qed.
End runs.

(** ** The whole program *)

Ltac fails := (apply err_wpr || apply errx_wpr); [done|apply prefix_nil].
(** The next call is proper; [step_call] leaves its answers. *)
Ltac step_call a Ha :=
  apply wpr_bind; cbn [wpr ask]; split; [cbn; eauto|];
  intros a ? Ha; cbn [kvm_post] in Ha; unfold new_fd, answers_0, or_fails in Ha.
(** An answer is -1, which ends the program, or a good one. *)
Ltac good_or_bad Ha :=
  destruct Ha as [[-> ->]|Ha]; [fails|].

(** The next call can answer [a]. *)
Ltac can_call a :=
  cbn [may mbind prog_mbind pbind ask Z.eqb Pos.eqb negb]; exists a; eexists;
  split; [right; first [split; [lia|reflexivity]|left; split; [lia|reflexivity]]|].

Lemma main_can sizeof_run fuel :
  sizeof_run < 2 ^ 31 → may (kvm_post sizeof_run) (main sizeof_run (3 + fuel)) vm0 (fun r _ => r = 0).
Proof.
  intros Hn. unfold main. can_call 3. can_call 12. can_call 4.
  cbn [may mbind prog_mbind pbind ask Z.eqb]. exists 4096. eexists. split; [split; [lia|reflexivity]|].
  cbn [may mbind prog_mbind pbind ask Z.eqb]. exists tt. eexists. split; [reflexivity|].
  can_call 0. unfold setup_vcpu. can_call 5.
  cbn [may mbind prog_mbind pbind ask Z.eqb]. exists (1 `max` sizeof_run). eexists.
  split; [right; left; split; [lia|split; [lia|reflexivity]]|].
  replace (1 `max` sizeof_run =? -1) with false by lia. rewrite u64_small by lia.
  replace (1 `max` sizeof_run <? sizeof_run) with false by lia.
  cbn [may mbind prog_mbind pbind ask Z.eqb]. exists 8192. eexists. split; [split; [lia|reflexivity]|].
  cbn [may mbind prog_mbind pbind ask Z.eqb]. exists (0, Sregs 1 1 0). eexists. split; [right; split; reflexivity|].
  can_call 0. can_call 0. cbn [Z.eqb]. apply run_code_can. repeat split; cbn; eauto.
  exists (1 `max` sizeof_run). split; [done|lia].
Qed.


(** mmap reports failure with MAP_FAILED, which the program takes for memory: it
    compares with NULL and copies the code to address -1. *)
Lemma mmap_failure_unseen sizeof_run fuel :
  ∃ k, runs (main sizeof_run fuel)
    [existT (P := ans kvm) (Open "/dev/kvm") 3; existT (P := ans kvm) (Get_api_version 3) 12;
     existT (P := ans kvm) (Create_vm 3 0) 4; existT (P := ans kvm) (Mmap_anonymous 4096) (-1)]
    (Do (E := kvm) (Memcpy (-1) code) k).
Proof. eexists. do 4 refine (runs_call (E := kvm) _ _ _ _ _ _). apply runs_here. Qed.

