(* ===== verification/Deferred.v ===== *)
(** * Deferred work

    What the modules that have the kernel run a function later share: work items
    and the life of a module.  [Hrtimer], [Wque] and [SysWq] model the modules. *)

From S2P Require Import Prelude.

(** A work item: never initialised, known to the kernel, or on a queue. *)
Inductive work := Raw | Idle | Queued.
#[export] Instance work_eq : EqDecision work.
Proof. solve_decision. Defined.
(** A module: before, while and after it is loaded. *)
Inductive phase := Absent | Starting | Loaded | Unloaded.
#[export] Instance phase_eq : EqDecision phase.
Proof. solve_decision. Defined.
