(* ===== verification/Hrtimer.v ===== *)
(** * hrtimer/hrtimer.c: a timer and its work

    A timer whose interrupt queues a work item which starts the timer again; timer
    interrupt, worker thread and module are steps of one system.  Shown: while the
    module is loaded exactly one of timer, queue and worker has the token, so that
    it goes on for ever and prints in every tenth round; and what still runs when
    the module is gone. *)

From S2P Require Import Prelude CLib Deferred.

Definition COUNT_INTERVAL : Z := 10.
Definition interval : Z := 1.

(** struct timespec *)
Record timespec := Timespec { tv_sec : Z; tv_nsec : Z }.
Definition ktime_set (secs nsecs : Z) : Z := secs * 1000000000 + nsecs.

(** The result is an unsigned long long. *)
Definition diff_tv (start end_ : timespec) : Z :=
  u64 ((tv_sec end_ - tv_sec start) * 1000000000 + (tv_nsec end_ - tv_nsec start)).

(** The line wq_func_hrtimer prints. *)
Definition tick_line (ktime : Z) (last now : timespec) : string :=
  "ktime:" +:+ padl " " 9 (dec (u64 ktime)) +:+ " ns, hrtimer:" +:+ padl " " 9 (dec (u64 (tv_sec now)))
  +:+ " sec, " +:+ padl " " 9 (dec (u64 (tv_nsec now))) +:+ " ns, interval_delay="
  +:+ dec (u64 (diff_tv last now - u32 (u32 (interval * 1000) * COUNT_INTERVAL)) / COUNT_INTERVAL)
  +:+ " ns" +:+ nl.

(** The worker inside wq_func_hrtimer: at its start, and behind hrtimer_start. *)
Inductive wpc := Begin | Rest.

Record sys := Sys {
  module : phase;
  armed : option Z;          (* hr_timer with its delay in ns *)
  wq_hrtimer : work;
  worker : option wpc;
  ktime : Z; count : Z; uptimeLast : timespec;
  log : list string;         (* the kernel log *)
  rounds : nat;              (* calls of wq_func_hrtimer that went through *)
  bad : bool;                (* the module's code or data was used when it is not there *)
}.
#[export] Instance sys_eta : Eta sys := fun s =>
  Sys (module s) (armed s) (wq_hrtimer s) (worker s) (ktime s) (count s) (uptimeLast s) (log s) (rounds s) (bad s).
Definition start : sys := Sys Absent None Raw None 0 0 (Timespec 0 0) [] 0 false.

Definition printk (t : string) (s : sys) : sys := s <| log := log s ++ [t] |>.

(** hrtimer_start *)
Definition hrtimer_start (s : sys) : sys := s <| armed := Some (ktime s) |>.

(** schedule_work: a queued item stays as it is. *)
Definition schedule_work (s : sys) : sys :=
  match wq_hrtimer s with
  | Raw => s <| bad := true |>
  | Idle | Queued => s <| wq_hrtimer := Queued |>
  end.

Definition my_hrtimer_callback (s : sys) : sys := schedule_work s.

(** wq_func_hrtimer, up to hrtimer_start and behind it. *)
Definition wq_func_start (s : sys) : sys :=
  hrtimer_start (s <| ktime := ktime_set interval 0 |>).
Definition wq_func_print (uptime : timespec) (s : sys) : sys :=
  let s := if count s mod COUNT_INTERVAL =? 0
           then (printk (tick_line (ktime s) (uptimeLast s) uptime) s) <| uptimeLast := uptime |>
           else s in
  s <| count := u32 (count s + 1) |>.

(** module_hrtimer_init, up to INIT_WORK and from there on. *)
Definition init_start (uptime : timespec) (s : sys) : sys :=
  let s := printk ("HR Timer module installing" +:+ nl) s in
  let s := hrtimer_start (s <| ktime := ktime_set (interval / 1000000) (interval mod 1000000 * 1000) |>) in
  let s := s <| uptimeLast := uptime |> in
  printk ("hrtimer:" +:+ padl " " 9 (dec (u64 (tv_sec uptime))) +:+ " sec, " +:+ padl " " 9 (dec (u64 (tv_nsec uptime)))
          +:+ " ns" +:+ nl) s.
Definition init_work (s : sys) : sys := s <| wq_hrtimer := Idle |>.

(** hrtimer_cancel tells whether it stopped the timer. *)
Definition module_hrtimer_exit (s : sys) : sys :=
  let ret := bool_decide (armed s ≠ None) in
  let s := s <| armed := None |> in
  let s := if ret then printk ("The timer was still in use..." +:+ nl) s else s in
  printk ("HR Timer module uninstalling" +:+ nl) s.

(** Code of the module is run: not well when it is gone. *)
Definition runs_code (s : sys) : sys := if decide (module s = Unloaded) then s <| bad := true |> else s.

Inductive step (s : sys) : sys → Prop :=
| s_load up : module s = Absent → step s ((init_start up s) <| module := Starting |>)
| s_init : module s = Starting → step s ((init_work s) <| module := Loaded |>)
| s_unload : module s = Loaded → step s ((module_hrtimer_exit s) <| module := Unloaded |>)
| s_expire d : armed s = Some d → step s (my_hrtimer_callback (runs_code (s <| armed := None |>)))
| s_work : wq_hrtimer s = Queued → worker s = None →
    step s (s <| wq_hrtimer := Idle |> <| worker := Some Begin |>)
| s_begin : worker s = Some Begin → step s ((wq_func_start (runs_code s)) <| worker := Some Rest |>)
| s_rest up : worker s = Some Rest →
    step s ((wq_func_print up (runs_code s)) <| worker := None |> <| rounds := S (rounds s) |>).
Definition reachable : sys → Prop := rtc step start.

(** ** The token *)

(** How often the next round is already under way. *)
Definition tokens (s : sys) : Z :=
  (if armed s then 1 else 0) + (if decide (wq_hrtimer s = Queued) then 1 else 0)
  + (match worker s with Some Begin => 1 | _ => 0 end).

(** The lines printed in the first [n] rounds, the count being 32 bits wide. *)
Fixpoint prints (n : nat) : Z :=
  match n with
  | O => 0
  | S n => prints n + (if u32 (Z.of_nat n) mod COUNT_INTERVAL =? 0 then 1 else 0)
  end.

Record inv (s : sys) : Prop := Inv {
  inv_absent : module s = Absent → s = start;
  inv_starting : module s = Starting → worker s = None ∧ wq_hrtimer s = Raw ∧ (bad s = false → tokens s = 1);
  inv_loaded : module s = Loaded → wq_hrtimer s ≠ Raw ∧ (bad s = false → tokens s = 1);
  inv_count : count s = u32 (Z.of_nat (rounds s));
  inv_lines : module s = Starting ∨ module s = Loaded → zlen (log s) = 2 + prints (rounds s);
}.

Lemma u32_succ a : u32 (u32 a + 1) = u32 (a + 1).
Proof. unfold wrap. by rewrite Zplus_mod_idemp_l. Qed.

Lemma prints_small n : Z.of_nat n ≤ 2 ^ 32 → prints n = (Z.of_nat n + 9) / 10.
Proof.
  induction n as [|n IH]; intros Hn; [done|]. cbn [prints]. rewrite IH, u32_small by lia.
  unfold COUNT_INTERVAL. rewrite Nat2Z.inj_succ. unfold Z.succ.
  destruct (Z.eqb_spec (Z.of_nat n mod 10) 0); Z.to_euclidean_division_equations; lia.
Qed.

Lemma wq_func_print_lines up s :
  zlen (log (wq_func_print up s)) = zlen (log s) + (if count s mod COUNT_INTERVAL =? 0 then 1 else 0).
Proof. unfold wq_func_print. case_match; cbn; rewrite ?zlen_app; unfold zlen; cbn; lia. Qed.

Lemma hrtimer_inv_start : inv start.
Proof. split; cbn; (done || naive_solver). Qed.

Lemma runs_code_loaded s : module s ≠ Unloaded → runs_code s = s.
Proof. intros H. unfold runs_code. by rewrite decide_False. Qed.

Lemma wq_func_print_same up s :
  let s' := wq_func_print up s in
  module s' = module s ∧ armed s' = armed s ∧ wq_hrtimer s' = wq_hrtimer s ∧ bad s' = bad s ∧ rounds s' = rounds s
  ∧ count s' = u32 (count s + 1).
Proof. unfold wq_func_print. case_match; done. Qed.

(** The counting of tokens by cases. *)
Ltac count_tokens Hs Hl :=
  let Hm := fresh "Hm" in let HT := fresh "HT" in let Hb := fresh "Hb" in
  intros Hm; first [destruct (Hs Hm) as (? & ? & HT)|destruct (Hl Hm) as (? & HT)];
  repeat split; try congruence; intros Hb; try discriminate; specialize (HT Hb);
  unfold tokens in *; cbn in *; repeat (case_match; cbn in *); simplify_eq; try done; lia.

Lemma hrtimer_inv_step s s' : inv s → step s s' → inv s'.
Proof.
  intros [Ha Hs Hl Hc Hn] Hst. destruct Hst as [up Hm|Hm|Hm|d Hd|Hq Hw|Hw|up Hw].
  - rewrite (Ha Hm). by split.
  - destruct (Hs Hm) as (H1 & H2 & H3). split; cbn; try done.
    + intros _. split; [done|]. intros Hb. specialize (H3 Hb). unfold tokens in *. cbn. rewrite H2 in H3.
      rewrite !decide_False in * by done. exact H3.
    + intros _. apply Hn. by left.
  - split; unfold module_hrtimer_exit; destruct (bool_decide _); cbn; (done || by intros [|]).
  - destruct (decide (module s = Unloaded)) as [Hu|Hu].
    { split; unfold my_hrtimer_callback, schedule_work, runs_code; cbn; rewrite ?decide_True by done; cbn;
        destruct (wq_hrtimer s); cbn; try (intros; congruence); try done; intros [|]; congruence. }
    rewrite runs_code_loaded by done.
    assert (module s ≠ Absent) as Hna by (intros E; rewrite (Ha E) in Hd; done).
    split; unfold my_hrtimer_callback, schedule_work; cbn; destruct (wq_hrtimer s) eqn:Ew; cbn; try done;
      count_tokens Hs Hl.
  - assert (module s ≠ Absent) as Hna by (intros E; rewrite (Ha E) in Hq; done).
    split; cbn; try done; count_tokens Hs Hl.
  - assert (module s ≠ Absent) as Hna by (intros E; rewrite (Ha E) in Hw; done).
    unfold runs_code. case_decide as Hu.
    + split; cbn; try (intros; congruence); try done; intros [|]; congruence.
    + split; cbn; try done; count_tokens Hs Hl.
  - assert (module s ≠ Absent) as Hna by (intros E; rewrite (Ha E) in Hw; done).
    set (t := runs_code s). assert (module t = module s ∧ armed t = armed s ∧ wq_hrtimer t = wq_hrtimer s
      ∧ count t = count s ∧ rounds t = rounds s ∧ log t = log s) as (T1 & T2 & T3 & T4 & T5 & T6).
    { unfold t, runs_code. by case_decide. }
    assert (module s ≠ Unloaded → bad t = bad s) as T7 by (intros; unfold t; by rewrite runs_code_loaded).
    destruct (wq_func_print_same up t) as (E1 & E2 & E3 & E4 & E5 & E6).
    pose proof (wq_func_print_lines up t) as E7. clearbody t. generalize dependent (wq_func_print up t). intros p.
    intros E1 E2 E3 E4 E5 E6 E7.
    split; cbn; rewrite ?E1, ?E2, ?E3, ?E4, ?E5, ?E6, ?T1, ?T2, ?T3, ?T4, ?T5; try (intros; congruence).
    + intros Hm. destruct (Hs Hm) as [H1 _]. congruence.
    + intros Hm. rewrite T7 by congruence. destruct (Hl Hm) as [H1 H2]. split; [done|]. intros Hb.
      specialize (H2 Hb). unfold tokens in *. cbn. rewrite Hw in H2. by rewrite ?E2, ?E3, ?T2, ?T3.
    + rewrite Hc, u32_succ. f_equal. lia.
    + rewrite E7, T4, T6. intros Hm. rewrite (Hn Hm), Hc. cbn [prints]. lia.
Qed.

Lemma hrtimer_inv_reachable s : reachable s → inv s.
Proof.
  intros H. assert (inv start) as H0 by apply hrtimer_inv_start. unfold reachable in H.
  induction H as [|s1 s2 s3 Hs _ IH]; [done|apply IH; by eapply hrtimer_inv_step].
Qed.

(** ** Going on *)

(** Another round goes through. *)
Definition goes_on (s : sys) : Prop :=
  module s = Loaded → bad s = false → wq_hrtimer s ≠ Raw →
  ∃ s', rtc step s s' ∧ rounds s' = S (rounds s) ∧ module s' = Loaded ∧ bad s' = false.

Lemma goes_on_step s s' :
  step s s' → (module s = Loaded → bad s = false → wq_hrtimer s ≠ Raw →
    module s' = Loaded ∧ bad s' = false ∧ wq_hrtimer s' ≠ Raw ∧ rounds s' = rounds s) →
  goes_on s' → goes_on s.
Proof.
  intros Hs Hk Hg Hm Hb Hw. destruct (Hk Hm Hb Hw) as (H1 & H2 & H3 & <-).
  destruct (Hg H1 H2 H3) as (t & Ht & Hr). exists t. split; [by eapply rtc_l|done].
Qed.

Lemma rest_goes_on s : worker s = Some Rest → goes_on s.
Proof.
  intros Hw Hm Hb _. eexists. split; [apply rtc_once, (s_rest _ (Timespec 0 0) Hw)|].
  rewrite runs_code_loaded by congruence. unfold wq_func_print. case_match; done.
Qed.
Lemma begin_goes_on s : worker s = Some Begin → goes_on s.
Proof.
  intros Hw Hm. revert Hm. destruct (decide (module s = Loaded)) as [Hm|]; [|done]. intros _.
  eapply (goes_on_step _ _ (s_begin _ Hw)); [|by apply rest_goes_on|done].
  rewrite runs_code_loaded by congruence. done.
Qed.
Lemma queued_goes_on s : wq_hrtimer s = Queued → worker s = None → goes_on s.
Proof. intros Hq Hw. apply (goes_on_step _ _ (s_work _ Hq Hw)); [done|by apply begin_goes_on]. Qed.
Lemma armed_goes_on s d : armed s = Some d → worker s = None → goes_on s.
Proof.
  intros Hd Hw Hm Hb Hr. revert Hm Hb Hr.
  apply (goes_on_step _ _ (s_expire _ _ Hd)); unfold runs_code; cbn.
  - intros Hm Hb Hr. rewrite decide_False by congruence. unfold my_hrtimer_callback, schedule_work. cbn.
    by destruct (wq_hrtimer s).
  - case_decide as Hu; [intros Hm; unfold my_hrtimer_callback, schedule_work in Hm; cbn in Hm;
      destruct (wq_hrtimer s); cbn in Hm; congruence|].
    unfold my_hrtimer_callback, schedule_work. cbn. destruct (wq_hrtimer s) eqn:E; [by cbn|..]; by apply queued_goes_on.
Qed.

(** C39: while the module is loaded, and unless the timer expired before its work
    item was initialised, exactly one of the timer, the queue and the start of the
    worker's function holds the next round, in every interleaving of timer
    interrupt, worker and module: rounds neither overlap nor get lost, from every
    such state another round goes through, the counter counts them in 32 bits, and
    the work has printed a line in every tenth round, the first one included. *)
Theorem hrtimer_one_token s :
  reachable s → module s = Loaded → bad s = false →
  tokens s = 1 ∧ count s = u32 (Z.of_nat (rounds s))
  ∧ (Z.of_nat (rounds s) ≤ 2 ^ 32 → zlen (log s) = 2 + (Z.of_nat (rounds s) + 9) / 10)
  ∧ ∃ s', rtc step s s' ∧ rounds s' = S (rounds s) ∧ module s' = Loaded ∧ bad s' = false.
Proof.
  intros [_ _ Hl Hc Hn]%hrtimer_inv_reachable Hm Hb. destruct (Hl Hm) as [Hr Ht]. specialize (Ht Hb).
  split; [done|]. split; [done|]. split; [intros H; rewrite <- prints_small by done; apply Hn; by right|].
  destruct (worker s) as [[|]|] eqn:Hw; [by apply begin_goes_on|by apply rest_goes_on|].
  unfold tokens in Ht. rewrite Hw in Ht. destruct (armed s) as [d|] eqn:Hd; [by eapply armed_goes_on|].
  case_decide as Hq; [by apply queued_goes_on|lia].
Qed.

(** Loaded, one second on, and between two rounds. *)
Definition now : timespec := Timespec 100 0.
Definition loaded : sys := (init_work ((init_start now start) <| module := Starting |>)) <| module := Loaded |>.
Lemma loaded_reachable : reachable loaded.
Proof. eapply rtc_l; [by apply (s_load _ now)|]. eapply rtc_l; [by apply s_init|apply rtc_refl]. Qed.
Definition second_round : sys :=
  Sys Loaded None Queued None 1000000000 1 now
    (log loaded ++ [tick_line 1000000000 now now]) 1 false.
Lemma second_round_reachable : reachable second_round.
Proof.
  unfold reachable. etrans; [apply loaded_reachable|].
  eapply rtc_l; [by eapply s_expire|]. eapply rtc_l; [by apply s_work|].
  eapply rtc_l; [by apply s_begin|]. eapply rtc_l; [by apply (s_rest _ now)|].
  eapply rtc_l; [by eapply s_expire|]. apply rtc_refl.
Qed.

Lemma hrtimer_one_token_witness :
  tokens second_round = 1 ∧ zlen (log second_round) = 3
  ∧ ∃ s', rtc step second_round s' ∧ rounds s' = 2%nat ∧ module s' = Loaded ∧ bad s' = false.
Proof.
  destruct (hrtimer_one_token second_round second_round_reachable) as (H1 & _ & H2 & H3); [done|done|].
  split; [exact H1|]. split; [apply H2; vm_compute; discriminate|exact H3].
Defined.

(** The timer runs for a microsecond before the work item is initialised. *)
Lemma expires_before_init : ∃ s, reachable s ∧ module s = Starting ∧ bad s = true.
Proof.
  eexists. split; [|split].
  - eapply rtc_l; [by apply (s_load _ now)|]. eapply rtc_l; [by eapply s_expire|apply rtc_refl].
  - done.
  - done.
Qed.

(** Unloading cancels the timer, not the work: queued work runs without its module. *)
Lemma work_runs_unloaded : ∃ s, reachable s ∧ module s = Unloaded ∧ bad s = true.
Proof.
  eexists. split; [|split].
  - unfold reachable. etrans; [apply second_round_reachable|].
    eapply rtc_l; [by apply s_unload|]. eapply rtc_l; [by apply s_work|]. eapply rtc_l; [by apply s_begin|apply rtc_refl].
  - done.
  - done.
Qed.

(** With rounds of exactly one second the delay is printed as 999999000 ns, and in
    the first round as a number near 2^64 / 10: the nanoseconds of ten rounds less
    ten thousand. *)
Lemma interval_delay_of_exact_rounds :
  u64 (diff_tv now (Timespec 110 0) - u32 (u32 (interval * 1000) * COUNT_INTERVAL)) / COUNT_INTERVAL = 999999000
  ∧ u64 (diff_tv now (Timespec 100 2000) - u32 (u32 (interval * 1000) * COUNT_INTERVAL)) / COUNT_INTERVAL
    = 1844674407370954361.
Proof. split; vm_compute; reflexivity. Qed.
