(* ===== verification/Wque.v ===== *)
(** * workqueue/wque.c: a delayed work item

    A delayed work item on a queue of the module's own: its timer, the queue and the
    module as one system. *)

From S2P Require Import Prelude CLib Deferred.

(** The queue of the module. *)
Inductive queue := Null | Live | Destroyed.

Record sys := Sys {
  module : phase; wq : queue;
  timer : bool;              (* of the delayed work item *)
  queued : bool; onesec : Z; log : list string; bad : bool;
}.
#[export] Instance sys_eta : Eta sys := fun s =>
  Sys (module s) (wq s) (timer s) (queued s) (onesec s) (log s) (bad s).
Definition start : sys := Sys Absent Null false false 0 [] false.
Definition pr_info (t : string) (s : sys) : sys := s <| log := log s ++ [t] |>.

Definition wque_work_handler (s : sys) : sys := pr_info ("wque work " +:+ dec (u32 (onesec s)) +:+ " jiffies" +:+ nl) s.

(** [HZ]: what msecs_to_jiffies(1000) answers; [ok]: create_singlethread_workqueue
    succeeds. *)
Definition wque_init (HZ : Z) (ok : bool) (s : sys) : sys :=
  let s := s <| onesec := HZ |> in
  let s := pr_info ("wque loaded " +:+ dec (u32 (onesec s)) +:+ " jiffies" +:+ nl) s in
  let s := match wq s with Null => s <| wq := if ok then Live else Null |> | _ => s end in
  match wq s with Null => s | _ => s <| timer := true |> end.

(** destroy_workqueue first does the work that is queued. *)
Definition destroy_workqueue (s : sys) : sys :=
  let s := if queued s then (wque_work_handler s) <| queued := false |> else s in
  s <| wq := Destroyed |>.
Definition wque_exit (s : sys) : sys :=
  let s := match wq s with Null => s | _ => destroy_workqueue s end in
  pr_info ("wque exit" +:+ nl) s.

Inductive step (HZ : Z) (s : sys) : sys → Prop :=
| s_load ok : module s = Absent → step HZ s ((wque_init HZ ok s) <| module := Loaded |>)
| s_unload : module s = Loaded → step HZ s ((wque_exit s) <| module := Unloaded |>)
| s_expire : timer s = true →
    step HZ s (match wq s with
               | Live => s <| timer := false |> <| queued := true |>
               | _ => s <| timer := false |> <| bad := true |>
               end)
| s_work : queued s = true → step HZ s ((wque_work_handler s) <| queued := false |>).
Definition reachable (HZ : Z) : sys → Prop := rtc (step HZ) start.

Definition loaded_line (HZ : Z) : string := "wque loaded " +:+ dec (u32 HZ) +:+ " jiffies" +:+ nl.
Definition work_line (HZ : Z) : string := "wque work " +:+ dec (u32 HZ) +:+ " jiffies" +:+ nl.

(** The timer starts once; the handler prints once, or is still to come. *)
Definition inv (HZ : Z) (s : sys) : Prop :=
  match module s with
  | Absent => s = start
  | Loaded => bad s = false ∧ onesec s = HZ
      ∧ ((wq s = Null ∧ timer s = false ∧ queued s = false ∧ log s = [loaded_line HZ])
         ∨ (wq s = Live ∧ ((timer s = true ∧ queued s = false ∧ log s = [loaded_line HZ])
              ∨ (timer s = false ∧ queued s = true ∧ log s = [loaded_line HZ])
              ∨ (timer s = false ∧ queued s = false ∧ log s = [loaded_line HZ; work_line HZ]))))
  | Unloaded => wq s ≠ Live ∧ queued s = false ∧ (timer s = false ∧ bad s = false ∨ work_line HZ ∉ log s)
  | Starting => False
  end.

Lemma work_line_new HZ : work_line HZ ≠ loaded_line HZ ∧ work_line HZ ≠ "wque exit" +:+ nl.
Proof. done. Qed.

Lemma wque_inv_step HZ s s' : inv HZ s → step HZ s s' → inv HZ s'.
Proof.
  intros Hi Hs. destruct (work_line_new HZ) as [L1 L2].
  destruct Hs as [ok Hm|Hm|Ht|Hq]; unfold inv in *; rewrite ?Hm in Hi.
  - subst s. destruct ok; cbn; auto 10.
  - destruct Hi as (Hb & Ho & [(W & T & Q & L)|(W & [(T & Q & L)|[(T & Q & L)|(T & Q & L)]])]);
      unfold wque_exit, destroy_workqueue; rewrite W, ?Q; cbn; rewrite ?L; (split; [congruence|]); (split; [done|]);
      try (left; split; done); right; rewrite !elem_of_app, !list_elem_of_singleton; naive_solver.
  - destruct (module s) eqn:Hm; [by subst|done| |].
    + destruct Hi as (Hb & Ho & [(W & T & Q & L)|(W & [(T & Q & L)|[(T & Q & L)|(T & Q & L)]])]); try congruence.
      rewrite W. cbn. rewrite Hm. auto 10.
    + destruct Hi as (W & Q & [[T _]|L]); [congruence|]. destruct (wq s) eqn:Ew; [|done|]; cbn; rewrite Hm, Ew; auto.
  - destruct (module s) eqn:Hm; [by subst|done| |].
    + destruct Hi as (Hb & Ho & [(W & T & Q & L)|(W & [(T & Q & L)|[(T & Q & L)|(T & Q & L)]])]); try congruence.
      cbn. rewrite Hm, L, Ho. cbn. auto 10.
    + destruct Hi as (_ & Q & _). congruence.
Qed.

(** The timer of the work item runs into the destroyed queue only when the module
    is unloaded before the work has been done. *)
Lemma wque_bad_without_work HZ s : reachable HZ s → bad s = true → module s = Unloaded ∧ work_line HZ ∉ log s.
Proof.
  intros H Hb. assert (inv HZ start) as H0 by done. unfold reachable in H.
  assert (inv HZ s) as Hi by (induction H as [|s1 s2 s3 Hs _ IH]; [done|apply IH; [done|by eapply wque_inv_step]]).
  unfold inv in Hi. destruct (module s); [by rewrite Hi in Hb|done|by destruct Hi; congruence|]. split; [done|].
  destruct Hi as (_ & _ & [[_ Hb']|L]); [congruence|done].
Qed.

(** It does, within the first second. *)
Lemma wque_timer_outlives : ∃ s, reachable 250 s ∧ module s = Unloaded ∧ bad s = true.
Proof.
  eexists. split; [|split].
  - eapply rtc_l; [by apply (s_load _ _ true)|]. eapply rtc_l; [by apply s_unload|].
    eapply rtc_l; [by apply s_expire|apply rtc_refl].
  - done.
  - done.
Qed.
