(* ===== verification/SysWq.v ===== *)
(** * workqueue/sys_wq.c: work from an interrupt

    A keyboard interrupt that queues a work item on the kernel's queue: interrupt,
    worker and module as one system. *)

From S2P Require Import Prelude CLib Deferred.

Definition MY_DEV_ID : Z := 1226.

Record sys := Sys {
  module : phase; mywork : work; running : bool;
  log : list string; presses : Z; called : Z; bad : bool;
}.
#[export] Instance sys_eta : Eta sys := fun s =>
  Sys (module s) (mywork s) (running s) (log s) (presses s) (called s) (bad s).
Definition start : sys := Sys Absent Raw false [] 0 0 false.
Definition printk (t : string) (s : sys) : sys := s <| log := log s ++ [t] |>.

(** INIT_WORK on an item that is on a queue cuts the queue's list. *)
Definition init_mywork (s : sys) : sys :=
  match mywork s with Queued => s <| bad := true |> | _ => s <| mywork := Idle |> end.
Definition schedule_work (s : sys) : sys := s <| mywork := Queued |>.

(** [devid]: of the device the handler is given; [key_code]: what inb reads from the
    keyboard. *)
Definition myirq_handler (devid key_code : Z) (s : sys) : sys :=
  if MY_DEV_ID =? devid then
    if key_code =? 1 then
      let s := (printk ("ESC key is pressed! " +:+ nl) s) <| presses := presses s + 1 |> in
      schedule_work (init_mywork s)
    else s
  else s.
Definition mywork_handler (s : sys) : sys :=
  (printk ("mywork_handler is called. " +:+ nl) s) <| called := called s + 1 |>.

(** [ret]: what request_irq answers; the value returned, and the state. *)
Definition myirq_init (irq ret : Z) (s : sys) : Z * sys :=
  let s := printk ("myirq_init is called. " +:+ nl) s in
  if negb (ret =? 0) then (-1, printk ("register irq[" +:+ dec irq +:+ "] handler failed. " +:+ nl) s)
  else (0, printk ("register irq[" +:+ dec irq +:+ "] handler success. " +:+ nl) s).
Definition myirq_exit (s : sys) : sys := printk ("myirq_exit is called. " +:+ nl) s.

(** The interrupt is registered while the module is loaded. *)
Inductive step (irq : Z) (s : sys) : sys → Prop :=
| s_load ret : module s = Absent →
    step irq s (let '(rc, s') := myirq_init irq ret s in if rc =? 0 then s' <| module := Loaded |> else s)
| s_key key : module s = Loaded → 0 ≤ key < 256 → step irq s (myirq_handler MY_DEV_ID key s)
| s_take : mywork s = Queued → running s = false → step irq s (s <| mywork := Idle |> <| running := true |>)
| s_run : running s = true →
    step irq s (if decide (module s = Unloaded) then s <| bad := true |> <| running := false |>
                else (mywork_handler s) <| running := false |>)
| s_unload : module s = Loaded → step irq s ((myirq_exit s) <| module := Unloaded |>).
Definition reachable (irq : Z) : sys → Prop := rtc (step irq) start.

Definition due (s : sys) : Z :=
  (if decide (mywork s = Queued) then 1 else 0) + (if running s then 1 else 0).

(** Every press of ESC has its call of the handler, done or due, unless the item
    was initialised while it was queued or the module went away first. *)
Lemma sys_wq_each_press irq s : reachable irq s → bad s = false → presses s = called s + due s.
Proof.
  intros H. unfold reachable in H. assert (bad start = false → presses start = called start + due start) as H0 by done.
  induction H as [|s1 s2 s3 Hs _ IH]; [done|apply IH]. clear IH.
  destruct Hs as [ret Hm|key Hm Hk|Hq Hr|Hr|Hm].
  - unfold myirq_init. by destruct (ret =? 0).
  - unfold myirq_handler. cbn [Z.eqb Pos.eqb MY_DEV_ID]. case_match; [|done].
    unfold init_mywork, schedule_work. cbn. destruct (mywork s1) eqn:E; cbn; [| |done];
      intros Hb; specialize (H0 Hb); unfold due in *; cbn; rewrite E in H0; repeat case_decide; congruence || lia.
  - intros Hb. specialize (H0 Hb). unfold due in *. cbn. rewrite Hq, Hr in H0. exact H0.
  - case_decide; cbn; [done|]. intros Hb. specialize (H0 Hb). unfold due in *. cbn. rewrite Hr in H0. lia.
  - exact H0.
Qed.

(** A second press before the worker came to the first, or unloading with work on
    the queue. *)
Lemma sys_wq_second_press : ∃ s, reachable 1 s ∧ module s = Loaded ∧ bad s = true.
Proof.
  eexists. split; [|split].
  - eapply rtc_l; [by apply (s_load _ _ 0)|]. eapply rtc_l; [by apply (s_key _ _ 1)|].
    eapply rtc_l; [by apply (s_key _ _ 1)|apply rtc_refl].
  - done.
  - done.
Qed.
Lemma sys_wq_unloaded_work : ∃ s, reachable 1 s ∧ module s = Unloaded ∧ bad s = true.
Proof.
  eexists. split; [|split].
  - eapply rtc_l; [by apply (s_load _ _ 0)|]. eapply rtc_l; [by apply (s_key _ _ 1)|].
    eapply rtc_l; [by apply s_unload|]. eapply rtc_l; [by apply s_take|].
    eapply rtc_l; [by apply s_run|apply rtc_refl].
  - done.
  - done.
Qed.
