(* ===== verification/Threadsnoop.v ===== *)
(** * bpf/threadsnoop.c and threadsnoop.bpf.c: thread creations

    The BPF program that a call of pthread_create runs, the callback that prints
    its event, and the program that loads it, as a program over the calls of
    libbpf and its helpers.  libbpf is the relation [snoop_post]: which calls may
    fail, and what they leave to give back.  Shown: every way out gives back what
    was taken; which failures the exit status hides, and what the time printed is. *)

From S2P Require Import Prelude CLib Calls.

(** ** The BPF program *)

Definition TASK_COMM_LEN : Z := 16.

(** struct event *)
Record event := Event { ts : Z; pid : Z; comm : string; start : Z; func : string }.
#[export] Instance event_eta : Eta event := fun e => Event (ts e) (pid e) (comm e) (start e) (func e).

(** What the helpers answer: the ids and the name of the caller, the clock, and the
    third argument of the call probed. *)
Record bpf_ctx := BpfCtx { pid_tgid : Z; ktime_ns : Z; parm3 : Z; current_comm : string }.

(** The name is cut to the field, with its NUL. *)
Definition get_comm (name : string) : string := substring 0 (Z.to_nat (TASK_COMM_LEN - 1)) name.

(** The event that goes out; the value returned is 0. *)
Definition probe_entry (ctx : bpf_ctx) : event :=
  let tgid := u32 (Z.shiftr (pid_tgid ctx) 32) in
  let event := Event 0 0 "" 0 "" in
  let event := event <| ts := ktime_ns ctx |> <| pid := tgid |> in
  let event := event <| start := parm3 ctx |> in
  event <| comm := get_comm (current_comm ctx) |>.
Definition handle_entry (ctx : bpf_ctx) : event := probe_entry ctx.

(** ** The program *)

(** [Poll]: how many events came, or an error; the events are handed to the
    callback meanwhile. *)
Inductive snoop_call :=
| Argp_parse | Bump_memlock_rlimit | Bpf_open | Bpf_load (obj : Z) | Syms_cache_new
| Get_elf_func_offset (path func : string) | Attach_uprobe (obj : Z) (path : string) (off : Z) | Get_error (link : Z)
| Perf_buffer_new (obj pages : Z) | Signal | Poll (pb timeout : Z) | Exiting
| Perf_buffer_free (pb : Z) | Bpf_destroy (obj : Z) | Syms_cache_free (c : Z)
| Get_syms (c pid : Z) | Map_addr (syms addr : Z)
| Printf (s : string) | Warn (s : string).
Definition snoop_ans (c : snoop_call) : Type :=
  match c with
  | Perf_buffer_free _ | Bpf_destroy _ | Syms_cache_free _ | Printf _ | Warn _ => unit
  | Signal | Exiting => bool
  | Map_addr _ _ => option string
  | Poll _ _ => Z * list event
  | _ => Z
  end.
Definition snoop : api := Api snoop_call snoop_ans.
Abbreviation io := (prog snoop).
Abbreviation req c := (ask (E := snoop) c).

Definition PERF_BUFFER_PAGES : Z := 16.
Definition PERF_POLL_TIMEOUT_MS : Z := 100.
Definition libpthread : string := "/usr/lib64/libpthread-2.31.so".

(** argp's parser: the option it knows shows the help text. *)
Definition parse_arg (key : Z) : Z + unit := if key =? zchar "h" then inr tt else inl 7.

(** The milliseconds printed: start_ts is a local variable of 32 bits, set from the
    event itself. *)
Definition time_shown (event : event) : Z :=
  let start_ts := 0 in
  let start_ts := if start_ts =? 0 then u32 (ts event) else start_ts in
  u64 (ts event - start_ts) / 1000000.
Definition event_line (event : event) : string :=
  padr 10 (dec (i64 (time_shown event))) +:+ " " +:+ padr 6 (dec (i32 (pid event))) +:+ " "
  +:+ padr 16 (comm event) +:+ " " +:+ nl.

Definition handle_event (syms_cache : Z) (event : event) : io unit :=
  syms ← req (Get_syms syms_cache (pid event));
  _ ← (if syms =? 0 then req (Warn ("failed to get syms" +:+ nl)) else Ret tt);
  sym ← req (Map_addr syms (pid event));
  _ ← req (Printf (match sym with
                   | Some name => "    " +:+ name +:+ nl
                   | None => "    [unknown]" +:+ nl
                   end));
  req (Printf (event_line event)).
Fixpoint handle_events (syms_cache : Z) (events : list event) : io unit :=
  match events with
  | [] => Ret tt
  | e :: events => _ ← handle_event syms_cache e; handle_events syms_cache events
  end.

Definition attach_uprobes (obj : Z) : io Z :=
  func_off ← req (Get_elf_func_offset libpthread "pthread_create");
  if func_off <? 0 then
    _ ← req (Warn ("could not find pthread_create in " +:+ libpthread +:+ nl)); Ret (-1)
  else
  link ← req (Attach_uprobe obj libpthread func_off);
  err ← req (Get_error link);
  if negb (err =? 0) then
    _ ← req (Warn ("failed to attach pthread_create: " +:+ dec err +:+ nl)); Ret (-1)
  else Ret 0.

(** The loop; the value of err it leaves with. *)
Fixpoint snoop_loop (fuel : nat) (syms_cache pb : Z) : io Z :=
  match fuel with
  | O => Again
  | S fuel =>
      a ← req (Poll pb PERF_POLL_TIMEOUT_MS);
      let '(err, events) := a in
      _ ← handle_events syms_cache events;
      if err <? 0 then
        _ ← req (Warn ("error polling perf buffer: " +:+ dec err +:+ nl)); Ret err
      else
      exiting ← req Exiting;
      if exiting : bool then Ret err else snoop_loop fuel syms_cache pb
  end.

(** From the cache on: err and pb as they are at the label cleanup. *)
Definition snoop_trace (fuel : nat) (obj syms_cache : Z) : io (Z * Z) :=
  err ← attach_uprobes obj;
  if negb (err =? 0) then Ret (err, 0)
  else
  pb ← req (Perf_buffer_new obj PERF_BUFFER_PAGES);
  err ← req (Get_error pb);
  if negb (err =? 0) then
    _ ← req (Warn ("failed to open perf buffer: " +:+ dec err +:+ nl)); Ret (err, pb)
  else
  ok ← req Signal;
  if negb ok then
    _ ← req (Warn ("can't set signal handler: " +:+ nl)); Ret (err, pb)
  else
  _ ← req (Printf (padr 8 "TIME(ms)" +:+ " " +:+ padr 7 "PID" +:+ " " +:+ padr 16 "COMM" +:+ " " +:+ padr 10 "FUNC" +:+ nl));
  err ← snoop_loop fuel syms_cache pb;
  Ret (err, pb).

Definition main (fuel : nat) : io Z :=
  err ← req Argp_parse;
  if negb (err =? 0) then Ret err
  else
  err ← req Bump_memlock_rlimit;
  if negb (err =? 0) then
    _ ← req (Warn ("failed to increase rlimit: " +:+ dec err +:+ nl)); Ret 1
  else
  obj ← req Bpf_open;
  if obj =? 0 then
    _ ← req (Warn ("failed to open BPF object" +:+ nl)); Ret 1
  else
  err ← req (Bpf_load obj);
  r ← (if negb (err =? 0) then
         _ ← req (Warn ("failed to load BPF object: " +:+ dec err +:+ nl)); Ret (err, 0, 0)
       else
       syms_cache ← req Syms_cache_new;
       if syms_cache =? 0 then
         _ ← req (Warn ("failed to create syms_cache" +:+ nl)); Ret (err, 0, 0)
       else
       '(err, pb) ← snoop_trace fuel obj syms_cache;
       Ret (err, pb, syms_cache));
  let '(err, pb, syms_cache) := r in
  _ ← req (Perf_buffer_free pb);
  _ ← req (Bpf_destroy obj);
  _ ← req (Syms_cache_free syms_cache);
  Ret (if negb (err =? 0) then 1 else 0).

(** ** libbpf *)

(** What was taken and not given back; [patience]: how many more polls go by before
    a signal or an error; [troubles]: the calls that failed; [shown]: events
    printed. *)
Inductive thing := Object (obj : Z) | Loaded (obj : Z) | Probe (link : Z) | Buffer (pb : Z) | Cache (c : Z).
#[export] Instance thing_eq : EqDecision thing.
Proof. solve_decision. Defined.
Record lib := Lib { held : list thing; patience : nat; exit_flag : bool; troubles : Z }.
#[export] Instance lib_eta : Eta lib := fun s => Lib (held s) (patience s) (exit_flag s) (troubles s).
Definition lib0 (n : nat) : lib := Lib [] n false 0.

Definition trouble (s : lib) : lib := s <| troubles := troubles s + 1 |>.
Definition takes (t : thing) (s : lib) : lib := s <| held := t :: held s |>.

(** A pointer libbpf makes of an error. *)
Definition is_err (p : Z) : bool := (2 ^ 64 - 4095 <=? p) && (p <? 2 ^ 64).
Definition get_error (p : Z) : Z := if is_err p then p - 2 ^ 64 else 0.

(** NULL and error pointers may be freed. *)
Definition snoop_proper (c : snoop_call) (s : lib) : Prop :=
  match c with
  | Bpf_load obj => Object obj ∈ held s
  | Attach_uprobe obj _ _ | Perf_buffer_new obj _ => Loaded obj ∈ held s
  | Poll pb _ => Buffer pb ∈ held s
  | Perf_buffer_free pb => pb = 0 ∨ is_err pb = true ∨ Buffer pb ∈ held s
  | Bpf_destroy obj => Object obj ∈ held s
  | Syms_cache_free c => c = 0 ∨ Cache c ∈ held s
  | Get_syms c _ => Cache c ∈ held s
  | Map_addr syms _ => syms ≠ 0
  | _ => True
  end.

(** Destroying the object detaches and unloads it. *)
Definition gone (obj : Z) (t : thing) : bool :=
  match t with Object o | Loaded o => bool_decide (o = obj) | Probe _ => true | _ => false end.

Definition fresh (p : Z) : Prop := 0 < p < 2 ^ 63.
Definition snoop_post (c : snoop_call) (s : lib) : snoop_ans c → lib → Prop :=
  match c with
  | Argp_parse | Bump_memlock_rlimit => fun a s' => (a = 0 ∧ s' = s) ∨ (a ≠ 0 ∧ s' = trouble s)
  | Bpf_open => fun a s' => (fresh a ∧ s' = takes (Object a) s) ∨ (a = 0 ∧ s' = trouble s)
  | Bpf_load obj => fun a s' => (a = 0 ∧ s' = takes (Loaded obj) s) ∨ (a ≠ 0 ∧ s' = trouble s)
  | Syms_cache_new => fun a s' => (fresh a ∧ s' = takes (Cache a) s) ∨ (a = 0 ∧ s' = trouble s)
  | Get_elf_func_offset _ _ => fun a s' => (0 ≤ a ∧ s' = s) ∨ (a < 0 ∧ s' = trouble s)
  | Attach_uprobe _ _ _ => fun a s' => (fresh a ∧ s' = takes (Probe a) s) ∨ (is_err a = true ∧ s' = trouble s)
  | Perf_buffer_new _ _ => fun a s' => (fresh a ∧ s' = takes (Buffer a) s) ∨ (is_err a = true ∧ s' = trouble s)
  | Get_error p => fun a s' => a = get_error p ∧ s' = s
  | Signal => fun a s' => (a = true ∧ s' = s) ∨ (a = false ∧ s' = trouble s)
  | Poll _ _ => fun a s' =>
      (a.1 < 0 ∧ s' = trouble s)
      ∨ (0 ≤ a.1 ∧ match patience s with
                    | O => s' = s <| exit_flag := true |>
                    | S n => s' = s <| patience := n |>
                    end)
  | Exiting => fun a s' => a = exit_flag s ∧ s' = s
  | Perf_buffer_free pb => fun _ s' => s' = s <| held := filter (.≠ Buffer pb) (held s) |>
  | Bpf_destroy obj => fun _ s' => s' = s <| held := filter (fun t => gone obj t = false) (held s) |>
  | Syms_cache_free c => fun _ s' => s' = s <| held := filter (.≠ Cache c) (held s) |>
  | Get_syms _ _ => fun a s' => 0 < a ∧ s' = s
  | Map_addr _ _ => fun _ s' => s' = s
  | Printf _ | Warn _ => fun _ s' => s' = s
  end.

(** ** Nothing is left behind *)

Abbreviation holds := (wpr (E := snoop) snoop_proper snoop_post).

Lemma handle_event_wpr c e s :
  Cache c ∈ held s → holds (handle_event c e) s (fun _ s' => s' = s).
Proof.
  intros Hc. unfold handle_event. apply wpr_bind. split; [done|]. intros syms s' [Hs ->]. cbn [wpr].
  replace (syms =? 0) with false by lia. cbn. split; [lia|]. intros sym s' ->.
  split; [done|]. intros _ s' ->. split; [done|]. by intros _ s' ->.
Qed.
Lemma handle_events_wpr c events s :
  Cache c ∈ held s → holds (handle_events c events) s (fun _ s' => s' = s).
Proof.
  intros Hc. induction events as [|e events IH]; cbn [handle_events]; [done|].
  apply wpr_bind. eapply wpr_mono; [by apply handle_event_wpr|]. by intros _ ? ->.
Qed.

Lemma snoop_loop_wpr fuel c pb : ∀ s,
  Cache c ∈ held s → Buffer pb ∈ held s → (patience s < fuel)%nat →
  holds (snoop_loop fuel c pb) s (fun _ s' => held s' = held s).
Proof.
  induction fuel as [|fuel IH]; intros s Hc Hb Hn; [lia|]. cbn [snoop_loop].
  apply wpr_bind. split; [done|]. intros [err events] s1 H. cbn [wpr].
  assert (held s1 = held s ∧ (0 ≤ err → exit_flag s1 = true ∨ (patience s1 < fuel)%nat)) as [Eh En].
  { destruct H as [[H ->]|[_ H]]; cbn [fst snd] in *; [split; [done|lia]|]. destruct (patience s); subst; cbn; auto with lia. }
  apply wpr_bind. eapply wpr_mono; [apply handle_events_wpr; congruence|]. intros _ ? ->.
  destruct (Z.ltb_spec err 0).
  { cbn. split; [done|]. by intros _ ? ->. }
  apply wpr_bind. split; [done|]. intros b ? [-> ->]. cbn [wpr].
  destruct (exit_flag s1) eqn:Ef; [done|]. eapply wpr_mono; [apply IH|cbn; congruence]; [congruence..|].
  destruct En; [done|congruence|done].
Qed.

(** What cleanup finds: the object, what hangs on it, and the buffer and the cache
    if there are any. *)
Definition to_clean (obj pb c : Z) (s : lib) : Prop :=
  Object obj ∈ held s ∧ (pb = 0 ∨ is_err pb = true ∨ Buffer pb ∈ held s) ∧ (c = 0 ∨ Cache c ∈ held s)
  ∧ Forall (fun t => gone obj t = true ∨ t = Buffer pb ∨ t = Cache c) (held s).

Lemma nothing_left obj pb c l :
  Forall (fun t => gone obj t = true ∨ t = Buffer pb ∨ t = Cache c) l →
  filter (.≠ Cache c) (filter (fun t => gone obj t = false) (filter (.≠ Buffer pb) l)) = [].
Proof.
  intros H. destruct (filter _ _) as [|t k] eqn:E; [done|]. exfalso.
  assert (t ∈ filter (.≠ Cache c) (filter (fun t => gone obj t = false) (filter (.≠ Buffer pb) l))) as Ht
    by (rewrite E; constructor).
  rewrite !list_elem_of_filter in Ht. destruct Ht as (H1 & H2 & H3 & H4).
  rewrite Forall_forall in H. destruct (H t H4) as [H5|[H5|H5]]; congruence.
Qed.

(** What is held is a given list without the buffer, or with it. *)
Lemma to_clean_list obj pb c l s :
  held s = l → Object obj ∈ l → (pb = 0 ∨ is_err pb = true ∨ Buffer pb ∈ l) → (c = 0 ∨ Cache c ∈ l) →
  Forall (fun t => gone obj t = true ∨ t = Buffer pb ∨ t = Cache c) l → to_clean obj pb c s.
Proof. intros <-. by split. Qed.

Ltac cleanable :=
  eapply to_clean_list; [eassumption|set_solver|auto; set_solver|auto; set_solver|];
  rewrite ?Forall_cons; repeat split; try apply Forall_nil_2;
  first [left; cbn; by rewrite ?bool_decide_true|right; left; done|right; right; done].

Lemma fresh_no_err p : fresh p → get_error p = 0 ∧ p =? 0 = false.
Proof. intros H. unfold fresh, get_error, is_err in *. case_match; lia. Qed.
Lemma err_not_0 p : is_err p = true → get_error p =? 0 = false.
Proof. intros H. unfold get_error. rewrite H. unfold is_err in H. lia. Qed.

Lemma attach_wpr obj s l :
  held s = l → Loaded obj ∈ l →
  holds (attach_uprobes obj) s (fun err s' => patience s' = patience s
    ∧ ((err = 0 ∧ ∃ link, held s' = Probe link :: l) ∨ (err ≠ 0 ∧ held s' = l))).
Proof.
  intros Hh Hl. unfold attach_uprobes. apply wpr_bind. split; [done|]. intros off s1 H. cbn [wpr].
  destruct H as [[Ho ->]|[Ho ->]].
  2:{ replace (off <? 0) with true by lia. cbn. split; [done|]. intros _ ? ->. auto. }
  replace (off <? 0) with false by lia. apply wpr_bind. split; [cbn; congruence|]. intros link s1 H. cbn [wpr].
  apply wpr_bind. split; [done|]. intros err ? [-> ->]. cbn [wpr]. destruct H as [[Hf ->]|[He ->]].
  - destruct (fresh_no_err _ Hf) as [-> _]. cbn. rewrite Hh. split; [done|left; eauto].
  - rewrite (err_not_0 _ He). cbn. split; [done|]. intros _ ? ->. auto.
Qed.

Lemma trace_wpr fuel obj c s :
  held s = [Cache c; Loaded obj; Object obj] → (patience s < fuel)%nat →
  holds (snoop_trace fuel obj c) s (fun '(_, pb) s' => to_clean obj pb c s').
Proof.
  intros Hh Hn. unfold snoop_trace. apply wpr_bind. eapply wpr_mono; [eapply attach_wpr; [done|set_solver]|].
  intros err s1 [Hp [[-> [link H]]|[He H]]]; cbn [negb Z.eqb].
  2:{ replace (err =? 0) with false by lia. cbn. cleanable. }
  apply wpr_bind. split; [cbn; rewrite H; set_solver|]. intros pb s2 Hb. cbn [wpr].
  apply wpr_bind. split; [done|]. intros err ? [-> ->]. cbn [wpr]. destruct Hb as [[Hf ->]|[He ->]].
  2:{ rewrite (err_not_0 _ He). cbn. split; [done|]. intros _ ? ->. cleanable. }
  destruct (fresh_no_err _ Hf) as [-> _]. cbn [negb Z.eqb].
  assert (held (takes (Buffer pb) s1) = [Buffer pb; Probe link; Cache c; Loaded obj; Object obj]) as H2 by (cbn; by rewrite H).
  assert (patience (takes (Buffer pb) s1) = patience s) as Hp2 by done. generalize dependent (takes (Buffer pb) s1). intros s2 H2 Hp2.
  apply wpr_bind. split; [done|]. intros ok s3 Hs. cbn [wpr]. destruct Hs as [[-> ->]|[-> ->]]; cbn [negb].
  2:{ cbn. split; [done|]. intros _ ? ->. cleanable. }
  apply wpr_bind. split; [done|]. intros u ? ->. cbn [wpr].
  apply wpr_bind. eapply wpr_mono; [apply snoop_loop_wpr; [rewrite H2; set_solver..|lia]|].
  intros err s3 H3. cbn. rewrite H2 in H3. cleanable.
Qed.

Lemma cleanup_wpr obj pb c s (r : Z) :
  to_clean obj pb c s →
  holds (_ ← req (Perf_buffer_free pb); _ ← req (Bpf_destroy obj); _ ← req (Syms_cache_free c); Ret r) s
    (fun r' s' => r' = r ∧ held s' = []).
Proof.
  intros (H1 & H2 & H3 & H4). cbn. split; [done|]. intros _ ? ->. cbn.
  split; [apply list_elem_of_filter; by split|]. intros _ ? ->. cbn. split.
  { destruct H3 as [?|H3]; [by left|right]. rewrite !list_elem_of_filter. auto. }
  intros _ ? ->. split; [done|]. by apply nothing_left.
Qed.

(** Whatever fails, every way out of the program gives back what it took and uses
    only what it holds, and the program ends once a poll is interrupted or fails. *)
Theorem threadsnoop_cleans_up n fuel :
  (n < fuel)%nat → holds (main fuel) (lib0 n) (fun _ s => held s = []).
Proof.
  intros Hn. unfold main. apply wpr_bind. split; [done|]. intros err s H. cbn [wpr].
  destruct H as [[-> ->]|[He ->]]; [|by replace (err =? 0) with false by lia]. cbn [negb Z.eqb].
  apply wpr_bind. split; [done|]. intros err s H. cbn [wpr].
  destruct H as [[-> ->]|[He ->]].
  2:{ replace (err =? 0) with false by lia. cbn. split; [done|]. by intros _ ? ->. }
  cbn [negb Z.eqb]. apply wpr_bind. split; [done|]. intros obj s H. cbn [wpr].
  destruct H as [[Hf ->]|[-> ->]].
  2:{ cbn. split; [done|]. by intros _ ? ->. }
  destruct (fresh_no_err _ Hf) as [_ ->]. apply wpr_bind. split; [cbn; set_solver|]. intros err s H. cbn [wpr].
  apply wpr_bind.
  eapply (wpr_mono _ _ _ _ (fun '(_, pb, c) s' => to_clean obj pb c s')).
  2:{ intros [[err' pb] c] s' Hc. eapply wpr_mono; [by apply cleanup_wpr|]. by intros ? ? [_ ?]. }
  destruct H as [[-> ->]|[He ->]]; cbn [negb Z.eqb].
  2:{ replace (err =? 0) with false by lia. cbn. split; [done|]. intros _ ? ->.
      assert (held (trouble (takes (Object obj) (lib0 n))) = [Object obj]) as H by done. cleanable. }
  apply wpr_bind. split; [done|]. intros c s H. cbn [wpr]. destruct H as [[Hc ->]|[-> ->]].
  2:{ cbn. split; [done|]. intros _ ? ->.
      assert (held (trouble (takes (Loaded obj) (takes (Object obj) (lib0 n)))) = [Loaded obj; Object obj]) as H by done.
      cleanable. }
  destruct (fresh_no_err _ Hc) as [_ ->].
  apply wpr_bind. eapply wpr_mono; [by apply trace_wpr|]. by intros [e pb] s' H.
Qed.

(** ** What is printed, and what the exit status hides *)

(** The time is a multiple of 2^32 ns, cut to the millisecond: the event's own low
    half is taken off. *)
Lemma time_shown_coarse e :
  0 ≤ ts e < 2 ^ 64 → time_shown e = Z.shiftr (ts e) 32 * 2 ^ 32 / 1000000.
Proof.
  intros H. unfold time_shown. cbn [Z.eqb]. rewrite Z.shiftr_div_pow2 by lia.
  f_equal. unfold wrap. pose proof (Z.div_mod (ts e) (2 ^ 32) ltac:(lia)).
  pose proof (Z.mod_pos_bound (ts e) (2 ^ 32)). rewrite Z.mod_small; lia.
Qed.

Abbreviation called c a := (existT (P := ans snoop) c a).

(** Without a cache of symbols, or without the signal handler, nothing is traced, and
    the exit status is 0. *)
Lemma no_cache_exits_0 fuel :
  runs (main fuel)
    [called Argp_parse 0; called Bump_memlock_rlimit 0; called Bpf_open 1; called (Bpf_load 1) 0;
     called Syms_cache_new 0; called (Warn ("failed to create syms_cache" +:+ nl)) tt;
     called (Perf_buffer_free 0) tt; called (Bpf_destroy 1) tt; called (Syms_cache_free 0) tt]
    (Ret 0).
Proof. do 9 refine (runs_call (E := snoop) _ _ _ _ _ _). apply runs_here. Qed.

(** A poll that delivered an event while the signal arrived: the program is through,
    and its exit status is 1. *)
Lemma interrupted_exits_1 :
  runs (main 1)
    [called Argp_parse 0; called Bump_memlock_rlimit 0; called Bpf_open 1; called (Bpf_load 1) 0;
     called Syms_cache_new 2; called (Get_elf_func_offset libpthread "pthread_create") 4096;
     called (Attach_uprobe 1 libpthread 4096) 3; called (Get_error 3) 0;
     called (Perf_buffer_new 1 PERF_BUFFER_PAGES) 4; called (Get_error 4) 0; called Signal true;
     called (Printf (padr 8 "TIME(ms)" +:+ " " +:+ padr 7 "PID" +:+ " " +:+ padr 16 "COMM" +:+ " " +:+ padr 10 "FUNC" +:+ nl)) tt;
     called (Poll 4 PERF_POLL_TIMEOUT_MS) (1, []); called Exiting true;
     called (Perf_buffer_free 4) tt; called (Bpf_destroy 1) tt; called (Syms_cache_free 2) tt]
    (Ret 1).
Proof. do 17 refine (runs_call (E := snoop) _ _ _ _ _ _). apply runs_here. Qed.

(** Without symbols for the process the callback goes on with a null pointer. *)
Lemma no_syms_null c e :
  ∃ k, runs (handle_event c e) [called (Get_syms c (pid e)) 0; called (Warn ("failed to get syms" +:+ nl)) tt]
    (Do (E := snoop) (Map_addr 0 (pid e)) k).
Proof. eexists. do 2 refine (runs_call (E := snoop) _ _ _ _ _ _). apply runs_here. Qed.
