(* ===== verification/Uio.v ===== *)
(** * User space I/O: uio/, qemu_pci/tedu.c, qemu_pci/rmmio.c

    The two programs that wait for interrupts of a UIO device ([uiopci_main],
    [tedu_main]) share a loop; they are programs over their calls, and the device
    with its configuration byte is a world.  [us_uio_main] maps a device at the
    size sysfs tells; [rmmio_main] goes through registers of the edu device, which
    qemu_pci/edu.txt describes; the module uio/simple_uio.c is what it holds. *)

From S2P Require Import Prelude CLib Calls Pcimem Edu.

(** ** Waiting for interrupts *)

Inductive uio_call :=
| Open (path : string)
| Pread (fd n off : Z)                 (* the count, and the byte when it is 1 *)
| Pwrite (fd byte n off : Z)
| Read (fd n : Z)                      (* the count, and the number read *)
| Mmap (len fd : Z)
| Bar_get (word : Z) | Bar_put (word v : Z)
| Errno | Perror (s : string) | Fprintf (s : string) | Printf (s : string).
Definition uio_ans (c : uio_call) : Type :=
  match c with
  | Pread _ _ _ | Read _ _ => Z * Z
  | Bar_put _ _ | Perror _ | Fprintf _ | Printf _ => unit
  | _ => Z
  end.
Definition uio : api := Api uio_call uio_ans.
Abbreviation io := (prog uio).
Abbreviation req c := (ask (E := uio) c).

(** perror(s); return errno; *)
Definition fail_with (s : string) : io Z := _ ← req (Perror s); req Errno.

(** The message at the head of a round. *)
Definition round_text (i icount : Z) : string :=
  if i =? 0 then "Started uio test driver." +:+ nl else "Interrupts: " +:+ dec (i32 icount) +:+ nl.

(** The rounds from number [i] on; [rounds]: how many there are at most (tedu), or
    the fuel (uiopci).  The result of both ends is errno. *)
Fixpoint interrupt_loop (rounds : nat) (over : io Z) (uiofd configfd command_high i icount : Z) : io Z :=
  match rounds with
  | O => over
  | S rounds =>
      _ ← req (Fprintf (round_text i icount));
      err ← req (Pwrite configfd command_high 1 5);
      if negb (err =? 1) then fail_with "config write:"
      else
      a ← req (Read uiofd 4);
      let '(err, icount) := a in
      if negb (err =? 4) then fail_with "uio read:"
      else interrupt_loop rounds over uiofd configfd command_high (i32 (i + 1)) icount
  end.

(** command_high &= ~0x4 *)
Definition enable_bits (command_high : Z) : Z := Z.land command_high (Z.lnot 4).

(** The start of both programs, up to the command byte: then [go]. *)
Definition with_config (uio_path config_path : string) (go : Z → Z → Z → io Z) : io Z :=
  uiofd ← req (Open uio_path);
  if uiofd <? 0 then fail_with "uio open:"
  else
  configfd ← req (Open config_path);
  if configfd <? 0 then fail_with "config open:"
  else
  a ← req (Pread configfd 1 5);
  let '(err, command_high) := a in
  if negb (err =? 1) then fail_with "command config read:"
  else go uiofd configfd (enable_bits command_high).

(** uio/uiopci.c *)
Definition uiopci_main (fuel : nat) : io Z :=
  with_config "/dev/uio1" "/sys/class/uio/uio1/device/config"
    (fun uiofd configfd command_high => interrupt_loop fuel Again uiofd configfd command_high 0 0).

(** qemu_pci/tedu.c: bar0 is a pointer to words. *)
Definition EDU_IO_SIZE : Z := 256.
Definition EDU_CARD_VERSION_ADDR : Z := 1.
Definition EDU_RAISE_INT_ADDR : Z := 96.
Definition EDU_CLEAR_INT_ADDR : Z := 100.

Definition tedu_main : io Z :=
  with_config "/dev/uio0" "/sys/class/uio/uio0/device/config"
    (fun uiofd configfd command_high =>
       bar0fd ← req (Open "/sys/class/uio/uio0/device/resource0");
       if bar0fd <? 0 then fail_with "bar0fd open:"
       else
       bar0 ← req (Mmap EDU_IO_SIZE bar0fd);
       if bar0 =? -1 then fail_with "Error mapping bar0!"
       else
       version ← req (Bar_get EDU_CARD_VERSION_ADDR);
       _ ← req (Printf ("0x" +:+ "0x" +:+ hex bar0 +:+ " Version = 0x" +:+ padl "0" 8 (hex version) +:+ nl));
       _ ← req (Bar_put EDU_CLEAR_INT_ADDR 2882382797);
       _ ← req (Bar_put EDU_RAISE_INT_ADDR 2882382797);
       interrupt_loop 5 (req Errno) uiofd configfd command_high 0 0).

(** *** The device *)

(** The descriptors of the programs, the high byte of the command register as it
    was at the start and as it is, what has been waited for, the messages, and the
    bytes written into the mapping. *)
Record ust := Ust {
  uio_fd : option Z; config_fd : option Z; bar_fd : option Z;
  command0 : Z; command : Z; counts : list Z; texts_ : list string; puts : list (Z * Z);
  left : nat;                (* interrupts that still arrive *)
}.
#[export] Instance ust_eta : Eta ust := fun s =>
  Ust (uio_fd s) (config_fd s) (bar_fd s) (command0 s) (command s) (counts s) (texts_ s) (puts s) (left s).
Definition ust0 (c : Z) (n : nat) : ust := Ust None None None c c [] [] [] n.

(** A wait makes sense when interrupts are not disabled (bit 10 of the command
    register, bit 2 of its high byte); the other bits must stay as they were. *)
Definition enabled (s : ust) : Prop :=
  Z.testbit (command s) 2 = false ∧ ∀ n, n ≠ 2 → Z.testbit (command s) n = Z.testbit (command0 s) n.

Definition uio_proper (c : uio_call) (s : ust) : Prop :=
  match c with
  | Pread fd n off => config_fd s = Some fd ∧ n = 1 ∧ off = 5
  | Pwrite fd byte n off => config_fd s = Some fd ∧ n = 1 ∧ off = 5 ∧ 0 ≤ byte < 256
  | Read fd n => uio_fd s = Some fd ∧ n = 4 ∧ enabled s
  | _ => True
  end.

(** The kernel disables the interrupt when it arrives. *)
Definition uio_post (c : uio_call) (s : ust) : uio_ans c → ust → Prop :=
  match c with
  | Open path => fun a s' =>
      (a < 0 ∧ s' = s)
      ∨ (0 ≤ a ∧ s' = match uio_fd s, config_fd s with
                       | None, _ => s <| uio_fd := Some a |>
                       | _, None => s <| config_fd := Some a |>
                       | _, _ => s <| bar_fd := Some a |>
                       end)
  | Pread _ _ _ => fun a s' => s' = s ∧ (a.1 = 1 → a.2 = command s)
  | Pwrite _ byte _ _ => fun a s' => (a = 1 ∧ s' = s <| command := byte |>) ∨ (a ≠ 1 ∧ s' = s)
  | Read _ _ => fun a s' =>
      (a.1 ≠ 4 ∧ s' = s)
      ∨ (a.1 = 4 ∧ ∃ n, left s = S n
          ∧ s' = s <| left := n |> <| command := Z.lor (command s) 4 |> <| counts := counts s ++ [a.2] |>)
  | Bar_put word v => fun _ s' => s' = s <| puts := puts s ++ [(4 * word, v)] |>
  | Fprintf t => fun _ s' => s' = s <| texts_ := texts_ s ++ [t] |>
  | _ => fun _ s' => s' = s
  end.

(** ** The loop *)

Abbreviation holds := (wpr (E := uio) uio_proper uio_post).

(** The messages that go with the counts read so far. *)
Definition rows (counts : list Z) : list string :=
  ("Started uio test driver." +:+ nl) :: ((fun n => "Interrupts: " +:+ dec (i32 n) +:+ nl) <$> counts).

Lemma fail_with_wpr t s Q : (∀ r, Q r s) → holds (fail_with t) s Q.
Proof. intros H. cbn. split; [done|]. intros _ ? ->. split; [done|]. by intros r ? ->. Qed.

Lemma enable_bits_spec b n :
  0 ≤ n → Z.testbit (enable_bits b) n = if decide (n = 2) then false else Z.testbit b n.
Proof.
  intros Hn. unfold enable_bits. rewrite Z.land_spec, Z.lnot_spec by done.
  change 4 with (2 ^ 2). case_decide as E; [subst; by rewrite Z.pow2_bits_true, andb_false_r|].
  rewrite Z.pow2_bits_false by lia. apply andb_true_r.
Qed.
Lemma enable_bits_range b : 0 ≤ b < 256 → 0 ≤ enable_bits b < 256.
Proof.
  intros H. assert (Forall (fun b => 0 ≤ enable_bits b < 256) (seqZ 0 256)) as Ha.
  { apply (bool_decide_unpack _). vm_compute. exact I. }
  rewrite Forall_forall in Ha. apply Ha, elem_of_seqZ. lia.
Qed.

Lemma enabled_written s b :
  command0 s = b → enabled (s <| command := enable_bits b |>).
Proof.
  intros <-. split; [change (Z.testbit (enable_bits (command0 s)) 2 = false); by rewrite enable_bits_spec by lia|].
  intros n Hn. change (Z.testbit (enable_bits (command0 s)) n = Z.testbit (command0 s) n). destruct (Z.ltb_spec n 0); [by rewrite !Z.testbit_neg_r by lia|].
  rewrite enable_bits_spec by lia. by rewrite decide_False.
Qed.

Lemma round_text_rows i icount counts :
  0 ≤ i < 2 ^ 31 → i = zlen counts → (counts ≠ [] → last counts = Some icount) →
  ∃ l, rows counts = l ++ [round_text i icount] ∧ l = take (length counts) (rows counts).
Proof.
  intros Hi -> Hl. unfold round_text. destruct counts as [|x l' _] using rev_ind; [by exists []|].
  exists (rows l'). replace (zlen (l' ++ [x]) =? 0) with false by (rewrite zlen_app; unfold zlen; cbn; lia).
  assert (last (l' ++ [x]) = Some icount) as E by (apply Hl; by destruct l').
  rewrite last_snoc in E. injection E as ->. unfold rows. rewrite fmap_app. split; [done|].
  rewrite length_app. cbn [length]. rewrite Nat.add_1_r. cbn [take]. f_equal.
  rewrite take_app_length'; [done|]. by rewrite length_fmap.
Qed.

(** Each round prints its message, enables the interrupt and waits. *)
Lemma interrupt_loop_wpr over u c b Q rounds : ∀ i icount s,
  uio_fd s = Some u → config_fd s = Some c → command0 s = b → 0 ≤ b < 256 →
  i = zlen (counts s) → i + Z.of_nat rounds < 2 ^ 31 → (counts s ≠ [] → last (counts s) = Some icount) →
  texts_ s = take (length (counts s)) (rows (counts s)) →
  ((left s < rounds)%nat ∨
    ∀ s', zlen (counts s') = i + Z.of_nat rounds → texts_ s' = take (length (counts s')) (rows (counts s')) →
          puts s' = puts s → holds over s' Q) →
  (∀ r s', texts_ s' = rows (counts s') → zlen (counts s') < i + Z.of_nat rounds → puts s' = puts s → Q r s') →
  holds (interrupt_loop rounds over u c (enable_bits b) i icount) s Q.
Proof.
  induction rounds as [|rounds IH]; intros i icount s Hu Hc Hb Hr Hi Hm Hl Ht Ho Hq.
  { cbn [interrupt_loop]. destruct Ho as [?|Ho]; [lia|]. apply Ho; auto; lia. }
  destruct (round_text_rows i icount (counts s)) as (l & El & Et); [unfold zlen in Hi; lia|done|done|].
  assert (texts_ s ++ [round_text i icount] = rows (counts s)) as Ert by (by rewrite Ht, <- Et).
  cbn [interrupt_loop]. apply wpr_bind. split; [done|]. intros [] ? ->. cbn [wpr].
  apply wpr_bind. split; [cbn; pose proof (enable_bits_range b Hr); auto|]. intros err s1 Hw. cbn [wpr].
  destruct Hw as [[-> ->]|[Hw ->]].
  2:{ replace (err =? 1) with false by lia. apply fail_with_wpr. intros r. apply Hq; [exact Ert|cbn; lia|done]. }
  cbn [negb Z.eqb Pos.eqb]. apply wpr_bind. split; [split; [done|]; split; [done|]; by apply enabled_written|].
  intros [n x] s1 Ha. cbn [wpr]. cbn [uio_post fst snd] in Ha. destruct Ha as [[Hn ->]|[-> (k & Hk & ->)]].
  { replace (n =? 4) with false by lia. apply fail_with_wpr. intros r. apply Hq; [exact Ert|cbn; lia|done]. }
  cbn [negb Z.eqb Pos.eqb]. rewrite i32_small by (unfold zlen in Hi; lia).
  apply IH; try done.
  - cbn. rewrite zlen_app. unfold zlen at 2. cbn. lia.
  - lia.
  - intros _. cbn. by rewrite last_snoc.
  - cbn [texts_ counts set_field ust_eta eta]. rewrite Ert. unfold rows. rewrite fmap_app, app_comm_cons, take_app_length'; [done|].
    cbn. rewrite length_fmap, length_app. cbn. lia.
  - cbn in Hk. destruct Ho as [Ho|Ho]; [left; cbn; lia|right].
    intros s' H1 H2 H3. apply Ho; [lia|done|exact H3].
  - intros r s' H1 H2 H3. apply Hq; [done|lia|exact H3].
Qed.

(** The start of both programs: a failure ends them before anything is waited for. *)
Lemma with_config_wpr p1 p2 go b n Q :
  0 ≤ b < 256 →
  (∀ r s, texts_ s = [] → counts s = [] → puts s = [] → Q r s) →
  (∀ u c s, uio_fd s = Some u → config_fd s = Some c → command0 s = b → texts_ s = [] → counts s = [] → puts s = [] →
     left s = n → holds (go u c (enable_bits b)) s Q) →
  holds (with_config p1 p2 go) (ust0 b n) Q.
Proof.
  intros Hb Hq Hk. unfold with_config. apply wpr_bind. split; [done|]. intros u s1 Ha. cbn [wpr].
  destruct Ha as [[Hu ->]|[Hu ->]].
  { replace (u <? 0) with true by lia. apply fail_with_wpr. auto. }
  replace (u <? 0) with false by lia. cbn [uio_fd ust0].
  apply wpr_bind. split; [done|]. intros c s1 Ha. cbn [wpr]. destruct Ha as [[Hc ->]|[Hc ->]].
  { replace (c <? 0) with true by lia. apply fail_with_wpr. auto. }
  replace (c <? 0) with false by lia.
  apply wpr_bind. split; [done|]. intros [k byte] s1 [-> Ha]. cbn [wpr fst snd] in *.
  destruct (Z.eqb_spec k 1) as [->|]; cbn [negb]; [|apply fail_with_wpr; auto].
  rewrite (Ha eq_refl). by apply Hk.
Qed.

(** C40: the programs that wait for interrupts: at every wait the interrupt is enabled
    again, which the kernel disables each time, and no other bit of the command
    register has changed; the messages are the start message and the counts read,
    in order.  uiopci ends only when a write or read fails; tedu after five rounds
    at most, without printing the fifth count, and its two writes into the mapping
    land at bytes 400 and 384. *)
Theorem interrupts_enabled_at_waits b n fuel :
  0 ≤ b < 256 → (n < fuel)%nat → Z.of_nat fuel < 2 ^ 31 →
  holds (uiopci_main fuel) (ust0 b n) (fun _ s => texts_ s = [] ∨ texts_ s = rows (counts s))
  ∧ holds tedu_main (ust0 b n) (fun _ s =>
      (texts_ s = [] ∨ texts_ s = take 5 (rows (counts s))) ∧ zlen (counts s) ≤ 5
      ∧ (puts s = [] ∨ puts s = [(400, 2882382797); (384, 2882382797)])).
Proof.
  intros Hb Hn Hf. split.
  - apply with_config_wpr; [done|auto|]. intros u c s Hu Hc H0 Ht Hx Hp Hl.
    apply interrupt_loop_wpr; rewrite ?Hx, ?Ht; try done; [left; lia|]. auto.
  - apply with_config_wpr; [done|intros r s -> -> ->; repeat split; auto; unfold zlen; cbn; lia|].
    intros u c s Hu Hc H0 Ht Hx Hp Hl.
    assert (∀ s', texts_ s' = [] → counts s' = [] → puts s' = [] →
      (texts_ s' = [] ∨ texts_ s' = take 5 (rows (counts s'))) ∧ zlen (counts s') ≤ 5
      ∧ (puts s' = [] ∨ puts s' = [(400, 2882382797); (384, 2882382797)])) as Hnone.
    { intros s' -> -> ->. repeat split; auto. unfold zlen. cbn. lia. }
    apply wpr_bind. split; [done|]. intros f s1 Ha. cbn [wpr]. destruct Ha as [[Hf1 ->]|[Hf1 ->]].
    { replace (f <? 0) with true by lia. apply fail_with_wpr. by intros; apply Hnone. }
    replace (f <? 0) with false by lia. rewrite Hu, Hc.
    apply wpr_bind. split; [done|]. intros m ? ->. cbn [wpr].
    destruct (m =? -1); [apply fail_with_wpr; by intros; apply Hnone|].
    apply wpr_bind. split; [done|]. intros v ? ->. cbn [wpr].
    apply wpr_bind. split; [done|]. intros p ? ->. cbn [wpr].
    apply wpr_bind. split; [done|]. intros p1 ? ->. cbn [wpr].
    apply wpr_bind. split; [done|]. intros p2 ? ->. cbn [wpr].
    apply interrupt_loop_wpr; cbn [texts_ counts puts uio_fd config_fd command0 left set_field ust_eta eta];
      rewrite ?Hx, ?Ht, ?Hp; try done.
    + right. intros s' H1 H2 H3. split; [done|]. intros r ? ->. split; [right; rewrite H2; f_equal; unfold zlen in H1; lia|].
      split; [lia|]. right. exact H3.
    + intros r s' H1 H2 H3. split; [right; rewrite H1, take_ge; [done|]; unfold zlen in H2; cbn; rewrite length_fmap; lia|].
      split; [lia|right; exact H3].
Qed.

Lemma interrupts_enabled_at_waits_witness :
  0 ≤ 7 < 256 ∧ holds (uiopci_main 4) (ust0 7 3) (fun _ s => texts_ s = [] ∨ texts_ s = rows (counts s)).
Proof. split; [lia|apply (interrupts_enabled_at_waits 7 3 4); lia]. Defined.

(** ** uio/us_uio.c *)

(** The system: open (the three descriptors), the text that read puts into each of
    the 18-byte buffers (or an error), mmap, mremap and the page size. *)
Record us_sys := UsSys {
  us_open : string → Z;
  us_read : Z → option string;
  us_mmap : Z → Z → Z;                   (* length, descriptor *)
  us_mremap : Z → Z → Z → Z;             (* old address, old and new length *)
  us_pagesize : Z;
}.
(** The number at the start of a buffer of 18 bytes that holds the text read: a
    number that takes all of them has no end. *)
Definition buf_number (text : string) : res Z :=
  let t := substring 0 18 text in
  let '(v, rest) := strtoul 0 (cstr t) in
  if (strlen t =? 18) && (cstr t =? t)%string && (rest =? "")%string then Wild else Done v.

Definition us_error : res (list string) := Die "255".

(** The lines printed; [Die "255"] is exit(-1). *)
Definition us_uio_main (Y : us_sys) : res (list string) :=
  let uio_fd := us_open Y "/dev/uio0" in
  let addr_fd := us_open Y "/sys/class/uio/uio0/maps/map0/addr" in
  let size_fd := us_open Y "/sys/class/uio/uio0/maps/map0/size" in
  if (addr_fd <? 0) || (size_fd <? 0) || (uio_fd <? 0) then us_error
  else
  match us_read Y addr_fd with
  | None => us_error
  | Some uio_addr_buf =>
      match us_read Y size_fd with
      | None => us_error
      | Some uio_size_buf =>
          uio_addr ← buf_number uio_addr_buf;
          n ← buf_number uio_size_buf;
          let uio_size := i32 n in
          let access_address := us_mmap Y (u64 uio_size) uio_fd in
          if access_address =? -1 then us_error
          else
          let line1 := "The device address 0x" +:+ hex uio_addr +:+ " (lenth " +:+ dec uio_size +:+ ")" +:+ nl
            +:+ "can be accessed over" +:+ nl +:+ "logical address 0x" +:+ hex access_address +:+ nl in
          let access_address := us_mremap Y access_address (u64 uio_size) (us_pagesize Y) in
          if access_address =? -1 then us_error
          else Done [line1; ">>>AFTER REMAP:logical address 0x" +:+ hex access_address +:+ nl]
      end
  end.

(** An address of sixteen digits fills the buffer, and strtoul reads on behind it. *)
Lemma us_uio_long_address Y u a s size :
  us_open Y "/dev/uio0" = u → us_open Y "/sys/class/uio/uio0/maps/map0/addr" = a →
  us_open Y "/sys/class/uio/uio0/maps/map0/size" = s → 0 ≤ u → 0 ≤ a → 0 ≤ s →
  us_read Y a = Some ("0xffff888123456000" +:+ nl) → us_read Y s = Some size →
  us_uio_main Y = Wild.
Proof.
  intros Hu Ha Hs ? ? ? H1 H2. unfold us_uio_main. rewrite Hu, Ha, Hs.
  replace ((a <? 0) || (s <? 0) || (u <? 0)) with false by lia. rewrite H1, H2.
  assert (buf_number ("0xffff888123456000" +:+ nl) = Wild) as -> by (vm_compute; reflexivity). done.
Qed.

(** Shorter texts end within the buffer; the mapping has the size sysfs tells and is
    then cut, or grown, to a page. *)
Definition us_example : us_sys :=
  UsSys (fun path => if (path =? "/dev/uio0")%string then 3
                     else if (path =? "/sys/class/uio/uio0/maps/map0/addr")%string then 4 else 5)
    (fun fd => Some ((if fd =? 4 then "0xfebf1000" else "0x100000") +:+ nl))
    (fun len fd => if (len =? 1048576) && (fd =? 3) then 4096 * 16 else -1)
    (fun p old new => if (p =? 4096 * 16) && (old =? 1048576) && (new =? 4096) then p else -1) 4096.
Lemma us_uio_maps :
  us_uio_main us_example = Done
    ["The device address 0xfebf1000 (lenth 1048576)" +:+ nl +:+ "can be accessed over" +:+ nl
     +:+ "logical address 0x10000" +:+ nl; ">>>AFTER REMAP:logical address 0x10000" +:+ nl].
Proof. vm_compute. reflexivity. Qed.

(** ** qemu_pci/rmmio.c *)

Section rmmio.
Context (D : device).

(** Accesses through mmio_mem, which maps 0x1000 bytes. *)
Definition mmio_write (addr value : Z) (s : dev D) : res (dev D) :=
  if (0 <=? addr) && (addr + 4 <=? 4096) then Done (reg_write D addr value s) else Wild.
(** The line printed; the function returns no value. *)
Definition mmio_read (addr : Z) (s : dev D) : res (string * dev D) :=
  if (0 <=? addr) && (addr + 4 <=? 4096) then
    let '(v, s) := reg_read D addr s in
    Done ("0x" +:+ HEX addr +:+ " : " +:+ padl "0" 8 (HEX (u32 v)) +:+ nl, s)
  else Wild.

(** [mmio_fd]: what open answers; [mem]: what mmap answers. *)
Definition rmmio_main (mmio_fd mem : Z) (s : dev D) : res (list string * dev D) :=
  if mmio_fd =? -1 then Die "mmio_fd open failed"
  else if mem =? -1 then Die "mmap mmio_mem failed"
  else
  let l0 := "GVA is 0x" +:+ hex mem +:+ nl in
  '(l1, s) ← mmio_read 0 s;
  s ← mmio_write 4 546 s;
  '(l2, s) ← mmio_read 4 s;
  s ← mmio_write 8 4 s;
  '(l3, s) ← mmio_read 8 s;
  s ← mmio_write 96 273 s;
  s ← mmio_write 32 1 s;
  '(l4, s) ← mmio_read 32 s;
  s ← mmio_write 32 0 s;
  '(l5, s) ← mmio_read 32 s;
  Done ([l0; l1; l2; l3; l4; l5], s).
End rmmio.

(** The edu device as qemu_pci/edu.txt describes it: identification, inversion,
    factorial, status and interrupt status.  [quick]: a factorial is ready at
    once. *)
Record edu_regs := EduRegs { liveness : Z; fact : Z; status : Z; irq_status : Z }.
#[export] Instance edu_regs_eta : Eta edu_regs := fun s => EduRegs (liveness s) (fact s) (status s) (irq_status s).
Fixpoint factorial (n : nat) : Z := match n with O => 1 | S n => Z.of_nat (S n) * factorial n end.
Definition edu_get (addr : Z) (s : edu_regs) : Z * edu_regs :=
  (if addr =? 0 then 16777453 else if addr =? 4 then liveness s else if addr =? 8 then fact s
   else if addr =? 32 then status s else if addr =? 36 then irq_status s else u32 (-1), s).
Definition edu_put (quick : bool) (addr v : Z) (s : edu_regs) : edu_regs :=
  if addr =? 4 then s <| liveness := u32 (Z.lnot v) |>
  else if addr =? 8 then
    if quick then s <| fact := u32 (factorial (Z.to_nat v)) |> else s <| fact := v |> <| status := Z.lor (status s) 1 |>
  else if addr =? 32 then s <| status := Z.lor (Z.land (status s) 1) (Z.land v 128) |>
  else if addr =? 96 then s <| irq_status := Z.lor (irq_status s) v |>
  else if addr =? 100 then s <| irq_status := Z.land (irq_status s) (Z.lnot v) |>
  else s.
Definition edu (quick : bool) : device := mk_device edu_regs edu_get (edu_put quick) 1048576.

(** What the program shows, and the interrupt it leaves raised: bit 0 of the status
    cannot be written, and the factorial is read without waiting for it. *)
Definition rmmio_lines (quick : bool) (mem : Z) : list string :=
  ["GVA is 0x" +:+ hex mem +:+ nl; "0x0 : 010000ED" +:+ nl; "0x4 : FFFFFDDD" +:+ nl]
  ++ (if quick then ["0x8 : 00000018" +:+ nl; "0x20 : 00000000" +:+ nl; "0x20 : 00000000" +:+ nl]
      else ["0x8 : 00000004" +:+ nl; "0x20 : 00000001" +:+ nl; "0x20 : 00000001" +:+ nl]).
Lemma rmmio_shows_edu quick mem f :
  mem ≠ -1 →
  rmmio_main (edu quick) 3 mem (EduRegs 0 f 0 0)
  = Done (rmmio_lines quick mem, EduRegs 4294966749 (if quick then 24 else 4) (if quick then 0 else 1) 273).
Proof.
  intros Hm. unfold rmmio_main, rmmio_lines. cbn [Z.eqb Pos.eqb]. replace (mem =? -1) with false by lia.
  generalize ("GVA is 0x" +:+ hex mem +:+ nl). intros l0.
  destruct quick; vm_compute; reflexivity.
Qed.

(** ** uio/simple_uio.c *)

(** What the module holds, in the order taken; the memory of the UIO device. *)
Inductive kpart := Platform_device | Driver | Memory | Uio_device.
#[export] Instance kpart_eq : EqDecision kpart.
Proof. solve_decision. Defined.

Definition ENOMEM : Z := 12.
Definition ENODEV : Z := 19.

(** [addr]: what kmalloc answers; [ret]: what uio_register_device answers. *)
Definition drv_kpart_probe (addr ret : Z) (h : list kpart) : Z * list kpart :=
  if addr =? 0 then (- ENOMEM, h)
  else
  let h := h ++ [Memory] in
  if negb (ret =? 0) then (- ENODEV, h) else (0, h ++ [Uio_device]).
Definition drv_kpart_remove (h : list kpart) : Z * list kpart := (0, filter (.≠ Uio_device) h).

(** [dev_ok]: the platform device could be registered; its driver is probed while
    driver_register runs.  [ret]: what driver_register answers. *)
Definition uio_kpart_init (dev_ok : bool) (addr reg_ret ret : Z) (h : list kpart) : Z * list kpart :=
  let h := if dev_ok then h ++ [Platform_device] else h in
  if ret =? 0 then
    let h := h ++ [Driver] in
    (ret, if dev_ok then snd (drv_kpart_probe addr reg_ret h) else h)
  else (ret, h).
(** Unregistering the device has its driver removed from it. *)
Definition uio_kpart_exit (h : list kpart) : list kpart :=
  let h := if decide (Uio_device ∈ h) then snd (drv_kpart_remove h) else h in
  filter (.≠ Driver) (filter (.≠ Platform_device) h).

(** The memory is never given back, neither when the registration fails nor on
    removal. *)
Lemma kpart_leaks_memory addr reg_ret :
  addr ≠ 0 → uio_kpart_exit (snd (uio_kpart_init true addr reg_ret 0 [])) = [Memory].
Proof.
  intros Ha. unfold uio_kpart_init, drv_kpart_probe. cbn [Z.eqb].
  replace (addr =? 0) with false by lia. by destruct (reg_ret =? 0).
Qed.
(** And a failing driver_register leaves the platform device behind. *)
Lemma kpart_init_fails addr reg_ret ret :
  ret ≠ 0 → uio_kpart_init true addr reg_ret ret [] = (ret, [Platform_device]).
Proof. intros H. unfold uio_kpart_init. by replace (ret =? 0) with false by lia. Qed.
