(* ===== verification/Shm.v ===== *)
(** * sysv/: a shared memory segment written, read and removed by four programs

    The kernel's segments are a finite map from keys to their bytes; each program
    is a function of the map.  Shown: a segment of any size that was created and
    written by these programs is read back without an error, and read alone
    reports exactly the bytes that differ. *)

From S2P Require Import Prelude CLib.

Definition FTOK_FILE : string := "/home/testsysv1.txt".
Definition FTOK_ID : Z := 1.
Definition SHM_RD_PERMISSION : Z := 292.
Definition SHM_WR_PERMISSION : Z := 146.
Definition SHM_RW_PERMISSION : Z := Z.lor SHM_RD_PERMISSION SHM_WR_PERMISSION.
Definition IPC_CREAT : Z := 512.

(** The segments by key. *)
Abbreviation segments := (gmap Z (list Z)).

Section programs.
(** What ftok makes of a file and a number, the id of the segment with a key, and
    whether there is room for a new one. *)
Context (ftok : string → Z → Z) (shmid_of : Z → Z) (room : Z → bool).

(** shmget: the key of the segment, if the answer is not -1, and the segments. *)
Definition shmget (key size oflag : Z) (m : segments) : option Z * segments :=
  match m !! key with
  | Some seg => if u64 size <=? zlen seg then (Some key, m) else (None, m)
  | None =>
      if negb (Z.land oflag IPC_CREAT =? 0) && (0 <? u64 size) && room (u64 size) then
        (Some key, <[key := replicate (Z.to_nat size) 0]> m)
      else (None, m)
  end.

(** shmcreate.c, for its three arguments. *)
Definition shmcreate (length file id : string) (m : segments) : string * segments :=
  let len := atoi length in
  let '(shmid, m) := shmget (ftok file (atoi id)) len (Z.lor IPC_CREAT SHM_RW_PERMISSION) m in
  (match shmid with
   | Some key => "shmget create success, shmid = " +:+ dec (shmid_of key) +:+ " file = " +:+ file +:+ nl
   | None => ""
   end, m).

(** The loop of shmwrite.c; the counter is an int. *)
Fixpoint write_seg (i : Z) (seg : list Z) : res (list Z) :=
  match seg with
  | [] => Done []
  | _ :: seg =>
      if i =? 2 ^ 31 then Wild
      else seg ← write_seg (i + 1) seg; Done (i mod 256 :: seg)
  end.
(** The loop of shmread.c: the lines about errors. *)
Fixpoint read_seg (i : Z) (seg : list Z) : res (list string) :=
  match seg with
  | [] => Done []
  | v :: seg =>
      if i =? 2 ^ 31 then Wild
      else
        lines ← read_seg (i + 1) seg;
        Done (if negb (v =? i mod 256) then ("error: shmadd[" +:+ dec i +:+ "] = " +:+ dec v +:+ nl) :: lines else lines)
  end.

(** Without a segment shmat answers -1 and buf is not set. *)
Definition shmwrite (m : segments) : res segments :=
  match shmget (ftok FTOK_FILE FTOK_ID) 0 SHM_RW_PERMISSION m with
  | (Some key, m) => seg ← from_opt (m !! key); seg ← write_seg 0 seg; Done (<[key := seg]> m)
  | (None, _) => Wild
  end.
Definition shmread (m : segments) : res (list string) :=
  match shmget (ftok FTOK_FILE FTOK_ID) 0 SHM_RW_PERMISSION m with
  | (Some key, m) =>
      seg ← from_opt (m !! key);
      lines ← read_seg 0 seg;
      Done (lines ++ (if zlen lines =? 0 then ["all of read is ok" +:+ nl] else []))
  | (None, _) => Wild
  end.
(** shmrmid.c; removing what does not exist fails and is not noticed. *)
Definition shmrmid (m : segments) : segments :=
  match shmget (ftok FTOK_FILE FTOK_ID) 0 SHM_RW_PERMISSION m with
  | (Some key, m) => delete key m
  | (None, m) => m
  end.

(** ** Properties *)

(** The pattern of a segment of [n] bytes. *)
Definition pattern (n : nat) : list Z := (fun i => i mod 256) <$> seqZ 0 (Z.of_nat n).

Lemma write_seg_pattern seg : ∀ i,
  0 ≤ i → i + zlen seg ≤ 2 ^ 31 → write_seg i seg = Done ((fun k => k mod 256) <$> seqZ i (zlen seg)).
Proof.
  induction seg as [|v seg IH]; intros i Hi Hn; [done|]. rewrite zlen_cons in *. cbn [write_seg].
  pose proof (zlen_nonneg seg). replace (i =? 2 ^ 31) with false by lia. rewrite IH by lia.
  cbn [mbind res_bind]. rewrite (seqZ_cons i) by lia. rewrite fmap_cons.
  replace (Z.succ i) with (i + 1) by lia. by replace (Z.pred (1 + zlen seg)) with (zlen seg) by lia.
Qed.

(** The lines are those of the bytes that are not what the counter says. *)
Definition bad_lines (i : Z) (seg : list Z) : list string :=
  (fun '(k, v) => "error: shmadd[" +:+ dec k +:+ "] = " +:+ dec v +:+ nl)
    <$> filter (fun '(k, v) => v ≠ k mod 256) (zip (seqZ i (zlen seg)) seg).

Lemma bad_lines_cons i v seg :
  bad_lines i (v :: seg) =
  (if v =? i mod 256 then [] else ["error: shmadd[" +:+ dec i +:+ "] = " +:+ dec v +:+ nl]) ++ bad_lines (i + 1) seg.
Proof.
  unfold bad_lines. pose proof (zlen_nonneg seg). rewrite zlen_cons, (seqZ_cons i) by lia. cbn [zip zip_with].
  replace (Z.pred (1 + zlen seg)) with (zlen seg) by lia. replace (Z.succ i) with (i + 1) by lia.
  destruct (Z.eqb_spec v (i mod 256)) as [E|E].
  - by rewrite filter_cons_False by (intros H'; by apply H').
  - by rewrite filter_cons_True by done.
Qed.

Lemma read_seg_lines seg : ∀ i,
  0 ≤ i → i + zlen seg ≤ 2 ^ 31 → read_seg i seg = Done (bad_lines i seg).
Proof.
  induction seg as [|v seg IH]; intros i Hi Hn; [done|]. rewrite zlen_cons in *. cbn [read_seg].
  pose proof (zlen_nonneg seg). replace (i =? 2 ^ 31) with false by lia. rewrite IH by lia.
  rewrite bad_lines_cons. cbn [mbind res_bind]. by destruct (v =? i mod 256).
Qed.

Lemma bad_lines_nil seg : ∀ i,
  bad_lines i seg = [] ↔ seg = (fun k => k mod 256) <$> seqZ i (zlen seg).
Proof.
  induction seg as [|v seg IH]; intros i; [done|]. rewrite bad_lines_cons, zlen_cons.
  pose proof (zlen_nonneg seg). rewrite (seqZ_cons i), fmap_cons by lia.
  replace (Z.pred (1 + zlen seg)) with (zlen seg) by lia. replace (Z.succ i) with (i + 1) by lia.
  destruct (Z.eqb_spec v (i mod 256)) as [->|E]; cbn [app]; [|split; congruence].
  rewrite IH. split; [by intros <-|congruence].
Qed.

Lemma zlen_pattern n : zlen (pattern n) = Z.of_nat n.
Proof. unfold pattern, zlen. rewrite length_fmap, length_seqZ. lia. Qed.

Lemma shmget_found key seg m : shmget key 0 SHM_RW_PERMISSION (<[key := seg]> m) = (Some key, <[key := seg]> m).
Proof.
  unfold shmget. rewrite lookup_insert_eq. pose proof (zlen_nonneg seg).
  rewrite u64_small by lia. by replace (0 <=? zlen seg) with true by lia.
Qed.

(** Reading a segment with any contents. *)
Lemma shmread_any seg m :
  zlen seg ≤ 2 ^ 31 →
  shmread (<[ftok FTOK_FILE FTOK_ID := seg]> m) =
    Done (bad_lines 0 seg ++ if decide (seg = pattern (List.length seg)) then ["all of read is ok" +:+ nl] else []).
Proof.
  intros Hs. unfold shmread. rewrite shmget_found, lookup_insert_eq. cbn [from_opt mbind res_bind].
  rewrite read_seg_lines by lia. cbn [mbind res_bind]. do 2 f_equal.
  pose proof (bad_lines_nil seg 0) as Hb. change (fmap _ (seqZ 0 (zlen seg))) with (pattern (List.length seg)) in Hb.
  case_decide as E; [by rewrite (proj2 Hb E)|].
  destruct (bad_lines 0 seg) as [|l ls]; [by destruct E; apply Hb|].
  rewrite zlen_cons. pose proof (zlen_nonneg ls). by replace (1 + zlen ls =? 0) with false by lia.
Qed.

Lemma atoi_range t : -2147483648 ≤ atoi t < 2147483648.
Proof. unfold atoi, swrap. pose proof (Z.mod_pos_bound (atol t + 2 ^ (32 - 1)) (2 ^ 32) ltac:(lia)). lia. Qed.

(** A segment created, written and read by these programs reads back without an
    error whatever its size (the size that the counter can count); reading reports
    exactly the bytes that are not their place modulo 256; and removing it leaves
    the segments there were before. *)
Theorem shm_session m length file id :
  ftok file (atoi id) = ftok FTOK_FILE FTOK_ID → m !! ftok FTOK_FILE FTOK_ID = None →
  0 < atoi length → room (atoi length) = true →
  let '(line, m1) := shmcreate length file id m in
  line = "shmget create success, shmid = " +:+ dec (shmid_of (ftok FTOK_FILE FTOK_ID)) +:+ " file = " +:+ file +:+ nl
  ∧ (∃ m2, shmwrite m1 = Done m2 ∧ m2 !! ftok FTOK_FILE FTOK_ID = Some (pattern (Z.to_nat (atoi length)))
      ∧ shmread m2 = Done ["all of read is ok" +:+ nl] ∧ shmrmid m2 = m)
  ∧ (∀ seg, zlen seg ≤ 2 ^ 31 → shmread (<[ftok FTOK_FILE FTOK_ID := seg]> m) =
      Done (bad_lines 0 seg ++ if decide (seg = pattern (List.length seg)) then ["all of read is ok" +:+ nl] else [])).
Proof.
  intros Hk Hm Hl Hr. set (key := ftok FTOK_FILE FTOK_ID) in *.
  assert (-2147483648 ≤ atoi length < 2147483648) as Ha by apply atoi_range.
  unfold shmcreate, shmget. rewrite Hk, Hm. rewrite u64_small by lia. replace (0 <? atoi length) with true by lia.
  rewrite Hr. split; [done|]. set (n := Z.to_nat (atoi length)).
  assert (Z.of_nat n = atoi length) as Hn by lia.
  split; [|intros seg Hs; by apply shmread_any].
  exists (<[key := pattern n]> m). unfold shmwrite, shmrmid. fold key. rewrite !shmget_found, !lookup_insert_eq.
  cbn [from_opt mbind res_bind]. rewrite write_seg_pattern; [|lia|rewrite zlen_replicate; lia].
  cbn [mbind res_bind]. rewrite insert_insert_eq. split; [by rewrite zlen_replicate|]. split; [done|]. split.
  - unfold key. rewrite shmread_any by (rewrite zlen_pattern; lia).
    assert (List.length (pattern n) = n) as El by (pose proof (zlen_pattern n); unfold zlen in *; lia).
    rewrite El, decide_True by done. replace (bad_lines 0 (pattern n)) with (@nil string); [done|].
    symmetry. apply bad_lines_nil. by rewrite zlen_pattern.
  - by rewrite delete_insert_eq, delete_id.
Qed.
End programs.

(** A segment of 1000 bytes. *)
Lemma shm_session_witness :
  let ftok := fun (_ : string) (_ : Z) => 42 in
  let '(line, m1) := shmcreate ftok (fun k => k) (fun _ => true) "1000" "/home/testsysv1.txt" "1" ∅ in
  ∃ m2, shmwrite ftok (fun _ => true) m1 = Done m2
    ∧ shmread ftok (fun _ => true) m2 = Done ["all of read is ok" +:+ nl] ∧ shmrmid ftok (fun _ => true) m2 = ∅.
Proof.
  destruct (shm_session (fun _ _ => 42) (fun k => k) (fun _ => true) ∅ "1000" "/home/testsysv1.txt" "1")
    as (_ & (m2 & H1 & _ & H2 & H3) & _); [reflexivity..|].
  exists m2. split; [exact H1|]. split; [exact H2|exact H3].
Defined.

(** With the files of the comment in shmcreate.c the other programs look for another
    key, and write to address -1. *)
Lemma shmwrite_other_key ftok room (m : segments) :
  m !! ftok FTOK_FILE FTOK_ID = None → shmwrite ftok room m = Wild.
Proof. intros H. unfold shmwrite, shmget. rewrite H. done. Qed.
