(* ===== verification/Samples.v ===== *)
(** * Small user programs

    mem/dirty_mem.c touches a buffer, mem/thp.c a mapping, mem/mmap.c maps a file
    it extends, waitpid/waitsignal.c reports what becomes of a child, mem/tpage.c
    rounds addresses and str/str2ul.c reads a number.  What the system answers is
    an argument of each. *)

From S2P Require Import Prelude CLib CBytes.

(** ** mem/dirty_mem.c *)

(** The number of buffers for a size, with the line printed. *)
Definition sizes : list (string * Z * string) :=
  [("128m", 32768, "start generate 128M memory r/w load, ctrl+c to quit. " +:+ nl);
   ("256m", 65536, "start generate 256M memory r/w load, ctrl+c to quit. " +:+ nl);
   ("512m", 131072, "start generate 512M memory r/w load, ctrl+c to quit. " +:+ nl);
   ("1g", 262144, "start generate 1G memory r/w load, ctrl+c to quit. " +:+ nl);
   ("2g", 524288, "start generate 2G memory r/w load, ctrl+c to quit. " +:+ nl)].
Definition size_of (c : string) : option (Z * string) :=
  match list_find (fun '(name, _, _) => name = c) sizes with
  | Some (_, (_, n, line)) => Some (n, line)
  | None => None
  end.

(** buf[i * buf_length / 4]++ on a buffer of chars. *)
Definition touch (buf_length i : Z) (buf : list Z) : res (list Z) :=
  let k := Z.quot (i64 (i * buf_length)) 4 in
  v ← aget buf k;
  aset buf k (swrap 8 (v + 1)).
(** One round of the endless loop. *)
Definition dirty_pass (buf_num buf_length : Z) (buf : list Z) : res (list Z) :=
  foldm (touch buf_length) (seqZ 0 (buf_num * 4)) buf.
Fixpoint dirty_passes (rounds : nat) (buf_num buf_length : Z) (buf : list Z) : res (list Z) :=
  match rounds with
  | O => Done buf
  | S rounds => buf ← dirty_pass buf_num buf_length buf; dirty_passes rounds buf_num buf_length buf
  end.

(** The line read by gets into c[100], then either [rounds] rounds on the buffer
    calloc answers ([None]: it fails), or the end; what was printed, and the buffer. *)
Definition dirty_main (line : string) (mem : bool) (rounds : nat) : res (string * list Z) :=
  if 100 <=? strlen line then Wild
  else
  match size_of line with
  | Some (buf_num, text) =>
      if mem then
        buf ← dirty_passes rounds buf_num 4096 (replicate (Z.to_nat (buf_num * 4096)) 0);
        Done ("Enter memory you want to test: " +:+ text +:+ "use free -h to monitor " +:+ texts (fun _ => ".") (replicate rounds tt), buf)
      else Wild
  | None =>
      Done ("Enter memory you want to test: please input following size 128m, 256m, 512, 1g, 2g. please input correct size. " +:+ nl, [])
  end.

(** A buffer after some rounds: every 1024th byte counts them. *)
Definition touched (rounds : Z) (n : nat) : list Z :=
  (fun j => if j mod 1024 =? 0 then swrap 8 rounds else 0) <$> seqZ 0 (Z.of_nat n).

Lemma touched_lookup r n j : (j < n)%nat → touched r n !! j = Some (if Z.of_nat j mod 1024 =? 0 then swrap 8 r else 0).
Proof.
  intros H. unfold touched. rewrite list_lookup_fmap, lookup_seqZ_lt by lia. cbn. done.
Qed.

(** In the middle of a round. *)
Definition partly (r k : Z) (n : nat) : list Z :=
  (fun j => if j mod 1024 =? 0 then swrap 8 (if j <? 1024 * k then r + 1 else r) else 0) <$> seqZ 0 (Z.of_nat n).

Lemma partly_lookup r k n j :
  partly r k n !! j = if decide (j < n)%nat
    then Some (if Z.of_nat j mod 1024 =? 0 then swrap 8 (if Z.of_nat j <? 1024 * k then r + 1 else r) else 0) else None.
Proof.
  unfold partly. rewrite list_lookup_fmap. case_decide; [by rewrite lookup_seqZ_lt by lia|].
  by rewrite lookup_seqZ_ge by lia.
Qed.
Lemma zlen_partly r k n : zlen (partly r k n) = Z.of_nat n.
Proof. unfold partly, zlen. rewrite length_fmap, length_seqZ. lia. Qed.

Lemma swrap_succ r : swrap 8 (swrap 8 r + 1) = swrap 8 (r + 1).
Proof.
  unfold swrap. f_equal. replace (_ - 2 ^ (8 - 1) + 1 + 2 ^ (8 - 1)) with ((r + 2 ^ (8 - 1)) mod 2 ^ 8 + 1) by lia.
  rewrite Zplus_mod_idemp_l. f_equal. lia.
Qed.

Lemma touch_partly r k n :
  0 ≤ k → 1024 * (k + 1) ≤ Z.of_nat n → k < 2 ^ 31 → touch 4096 k (partly r k n) = Done (partly r (k + 1) n).
Proof.
  intros Hk Hn Hb. assert (Z.quot (i64 (k * 4096)) 4 = 1024 * k) as E.
  { rewrite swrap_small by lia. rewrite Z.quot_div_nonneg by lia.
    replace (k * 4096) with (1024 * k * 4) by lia. by rewrite Z.div_mul by lia. }
  unfold touch. rewrite E. clear E.
  assert (aget (partly r k n) (1024 * k) = Done (swrap 8 r)) as ->.
  { apply aget_done. split; [lia|]. rewrite partly_lookup, decide_True by lia. rewrite Z2Nat.id by lia.
    replace (1024 * k) with (k * 1024) at 1 by lia. rewrite Z_mod_mult. cbn [Z.eqb].
    by rewrite Z.ltb_irrefl. }
  cbn [mbind res_bind]. rewrite aset_in by (rewrite zlen_partly; lia). f_equal. apply list_eq. intros j.
  rewrite partly_lookup. destruct (decide (j = Z.to_nat (1024 * k))) as [->|Hj].
  - rewrite list_lookup_insert_eq by (pose proof (zlen_partly r k n); unfold zlen in *; lia).
    rewrite decide_True, Z2Nat.id, swrap_succ by lia. replace (1024 * k) with (k * 1024) at 1 by lia. rewrite Z_mod_mult. cbn [Z.eqb].
    by replace (1024 * k <? 1024 * (k + 1)) with true by lia.
  - rewrite list_lookup_insert_ne, partly_lookup by done. case_decide; [|done]. f_equal.
    destruct (Z.eqb_spec (Z.of_nat j mod 1024) 0) as [E|E]; [|done]. do 2 f_equal.
    pose proof (Z.div_mod (Z.of_nat j) 1024 ltac:(lia)).
    destruct (Z.ltb_spec (Z.of_nat j) (1024 * k)), (Z.ltb_spec (Z.of_nat j) (1024 * (k + 1))); lia || done.
Qed.

Lemma dirty_pass_partly r (k n : nat) :
  1024 * Z.of_nat k ≤ Z.of_nat n → Z.of_nat k < 2 ^ 31 →
  foldm (touch 4096) (seqZ 0 (Z.of_nat k)) (partly r 0 n) = Done (partly r (Z.of_nat k) n).
Proof.
  induction k as [|k IH]; intros Hn Hk; [done|].
  rewrite seqZ_S, foldm_app, IH by lia. cbn [mbind res_bind foldm].
  rewrite Z.add_0_l, touch_partly by lia. cbn [mbind res_bind]. do 2 f_equal. lia.
Qed.

Lemma partly_touched r n : partly r 0 n = touched r n.
Proof.
  unfold partly, touched. apply list_fmap_ext. intros i j Hj. apply lookup_seqZ in Hj.
  by replace (j <? 1024 * 0) with false by lia.
Qed.
Lemma partly_all r k n : Z.of_nat n ≤ 1024 * k → partly r k n = touched (r + 1) n.
Proof.
  intros H. unfold partly, touched. apply list_fmap_ext. intros i j Hj. apply lookup_seqZ in Hj.
  by replace (j <? 1024 * k) with true by lia.
Qed.

Lemma dirty_passes_touched rounds buf_num : ∀ r,
  0 < buf_num < 2 ^ 20 →
  dirty_passes rounds buf_num 4096 (touched r (Z.to_nat (buf_num * 4096)))
  = Done (touched (r + Z.of_nat rounds) (Z.to_nat (buf_num * 4096))).
Proof.
  induction rounds as [|rounds IH]; intros r Hb; cbn [dirty_passes]; [by rewrite Z.add_0_r|].
  unfold dirty_pass. rewrite <- partly_touched. replace (buf_num * 4) with (Z.of_nat (Z.to_nat (buf_num * 4))) by lia.
  rewrite dirty_pass_partly by lia. cbn [mbind res_bind]. rewrite partly_all by lia.
  rewrite IH by done. do 2 f_equal. lia.
Qed.

Lemma replicate_touched n : replicate n 0 = touched 0 n.
Proof.
  unfold touched. apply replicate_as_elem_of. split.
  - rewrite length_fmap, length_seqZ. lia.
  - intros x (j & -> & _)%list_elem_of_fmap. by case_match.
Qed.

(** dirty_mem stays inside its buffer in any number of rounds, and every 1024th byte
    (four per page) counts them, modulo 256 as a signed char. *)
Theorem dirty_mem_touches line text n rounds :
  strlen line < 100 → size_of line = Some (n, text) →
  dirty_main line true rounds = Done
    ("Enter memory you want to test: " +:+ text +:+ "use free -h to monitor " +:+ texts (fun _ => ".") (replicate rounds tt),
     touched (Z.of_nat rounds) (Z.to_nat (n * 4096))).
Proof.
  intros Hl Hs. unfold dirty_main. replace (100 <=? strlen line) with false by lia. rewrite Hs.
  assert (0 < n < 2 ^ 20) as Hn.
  { unfold size_of in Hs. case_match eqn:E; [|done]. destruct p as [i [[name k] t]]. injection Hs as -> ->.
    apply list_find_Some in E as (E & _ & _). apply list_elem_of_lookup_2 in E. unfold sizes in E.
    do 5 (apply elem_of_cons in E as [E|E]; [injection E as _ -> _; lia|]). by apply elem_of_nil in E. }
  rewrite replicate_touched, dirty_passes_touched by done. done.
Qed.

(** A longer line overruns c. *)
Lemma dirty_mem_overrun line mem rounds : 100 ≤ strlen line → dirty_main line mem rounds = Wild.
Proof. intros H. unfold dirty_main. by replace (100 <=? strlen line) with true by lia. Qed.

(** ** mem/thp.c *)

Definition MEMBLK_SIZE : Z := 400 * 1024 * 1024.

(** The stores of thp_map before it spins: [None]: mmap failed, which is reported
    and then overlooked. *)
Definition thp_map (ptr : option (list Z)) : res (list Z) :=
  match ptr with
  | None => Wild
  | Some words => foldm (fun j ws => aset ws j 10) (seqZ 0 (MEMBLK_SIZE / 8)) words
  end.

(** Every word of the mapping is written. *)
Lemma thp_map_fills words :
  zlen words = MEMBLK_SIZE / 8 → thp_map (Some words) = Done ((fun _ => 10) <$> seqZ 0 (MEMBLK_SIZE / 8)).
Proof. apply (fill_all (fun _ => 10)). Qed.

(** ** mem/tpage.c *)

Definition PAGE_SHIFT : Z := 12.
Definition PAGE_SIZE : Z := u64 (Z.shiftl 1 PAGE_SHIFT).
Definition PAGE_MASK : Z := u64 (Z.lnot (PAGE_SIZE - 1)).
Definition HOST_PAGE_ALIGN (addr : Z) : Z := Z.land (u64 (u64 (addr + PAGE_SIZE) - 1)) PAGE_MASK.
Definition tpage_main : list string :=
  [hex 512 +:+ nl; hex (HOST_PAGE_ALIGN 131072) +:+ nl; hex (HOST_PAGE_ALIGN 65536) +:+ nl; hex (HOST_PAGE_ALIGN 262144) +:+ nl].

(** The next multiple of the page size, unless it lies beyond 64 bits. *)
Lemma page_align_spec a :
  0 ≤ a → a + 4096 < 2 ^ 64 → HOST_PAGE_ALIGN a = (a + 4095) / 4096 * 4096.
Proof.
  intros H0 H1. unfold HOST_PAGE_ALIGN. change PAGE_SIZE with 4096. rewrite !u64_small by (rewrite ?u64_small; lia).
  replace (a + 4096 - 1) with (a + 4095) by lia.
  assert (PAGE_MASK = Z.land (Z.ones 64) (Z.lnot (Z.ones 12))) as -> by (vm_compute; reflexivity).
  rewrite Z.land_assoc, Z.land_ones, Z.mod_small by lia.
  rewrite <- Z.ldiff_land, Z.ldiff_ones_r by lia. rewrite Z.shiftl_mul_pow2, Z.shiftr_div_pow2 by lia. done.
Qed.

(** ** mem/mmap.c *)

(** The file behind argv[1] with the text in it: the length mapped, the text that
    printf shows, and the file afterwards: a byte is skipped and a zero byte
    written behind it. *)
Definition mmap_main (file : list Z) : res (Z * list Z * list Z) :=
  let flength := i32 (zlen file + 1) in
  let file := file ++ [0; 0] in
  let mapped := take (Z.to_nat flength) file in
  if existsb (Z.eqb 0) mapped then
    Done (flength, (fix go bs := match bs with [] => [] | b :: bs => if b =? 0 then [] else b :: go bs end) mapped, file)
  else Wild.

(** The byte skipped ends the text; each run makes the file two bytes longer. *)
Lemma mmap_shows_file file :
  Forall (fun b => b ≠ 0) file → zlen file < 2 ^ 31 - 1 → mmap_main file = Done (zlen file + 1, file, file ++ [0; 0]).
Proof.
  intros Hf Hn. unfold mmap_main. pose proof (zlen_nonneg file) as H. rewrite i32_small by lia.
  assert (take (Z.to_nat (zlen file + 1)) (file ++ [0; 0]) = file ++ [0]) as ->.
  { unfold zlen. rewrite take_app_ge by lia. f_equal.
    replace (Z.to_nat (Z.of_nat (List.length file) + 1) - List.length file)%nat with 1%nat by lia. done. }
  rewrite existsb_app. cbn [existsb Z.eqb]. rewrite orb_true_r. f_equal. f_equal. f_equal.
  clear H Hn. induction Hf as [|b bs Hb _ IH]; [done|]. cbn [app]. replace (b =? 0) with false by lia. by f_equal.
Qed.

(** ** waitpid/waitsignal.c *)

(** The macros of sys/wait.h. *)
Definition WIFEXITED (status : Z) : bool := Z.land status 127 =? 0.
Definition WEXITSTATUS (status : Z) : Z := Z.shiftr (Z.land status 65280) 8.
Definition WTERMSIG (status : Z) : Z := Z.land status 127.
Definition WIFSIGNALED (status : Z) : bool := 0 <? Z.shiftr (swrap 8 (Z.land status 127 + 1)) 1.
Definition WIFSTOPPED (status : Z) : bool := Z.land status 255 =? 127.
Definition WSTOPSIG (status : Z) : Z := WEXITSTATUS status.
Definition WIFCONTINUED (status : Z) : bool := status =? 65535.

(** What the parent says after a wait, and whether it goes on. *)
Definition wait_report (status : Z) : string * bool :=
  if WIFEXITED status then ("子进程正常退出，状态码: " +:+ dec (WEXITSTATUS status) +:+ nl, false)
  else if WIFSIGNALED status then ("子进程被信号杀死了! 信号值: " +:+ dec (WTERMSIG status) +:+ nl, false)
  else if WIFSTOPPED status then ("子进程被信号暂停了! 信号值: " +:+ dec (WSTOPSIG status) +:+ nl, true)
  else if WIFCONTINUED status then ("子进程又恢复继续运行了" +:+ nl, true)
  else ("", true).
(** The parent, for the statuses that waitpid sets one after the other; [None]: it
    still waits when they are through. *)
Fixpoint parent (self pid : Z) (waits : list Z) : string * option Z :=
  let head := "Parent: " +:+ dec self +:+ " " +:+ dec pid +:+ nl in
  match waits with
  | [] => (head, None)
  | status :: waits =>
      let '(text, goes_on) := wait_report status in
      if goes_on : bool then let '(out, r) := parent self pid waits in (head +:+ text +:+ out, r)
      else (head +:+ text, Some 0)
  end.

(** What can become of a child, and the status the kernel makes of it. *)
Inductive fate := Exited (code : Z) | Killed (sig : Z) (core : bool) | Stopped (sig : Z) | Continued.
Definition status_of (f : fate) : Z :=
  match f with
  | Exited code => Z.shiftl code 8
  | Killed sig core => Z.lor sig (if core then 128 else 0)
  | Stopped sig => Z.lor (Z.shiftl sig 8) 127
  | Continued => 65535
  end.
Definition possible (f : fate) : Prop :=
  match f with
  | Exited code => 0 ≤ code < 256
  | Killed sig _ | Stopped sig => 1 ≤ sig ≤ 64
  | Continued => True
  end.
Definition fate_text (f : fate) : string :=
  match f with
  | Exited code => "子进程正常退出，状态码: " +:+ dec code +:+ nl
  | Killed sig _ => "子进程被信号杀死了! 信号值: " +:+ dec sig +:+ nl
  | Stopped sig => "子进程被信号暂停了! 信号值: " +:+ dec sig +:+ nl
  | Continued => "子进程又恢复继续运行了" +:+ nl
  end.
Definition final (f : fate) : bool := match f with Exited _ | Killed _ _ => true | _ => false end.

(** The four branches, over all statuses. *)
Definition seen (f : fate) : Prop :=
  let s := status_of f in
  match f with
  | Exited code => WIFEXITED s = true ∧ WEXITSTATUS s = code
  | Killed sig _ => WIFEXITED s = false ∧ WIFSIGNALED s = true ∧ WTERMSIG s = sig
  | Stopped sig => WIFEXITED s = false ∧ WIFSIGNALED s = false ∧ WIFSTOPPED s = true ∧ WSTOPSIG s = sig
  | Continued => WIFEXITED s = false ∧ WIFSIGNALED s = false ∧ WIFSTOPPED s = false ∧ WIFCONTINUED s = true
  end.
#[export] Instance seen_dec f : Decision (seen f).
Proof. destruct f; cbn; apply _. Defined.

Lemma fate_seen f : possible f → seen f.
Proof.
  assert (Forall (fun c => seen (Exited c)) (seqZ 0 256)
    ∧ Forall (fun s => seen (Killed s true) ∧ seen (Killed s false) ∧ seen (Stopped s)) (seqZ 1 64)) as [H1 H2].
  { split; apply (bool_decide_unpack _); vm_compute; exact I. }
  rewrite Forall_forall in H1, H2.
  destruct f as [code|sig core|sig|]; cbn [possible]; intros Hp.
  - apply H1, elem_of_seqZ. lia.
  - destruct (H2 sig) as (Ha & Hb & _); [apply elem_of_seqZ; lia|]. by destruct core.
  - apply H2, elem_of_seqZ. lia.
  - by vm_compute.
Qed.

(** Every change of the child's state is reported as what it is, and the parent
    ends with the first exit or death. *)
Theorem wait_report_spec f : possible f → wait_report (status_of f) = (fate_text f, negb (final f)).
Proof.
  intros H%fate_seen. unfold wait_report. destruct f; cbn [seen fate_text final] in *.
  - by destruct H as [-> ->].
  - by destruct H as (-> & -> & ->).
  - by destruct H as (-> & -> & -> & ->).
  - by destruct H as (-> & -> & -> & ->).
Qed.

(** ** str/str2ul.c *)

(** The line typed; the text printed with the length of the array that was not set
    yet is left out. *)
Definition str2ul_main (input : string) : list string :=
  let str := fgets 5 input in
  let '(ret, endptr) := strtoul 0 (cstr str) in
  ["ul output is " +:+ dec (u64 ret) +:+ nl; "invalid character is " +:+ endptr +:+ nl].

(** Only five characters are read. *)
Lemma str2ul_cuts : str2ul_main ("123456fe789" +:+ nl) = ["ul output is 12345" +:+ nl; "invalid character is " +:+ nl].
Proof. vm_compute. reflexivity. Qed.
