(* ===== verification/KSamples.v ===== *)
(** * Kernel samples: percpu/percpu.c, kprobe/kprobe_example.c, lock/spinlock/spinlock.c

    Per-CPU variables as lists with a place per CPU, the planting of a probe, and
    two threads around a spin lock.  What the kernel answers is an argument;
    memory that is allocated and not freed is part of the state. *)

From S2P Require Import Prelude CLib.

(** ** percpu/percpu.c *)

(** The variable cpuvar, the areas allocated and not freed, which of them cpualloc
    points to, and the kernel log. *)
Record pst := Pst { cpuvar : list Z; areas : gmap nat (list Z); cpualloc : option nat; log : list string }.
#[export] Instance pst_eta : Eta pst := fun s => Pst (cpuvar s) (areas s) (cpualloc s) (log s).

Definition say (t : string) (s : pst) : pst := s <| log := log s ++ [t] |>.

(** alloc_percpu(long) for [n] CPUs: zeroed, or NULL; stored in cpualloc. *)
Definition alloc_percpu (ok : bool) (n : nat) (s : pst) : pst :=
  if ok then
    let i := fresh (dom (areas s)) in
    s <| areas := <[i := replicate n 0]> (areas s) |> <| cpualloc := Some i |>
  else s <| cpualloc := None |>.
Definition per_cpu_get (s : pst) (cpu : Z) : res Z :=
  i ← from_opt (cpualloc s); a ← from_opt (areas s !! i); aget a cpu.
Definition per_cpu_set (cpu v : Z) (s : pst) : res pst :=
  i ← from_opt (cpualloc s);
  a ← from_opt (areas s !! i);
  a ← aset a cpu v;
  Done (s <| areas := <[i := a]> (areas s) |>).

(** [cpu]: what smp_processor_id answers; the return value and the state. *)
Definition percpu_init (ok1 ok2 : bool) (n : nat) (cpu : Z) (s : pst) : res (Z * pst) :=
  let cpus := seqZ 0 (Z.of_nat n) in
  let s := alloc_percpu ok1 n s in
  match cpualloc s with
  | None => Done (-1, say ("alloc_percpu" +:+ nl) s)
  | Some _ =>
      s ← foldm (fun i s => per_cpu_set i i s) cpus s;
      s ← foldm (fun i s => v ← per_cpu_get s i; Done (say (dec i +:+ " = " +:+ dec v +:+ nl) s)) cpus s;
      s ← foldm (fun i s => c ← aset (cpuvar s) i 18; Done (s <| cpuvar := c |>)) cpus s;
      v ← aget (cpuvar s) cpu;
      c ← aset (cpuvar s) cpu (i64 (v + 1));
      let s := say ("init: cpuvar on cpu" +:+ dec cpu +:+ "  = " +:+ dec v +:+ nl) (s <| cpuvar := c |>) in
      let s := alloc_percpu ok2 n s in
      s ← foldm (fun i s => per_cpu_set i 100 s) cpus s;
      Done (0, s)
  end.

(** [self]: the address of the function, as %p shows it. *)
Definition percpu_exit (self : string) (n : nat) (cpu : Z) (s : pst) : res pst :=
  let cpus := seqZ 0 (Z.of_nat n) in
  let s := say ("exit module..." +:+ nl) s in
  s ← foldm (fun i s => v ← aget (cpuvar s) i; Done (say ("cpuvar cpu" +:+ dec i +:+ " = " +:+ dec v +:+ nl) s)) cpus s;
  v ← per_cpu_get s cpu;
  let s := say ("exit: cpualloc = " +:+ dec v +:+ nl) s in
  i ← from_opt (cpualloc s);
  Done (say ("Bye: module unloaded from 0x" +:+ self +:+ nl) (s <| areas := delete i (areas s) |>)).

Definition percpu0 (n : nat) : pst := Pst (replicate n 10) ∅ None [].

Lemma per_cpu_set_eq s i a k v :
  cpualloc s = Some i → areas s !! i = Some a →
  per_cpu_set k v s = (a ← aset a k v; Done (s <| areas := <[i := a]> (areas s) |>)).
Proof. intros Hc Ha. unfold per_cpu_set. rewrite Hc. cbn [from_opt mbind res_bind]. by rewrite Ha. Qed.

(** A store per CPU through cpualloc is a store in its area. *)
Lemma per_cpu_fold g l i : ∀ s a,
  cpualloc s = Some i → areas s !! i = Some a →
  foldm (fun k s => per_cpu_set k (g k) s) l s
  = (a' ← foldm (fun k a => aset a k (g k)) l a; Done (s <| areas := <[i := a']> (areas s) |>)).
Proof.
  induction l as [|k l IH]; intros s a Hc Ha; cbn [foldm mbind res_bind].
  - rewrite insert_id by done. by destruct s.
  - rewrite (per_cpu_set_eq s i a) by done.
    destruct (aset a k (g k)) as [a1| |]; [|done..]. cbn [mbind res_bind].
    rewrite (IH _ a1); [|done|cbn; apply lookup_insert_eq]. cbn.
    destruct (foldm _ l a1); [|done..]. cbn. by rewrite insert_insert_eq.
Qed.

(** A line per CPU about a value the log has no part in. *)
Lemma say_fold (get : pst → Z → res Z) (line : Z → Z → string) (val : Z → Z) l : ∀ s,
  (∀ k lg, k ∈ l → get (s <| log := lg |>) k = Done (val k)) →
  foldm (fun k s => v ← get s k; Done (say (line k v) s)) l s
  = Done (s <| log := log s ++ ((fun k => line k (val k)) <$> l) |>).
Proof.
  induction l as [|k l IH]; intros s Hg; cbn [foldm fmap list_fmap].
  - rewrite app_nil_r. by destruct s.
  - assert (get s k = Done (val k)) as -> by (specialize (Hg k (log s)); destruct s; apply Hg; left).
    cbn [mbind res_bind]. rewrite IH.
    + unfold say. cbn. by rewrite <- app_assoc.
    + intros j lg Hj. apply (Hg j lg). by right.
Qed.

Lemma aset_fold v l : ∀ s,
  foldm (fun i s => c ← aset (cpuvar s) i v; Done (s <| cpuvar := c |>)) l s
  = (c ← foldm (fun i c => aset c i v) l (cpuvar s); Done (s <| cpuvar := c |>)).
Proof.
  induction l as [|k l IH]; intros s; cbn [foldm mbind res_bind]; [by destruct s|].
  destruct (aset (cpuvar s) k v) as [c| |]; [|done..]. cbn [mbind res_bind]. rewrite IH. done.
Qed.

Definition set_cpus (n : nat) : list Z := seqZ 0 (Z.of_nat n).
Lemma fill_cpus g n (l : list Z) :
  zlen l = Z.of_nat n → foldm (fun j ws => aset ws j (g j)) (set_cpus n) l = Done (g <$> set_cpus n).
Proof. apply fill_all. Qed.
(** cpuvar behind init: 18 everywhere, one more where init ran. *)
Definition after_init (n : nat) (cpu : Z) : list Z := (fun i => if i =? cpu then 19 else 18) <$> set_cpus n.

Lemma after_init_get n cpu i : 0 ≤ i < Z.of_nat n → aget (after_init n cpu) i = Done (if i =? cpu then 19 else 18).
Proof.
  intros Hi. apply aget_done. split; [lia|]. unfold after_init, set_cpus.
  rewrite list_lookup_fmap, lookup_seqZ_lt by lia. cbn. by rewrite Z2Nat.id by lia.
Qed.

Lemma after_init_set n cpu :
  0 ≤ cpu < Z.of_nat n →
  (v ← aget ((fun _ => 18) <$> set_cpus n) cpu; aset ((fun _ => 18) <$> set_cpus n) cpu (i64 (v + 1)))
  = Done (after_init n cpu)
  ∧ aget ((fun _ => 18) <$> set_cpus n) cpu = Done 18.
Proof.
  intros Hc. assert (aget ((fun _ => 18) <$> set_cpus n) cpu = Done 18) as E.
  { apply aget_done. split; [lia|]. unfold set_cpus. rewrite list_lookup_fmap, lookup_seqZ_lt by lia. done. }
  rewrite E. cbn [mbind res_bind]. split; [|done].
  assert (List.length ((fun _ => 18) <$> set_cpus n) = n) as El by (unfold set_cpus; rewrite length_fmap, length_seqZ; lia).
  rewrite aset_in by (unfold zlen; lia). f_equal. apply list_eq. intros j. unfold after_init, set_cpus in *.
  destruct (decide (j < n)%nat) as [Hj|Hj].
  - rewrite list_lookup_fmap, lookup_seqZ_lt by lia. cbn. destruct (decide (j = Z.to_nat cpu)) as [->|Hn].
    + rewrite list_lookup_insert_eq by lia. by replace (0 + Z.of_nat (Z.to_nat cpu) =? cpu) with true by lia.
    + rewrite list_lookup_insert_ne, list_lookup_fmap, lookup_seqZ_lt by lia. cbn.
      by replace (0 + Z.of_nat j =? cpu) with false by lia.
  - rewrite !lookup_ge_None_2; [done|..]; rewrite ?length_insert, ?length_fmap, ?length_seqZ; lia.
Qed.

Definition init_log (n : nat) (cpu : Z) : list string :=
  ((fun i => dec i +:+ " = " +:+ dec i +:+ nl) <$> set_cpus n) ++ ["init: cpuvar on cpu" +:+ dec cpu +:+ "  = 18" +:+ nl].

Lemma percpu_init_spec n cpu ok :
  0 ≤ cpu < Z.of_nat n →
  ∃ i, percpu_init true ok n cpu (percpu0 n) =
    if ok then
      Done (0, Pst (after_init n cpu) (<[fresh (dom (M := gmap nat (list Z)) {[i := set_cpus n]}) := (fun _ => 100) <$> set_cpus n]> {[i := set_cpus n]})
                (Some (fresh (dom (M := gmap nat (list Z)) {[i := set_cpus n]}))) (init_log n cpu))
    else Wild.
Proof.
  intros Hc. set (i := fresh (dom (∅ : gmap nat (list Z)))). exists i.
  unfold percpu_init. change (cpualloc (alloc_percpu true n (percpu0 n))) with (Some i).
  rewrite (per_cpu_fold (fun k => k) _ i _ (replicate n 0)); [|done|apply lookup_insert_eq].
  rewrite (fill_all (fun k => k)), list_fmap_id by apply zlen_replicate. cbn [mbind res_bind].
  fold (set_cpus n). set (s1 := (alloc_percpu true n (percpu0 n)) <| areas := _ |>).
  assert (s1 = Pst (replicate n 10) {[i := set_cpus n]} (Some i) []) as E1
    by (unfold s1; cbn; by rewrite insert_insert_eq). rewrite E1. clear s1 E1.
  rewrite (say_fold per_cpu_get (fun k v => dec k +:+ " = " +:+ dec v +:+ nl) (fun k => k)).
  2:{ intros k lg Hk. apply elem_of_seqZ in Hk. unfold per_cpu_get. cbn. rewrite lookup_singleton_eq. cbn.
      apply aget_done. split; [lia|]. apply lookup_seqZ. lia. }
  cbn [mbind res_bind]. rewrite aset_fold, (fill_cpus (fun _ => 18)) by apply zlen_replicate.
  destruct (after_init_set n cpu Hc) as [E1 E2]. cbn [mbind res_bind cpuvar set_field pst_eta eta].
  rewrite E2 in *. cbn [mbind res_bind] in *. rewrite E1. cbn [mbind res_bind].
  destruct ok.
  - erewrite (per_cpu_fold (fun _ => 100) _ (fresh (dom (M := gmap nat (list Z)) {[i := set_cpus n]})) _ (replicate n 0));
      [|reflexivity|apply lookup_insert_eq].
    rewrite (fill_cpus (fun _ => 100)) by apply zlen_replicate. cbn. by rewrite insert_insert_eq.
  - unfold set_cpus at 1. rewrite seqZ_cons by lia. done.
Qed.

(** The values of a whole life of the module, loaded on [cpu] and unloaded on [cpu']:
    the areas, the variable and the log are what the code sets out to show, but the
    first area is never freed; and when the second allocation fails the module
    writes through the null pointer. *)
Theorem percpu_life n cpu cpu' self :
  0 ≤ cpu < Z.of_nat n → 0 ≤ cpu' < Z.of_nat n →
  (∃ s s' i, percpu_init true true n cpu (percpu0 n) = Done (0, s) ∧ percpu_exit self n cpu' s = Done s'
    ∧ areas s' = {[i := set_cpus n]}
    ∧ log s' = init_log n cpu ++ ["exit module..." +:+ nl]
        ++ ((fun i => "cpuvar cpu" +:+ dec i +:+ " = " +:+ dec (if i =? cpu then 19 else 18) +:+ nl) <$> set_cpus n)
        ++ ["exit: cpualloc = 100" +:+ nl; "Bye: module unloaded from 0x" +:+ self +:+ nl])
  ∧ percpu_init true false n cpu (percpu0 n) = Wild.
Proof.
  intros Hc Hc'. split; [|by destruct (percpu_init_spec n cpu false Hc) as [i ->]].
  destruct (percpu_init_spec n cpu true Hc) as [i E].
  set (j := fresh (dom (M := gmap nat (list Z)) {[i := set_cpus n]})) in *.
  assert (j ≠ i) as Hj.
  { intros Hij. assert (j ∉ dom (M := gmap nat (list Z)) {[i := set_cpus n]}) as Hn by apply is_fresh.
    apply Hn. rewrite dom_singleton. set_solver. }
  eexists _, _, i. split; [exact E|]. unfold percpu_exit.
  rewrite (say_fold (fun s i => aget (cpuvar s) i) (fun k v => "cpuvar cpu" +:+ dec k +:+ " = " +:+ dec v +:+ nl)
    (fun k => if k =? cpu then 19 else 18)).
  2:{ intros k lg Hk. apply elem_of_seqZ in Hk. by apply after_init_get. }
  cbn [mbind res_bind]. unfold per_cpu_get. cbn [cpualloc areas say set_field pst_eta eta from_opt mbind res_bind].
  rewrite lookup_insert_eq. cbn [from_opt mbind res_bind].
  assert (aget ((fun _ => 100) <$> set_cpus n) cpu' = Done 100) as ->.
  { apply aget_done. split; [lia|]. unfold set_cpus. rewrite list_lookup_fmap, lookup_seqZ_lt by lia. done. }
  cbn [mbind res_bind]. split; [reflexivity|]. cbn. split.
  - by rewrite delete_insert_eq, delete_id by (by rewrite lookup_singleton_ne).
  - by rewrite <- !app_assoc.
Qed.

(** ** kprobe/kprobe_example.c *)

Definition MAX_SYMBOL_LEN : Z := 64.
Definition symbol : string := "_do_fork".

(** The registers the handlers print on x86, and addresses as %p shows them. *)
Record pt_regs := PtRegs { ip : Z; flags : Z }.

Definition handler_pre (addr : string) (regs : pt_regs) : Z * string :=
  (0, "<" +:+ symbol +:+ "> pre_handler: p->addr = 0x" +:+ addr +:+ ", ip = " +:+ hex (ip regs)
      +:+ ", flags = 0x" +:+ hex (flags regs) +:+ nl).
Definition handler_post (addr : string) (regs : pt_regs) : string :=
  "<" +:+ symbol +:+ "> post_handler: p->addr = 0x" +:+ addr +:+ ", flags = 0x" +:+ hex (flags regs) +:+ nl.
Definition handler_fault (addr : string) (trapnr : Z) : Z * string :=
  (0, "fault_handler: p->addr = 0x" +:+ addr +:+ ", trap #" +:+ dec trapnr +:+ "n").

(** The handlers are called while the probe is planted.  [ret]: what register_kprobe
    answers. *)
Record probe := Probe { planted : bool; messages : list string }.
#[export] Instance probe_eta : Eta probe := fun s => Probe (planted s) (messages s).
Definition tell (t : string) (s : probe) : probe := s <| messages := messages s ++ [t] |>.
Definition kprobe_init (addr : string) (ret : Z) (s : probe) : Z * probe :=
  if ret <? 0 then (ret, tell ("register_kprobe failed, returned " +:+ dec ret +:+ nl) s)
  else (0, tell ("Planted kprobe at " +:+ addr +:+ nl) (s <| planted := true |>)).
Definition kprobe_exit (addr : string) (s : probe) : probe :=
  tell ("kprobe at " +:+ addr +:+ " unregistered" +:+ nl) (s <| planted := false |>).

(** The module stays loaded exactly when the probe is planted, and unloading takes it
    out. *)
Lemma kprobe_loads addr ret :
  let '(r, s) := kprobe_init addr ret (Probe false []) in
  (planted s = true ↔ r = 0) ∧ planted (kprobe_exit addr s) = false ∧ r ≤ 0.
Proof.
  unfold kprobe_init. destruct (Z.ltb_spec ret 0); cbn; [|split; [done|split; [done|lia]]].
  split; [split; [done|lia]|split; [done|lia]].
Qed.
