(* ===== verification/KThread.v ===== *)
(** * kthread/kthread.c and kmem/kmem.c: a thread, with and without slab caches

    Both modules start a kernel thread that runs until it is stopped or killed; in
    kmem.c it first creates two slab caches and an object of each, which unloading
    destroys.  Thread and module are one system ([caches] tells the two programs
    apart) whose steps interleave. *)

From S2P Require Import Prelude CLib.

(** Where the thread is: created and not run yet; at the calls that make the caches
    and the objects, and the tests behind them; in its loop; gone. *)
Inductive tpc :=
| Absent | Fresh | Create1 | Create2 | Test_caches | Alloc1 | Alloc2 | Test_obj
| Test | Print | Sleep | Signal | Stopping | Exited.
#[export] Instance tpc_eq : EqDecision tpc.
Proof. solve_decision. Defined.

(** What kthread_run returned; a failure is an ERR_PTR, which is not NULL. *)
Inductive ptr := Unset | Thread | ErrPtr.

(** Where the module is: before kthread_run, between its return and the assignment,
    loaded, at the calls of cleanup_thread, unloaded.  [Oops]: kthread_stop was
    called on a thread that is gone, or on no thread. *)
Inductive mpc := Init | Assign | Loaded | Free1 | Destroy1 | Free2 | Destroy2 | Stop | Wait | Unloaded | Oops.

(** A cache or an object behind its pointer: never made (NULL), there, or given
    back while the pointer stays. *)
Inductive thing := Null | Live | Dead.
#[export] Instance thing_eq : EqDecision thing.
Proof. solve_decision. Defined.

Record sys := Sys {
  pc : tpc; module : mpc; thread_st : ptr;
  stop : bool; killed : bool;
  test_kmem : thing; test_kmem1 : thing; obj1 : thing; obj2 : thing;
  log : list string;
  bad : bool;                (* a dead cache or a null pointer was used *)
}.
#[export] Instance sys_eta : Eta sys := fun s =>
  Sys (pc s) (module s) (thread_st s) (stop s) (killed s) (test_kmem s) (test_kmem1 s) (obj1 s) (obj2 s) (log s) (bad s).
Definition start : sys := Sys Absent Init Unset false false Null Null Null Null [] false.

Definition goes (p : tpc) (s : sys) : sys := s <| pc := p |>.
Definition at_ (m : mpc) (s : sys) : sys := s <| module := m |>.
Definition printk (t : string) (s : sys) : sys := s <| log := log s ++ [t] |>.
(** What an allocating call answers. *)
Definition made (ok : bool) : thing := if ok then Live else Null.
(** Allocating from a cache. *)
Definition from_cache (c : thing) (s : sys) : sys := match c with Live => s | _ => s <| bad := true |> end.

(** One step of thread_fn. *)
Inductive thread_step (caches : bool) (s : sys) : sys → Prop :=
| t_begin : pc s = Fresh → thread_step caches s (goes (if caches then Create1 else Test) s)
| t_never : pc s = Fresh → stop s = true → thread_step caches s (goes Exited s)
| t_create1 ok : pc s = Create1 → thread_step caches s (goes Create2 (s <| test_kmem := made ok |>))
| t_create2 ok : pc s = Create2 → thread_step caches s (goes Test_caches (s <| test_kmem1 := made ok |>))
| t_caches : pc s = Test_caches →
    thread_step caches s (goes (if decide (test_kmem s = Null ∨ test_kmem1 s = Null) then Exited else Alloc1) s)
| t_alloc1 ok : pc s = Alloc1 → thread_step caches s (goes Alloc2 (from_cache (test_kmem s) (s <| obj1 := made ok |>)))
| t_alloc2 ok : pc s = Alloc2 → thread_step caches s (goes Test_obj (from_cache (test_kmem1 s) (s <| obj2 := made ok |>)))
| t_obj : pc s = Test_obj →
    thread_step caches s (if decide (obj1 s = Null) then goes Exited s else goes Test (printk ("slab obj1 created" +:+ nl) s))
| t_test : pc s = Test → thread_step caches s (goes (if stop s then Stopping else Print) s)
| t_print : pc s = Print → thread_step caches s (goes Sleep (printk ("Thread Running" +:+ nl) s))
| t_sleep : pc s = Sleep → thread_step caches s (goes Signal s)
| t_signal : pc s = Signal →
    thread_step caches s (match thread_st s with
                          | Thread => goes (if killed s then Stopping else Test) s
                          | _ => s <| bad := true |>
                          end)
| t_exit : pc s = Stopping → thread_step caches s (goes Exited (printk ("Thread Stopping" +:+ nl) s)).

(** kmem_cache_free and kmem_cache_destroy on a pointer that is not NULL. *)
Definition free_obj (o : thing) : thing := match o with Null => Null | _ => Dead end.

(** kthread_stop, up to the wait: a thread that ended by itself is gone. *)
Definition kthread_stop (s : sys) : sys :=
  match thread_st s with
  | Thread => if decide (pc s = Exited) then at_ Oops s else at_ Wait (s <| stop := true |>)
  | _ => at_ Oops s
  end.

(** One step of init_thread or cleanup_thread. *)
Inductive module_step (caches : bool) (s : sys) : sys → Prop :=
| m_run (ok : bool) : module s = Init →
    module_step caches s (let s := printk ("Creating Thread" +:+ nl) s in
      if ok then at_ Assign (goes Fresh s)
      else at_ Loaded (printk ("Thread1 Created successfully" +:+ nl) (s <| thread_st := ErrPtr |>)))
| m_assign : module s = Assign →
    module_step caches s (at_ Loaded (printk ("Thread1 Created successfully" +:+ nl) (s <| thread_st := Thread |>)))
| m_unload : module s = Loaded →
    module_step caches s (at_ (if caches then Free1 else Stop) (printk ("Cleaning Up" +:+ nl) s))
| m_free1 : module s = Free1 → module_step caches s (at_ Destroy1 (s <| obj1 := free_obj (obj1 s) |>))
| m_destroy1 : module s = Destroy1 → module_step caches s (at_ Free2 (s <| test_kmem := free_obj (test_kmem s) |>))
| m_free2 : module s = Free2 → module_step caches s (at_ Destroy2 (s <| obj2 := free_obj (obj2 s) |>))
| m_destroy2 : module s = Destroy2 → module_step caches s (at_ Stop (s <| test_kmem1 := free_obj (test_kmem1 s) |>))
| m_stop : module s = Stop → module_step caches s (kthread_stop s)
| m_wait : module s = Wait → pc s = Exited →
    module_step caches s (at_ Unloaded (printk "Thread stopped" s)).

Inductive step (caches : bool) (s s' : sys) : Prop :=
| step_thread : thread_step caches s s' → step caches s s'
| step_module : module_step caches s s' → step caches s s'
| step_kill : s' = s <| killed := true |> → step caches s s'.
Definition reachable (caches : bool) : sys → Prop := rtc (step caches) start.

(** ** Unloading *)

(** Nobody killed the thread, and it could be created. *)
Definition calm (s : sys) : Prop := killed s = false ∧ thread_st s ≠ ErrPtr ∧ bad s = false.

Definition plain_pc (p : tpc) : bool :=
  match p with Create1 | Create2 | Test_caches | Alloc1 | Alloc2 | Test_obj => false | _ => true end.
Definition plain_module (m : mpc) : bool :=
  match m with Free1 | Destroy1 | Free2 | Destroy2 | Oops => false | _ => true end.

(** The pcs of kthread.c; without a kill only stopping ends the thread. *)
Record inv (s : sys) : Prop := Inv {
  inv_pc : plain_pc (pc s) = true;
  inv_stop : pc s = Stopping ∨ pc s = Exited → stop s = true;
  inv_flag : stop s = true → module s = Wait ∨ module s = Unloaded;
  inv_absent : pc s = Absent ↔ module s = Init;
  inv_set : thread_st s = Unset ↔ module s = Init ∨ module s = Assign;
  inv_module : plain_module (module s) = true;
  inv_wait : module s = Wait → stop s = true;
}.

(** kthread_run is called once. *)
Lemma unset_first caches s : reachable caches s → module s = Init ∨ module s = Assign → thread_st s = Unset.
Proof.
  intros H. unfold reachable in H.
  assert (module start = Init ∨ module start = Assign → thread_st start = Unset) as H0 by done.
  induction H as [|s1 s2 s3 Hs _ IH]; [done|]. apply IH. clear IH.
  destruct Hs as [H|H| ->]; [| |done].
  - destruct H; unfold from_cache; repeat case_match; repeat case_decide; cbn; intuition congruence.
  - destruct H; unfold kthread_stop; repeat case_match; repeat case_decide; cbn; try done; naive_solver.
Qed.

Lemma calm_back caches s s' :
  (module s = Init ∨ module s = Assign → thread_st s = Unset) → step caches s s' → calm s' → calm s.
Proof.
  intros H0 [H|H| ->]; unfold calm; [| |by intros [? _]].
  - destruct H; unfold from_cache; repeat case_match; repeat case_decide; cbn; intuition congruence.
  - destruct H; unfold kthread_stop; repeat case_match; repeat case_decide; cbn; intuition congruence.
Qed.

Lemma kthread_inv_step s s' : inv s → calm s → step false s s' → calm s' → inv s'.
Proof.
  intros [I1 I2 I3 I4 I5 I6 I7] (C1 & C2 & C3) Hs (C4 & C5 & C6).
  destruct Hs as [H|H| ->]; [| |done].
  - destruct H; destruct s as [p m t st k c1 c2 o1 o2 l b]; cbn in *; subst; try discriminate.
    all: try (destruct st); try (destruct t); split; cbn in *; try intuition congruence.
  - destruct H; destruct s as [p m t st k c1 c2 o1 o2 l b]; cbn in *; subst; try discriminate;
      unfold kthread_stop in *; cbn in *; try (destruct ok); try (destruct t); cbn in *; repeat case_decide; cbn in *.
    all: split; cbn in *; try intuition congruence.
Qed.

Lemma inv_calm s : reachable false s → calm s → inv s.
Proof.
  unfold reachable. revert s. apply (rtc_ind_r (fun s => calm s → inv s) start); [intros _; split; cbn; intuition congruence|].
  intros s1 s2 H Hs IH Hc. pose proof (calm_back false s1 s2 (unset_first false s1 H) Hs Hc) as Hc1.
  eapply kthread_inv_step; eauto.
Qed.

(** The thread gets to its end. *)
Definition ends (s : sys) : Prop :=
  stop s = true → thread_st s = Thread →
  ∃ s', rtc (step false) s s' ∧ pc s' = Exited ∧ module s' = module s.

Lemma ends_step s s' :
  thread_step false s s' → stop s' = stop s ∧ (thread_st s' = thread_st s) ∧ module s' = module s → ends s' → ends s.
Proof.
  intros Hs (E1 & E2 & E3) He H1 H2. destruct He as (t & Ht & Hp & Hm); [congruence..|].
  exists t. split; [eapply rtc_l; [by apply step_thread|done]|]. split; [done|congruence].
Qed.
Lemma ends_exited s : pc s = Exited → ends s.
Proof. intros H _ _. exists s. done. Qed.
Lemma ends_stopping s : pc s = Stopping → ends s.
Proof. intros H. eapply ends_step; [by apply t_exit|done|by apply ends_exited]. Qed.
Lemma ends_test s : pc s = Test → stop s = true → ends s.
Proof. intros H Hs. eapply ends_step; [by apply t_test|done|]. rewrite Hs. by apply ends_stopping. Qed.
Lemma ends_signal s : pc s = Signal → stop s = true → thread_st s = Thread → ends s.
Proof.
  intros H Hs Ht. pose proof (t_signal false s H) as Hst. rewrite Ht in Hst.
  eapply ends_step; [exact Hst|done|]. destruct (killed s); [by apply ends_stopping|by apply ends_test].
Qed.
Lemma ends_sleep s : pc s = Sleep → stop s = true → thread_st s = Thread → ends s.
Proof. intros H Hs Ht. eapply ends_step; [by apply t_sleep|done|by apply ends_signal]. Qed.
Lemma ends_print s : pc s = Print → stop s = true → thread_st s = Thread → ends s.
Proof. intros H Hs Ht. eapply ends_step; [by apply t_print|done|by apply ends_sleep]. Qed.
Lemma ends_fresh s : pc s = Fresh → stop s = true → ends s.
Proof. intros H Hs. eapply ends_step; [by apply t_never|done|by apply ends_exited]. Qed.

Lemma stopped_ends s : inv s → module s = Wait → thread_st s = Thread →
  ∃ s', rtc (step false) s s' ∧ module s' = Unloaded.
Proof.
  intros Hi Hm Ht. pose proof (inv_wait s Hi Hm) as Hs.
  assert (ends s) as He.
  { pose proof (inv_pc s Hi) as Hp. destruct (pc s) eqn:E; try done.
    - by apply (inv_absent s Hi) in E; congruence.
    - by apply ends_fresh.
    - by apply ends_test.
    - by apply ends_print.
    - by apply ends_sleep.
    - by apply ends_signal.
    - by apply ends_stopping.
    - by apply ends_exited. }
  destruct (He Hs Ht) as (s' & Hr & Hp & Hm'). eexists. split; [|].
  - eapply rtc_r; [exact Hr|]. apply step_module, m_wait; congruence.
  - done.
Qed.

(** Unloading goes on from a step of the module. *)
Definition unloads (s : sys) : Prop := ∃ s', rtc (step false) s s' ∧ module s' = Unloaded.

Lemma unloads_step s s' :
  inv s → calm s → module_step false s s' → calm s' → (inv s' → unloads s') → unloads s.
Proof.
  intros Hi Hc Hs Hc' Hk. assert (inv s') as Hi' by (eapply kthread_inv_step; eauto; by apply step_module).
  destruct (Hk Hi') as (t & Ht & Hm). exists t. split; [eapply rtc_l; [by apply step_module|done]|done].
Qed.

Lemma is_thread s : inv s → calm s → module s ≠ Init → module s ≠ Assign → thread_st s = Thread.
Proof.
  intros Hi (_ & H & _) H1 H2. destruct (thread_st s) eqn:E; [|done|done].
  apply (inv_set s Hi) in E as [E|E]; congruence.
Qed.

Lemma unloads_stop s : inv s → calm s → module s = Stop → unloads s.
Proof.
  intros Hi Hc Hm. pose proof (is_thread s Hi Hc) as Ht.
  assert (pc s ≠ Exited) as Hp.
  { intros E. assert (stop s = true) as X by (apply (inv_stop s Hi); by right).
    apply (inv_flag s Hi) in X as [X|X]; congruence. }
  assert (kthread_stop s = at_ Wait (s <| stop := true |>)) as E.
  { unfold kthread_stop. rewrite Ht, decide_False by congruence. done. }
  apply (unloads_step s (kthread_stop s)); [done|done|by apply m_stop|by rewrite E|]. rewrite E.
  intros Hi'. apply stopped_ends; [done|done|]. cbn. apply Ht; congruence.
Qed.
Lemma unloads_loaded s : inv s → calm s → module s = Loaded → unloads s.
Proof.
  intros Hi Hc Hm. eapply unloads_step; [done|done|by apply m_unload|exact Hc|].
  intros Hi'. by apply unloads_stop.
Qed.
Lemma unloads_assign s : inv s → calm s → module s = Assign → unloads s.
Proof.
  intros Hi (C1 & C2 & C3) Hm. eapply unloads_step; [done|done|by apply m_assign|done|].
  intros Hi'. by apply unloads_loaded.
Qed.
Lemma unloads_init s : inv s → calm s → module s = Init → unloads s.
Proof.
  intros Hi (C1 & C2 & C3) Hm. eapply unloads_step; [done|done|by apply (m_run false s true)|done|].
  intros Hi'. by apply unloads_assign.
Qed.

(** A thread of kthread.c that nobody kills is stopped by unloading: in every
    state reached the module has not called kthread_stop on a thread that is gone,
    the thread ends only when it is told to, and unloading can be completed. *)
Theorem kthread_unloads s :
  reachable false s → calm s → module s ≠ Oops ∧ (pc s = Exited → stop s = true)
  ∧ ∃ s', rtc (step false) s s' ∧ module s' = Unloaded.
Proof.
  intros Hr Hc. pose proof (inv_calm s Hr Hc) as Hi. pose proof (inv_module s Hi) as Hm.
  split; [by intros E; rewrite E in Hm|]. split; [intros E; apply (inv_stop s Hi); by right|].
  pose proof (is_thread s Hi Hc) as Ht. destruct (module s) eqn:E; try done.
  - by apply unloads_init.
  - by apply unloads_assign.
  - by apply unloads_loaded.
  - by apply unloads_stop.
  - by apply stopped_ends; auto.
  - by exists s.
Qed.

(** Follow a path of steps. *)
Ltac by_thread := eapply rtc_l; [apply step_thread|].
Ltac by_module := eapply rtc_l; [apply step_module|].

Definition running : sys :=
  goes Print (goes Test (at_ Loaded (printk ("Thread1 Created successfully" +:+ nl)
    ((at_ Assign (goes Fresh (printk ("Creating Thread" +:+ nl) start))) <| thread_st := Thread |>)))).
Lemma running_reachable : reachable false running.
Proof.
  by_module; [by apply (m_run false _ true)|]. by_module; [by apply m_assign|].
  by_thread; [by apply t_begin|]. by_thread; [by apply t_test|]. apply rtc_refl.
Qed.
Lemma kthread_unloads_witness :
  module running ≠ Oops ∧ ∃ s', rtc (step false) running s' ∧ module s' = Unloaded.
Proof.
  destruct (kthread_unloads running running_reachable) as (H1 & _ & H2); [by vm_compute|]. split; [exact H1|exact H2].
Defined.

(** ** What goes wrong *)

(** A thread that was killed is gone when it is stopped. *)
Lemma killed_thread_oops : ∃ s, reachable false s ∧ module s = Oops ∧ thread_st s = Thread.
Proof.
  eexists. split; [|split].
  - unfold reachable. etrans; [apply running_reachable|].
    eapply rtc_l; [by apply step_kill|]. by_thread; [by apply t_print|]. by_thread; [by apply t_sleep|].
    by_thread; [by apply t_signal|]. by_thread; [by apply t_exit|].
    by_module; [by apply m_unload|]. by_module; [by apply m_stop|]. apply rtc_refl.
  - done.
  - done.
Qed.

(** So is one that could not be created, which is not NULL. *)
Lemma failed_thread_oops : ∃ s, reachable false s ∧ module s = Oops ∧ thread_st s = ErrPtr.
Proof.
  eexists. split; [|split].
  - by_module; [by apply (m_run false _ false)|]. by_module; [by apply m_unload|].
    by_module; [by apply m_stop|]. apply rtc_refl.
  - done.
  - done.
Qed.

(** kmem.c destroys the caches while the thread runs: it may allocate from one that
    is gone. *)
Lemma cache_gone : ∃ s, reachable true s ∧ module s = Free2 ∧ bad s = true.
Proof.
  eexists. split; [|split].
  - by_module; [by apply (m_run true _ true)|]. by_module; [by apply m_assign|].
    by_thread; [by apply t_begin|]. by_thread; [by apply (t_create1 _ _ true)|]. by_thread; [by apply (t_create2 _ _ true)|].
    by_thread; [by apply t_caches|]. by_module; [by apply m_unload|]. by_module; [by apply m_free1|].
    by_module; [by apply m_destroy1|]. by_thread; [by apply (t_alloc1 _ _ true)|]. apply rtc_refl.
  - done.
  - done.
Qed.

(** When a cache could not be made the thread returns, and unloading stops a thread
    that is gone. *)
Lemma no_cache_oops : ∃ s, reachable true s ∧ module s = Oops ∧ test_kmem s = Null ∧ killed s = false.
Proof.
  eexists. split; [|split; [|split]].
  - by_module; [by apply (m_run true _ true)|]. by_module; [by apply m_assign|].
    by_thread; [by apply t_begin|]. by_thread; [by apply (t_create1 _ _ false)|]. by_thread; [by apply (t_create2 _ _ true)|].
    by_thread; [by apply t_caches|]. by_module; [by apply m_unload|]. by_module; [by apply m_free1|].
    by_module; [by apply m_destroy1|]. by_module; [by apply m_free2|]. by_module; [by apply m_destroy2|].
    by_module; [by apply m_stop|]. apply rtc_refl.
  - done.
  - done.
  - done.
Qed.
